(* ===== verification/_CoqProject ===== *)
-Q . S2P
Prelude.v
Effects.v
Wildcard.v
Apr.v
NatsConf.v
Services.v
World.v
Demo.v
Provision.v
WorkQueue.v
WorkQueueSpec.v
Postgres.v
Citus.v
PgRequest.v
PgMonitor.v
PgRequestSpec.v
Websocket.v
WsSpec.v
Nats.v
NatsConfSpec.v
NatsSpec.v
PgCluster.v
PgClusterSpec.v
RedisCluster.v
PredixyConf.v
RedisClusterSpec.v
KVRocks.v
KVRocksSpec.v
Mongo.v
MongoSpec.v
Zinc.v
Minio.v
MinioSpec.v
Rabbit.v
Sql.v
SqlSpec.v
Elastic.v
ElasticSpec.v
Dispatch.v
DispatchSpec.v
SystemBackup.v
SystemBackupSpec.v
MongoCluster.v
Backup.v
BackupSpec.v
JobWatch.v
MwServer.v
MwServerSpec.v
Base64.v
Crypto.v
CryptoSpec.v
VaultDb.v
VaultApi.v
Vault.v
VaultAdmin.v
VaultSpec.v
VaultSafety.v
VaultDemo.v
VaultMongo.v
Uploader.v
UploaderSpec.v
Controllers.v
Operator.v
Waiting.v
Events.v
EventsSpec.v
Watchers.v
Users.v
UsersSpec.v
Metrics.v
MetricsSpec.v
Corefile.v
CorefileSpec.v
CorefileEdit.v
