(* ===== verification/Prelude.v ===== *)
(** * TAPR: verification of the middleware operator, the WebSocket gateway, the
    watcher of system events, the vault's server and the image uploader

    The repository holds the system services of a personal cloud: an operator
    that provisions databases, queues and object stores for applications (the
    resource [MiddlewareRequest] and its controllers under
    src/cmd/middleware/operator) with its HTTP server (src/cmd/middleware/app), a
    WebSocket gateway (src/cmd/websocket, src/pkg/ws), a watcher of system events
    that also maintains the cluster's DNS (src/cmd/sys-event), a server of
    applications' secrets in front of Infisical (src/cmd/vault,
    src/pkg/vault/infisical), and an uploader of images (src/cmd/images).  This
    development models their handlers as they are written and proves what they do.

    ** How a handler is modelled

    [Effects] has programs as data: a [prog] returns, panics, or makes one call
    and goes on with the answer.  [Services] and [World] are the signature of the
    calls: Kubernetes, the generated clientset, the databases and queues, HTTP
    services, the operating system.  The surroundings are not modelled: [runs m tr
    out] says that with some answers the program [m] makes the calls [tr] and ends
    as [out], so a theorem about [runs] holds for every behaviour of the services,
    failures at any point included.  [wp] computes, for a monitor of the calls,
    what holds at the end of every run, and is sound and complete for [runs];
    [issues] bounds the calls a program can make, [survives] says that it cannot
    panic.  [exec] runs a program in a concrete world; the examples that apply the
    theorems use it ([Demo]).  Go's [(value, error)] is [res]; [let?] returns on
    error, [let!] does not; [with_defer] is [defer], also during a panic; a nil
    dereference, a failed type assertion and an index out of range are [Panic],
    which ends the process.  Logging is left out.

    Where goroutines interleave, the model is a step relation: [gw_step] of the
    gateway (connections, three queue routines and the expiry ticker over shared
    state, each lock region a step), [queue_step] of a controller's work queue
    (arrivals, the worker, delayed retries), of which [dispatch_step] and the
    other controllers are instances, [operator_step] of the eight controllers of
    one process (that they share nothing, and that a panic ends them all, is part
    of the step, as main.go and Go's runtime have it), and [group_step] of the
    flows of one system backup.

    ** The files, in their order

    - Shared: [Prelude] (Go's errors, results and string functions, lemmas on
      strings, lists and maps), [Effects] (programs, runs, monitors), [Wildcard]
      (patterns with stars), [Apr] (the custom resources of
      src/pkg/apis/apr/v1alpha1), [NatsConf] (the NATS configuration,
      src/pkg/workload/nats/conf.go), [Services] and [World] (the calls, and the
      control flow the handlers share: polling, retrying, password variables),
      [Demo] (concrete requests and worlds), [Provision] (what the request
      controller relies on of every request handler, as a class), [WorkQueue] and
      [WorkQueueSpec] (controller.go of every controller).
    - PostgreSQL: [Postgres] (src/pkg/postgres/client.go), [Citus]
      (src/pkg/workload/citus), [PgRequest] (handler_pg.go), [PgCluster]
      (pgcluster/handler.go); [PgMonitor] observes connections and statements, and
      [PgRequestSpec] and [PgClusterSpec] state the results against it.
    - The other requests: [Nats] (src/pkg/workload/nats/helper.go,
      handler_nats.go, controller_config.go), [RedisCluster] (predixy's
      configuration), [NatsConfSpec] and [PredixyConf] (readers of the two
      configuration files, for stating what is written into them), [KVRocks] (src/pkg/workload/kvrocks, redixcluster/handler.go,
      handler_redis.go), [Mongo] (src/pkg/mongo/client.go, handler_mdb.go),
      [Minio], [Rabbit], [Sql] (MariaDB and MySQL), [Elastic], each with its Spec
      file ([Rabbit] has its own theorems), and [Zinc], which nothing calls.
    - The controllers: [Dispatch] (middleware-request/handler.go and controller.go)
      and [DispatchSpec], [Backup] and [BackupSpec] (the four backup and restore
      handlers, over the class [JobResource] of their resources), [JobWatch]
      (watchJobDelete), [SystemBackup] and [SystemBackupSpec]
      (src/cmd/middleware/operator/backup), [MongoCluster] (Percona's cluster),
      [Controllers] (the instances of the queue), [Operator] (main.go), [Waiting]
      (how long each controller's handler can wait).
    - [MwServer] and [MwServerSpec]: the operator's HTTP server,
      src/cmd/middleware/app, and the checks of src/pkg/kubesphere.
    - The vault: [Base64], [Crypto] and [CryptoSpec] (the ciphers as a class with
      their laws in another), [VaultDb] (postgres.go), [VaultApi] (the clients of
      Infisical), [Vault] and [VaultAdmin] (init.go, token.go, controllers, routes),
      [VaultSpec], [VaultSafety], [VaultDemo], and [VaultMongo] (mongo.go).
    - [Uploader] and [UploaderSpec]: src/pkg/images, src/pkg/terminus.
    - The gateway: [Websocket] (src/pkg/ws, src/cmd/websocket/app), [WsSpec].
    - System events: [Events] and [EventsSpec] (callbacks, notifications and the
      subscribers), [Watchers] (informers and queue), [Users] and [UsersSpec],
      [Metrics] and [MetricsSpec], [Corefile] and [CorefileSpec] (regenerating the
      DNS configuration), [CorefileEdit] (editing one user's part).

    Definitions carry the names of the code; a loop body or a closure that the
    code leaves unnamed has a name of ours and is used where the code runs it, and
    a name used by two packages has the package's in front in one of them.

    ** What the theorems show

    - PostgreSQL: a request reported as provisioned is provisioned on every
      node; cleaning up drops every unrequested database of the role everywhere
      and no requested one; deletion removes databases and role from every
      node; no handler leaves a connection open, whatever fails.  A changed
      administrator is changed on every node; a scale-up prepares
      every new node, though for names that no request is provisioned under.
    - Redis: the exact commands of a request on kvrocks; what predixy's
      configuration, read back, says after publishing, that publishing forgets
      what was published before, and that a number sign in a password ends that.
      A restore deletes the data only after the backup was found and the
      cluster's own workload was scaled to zero and its pods were gone; forcing a
      backup never disturbs a running one; a wait ends with the first failure
      seen, and does not wait for backups that have not been started.
    - NATS: the subjects a user may use are its own and those others export to
      it; the configuration file, read back, is the one it was written for, and
      with a request its user is registered in it and nothing else changes.  MongoDB and RabbitMQ: the exact calls of provisioning and
      deletion, and the one MongoDB connection that can be left open.  MinIO and
      Elasticsearch: what the policy, the role, of a request lets its user reach.
      MariaDB and MySQL: what a request leaves on a server that treats the
      statements as documented, and that a deletion takes it back.
    - The controllers: no notification is lost or handled twice with success;
      without failures they are handled in order; an entry that cannot succeed is
      never dropped; a failed deletion keeps the worker; two runs that should not
      exist (a retry that undoes a deletion, a deletion that never ends); from
      every state whose entries can be handled the operator can finish them all,
      and then each was handled with success once; the longest that a handler can
      wait, exactly, for every controller but PostgreSQL's, which has no bound.
    - Backups: a job is reported ready only when it was seen to have succeeded, a
      restore reads the file its backup wrote, a system backup is reported
      successful only when both flows were, under every interleaving.
    - The gateway, under every interleaving: the table stays well formed and the
      queues bounded, a frame only reaches connections its message selects, the
      application hears of a connection opened, its messages and at most one
      close, and the ticker only removes idle connections.
    - The HTTP server: what needs an administrator gets one; a client is told the
      names that were provisioned; a cluster is only scaled up.
    - The vault: every call of the store uses a token signed for the header's user
      and a workspace of his; a secret is read back as it was written; the keys
      saved for a user open with his password; when two users share a workspace.
    - The uploader: a file is saved only for a verified user, directly in the
      upload directory, under a fresh name.
    - System events: the wizard's table, who is told of an activation, how far
      apart alarms are, what ends the watch of metrics, that a missed deletion
      ends the process.  DNS: what a regeneration writes for which users and
      shared entrances, into which of the three views, that regenerations do not accumulate, and the bounds and distinctness of the
      split addresses.

    ** Bounds and choices

    Polling is by ticks: [timeout / interval] of the code (600 for a pod, 1800
    for a backup, 300 for scaling, 3600 for a deletion, 720 for all backups) and
    the last look when the time is over; each tick may end the wait, so the bound is the most that can happen and
    every theorem about a wait covers giving up at any point.  A conflict is
    retried at most five times.  Loops that the code does not bound take their
    number of rounds as an argument and their theorems hold for every number: the
    vault's wait for its database ([connect]), the watch for a job's deletion, the
    role of zinc.  Everything else is structural recursion or a loop over a finite
    list, so every handler terminates for all answers by construction.  A map that
    the code ranges over is ranged over in an order the surroundings choose when
    the order can be observed ([RangeMap]), and in the order of [map_to_list] when
    it cannot.  Machine integers are [Z] with their wrap-around where it can occur
    ([byte], [uint32], [shift_one]); thresholds of metrics are binary floats.  MD5,
    the parser and printer of a Corefile, the ciphers and the format of a time are
    parameters; the laws assumed of the ciphers have instances.

    ** Not modelled

    Generated code (the clientset, informers, listers and deep copies; the
    clientset's calls are operations of [World]), entry points other than what
    [Operator] has of the operator's (flags, signals, the construction of clients
    and servers), and the types of other products, of which the fields that the
    program touches are in [Services] and [World].  Of what is modelled: shutting
    a queue down, re-creating the watches of users, the JSON of metric points and the answers of
    Prometheus before they are parsed, the parsing of bodies by fiber, the fields
    of Kubernetes' and the redis-cluster operator's resources that are only
    carried along, and templates whose types belong to Percona's operator.  The
    gateway's debug endpoint, which answers a constant, and the function that
    reads Kubesphere's configuration, which has no caller. *)

From stdpp Require Export base gmap sets list strings numbers option pretty.
From Stdlib Require Export ZArith Lia.
From Stdlib Require Export Ascii.

(** ** Go's [error] values

    An [error] carries its text and the one bit of identity the program ever
    asks about it: the predicate ([apierrors.IsNotFound], [errors.Is], ...)
    that recognises it. *)
Inductive ekind : Set :=
  | KPlain            (* errors.New, fmt.Errorf, any error never inspected *)
  | KNotFound         (* apierrors.IsNotFound *)
  | KConflict         (* apierrors.IsConflict *)
  | KNotExist         (* os.IsNotExist *)
  | KRedisNil         (* == redis.Nil *)
  | KNoDocuments      (* errors.Is _ mongo.ErrNoDocuments *)
  | KStreamInUse      (* errors.Is _ jetstream.ErrStreamNameAlreadyInUse *)
  | KStreamNotFound   (* errors.Is _ nats.ErrStreamNotFound *)
  | KTimeout.         (* wait.ErrWaitTimeout *)

Record gerr : Set := mkErr { err_kind : ekind; err_msg : string }.

#[export] Instance ekind_eq_dec : EqDecision ekind.
Proof. solve_decision. Defined.
#[export] Instance gerr_eq_dec : EqDecision gerr.
Proof. solve_decision. Defined.

(** [errors.New] and [fmt.Errorf]. *)
Definition newErr (msg : string) : gerr := mkErr KPlain msg.
Definition isKind (k : ekind) (e : gerr) : bool := bool_decide (err_kind e = k).
Definition IsNotFound (e : gerr) : bool := isKind KNotFound e.

(** ** A pair [(value, error)] of which one side is meaningful. *)
Inductive res (A : Type) : Type :=
  | Ok (a : A)
  | Err (e : gerr).
Arguments Ok {_} _.
Arguments Err {_} _.

Definition res_map {A B} (f : A -> B) (r : res A) : res B :=
  match r with Ok a => Ok (f a) | Err e => Err e end.
Definition is_ok {A} (r : res A) : bool := match r with Ok _ => true | Err _ => false end.
Definition res_err {A} (r : res A) : option gerr :=
  match r with Ok _ => None | Err e => Some e end.

#[export] Instance res_eq_dec {A} `{EqDecision A} : EqDecision (res A).
Proof. solve_decision. Defined.

(** ** Strings: the functions of Go's [strings], [strconv] and [fmt] the
    program uses. *)
Open Scope string_scope.
Open Scope list_scope.

Fixpoint has_prefix (p s : string) : bool :=
  match p, s with
  | EmptyString, _ => true
  | String a p', String b s' => Ascii.eqb a b && has_prefix p' s'
  | String _ _, EmptyString => false
  end.

Fixpoint drop_str (n : nat) (s : string) : string :=
  match n, s with
  | S n', String _ s' => drop_str n' s'
  | _, _ => s
  end.

(** The first bytes: [s[:n]], for an [n] within the string. *)
Fixpoint take_str (n : nat) (s : string) : string :=
  match n, s with
  | S n', String c s' => String c (take_str n' s')
  | _, _ => EmptyString
  end.

(** [strings.Repeat] of one byte. *)
Fixpoint repeat_char (c : Ascii.ascii) (n : nat) : string :=
  match n with O => EmptyString | S n' => String c (repeat_char c n') end.

(** [strings.HasSuffix]. *)
Fixpoint has_suffix (p s : string) : bool :=
  String.eqb p s ||
  match s with
  | EmptyString => false
  | String _ s' => has_suffix p s'
  end.

(** [strings.ReplaceAll] of one byte by another. *)
Fixpoint replace_char (a b : Ascii.ascii) (s : string) : string :=
  match s with
  | EmptyString => EmptyString
  | String c s' => String (if Ascii.eqb c a then b else c) (replace_char a b s')
  end.

(** [strings.ReplaceAll] of a non-empty substring: leftmost, non-overlapping.
    [skip] counts the bytes of the current match still to be dropped. *)
Fixpoint replace_all_go (old new : string) (skip : nat) (s : string) : string :=
  match s with
  | EmptyString => EmptyString
  | String c s' =>
      match skip with
      | S k => replace_all_go old new k s'
      | O => if has_prefix old s
             then new +:+ replace_all_go old new (String.length old - 1) s'
             else String c (replace_all_go old new O s')
      end
  end.
Definition replace_all (s old new : string) : string := replace_all_go old new O s.

(** [strings.Split] on a one-byte separator: always at least one piece. *)
Fixpoint split_char (sep : Ascii.ascii) (s : string) : list string :=
  match s with
  | EmptyString => [EmptyString]
  | String c s' =>
      if Ascii.eqb c sep then EmptyString :: split_char sep s'
      else match split_char sep s' with
           | [] => [String c EmptyString]
           | p :: ps => String c p :: ps
           end
  end.

(** [strings.Join]. *)
Fixpoint join (sep : string) (l : list string) : string :=
  match l with
  | [] => EmptyString
  | [s] => s
  | s :: l' => s +:+ sep +:+ join sep l'
  end.

(** [strconv.Itoa]: stdpp's decimal printer. *)
Definition itoa (z : Z) : string := pretty z.

(** A double quote, and text between two. *)
Definition dquote : string := String (Ascii.ascii_of_nat 34) "".
Definition quoted (s : string) : string := dquote +:+ s +:+ dquote.

(** [hex.EncodeToString], lower case. *)
Definition hex_digit (n : Z) : Ascii.ascii :=
  Ascii.ascii_of_nat (Z.to_nat (if (n <? 10)%Z then 48 + n else 87 + n)).
Fixpoint hex_encode (bytes : list Z) : string :=
  match bytes with
  | [] => ""
  | b :: bs => String (hex_digit (b / 16)) (String (hex_digit (b mod 16)) (hex_encode bs))
  end.

(** Is every byte of [s] in [P]?  Does the byte [c] occur in [s]? *)
Fixpoint all_chars (P : Ascii.ascii -> bool) (s : string) : bool :=
  match s with EmptyString => true | String c s' => P c && all_chars P s' end.
Fixpoint str_contains (c : Ascii.ascii) (s : string) : bool :=
  match s with
  | EmptyString => false
  | String d s' => Ascii.eqb c d || str_contains c s'
  end.

(** ** Lemmas on strings *)

(* stdpp keeps [append] folded; only the lemmas below compute through it *)
#[local] Arguments String.append !_ _ /.

Lemma string_app_assoc (a b c : string) : (a +:+ b) +:+ c = a +:+ (b +:+ c).
Proof. induction a as [|x a IH]; cbn; [done | by rewrite IH]. Qed.

Lemma string_app_nil_r (a : string) : a +:+ "" = a.
Proof. induction a as [|x a IH]; cbn; [done | by rewrite IH]. Qed.

Lemma string_app_inj_l (p a b : string) : p +:+ a = p +:+ b -> a = b.
Proof. induction p as [|x p IH]; cbn; [done | intros [= H]; auto]. Qed.

Lemma string_app_length (a b : string) :
  String.length (a +:+ b) = String.length a + String.length b.
Proof. induction a as [|x a IH]; cbn; [done | by rewrite IH]. Qed.

Lemma string_app_inj_r (a b s : string) : a +:+ s = b +:+ s -> a = b.
Proof.
  revert b. induction a as [|x a IH]; intros [|y b]; cbn; intros H.
  - done.
  - exfalso. apply (f_equal String.length) in H. cbn in H.
    rewrite string_app_length in H. lia.
  - exfalso. apply (f_equal String.length) in H. cbn in H.
    rewrite string_app_length in H. lia.
  - injection H as -> H. by rewrite (IH b H).
Qed.

Lemma str_contains_app (c : Ascii.ascii) (a b : string) :
  str_contains c (a +:+ b) = str_contains c a || str_contains c b.
Proof. induction a as [|x a IH]; cbn; [done | by rewrite IH, orb_assoc]. Qed.

Lemma has_prefix_spec (p s : string) :
  has_prefix p s = true <-> exists t, s = p +:+ t.
Proof.
  revert s. induction p as [|a p IH]; intros s; cbn.
  - split; [by exists s | done].
  - destruct s as [|b s].
    + split; [done | by intros [t [=]]].
    + rewrite andb_true_iff, IH, Ascii.eqb_eq. split.
      * intros [-> [t ->]]. by exists t.
      * intros [t [= -> ->]]. by eauto.
Qed.

Lemma has_prefix_app_l (a p s : string) : has_prefix (a +:+ p) (a +:+ s) = has_prefix p s.
Proof. induction a as [|c a IH]; [done|]. change (Ascii.eqb c c && has_prefix (a +:+ p) (a +:+ s) = has_prefix p s). by rewrite Ascii.eqb_refl. Qed.
Lemma has_prefix_self (p s : string) : has_prefix p (p +:+ s) = true.
Proof. apply has_prefix_spec. by exists s. Qed.
Lemma drop_str_app (p s : string) : drop_str (String.length p) (p +:+ s) = s.
Proof. by induction p. Qed.

Lemma take_str_app (p s : string) : take_str (String.length p) (p +:+ s) = p.
Proof. induction p as [|a p IH]; cbn; [by destruct s|]. change (String.append p s) with (p +:+ s). by rewrite IH. Qed.
Lemma take_drop_str (n : nat) (s : string) : take_str n s +:+ drop_str n s = s.
Proof.
  revert s. induction n as [|n IH]; intros s; [by destruct s|]. destruct s as [|c s]; [done|]. cbn.
  change (String.append ?a ?b) with (a +:+ b). by rewrite IH.
Qed.
Lemma take_str_length (n : nat) (s : string) : String.length (take_str n s) = Nat.min n (String.length s).
Proof. revert s. induction n as [|n IH]; intros s; [by destruct s|]. destruct s as [|c s]; [done|]. cbn. by rewrite IH. Qed.
Lemma take_str_all (n : nat) (s : string) : (String.length s <= n)%nat -> take_str n s = s.
Proof.
  revert s. induction n as [|n IH]; intros [|c s] H; cbn in *; try done; [lia|]. rewrite IH; [done|lia].
Qed.
Lemma repeat_char_length (c : Ascii.ascii) (n : nat) : String.length (repeat_char c n) = n.
Proof. induction n as [|n IH]; cbn; by rewrite ?IH. Qed.

Lemma has_suffix_spec (p s : string) :
  has_suffix p s = true <-> exists t, s = t +:+ p.
Proof.
  induction s as [|b s IH]; cbn; rewrite orb_true_iff, String.eqb_eq.
  - split.
    + intros [-> | [=]]. by exists "".
    + intros [[|x t] H]; [by left | discriminate].
  - rewrite IH. split.
    + intros [-> | [t ->]]; [by exists "" | by exists (String b t)].
    + intros [[|x t] H]; cbn in H; [by left|].
      injection H as -> ->. right. by exists t.
Qed.

Lemma replace_char_app (a b : Ascii.ascii) (s t : string) :
  replace_char a b (s +:+ t) = replace_char a b s +:+ replace_char a b t.
Proof. induction s as [|x s IH]; cbn; [done | by rewrite IH]. Qed.

Lemma replace_char_gone (a b : Ascii.ascii) (s : string) :
  a <> b -> str_contains a (replace_char a b s) = false.
Proof.
  intros Hab. induction s as [|x s IH]; cbn; [done|]. rewrite IH, orb_false_r.
  destruct (Ascii.eqb_spec x a) as [->|Hx].
  - by apply Ascii.eqb_neq.
  - apply Ascii.eqb_neq. congruence.
Qed.

Lemma replace_char_id (a b : Ascii.ascii) (s : string) :
  str_contains a s = false -> replace_char a b s = s.
Proof.
  induction s as [|x s IH]; cbn; [done|]. rewrite orb_false_iff.
  intros [Hx Hs]. rewrite IH by done.
  by rewrite Ascii.eqb_sym, Hx.
Qed.

Lemma split_char_nonempty (sep : Ascii.ascii) (s : string) : split_char sep s <> [].
Proof.
  destruct s as [|c s]; cbn; [done|].
  destruct (Ascii.eqb c sep); [done|]. by destruct (split_char sep s).
Qed.

Lemma join_cons (sep s : string) (l : list string) :
  l <> [] -> join sep (s :: l) = s +:+ sep +:+ join sep l.
Proof. by destruct l. Qed.

(** Splitting then joining gives the string back. *)
Lemma join_split_char (sep : Ascii.ascii) (s : string) :
  join (String sep "") (split_char sep s) = s.
Proof.
  induction s as [|c s IH]; cbn; [done|].
  destruct (Ascii.eqb_spec c sep) as [->|Hc].
  - rewrite join_cons by apply split_char_nonempty. by rewrite IH.
  - destruct (split_char sep s) as [|p ps] eqn:E; [by apply split_char_nonempty in E|].
    cbn. rewrite <- IH. by destruct ps.
Qed.

(** The pieces of a split hold no separator. *)
Lemma split_char_no_sep (sep : Ascii.ascii) (s : string) :
  Forall (fun p => str_contains sep p = false) (split_char sep s).
Proof.
  induction s as [|c s IH]; cbn; [by repeat constructor|].
  destruct (Ascii.eqb_spec c sep) as [->|Hc]; [by constructor|].
  destruct (split_char sep s) as [|p ps]; inversion IH as [|?? Hp Hps]; subst;
    constructor; cbn; try done.
  - rewrite orb_false_r. by apply Ascii.eqb_neq.
  - rewrite Hp, orb_false_r. by apply Ascii.eqb_neq.
Qed.

(** A separator-free piece followed by a separator is split off first. *)
Lemma split_char_app (sep : Ascii.ascii) (p s : string) :
  str_contains sep p = false ->
  split_char sep (p +:+ String sep s) = p :: split_char sep s.
Proof.
  induction p as [|c p IH]; cbn.
  - intros _. by rewrite Ascii.eqb_refl.
  - rewrite orb_false_iff. intros [Hc Hp]. rewrite Ascii.eqb_sym, Hc, (IH Hp). done.
Qed.

Lemma split_char_none (sep : Ascii.ascii) (s : string) :
  str_contains sep s = false -> split_char sep s = [s].
Proof.
  induction s as [|c s IH]; cbn; [done|]. rewrite orb_false_iff.
  intros [Hc Hs]. by rewrite Ascii.eqb_sym, Hc, (IH Hs).
Qed.

(** ** Lemmas on lists and maps *)

(** Iterating over a map and gathering what each entry gives. *)
Lemma elem_of_concat_map_to_list `{FinMap K M} {A B} (f : K -> A -> list B) (m : M A) (b : B) :
  b ∈ concat (map (fun '(k, a) => f k a) (map_to_list m)) <-> exists k a, m !! k = Some a /\ b ∈ f k a.
Proof.
  rewrite list_elem_of_In, in_concat. split.
  - intros (l & Hl & Hb). apply in_map_iff in Hl as ([k a] & <- & Hka).
    apply list_elem_of_In, elem_of_map_to_list in Hka. exists k, a. by rewrite list_elem_of_In.
  - intros (k & a & Hk & Hb). exists (f k a). rewrite in_map_iff, <- list_elem_of_In. split; [|done].
    exists (k, a). split; [done|]. by apply list_elem_of_In, elem_of_map_to_list.
Qed.

Lemma NoDup_app_snoc {A} (l : list A) (x : A) : NoDup l -> x ∉ l -> NoDup (l ++ [x]).
Proof.
  intros Hl Hx. apply NoDup_app. split; [done|]. split; [|apply NoDup_singleton].
  intros y Hy ->%list_elem_of_singleton. done.
Qed.

(** Where an element of an append lies. *)
Lemma app_cons_inv {A} (l1 l2 k1 k2 : list A) (x : A) :
  l1 ++ l2 = k1 ++ x :: k2 -> x ∈ l1 \/ exists k, k1 = l1 ++ k /\ l2 = k ++ x :: k2.
Proof.
  revert k1. induction l1 as [|y l1 IH]; intros k1 H; cbn in H; [right; by exists k1|].
  destruct k1 as [|z k1]; cbn in H; injection H as -> H; [left; left|].
  destruct (IH k1 H) as [Hx|(k & -> & ->)]; [left; by right|right; by exists k].
Qed.

Lemma list_filter_all {A} (P : A -> Prop) `{forall x, Decision (P x)} (l : list A) :
  Forall P l -> filter P l = l.
Proof. induction 1 as [|x l Hx Hl IH]; [done|]. by rewrite filter_cons_True, IH. Qed.

Lemma elem_of_concat_map {A B} (f : A -> list B) (l : list A) (b : B) :
  b ∈ concat (map f l) <-> exists a, a ∈ l /\ b ∈ f a.
Proof.
  rewrite list_elem_of_In, in_concat. setoid_rewrite in_map_iff. setoid_rewrite list_elem_of_In.
  naive_solver.
Qed.
