(* ===== verification/Effects.v ===== *)
(** * Programs that talk to their surroundings

    Handlers of this system are straight-line Go code over remote services.
    A [prog] is such code as data: a tree that either returns, panics, or
    performs one call and continues with the answer.  The answers are not
    modelled here: a theorem about [runs] holds for every answer the services
    can give; [exec] runs a program against a given implementation of them. *)

From S2P Require Import Prelude.

Section Programs.
Context {op : Type} {resp : op -> Type}.

Inductive prog (A : Type) : Type :=
  | Ret (a : A)
  | Panic (why : string)
  | Vis (o : op) (k : resp o -> prog A).
Arguments Ret {_} _.
Arguments Panic {_} _.
Arguments Vis {_} _ _.

Definition call (o : op) : prog (resp o) := Vis o Ret.

Fixpoint bind {A B} (m : prog A) (f : A -> prog B) : prog B :=
  match m with
  | Ret a => f a
  | Panic w => Panic w
  | Vis o k => Vis o (fun r => bind (k r) f)
  end.

(** [if err != nil { return err }] *)
Definition bind_ok {A B} (m : prog (res A)) (f : A -> prog (res B)) : prog (res B) :=
  bind m (fun r => match r with Ok a => f a | Err e => Ret (Err e) end).

(** [defer d()]: [d] runs when [m] returns and also while it panics. *)
Fixpoint with_defer {A} (d : prog unit) (m : prog A) : prog A :=
  match m with
  | Ret a => bind d (fun _ => Ret a)
  | Panic w => bind d (fun _ => Panic w)
  | Vis o k => Vis o (fun r => with_defer d (k r))
  end.

(** A deferred [d] where only a panic is left to it: the other ends see to it
    themselves. *)
Fixpoint on_panic {A} (d : prog unit) (m : prog A) : prog A :=
  match m with
  | Ret a => Ret a
  | Panic w => bind d (fun _ => Panic w)
  | Vis o k => Vis o (fun r => on_panic d (k r))
  end.

(** Dereferencing a Go pointer. *)
Definition deref {A} (p : option A) : prog A :=
  match p with Some a => Ret a | None => Panic "nil pointer dereference" end.

(** [for _, x := range l { if err := body(x); err != nil { return err } }] *)
Fixpoint for_each {A} (body : A -> prog (res unit)) (l : list A) : prog (res unit) :=
  match l with
  | [] => Ret (Ok tt)
  | x :: l' => bind_ok (body x) (fun _ => for_each body l')
  end.

(** The same with loop-carried variables. *)
Fixpoint fold_each {S A} (body : S -> A -> prog (res S)) (l : list A) (s : S) : prog (res S) :=
  match l with
  | [] => Ret (Ok s)
  | x :: l' => bind_ok (body s x) (fold_each body l')
  end.

(** A loop whose body never leaves it early. *)
Fixpoint fold_all {S A} (body : S -> A -> prog S) (l : list A) (s : S) : prog S :=
  match l with
  | [] => Ret s
  | x :: l' => bind (body s x) (fold_all body l')
  end.

(** ** What a program can do *)

Definition event : Type := sigT resp.
Definition ev (o : op) (r : resp o) : event := existT o r.

Inductive outcome (A : Type) : Type :=
  | Returned (a : A)
  | Panicked (why : string).
Arguments Returned {_} _.
Arguments Panicked {_} _.

(** [runs m tr out]: with some answers of the services, [m] makes the calls
    of [tr] in this order and ends as [out]. *)
Inductive runs {A} : prog A -> list event -> outcome A -> Prop :=
  | runs_ret a : runs (Ret a) [] (Returned a)
  | runs_panic w : runs (Panic w) [] (Panicked w)
  | runs_vis o k r tr out : runs (k r) tr out -> runs (Vis o k) (ev o r :: tr) out.

(** A monitor watches the calls of a program: [step] is its transition.
    [wp step m Q s]: with the monitor in state [s], whatever the answers,
    [m] ends with a monitor state and an outcome satisfying [Q]. *)
Fixpoint wp {S A} (step : S -> event -> S) (m : prog A) (Q : S -> outcome A -> Prop) (s : S)
  : Prop :=
  match m with
  | Ret a => Q s (Returned a)
  | Panic w => Q s (Panicked w)
  | Vis o k => forall r, wp step (k r) Q (step s (ev o r))
  end.

(** ** Running against an implementation of the services *)

Fixpoint exec {W A} (h : forall o, W -> resp o * W) (m : prog A) (w : W)
  : list event * outcome A * W :=
  match m with
  | Ret a => ([], Returned a, w)
  | Panic y => ([], Panicked y, w)
  | Vis o k =>
      let '(r, w1) := h o w in
      let '(tr, out, w2) := exec h (k r) w1 in
      (ev o r :: tr, out, w2)
  end.

(** ** Equations of the combinators *)

(** Inversion of [runs] by the head of the program (no axiom on equality of
    dependent pairs is needed this way). *)
Lemma runs_inv {A} (m : prog A) tr out :
  runs m tr out ->
  match m with
  | Ret a => tr = [] /\ out = Returned a
  | Panic w => tr = [] /\ out = Panicked w
  | Vis o k => exists r tr', tr = ev o r :: tr' /\ runs (k r) tr' out
  end.
Proof. destruct 1; eauto. Qed.

(** [P] holds of every call the program can make. *)
Fixpoint issues {A} (P : op -> Prop) (m : prog A) : Prop :=
  match m with
  | Vis o k => P o /\ forall r, issues P (k r)
  | _ => True
  end.

Section Monitor.
Context {S : Type} (step : S -> event -> S).
Implicit Types s : S.

Lemma wp_mono {A} (m : prog A) (Q R : S -> outcome A -> Prop) s :
  (forall s' x, Q s' x -> R s' x) -> wp step m Q s -> wp step m R s.
Proof. intros HQR. revert s. induction m; cbn; eauto. Qed.

Lemma wp_and {A} (m : prog A) (Q R : S -> outcome A -> Prop) s :
  wp step m Q s -> wp step m R s -> wp step m (fun s' x => Q s' x /\ R s' x) s.
Proof. revert s. induction m; cbn; eauto. Qed.

Lemma wp_bind {A B} (m : prog A) (f : A -> prog B) Q s :
  wp step (bind m f) Q s <->
  wp step m (fun s' x => match x with
                         | Returned a => wp step (f a) Q s'
                         | Panicked w => Q s' (Panicked w)
                         end) s.
Proof. revert s. induction m as [a|w|o k IH]; intros s; cbn; [done..|]. by setoid_rewrite IH. Qed.

Lemma wp_bind_ok {A B} (m : prog (res A)) (f : A -> prog (res B)) Q s :
  wp step (bind_ok m f) Q s <->
  wp step m (fun s' x => match x with
                         | Returned (Ok a) => wp step (f a) Q s'
                         | Returned (Err e) => Q s' (Returned (Err e))
                         | Panicked w => Q s' (Panicked w)
                         end) s.
Proof.
  unfold bind_ok. rewrite wp_bind.
  split; apply wp_mono; intros s' [[a|e]|w]; done.
Qed.

Lemma wp_with_defer {A} (d : prog unit) (m : prog A) Q s :
  wp step (with_defer d m) Q s <->
  wp step m (fun s' x => wp step d (fun s'' y => match y with
                                                 | Returned _ => Q s'' x
                                                 | Panicked w => Q s'' (Panicked w)
                                                 end) s') s.
Proof.
  revert s. induction m as [a|w|o k IH]; intros s; cbn.
  - rewrite wp_bind. split; apply wp_mono; intros s' [u|w']; done.
  - rewrite wp_bind. split; apply wp_mono; intros s' [u|w']; done.
  - by setoid_rewrite IH.
Qed.

(** Loop rule: an invariant on the monitor and on the part still to do. *)
Lemma wp_on_panic {A} (d : prog unit) (m : prog A) Q s :
  wp step (on_panic d m) Q s <->
  wp step m (fun s' x => match x with
                         | Returned a => Q s' x
                         | Panicked w => wp step d (fun s'' y => match y with
                                                                 | Returned _ => Q s'' x
                                                                 | Panicked w => Q s'' (Panicked w)
                                                                 end) s'
                         end) s.
Proof. revert s. induction m as [a|w|o k IH]; intros s; cbn; [done|by rewrite wp_bind|]. by setoid_rewrite IH. Qed.

Lemma wp_for_each {A} (body : A -> prog (res unit)) (I : list A -> S -> Prop)
    (Q : S -> outcome (res unit) -> Prop) :
  (forall x l s, I (x :: l) s ->
     wp step (body x) (fun s' y => match y with
                                   | Returned (Ok _) => I l s'
                                   | Returned (Err e) => Q s' (Returned (Err e))
                                   | Panicked w => Q s' (Panicked w)
                                   end) s) ->
  (forall s, I [] s -> Q s (Returned (Ok tt))) ->
  forall l s, I l s -> wp step (for_each body l) Q s.
Proof.
  intros Hbody Hend l. induction l as [|x l IH]; intros s HI; cbn; [auto|].
  rewrite wp_bind_ok. eapply wp_mono; [|by apply Hbody].
  intros s' [[u|e]|w]; auto.
Qed.

(** What every transition can only extend, every program extends. *)
Lemma wp_extend (R : S -> S -> Prop) `{!PreOrder R} {A} (m : prog A) Q s :
  (forall s' e, R s' (step s' e)) ->
  wp step m Q s -> wp step m (fun s' x => R s s' /\ Q s' x) s.
Proof.
  intros Hstep. revert s. induction m as [a|w|o k IH]; intros s; cbn;
    [intros H; split; [reflexivity|done]..|].
  intros H r. eapply wp_mono; [|by apply IH]. cbn.
  intros s' x [HR HQ]. split; [|done]. etransitivity; [apply Hstep | exact HR].
Qed.

(** The transformer is sound and complete for [runs]. *)
Lemma wp_runs {A} (m : prog A) Q s :
  wp step m Q s <-> forall tr out, runs m tr out -> Q (fold_left step tr s) out.
Proof.
  revert s. induction m as [a|w|o k IH]; intros s; cbn.
  - split; [intros H tr out Hr; by apply runs_inv in Hr as [-> ->]|].
    intros H. apply (H [] _). constructor.
  - split; [intros H tr out Hr; by apply runs_inv in Hr as [-> ->]|].
    intros H. apply (H [] _). constructor.
  - setoid_rewrite IH. split.
    + intros H tr out Hr. apply runs_inv in Hr as (r & tr' & -> & Hr). by apply H.
    + intros H r tr out Hr. apply (H (ev o r :: tr)). by constructor.
Qed.

(** A program that only makes calls keeping [I] keeps it. *)
Lemma wp_issues (I : S -> Prop) {A} (P : op -> Prop) (m : prog A) s :
  (forall s' o r, P o -> I s' -> I (step s' (ev o r))) ->
  issues P m -> I s -> wp step m (fun s' _ => I s') s.
Proof.
  intros Hstep. revert s. induction m as [a|w|o k IH]; intros s; cbn; [done..|].
  intros [Ho Hk] HI r. apply IH; auto.
Qed.
End Monitor.

(** ** Programs restricted in what they call *)

Lemma issues_runs {A} (P : op -> Prop) (m : prog A) :
  issues P m -> forall tr out, runs m tr out -> Forall (fun e => P (projT1 e)) tr.
Proof. intros Hi tr out Hr. induction Hr; constructor; firstorder. Qed.

Lemma issues_mono {A} (P R : op -> Prop) (m : prog A) :
  (forall o, P o -> R o) -> issues P m -> issues R m.
Proof. intros HPR. induction m; cbn; firstorder. Qed.

Lemma issues_ret {A} P (a : A) : issues P (Ret a).
Proof. done. Qed.
Lemma issues_call (P : op -> Prop) o : P o -> issues P (call o).
Proof. done. Qed.
Lemma issues_bind {A B} P (m : prog A) (f : A -> prog B) :
  issues P m -> (forall a, issues P (f a)) -> issues P (bind m f).
Proof. intros Hm Hf. induction m; cbn in *; firstorder. Qed.
Lemma issues_bind_ok {A B} P (m : prog (res A)) (f : A -> prog (res B)) :
  issues P m -> (forall a, issues P (f a)) -> issues P (bind_ok m f).
Proof. intros. apply issues_bind; [done|]. by intros [a|e]. Qed.
Lemma issues_with_defer {A} P d (m : prog A) :
  issues P d -> issues P m -> issues P (with_defer d m).
Proof.
  intros Hd Hm. induction m; cbn in *; [..|firstorder];
    by apply issues_bind.
Qed.
Lemma issues_on_panic {A} P d (m : prog A) :
  issues P d -> issues P m -> issues P (on_panic d m).
Proof.
  intros Hd Hm. induction m; cbn in *; [done|by apply issues_bind|firstorder].
Qed.
Lemma issues_deref {A} P (p : option A) : issues P (deref p).
Proof. by destruct p. Qed.
Lemma issues_for_each {A} P (body : A -> prog (res unit)) l :
  (forall x, x ∈ l -> issues P (body x)) -> issues P (for_each body l).
Proof.
  induction l as [|x l IH]; intros H; cbn; [done|].
  apply issues_bind_ok; [apply H; left|]. intros _. apply IH. intros y Hy. apply H. by right.
Qed.
Lemma issues_fold_all {S A} P (body : S -> A -> prog S) l s :
  (forall s x, issues P (body s x)) -> issues P (fold_all body l s).
Proof. intros H. revert s. induction l; intros s; cbn; [done|]. by apply issues_bind. Qed.

Lemma issues_fold_each {S A} P (body : S -> A -> prog (res S)) l s :
  (forall s x, issues P (body s x)) -> issues P (fold_each body l s).
Proof. intros H. revert s. induction l; intros s; cbn; [done|]. by apply issues_bind_ok. Qed.

(** ** Reasoning about the whole trace *)

Definition trace_step (h : list event) (e : event) : list event := h ++ [e].

Lemma fold_trace_step (tr h : list event) : fold_left trace_step tr h = h ++ tr.
Proof.
  revert h. induction tr as [|e tr IH]; intros h; cbn; [by rewrite app_nil_r|].
  rewrite IH. unfold trace_step. by rewrite <- app_assoc.
Qed.

Lemma wp_trace {A} (m : prog A) (Q : list event -> outcome A -> Prop) :
  wp trace_step m Q [] <-> forall tr out, runs m tr out -> Q tr out.
Proof. rewrite wp_runs. by setoid_rewrite fold_trace_step. Qed.

(** [P] holds of every call of a trace and of what came before it. *)
Definition always (P : list event -> event -> Prop) (tr : list event) : Prop :=
  forall tr1 e tr2, tr = tr1 ++ e :: tr2 -> P tr1 e.

Lemma always_nil P : always P [].
Proof. by intros [|??] ??. Qed.
Lemma always_snoc P tr e : always P (tr ++ [e]) <-> always P tr /\ P tr e.
Proof.
  split.
  - intros H. split; [|by apply (H tr e [])].
    intros tr1 e1 tr2 ->. apply (H tr1 e1 (tr2 ++ [e])). by rewrite <- app_assoc.
  - intros [H He] tr1 e1 tr2. destruct tr2 as [|e2 tr2 _] using rev_ind.
    + by intros [-> ->]%app_inj_tail.
    + rewrite app_comm_cons, app_assoc. intros [-> ->]%app_inj_tail. by apply (H tr1 e1 tr2).
Qed.

(** Calls that keep [P] whatever came before them. *)
Lemma wp_always_issues {A} (P : list event -> event -> Prop) (R : op -> Prop) (m : prog A) h :
  (forall h o r, R o -> P h (ev o r)) -> issues R m -> always P h ->
  wp trace_step m (fun h' _ => always P h') h.
Proof.
  intros HR Hm. apply (wp_issues trace_step (always P) R); [|done].
  intros h' o r Ho Hh. apply always_snoc. auto.
Qed.
Lemma wp_always_bind {A B} (P : list event -> event -> Prop) (m : prog A) (f : A -> prog B) h :
  wp trace_step m (fun h' _ => always P h') h ->
  (forall a h', always P h' -> wp trace_step (f a) (fun h'' _ => always P h'') h') ->
  wp trace_step (bind m f) (fun h' _ => always P h') h.
Proof.
  intros Hm Hf. rewrite wp_bind. eapply wp_mono; [|exact Hm]. intros h' [a|w] Hh'; [by apply Hf|done].
Qed.

(** ** Taking a run apart *)

Lemma runs_bind_inv {A B} (m : prog A) (f : A -> prog B) tr out :
  runs (bind m f) tr out ->
  (exists tr1 tr2 a, tr = tr1 ++ tr2 /\ runs m tr1 (Returned a) /\ runs (f a) tr2 out) \/
  (exists w, out = Panicked w /\ runs m tr (Panicked w)).
Proof.
  revert tr. induction m as [a|w|o k IH]; intros tr H; cbn in H.
  - left. exists [], tr, a. repeat split; [constructor|done].
  - apply runs_inv in H as [-> ->]. right. exists w. split; [done|constructor].
  - apply runs_inv in H as (r & tr' & -> & H).
    destruct (IH r tr' H) as [(tr1 & tr2 & a & -> & H1 & H2)|(w & -> & H1)].
    + left. exists (ev o r :: tr1), tr2, a. repeat split; [by constructor|done].
    + right. exists w. split; [done|by constructor].
Qed.

Lemma runs_bind_returned {A B} (m : prog A) (f : A -> prog B) tr b :
  runs (bind m f) tr (Returned b) ->
  exists tr1 tr2 a, tr = tr1 ++ tr2 /\ runs m tr1 (Returned a) /\ runs (f a) tr2 (Returned b).
Proof. by intros [H|(w & Hw & _)]%runs_bind_inv. Qed.

Lemma runs_bind_intro {A B} (m : prog A) (f : A -> prog B) tr1 a tr2 out :
  runs m tr1 (Returned a) -> runs (f a) tr2 out -> runs (bind m f) (tr1 ++ tr2) out.
Proof.
  revert tr1. induction m as [x|w|o k IH]; intros tr1 H Hf; apply runs_inv in H.
  - by destruct H as [-> [= <-]].
  - by destruct H as [_ [=]].
  - destruct H as (r & tr' & -> & H). cbn. constructor. by apply IH.
Qed.

Lemma runs_bind_ok_returned {A B} (m : prog (res A)) (f : A -> prog (res B)) tr b :
  runs (bind_ok m f) tr (Returned (Ok b)) ->
  exists tr1 tr2 a, tr = tr1 ++ tr2 /\ runs m tr1 (Returned (Ok a)) /\ runs (f a) tr2 (Returned (Ok b)).
Proof.
  intros (tr1 & tr2 & [a|e] & -> & H1 & H2)%runs_bind_returned; [by eauto 7|].
  by apply runs_inv in H2 as [_ H2].
Qed.

(** The first part succeeds, or its failure is the outcome. *)
Lemma runs_bind_ok_inv {A B} (m : prog (res A)) (f : A -> prog (res B)) tr out :
  runs (bind_ok m f) tr out ->
  (exists tr1 tr2 a, tr = tr1 ++ tr2 /\ runs m tr1 (Returned (Ok a)) /\ runs (f a) tr2 out) \/
  (exists out', runs m tr out' /\ (forall a, out' <> Returned (Ok a)) /\ forall b, out <> Returned (Ok b)).
Proof.
  intros [(tr1 & tr2 & [a|e] & -> & H1 & H2)|(w & -> & H)]%runs_bind_inv; [by left; eauto 7| |].
  - apply runs_inv in H2 as [-> ->]. right. rewrite app_nil_r. by exists (Returned (Err e)).
  - right. by exists (Panicked w).
Qed.

Lemma runs_defer_returned {A} (d : prog unit) (m : prog A) tr a :
  runs (with_defer d m) tr (Returned a) ->
  exists tr1 tr2, tr = tr1 ++ tr2 /\ runs m tr1 (Returned a) /\ runs d tr2 (Returned tt).
Proof.
  revert tr. induction m as [a'|w|o k IH]; intros tr H; cbn in H.
  - apply runs_bind_returned in H as (tr1 & tr2 & [] & -> & H1 & H2).
    apply runs_inv in H2 as [-> [= ->]]. exists [], tr1.
    rewrite app_nil_r. repeat split; [constructor|done].
  - apply runs_bind_returned in H as (tr1 & tr2 & [] & -> & H1 & H2). by apply runs_inv in H2 as [_ ?].
  - apply runs_inv in H as (r & tr' & -> & H). destruct (IH r tr' H) as (tr1 & tr2 & -> & H1 & H2).
    exists (ev o r :: tr1), tr2. repeat split; [by constructor|done].
Qed.

Lemma runs_call o tr x : runs (call o) tr (Returned x) -> tr = [ev o x].
Proof. intros (r & tr' & -> & (-> & [= ->])%runs_inv)%runs_inv. done. Qed.

Lemma runs_for_each_returned {A} (body : A -> prog (res unit)) l tr :
  runs (for_each body l) tr (Returned (Ok tt)) ->
  exists segs, tr = concat segs /\ Forall2 (fun x seg => runs (body x) seg (Returned (Ok tt))) l segs.
Proof.
  revert tr. induction l as [|x l IH]; intros tr H; cbn in H.
  - apply runs_inv in H as [-> _]. by exists [].
  - apply runs_bind_ok_returned in H as (tr1 & tr2 & [] & -> & H1 & H2).
    apply IH in H2 as (segs & -> & H2). exists (tr1 :: segs). split; [done|by constructor].
Qed.

Lemma runs_fold_all_cons {S A} (body : S -> A -> prog S) x l s tr out :
  runs (fold_all body (x :: l) s) tr (Returned out) ->
  exists tr1 tr2 s', tr = tr1 ++ tr2 /\ runs (body s x) tr1 (Returned s') /\
    runs (fold_all body l s') tr2 (Returned out).
Proof. apply runs_bind_returned. Qed.

Lemma exec_runs {W A} (h : forall o, W -> resp o * W) (m : prog A) w tr out w' :
  exec h m w = (tr, out, w') -> runs m tr out.
Proof.
  revert w tr out w'. induction m as [a|y|o k IH]; cbn; intros w tr out w' H; simplify_eq.
  - constructor.
  - constructor.
  - destruct (h o w) as [r w1]. destruct (exec h (k r) w1) as [[tr2 out2] w2] eqn:E.
    simplify_eq. constructor. by eapply IH.
Qed.

Lemma exec_bind {W A B} (h : forall o, W -> resp o * W) (m : prog A) (f : A -> prog B) w :
  exec h (bind m f) w =
  let '(tr, out, w') := exec h m w in
  match out with
  | Panicked y => (tr, Panicked y, w')
  | Returned a => let '(tr2, out2, w2) := exec h (f a) w' in (tr ++ tr2, out2, w2)
  end.
Proof.
  revert w. induction m as [a|y|o k IH]; cbn; intros w.
  - by destruct (exec h (f a) w) as [[??]?].
  - done.
  - destruct (h o w) as [r w1]. rewrite IH.
    destruct (exec h (k r) w1) as [[tr [a|y]] w2]; [|done].
    by destruct (exec h (f a) w2) as [[??]?].
Qed.
End Programs.

Arguments prog {op} resp A.
Arguments Ret {op resp A} _.
Arguments Panic {op resp A} _.
Arguments Vis {op resp A} _ _.
Arguments Returned {A} _.
Arguments Panicked {A} _.
Arguments event {op} resp.

Declare Scope prog_scope.
Delimit Scope prog_scope with prog.
Notation "'let!' x := m 'in' k" := (bind m (fun x => k))
  (at level 10, x pattern, m at level 100, k at level 200) : prog_scope.
Notation "'let?' x := m 'in' k" := (bind_ok m (fun x => k))
  (at level 10, x pattern, m at level 100, k at level 200) : prog_scope.
Notation "'do!' m ; k" := (bind m (fun _ => k))
  (at level 10, m at level 100, k at level 200) : prog_scope.
Notation "'do?' m ; k" := (bind_ok m (fun _ => k))
  (at level 10, m at level 100, k at level 200) : prog_scope.
Open Scope prog_scope.

(** The constant at the head of an application. *)
Ltac head_of m := lazymatch m with ?f _ => head_of f | _ => m end.

(** Taking apart [H : runs (call o) tr (Returned x)]. *)
Ltac call_inv H :=
  let r := fresh "r" in let tr' := fresh "tr'" in let H2 := fresh "H2" in
  apply runs_inv in H; destruct H as (r & tr' & -> & H2);
  apply runs_inv in H2; destruct H2 as [-> H2]; injection H2 as H2; subst r.
(** Of [H : runs (Ret a) tr (Returned b)]. *)
Ltac ret_inv H := apply runs_inv in H; destruct H as [-> H]; simplify_eq H; intros; subst.

Create HintDb issues discriminated.
#[export] Hint Constants Opaque : issues.
#[export] Hint Resolve issues_ret issues_call issues_bind issues_bind_ok issues_with_defer
  issues_deref issues_for_each issues_fold_all : issues.
