(* ===== verification/Wildcard.v ===== *)
(** * Patterns with wild cards

    A star stands for any text and a question mark for one character, as in the
    resources and actions of an S3 policy and the index names of an Elasticsearch
    role. *)

From S2P Require Import Prelude.

Fixpoint wild (p : string) : string -> bool :=
  match p with
  | EmptyString => fun s => String.eqb s ""
  | String c p' =>
      if Ascii.eqb "*"%char c then
        fix any (s : string) : bool :=
          wild p' s || match s with EmptyString => false | String _ s' => any s' end
      else fun s => match s with
                    | EmptyString => false
                    | String d s' => (Ascii.eqb "?"%char c || Ascii.eqb c d) && wild p' s'
                    end
  end.
Definition literal (s : string) : Prop := str_contains "*"%char s = false /\ str_contains "?"%char s = false.

Lemma literal_app p q : literal p -> literal q -> literal (p +:+ q).
Proof. unfold literal. rewrite !str_contains_app. intros [-> ->] [-> ->]. done. Qed.

Lemma wild_literal p s : literal p -> wild p s = String.eqb s p.
Proof.
  unfold literal. revert s. induction p as [|c p IH]; intros s [H1 H2]; [done|]. cbn -[Ascii.eqb] in *.
  apply orb_false_iff in H1 as [H1 H1']. apply orb_false_iff in H2 as [H2 H2'].
  rewrite H1. destruct s as [|d s]; [done|]. rewrite H2. cbn -[Ascii.eqb]. rewrite IH by done.
  rewrite Ascii.eqb_sym. by destruct (Ascii.eqb d c).
Qed.
Lemma wild_prefix p q s : literal p -> wild (p +:+ q) s = has_prefix p s && wild q (drop_str (String.length p) s).
Proof.
  unfold literal. revert s. induction p as [|c p IH]; intros s [H1 H2]; [by destruct s|].
  change (String c p +:+ q) with (String c (p +:+ q)). cbn -[Ascii.eqb String.append] in *.
  apply orb_false_iff in H1 as [H1 H1']. apply orb_false_iff in H2 as [H2 H2'].
  rewrite H1. destruct s as [|d s]; [done|]. rewrite H2. cbn -[Ascii.eqb]. rewrite IH by done. by rewrite andb_assoc.
Qed.
Lemma wild_star s : wild "*" s = true.
Proof. induction s as [|c s IH]; [done|]. cbn in *. by rewrite IH, ?orb_true_r. Qed.

(** ** Prefixes and a separator *)

Lemma has_prefix_cons a p d s : has_prefix (String a p) (String d s) = Ascii.eqb a d && has_prefix p s.
Proof. done. Qed.
Lemma str_contains_cons c d s : str_contains c (String d s) = Ascii.eqb c d || str_contains c s.
Proof. done. Qed.
Lemma str_lacks_cons c d s : str_contains c (String d s) = false -> Ascii.eqb c d = false /\ str_contains c s = false.
Proof. by rewrite str_contains_cons, orb_false_iff. Qed.
Lemma app_cons_string c s t : String c s +:+ t = String c (s +:+ t).
Proof. done. Qed.

Lemma has_prefix_sep c p b k : str_contains c p = false -> has_prefix p (b +:+ String c k) = has_prefix p b.
Proof.
  revert b. induction p as [|a p IH]; intros b H; [by destruct b|].
  rewrite str_contains_cons, orb_false_iff in H. destruct H as [Ha H].
  destruct b as [|d b]; [|by rewrite app_cons_string, !has_prefix_cons, IH].
  change ("" +:+ String c k) with (String c k). by rewrite has_prefix_cons, Ascii.eqb_sym, Ha.
Qed.
Lemma has_prefix_whole c p b k :
  str_contains c p = false -> str_contains c b = false ->
  has_prefix (p +:+ String c "") (b +:+ String c k) = String.eqb p b.
Proof.
  revert b. induction p as [|a p IH]; intros b Hp Hb; destruct b as [|d b];
    try apply str_lacks_cons in Hp; try apply str_lacks_cons in Hb; rewrite ?app_cons_string.
  - change ("" +:+ String c k) with (String c k). change ("" +:+ String c "") with (String c "").
    by rewrite has_prefix_cons, Ascii.eqb_refl.
  - change ("" +:+ String c "") with (String c ""). rewrite has_prefix_cons. by destruct Hb as [-> _].
  - change ("" +:+ String c k) with (String c k). rewrite has_prefix_cons, Ascii.eqb_sym. by destruct Hp as [-> _].
  - destruct Hp as [_ Hp], Hb as [_ Hb]. rewrite has_prefix_cons, IH by done.
    change (String.eqb (String a p) (String d b)) with (if Ascii.eqb a d then String.eqb p b else false).
    by destruct (Ascii.eqb a d).
Qed.


