(* ===== verification/Apr.v ===== *)
(** * The [apr.bytetrade.io/v1alpha1] API

    The custom resources of [src/pkg/apis/apr/v1alpha1].  Go string enums are
    inductive types where the code only compares them to their constants.  Two
    things are dropped: the [Status] of the resources whose status no code
    reads or writes, and records of a single [Name] field, which are that
    name.  Kubernetes' own types appear as far as the program reads or writes
    them. *)

From S2P Require Import Prelude.

(** ** Kubernetes' types, projected on the fields the program uses *)

Record ObjectMeta : Set := mkMeta {
  om_Name : string;
  om_Namespace : string;
  om_Labels : gmap string string;
  om_Annotations : gmap string string }.

(** [corev1.SecretKeySelector]. *)
Record SecretKeySelector : Set := mkSel { sel_Name : string; sel_Key : string }.

(** ** [types.go] *)

(** [*PasswordVarSource] holds a [*SecretKeySelector]: either may be nil. *)
Record PasswordVarSource : Set := { pvs_SecretKeyRef : option SecretKeySelector }.
Record PasswordVar : Set := mkPwd {
  pv_Value : string;
  pv_ValueFrom : option PasswordVarSource }.

Record PGClusterSpec : Set := mkPGClusterSpec {
  pgs_Replicas : Z;
  pgs_AdminUser : string;
  pgs_CitusImage : string;
  pgs_Password : PasswordVar;
  pgs_Owner : string;
  pgs_BackupStorage : string }.
Record PGCluster : Set := mkPGCluster { pgc_meta : ObjectMeta; pgc_Spec : PGClusterSpec }.

Record CitusDatabase : Set := mkCitusDatabase {
  cdb_Name : string;
  cdb_Extensions : list string;
  cdb_Scripts : list string;
  cdb_Distributed : option bool }.

(** [func (c *CitusDatabase) IsDistributed() bool] *)
Definition IsDistributed (c : CitusDatabase) : bool :=
  match cdb_Distributed c with Some b => b | None => false end.

Record MongoDatabase : Set := mkMongoDatabase { mdb_Name : string; mdb_Scripts : list string }.

Record Permission : Set := mkPermission {
  perm_AppName : string; perm_Pub : string; perm_Sub : string }.
Record Subject : Set := mkSubject {
  sub_Name : string; sub_Permission : Permission; sub_Export : list Permission }.
Record RefSubject : Set := mkRefSubject { rs_Name : string; rs_Perm : list string }.
Record Ref : Set := mkRef {
  ref_AppName : string; ref_AppNamespace : string; ref_Subjects : list RefSubject }.

Record Redis : Set := mkRedis { redis_Password : PasswordVar; redis_Namespace : string }.
Record MongoDB : Set := mkMongoDB {
  mongo_Password : PasswordVar; mongo_Databases : list MongoDatabase; mongo_User : string }.
Record PostgreSQL : Set := mkPostgreSQL {
  pg_Password : PasswordVar; pg_Databases : list CitusDatabase; pg_User : string }.
Record ZincIndexConfig : Set := { zic_Name : string; zic_Key : string; zic_Namespace : string }.
Record Zinc : Set := {
  zinc_User : string; zinc_Password : PasswordVar; zinc_Indexes : list ZincIndexConfig }.
Record Nats : Set := mkNats {
  nats_User : string; nats_Password : PasswordVar;
  nats_Subjects : list Subject; nats_Refs : list Ref }.
Record Minio : Set := {
  minio_User : string; minio_Password : PasswordVar;
  minio_Buckets : list string; minio_AllowNamespaceBuckets : bool }.
Record RabbitMQ : Set := {
  rabbit_User : string; rabbit_Password : PasswordVar; rabbit_Vhosts : list string }.
Record Elasticsearch : Set := {
  es_User : string; es_Password : PasswordVar;
  es_Indexes : list string; es_AllowNamespaceIndexes : bool }.
Record MariaDB : Set := {
  maria_User : string; maria_Password : PasswordVar; maria_Databases : list string }.
Record Mysql : Set := {
  mysql_User : string; mysql_Password : PasswordVar; mysql_Databases : list string }.

(** [MiddlewareType] is a string; [TypeOther] is any string that is none of
    the constants. *)
Inductive MiddlewareType : Set :=
  | TypePostgreSQL | TypeMongoDB | TypeRedis | TypeZinc | TypeNats | TypeMinio
  | TypeRabbitMQ | TypeElasticsearch | TypeMariaDB | TypeMysql | TypeOther (s : string).

#[export] Instance MiddlewareType_eq_dec : EqDecision MiddlewareType.
Proof. solve_decision. Defined.

Definition MiddlewareType_of_string (s : string) : MiddlewareType :=
  if String.eqb s "postgres" then TypePostgreSQL
  else if String.eqb s "mongodb" then TypeMongoDB
  else if String.eqb s "redis" then TypeRedis
  else if String.eqb s "zinc" then TypeZinc
  else if String.eqb s "nats" then TypeNats
  else if String.eqb s "minio" then TypeMinio
  else if String.eqb s "rabbitmq" then TypeRabbitMQ
  else if String.eqb s "elasticsearch" then TypeElasticsearch
  else if String.eqb s "mariadb" then TypeMariaDB
  else if String.eqb s "mysql" then TypeMysql
  else TypeOther s.

Record MiddlewareSpec : Set := mkMiddlewareSpec {
  ms_App : string;
  ms_AppNamespace : string;
  ms_Middleware : MiddlewareType;
  ms_Redis : Redis;
  ms_MongoDB : MongoDB;
  ms_PostgreSQL : PostgreSQL;
  ms_Zinc : Zinc;
  ms_Nats : Nats;
  ms_Minio : Minio;
  ms_RabbitMQ : RabbitMQ;
  ms_Elasticsearch : Elasticsearch;
  ms_MariaDB : MariaDB;
  ms_Mysql : Mysql }.

Record MiddlewareRequest : Set := mkMiddlewareRequest {
  mr_meta : ObjectMeta; mr_Spec : MiddlewareSpec }.
Definition mr_Name (r : MiddlewareRequest) : string := om_Name (mr_meta r).
Definition mr_Namespace (r : MiddlewareRequest) : string := om_Namespace (mr_meta r).

(** ** [redix.go] *)

Inductive RedixType : Set :=
  | RedisCluster | RedisServer | KVRocks | KVRocksCluster | RedixOther (s : string).
#[export] Instance RedixType_eq_dec : EqDecision RedixType.
Proof. solve_decision. Defined.

(** [Resources *corev1.ResourceRequirements] is only copied: an opaque token. *)
Record KVRocksSpec : Set := mkKVRocksSpec {
  kv_Password : PasswordVar;
  kv_Owner : string;
  kv_BackupStorage : option string;
  kv_Image : string;
  kv_ImagePullPolicy : string;
  kv_KVRocksConfig : gmap string string;
  kv_Resources : option string }.
Record RedixClusterSpec : Set := mkRedixClusterSpec {
  rxs_Type : RedixType; rxs_KVRocks : option KVRocksSpec }.
Record RedixCluster : Set := mkRedixCluster {
  rx_meta : ObjectMeta; rx_Spec : RedixClusterSpec }.

(** ** [backup_restore.go]: the states of a backup or restore job.  The two
    Go enums, [BackupState] and [RestoreState], have the same constants. *)

Inductive JobState : Set :=
  | StateNew | StateWaiting | StateRequested | StateRejected
  | StateRunning | StateError | StateReady.
#[export] Instance JobState_eq_dec : EqDecision JobState.
Proof. solve_decision. Defined.

(** Times are in seconds. *)
Record BackupStatus : Set := mkBackupStatus {
  bs_State : JobState;
  bs_StartAt : option Z;
  bs_CompletedAt : option Z;
  bs_Error : string;
  bs_BackupPath : string }.
Record RestoreStatus : Set := mkRestoreStatus {
  rst_State : JobState;
  rst_StartAt : option Z;
  rst_CompletedAt : option Z;
  rst_Error : string }.

(** [VolumeSpec *corev1.Volume]: the code only sets and copies its host path. *)
Record PGClusterBackup : Set := mkPGClusterBackup {
  pgb_meta : ObjectMeta;
  pgb_ClusterName : string;
  pgb_VolumeSpec : option string;
  pgb_Status : BackupStatus }.
Record PGClusterRestore : Set := mkPGClusterRestore {
  pgr_meta : ObjectMeta;
  pgr_ClusterName : string;
  pgr_BackupName : string;
  pgr_Status : RestoreStatus }.
Record KVRocksBackup : Set := mkKVRocksBackup {
  kvb_meta : ObjectMeta; kvb_ClusterName : string; kvb_Status : BackupStatus }.
Record KVRocksRestore : Set := mkKVRocksRestore {
  kvr_meta : ObjectMeta; kvr_ClusterName : string;
  kvr_BackupStorage : string; kvr_Status : RestoreStatus }.

(** ** [event.go] *)

Inductive EventType : Set :=
  | UserCreate | UserDelete | UserActive | UserLogin
  | AppInstall | AppUninstall | AppSuspend
  | MemoryHigh | CPUHigh | UserMemoryHigh | UserCPUHigh
  | RecommendInstall | RecommendUninstall | EventOther (s : string).
#[export] Instance EventType_eq_dec : EqDecision EventType.
Proof. solve_decision. Defined.

Record SysEventRegistry : Set := mkSysEventRegistry {
  ser_meta : ObjectMeta;
  ser_Type : string;
  ser_Event : EventType;
  ser_Callback : string }.
Definition Subscriber : string := "subscriber".
