(* ===== verification/NatsConf.v ===== *)
(** * The NATS server configuration: [src/pkg/workload/nats/types.go] and the
    rendering half of [conf.go]

    The file is read back by nats-server's own parser and [mapstructure],
    which are calls ([ParseNatsConf] of World.v); its text is produced by the
    template below. *)

From S2P Require Import Prelude.

Module NatsConf.

(** ** [types.go] *)

Record Permissions : Set := mkPermissions { Publish_Allow : list string; Subscribe_Allow : list string }.
Record User : Set := mkUser { Username : string; Password : string; UserPermissions : Permissions }.
Record Jetstream : Set := mkJetstream { MaxFileStore : Z; MaxMemoryStore : Z; StoreDir : string }.
Record Config : Set := mkConfig {
  HTTPPort : Z; ConfJetstream : Jetstream; Users : list User;
  Port : Z; PidFile : string; ServerName : string }.

#[export] Instance Permissions_eq_dec : EqDecision Permissions.
Proof. solve_decision. Defined.
#[export] Instance Jetstream_eq_dec : EqDecision Jetstream.
Proof. solve_decision. Defined.
#[export] Instance User_eq_dec : EqDecision User.
Proof. solve_decision. Defined.
#[export] Instance Config_eq_dec : EqDecision Config.
Proof. solve_decision. Defined.

Definition set_users (us : list User) (c : Config) : Config :=
  mkConfig (HTTPPort c) (ConfJetstream c) us (Port c) (PidFile c) (ServerName c).

(** ** [conf.go] *)

Definition dq : string := String (Ascii.ascii_of_nat 34) "".
Definition nl : string := String (Ascii.ascii_of_nat 10) "".
Definition quoted (s : string) : string := dq +:+ s +:+ dq.

(** A value starting with a dollar sign (a bcrypt hash or a variable) is left
    bare. *)
Definition quoteOrNot (s : string) : string :=
  if has_prefix "$2a" s then s
  else match s with
       | String c _ => if Ascii.eqb c "$"%char then s else quoted s
       | EmptyString => quoted s
       end.

Definition concat_str (l : list string) : string := join "" l.
(** One line of the template: indentation, then its pieces. *)
Definition line (indent : nat) (pieces : list string) : string :=
  nl +:+ concat_str (replicate indent " ") +:+ concat_str pieces.

Definition allow_list (subjects : list string) : string :=
  "[" +:+ join ", " (map quoted subjects) +:+ "]".

Definition render_user (i : nat) (u : User) : string :=
  concat_str
    [ (if Nat.eqb i 0 then "" else ",");
      line 8 ["{"];
      line 10 [quoted "user"; ": "; quoted (Username u); ","];
      line 10 [];
      (if String.eqb (Username u) "admin"
       then line 10 [quoted "password"; ": $ADMIN_PASSWORD,"]
       else line 10 [quoted "password"; ": "; quoteOrNot (Password u); ","]);
      line 10 [];
      line 10 [quoted "permissions"; ": {"];
      line 12 [quoted "publish"; ": {"];
      line 14 [quoted "allow"; ": "; allow_list (Publish_Allow (UserPermissions u))];
      line 12 ["},"];
      line 12 [quoted "subscribe"; ": {"];
      line 14 [quoted "allow"; ": "; allow_list (Subscribe_Allow (UserPermissions u))];
      line 12 ["}"];
      line 10 ["}"];
      line 8 ["}"] ].

Definition renderConfigFile (c : Config) : string :=
  concat_str
    ([ "{";
       line 2 [quoted "http_port"; ": "; itoa (HTTPPort c); ","];
       line 2 [quoted "jetstream"; ": {"];
       line 4 [quoted "max_file_store"; ": "; itoa (MaxFileStore (ConfJetstream c)); ","];
       line 4 [quoted "max_memory_store"; ": "; itoa (MaxMemoryStore (ConfJetstream c)); ","];
       line 4 [quoted "store_dir"; ": "; quoted (StoreDir (ConfJetstream c))];
       line 2 ["},"];
       line 2 [quoted "accounts"; ": {"];
       line 4 [quoted "terminus"; ": {"];
       line 6 [quoted "jetstream"; ": enabled,"];
       line 6 [quoted "users"; ": ["] ]
     ++ imap render_user (Users c) ++
     [ line 6 ["]"];
       line 4 ["}"];
       line 2 ["},"];
       line 2 [quoted "port"; ": "; itoa (Port c); ","];
       line 2 [quoted "pid_file"; ": "; quoted (PidFile c)];
       line 2 [quoted "server_name"; ": "; quoted (ServerName c)];
       line 0 ["}"] ]).
End NatsConf.
