(* ===== verification/Services.v ===== *)
(** * Services that one component of the program talks to

    The redis-cluster operator's resources and the system's backup resource,
    and the middlewares whose requests are served over their own clients:
    MinIO, RabbitMQ, Elasticsearch, MariaDB and MySQL; and what the event watcher,
    the middleware server and the vault need.  As in [World], one
    constructor per remote operation. *)

From S2P Require Import Prelude Apr.
From Stdlib Require Import SpecFloat.

(** ** Resources reached through the dynamic client *)

(** The redis-cluster operator's resources, projected on what the program reads
    or writes; [drc_rest] is the remainder, which is only carried along.  An
    [Init] may have no backup source. *)
Record DistributedRedisCluster : Set := mkDRC {
  drc_meta : ObjectMeta;
  drc_MasterSize : Z;
  drc_Init : option (option (string * string));        (* name, namespace *)
  drc_Status : string;
  drc_Reason : string;
  drc_Nodes : list string;
  drc_RestorePhase : string;
  drc_RestoreBackup : option string;
  drc_rest : string }.
Record RedisClusterBackup : Set := mkRCBackup {
  rcb_meta : ObjectMeta;
  rcb_RedisClusterName : string;
  rcb_HostPath : string;                                (* Spec.Local.HostPath.Path *)
  rcb_Phase : string;
  rcb_Reason : string }.
(** [pkg/backup]: the system's backup; its phases are pointers. *)
Record SysBackup : Set := mkSysBackup {
  sb_meta : ObjectMeta;
  sb_Phase : option string;
  sb_MiddleWarePhase : option string;
  sb_MiddleWareFailedMessage : option string;
  sb_rest : string }.

(** [GetDRC] answers in two stages, the object and its conversion; for the
    other operations a failing conversion is a failing call. *)
Inductive rc : Set :=
  | GetDRC (ns name : string)
  | UpdateDRC (ns : string) (c : DistributedRedisCluster)
  | UpdateDRCStatus (ns : string) (c : DistributedRedisCluster)
  | GetRCBackup (ns name : string)
  | ListRCBackups
  | CreateRCBackup (ns : string) (b : RedisClusterBackup)
  | DeleteRCBackup (ns name : string)
  | GetSysBackup (ns name : string)
  | UpdateSysBackup (ns : string) (b : SysBackup)
  | WatchSysBackups
  | WatchVeleroRestores
  | StopSysWatch (watch : nat)
  | GetMongoBackup (ns name : string).                  (* its status.pbmName *)
Definition resp_rc (o : rc) : Set :=
  match o with
  | GetDRC _ _ => res (res DistributedRedisCluster)
  | UpdateDRC _ _ | UpdateDRCStatus _ _ => res DistributedRedisCluster
  | GetRCBackup _ _ => res RedisClusterBackup
  | ListRCBackups => res (list RedisClusterBackup)
  | CreateRCBackup _ _ | DeleteRCBackup _ _ => res unit
  | GetSysBackup _ _ => res SysBackup
  | UpdateSysBackup _ _ => res unit
  | WatchSysBackups | WatchVeleroRestores => res nat
  | StopSysWatch _ => unit
  | GetMongoBackup _ _ => res string
  end.

(** ** Middlewares *)

(** An HTTP answer: its status code and its body. *)
Record HttpReply : Set := mkHttp { hr_Status : Z; hr_Body : string }.

(** An answer of Elasticsearch's client: its status code, and what the client's
    [IsError] and [String] make of it. *)
Record EsReply : Set := mkEsReply { er_StatusCode : Z; er_IsError : bool; er_String : string }.

(** A statement of an S3 policy; JSON allows one action or a list of them. *)
Inductive S3Action : Set := OneAction (a : string) | Actions (l : list string).
Record S3Statement : Set := mkStatement {
  st_Effect : string; st_Action : S3Action; st_Resource : list string }.
Record S3Policy : Set := mkPolicy { po_Version : string; po_Statement : list S3Statement }.

Inductive mw : Set :=
  (* minio-go and madmin-go; a listing is the channel's items *)
  | MinioNew (endpoint user password : string)
  | MadminNew (endpoint user password : string)
  | MakeBucket (conn : nat) (bucket : string)
  | BucketExists (conn : nat) (bucket : string)
  | ListBuckets (conn : nat)
  | RemoveBucket (conn : nat) (bucket : string)
  | ListObjects (conn : nat) (bucket : string)
  | RemoveObject (conn : nat) (bucket key : string)
  | AddUser (conn : nat) (user password : string)
  | ListMinioUsers (conn : nat)
  | RemoveUser (conn : nat) (user : string)
  | AddCannedPolicy (conn : nat) (name : string) (policy : S3Policy)
  | SetPolicy (conn : nat) (name user : string)
  | RemoveCannedPolicy (conn : nat) (name : string)
  (* rabbit-hole *)
  | RabbitNew (endpoint user password : string)
  | PutUser (conn : nat) (user password : string)
  | PutVhost (conn : nat) (vhost : string)
  | UpdatePermissionsIn (conn : nat) (vhost user configure write read : string)
  | ClearPermissionsIn (conn : nat) (vhost user : string)
  | DeleteRabbitUser (conn : nat) (user : string)
  | DeleteVhost (conn : nat) (vhost : string)
  (* go-elasticsearch *)
  | ElasticNew (endpoint user password : string)
  | IndicesExists (conn : nat) (index : string)
  | IndicesCreate (conn : nat) (index : string)
  | IndicesDelete (conn : nat) (index : string)
  | CatIndices (conn : nat) (pattern : string)          (* and the names in its body *)
  | SecurityPutRole (conn : nat) (role body : string)
  | SecurityDeleteRole (conn : nat) (role : string)
  | SecurityPutUser (conn : nat) (user body : string)
  | SecurityDeleteUser (conn : nat) (user : string)
  (* database/sql with the MySQL driver *)
  | SqlOpen (dsn : string)
  | SqlExec (conn : nat) (statement : string)
  | SqlClose (conn : nat).
Definition resp_mw (o : mw) : Set :=
  match o with
  | MinioNew _ _ _ | MadminNew _ _ _ | RabbitNew _ _ _ | ElasticNew _ _ _ | SqlOpen _ => res nat
  | MakeBucket _ _ | RemoveBucket _ _ | RemoveObject _ _ _ | AddUser _ _ _ | RemoveUser _ _
  | AddCannedPolicy _ _ _ | SetPolicy _ _ _ | RemoveCannedPolicy _ _ | SqlExec _ _ => res unit
  | BucketExists _ _ => res bool
  | ListBuckets _ | ListMinioUsers _ => res (list string)
  | ListObjects _ _ => list (res string)
  | PutUser _ _ _ | PutVhost _ _ | UpdatePermissionsIn _ _ _ _ _ _ | ClearPermissionsIn _ _ _
  | DeleteRabbitUser _ _ | DeleteVhost _ _ => res HttpReply
  | IndicesExists _ _ | IndicesCreate _ _ | IndicesDelete _ _ | SecurityPutRole _ _ _
  | SecurityDeleteRole _ _ | SecurityPutUser _ _ _ | SecurityDeleteUser _ _ => res EsReply
  | CatIndices _ _ => res (EsReply * res (list string))
  | SqlClose _ => unit
  end.

(** ** What the event watcher talks to *)

(** Go's [float64], by its specification. *)
Definition float64 : Set := spec_float.
(** A body before [encoding/json]; [JAny] is a value that is only passed on. *)
Inductive json : Set :=
  | JNull
  | JStr (s : string)
  | JInt (z : Z)
  | JNum (f : float64)
  | JList (l : list json)
  | JObj (fields : list (string * json))
  | JAny (text : string).
(** An answer of the event server: status and text, and the code, the message and
    the token that its body is decoded to. *)
Record EventReply : Set := mkEventReply {
  pr_Status : Z; pr_Body : string; pr_Code : Z; pr_Message : string; pr_Token : string }.

Inductive evt : Set :=
  | NowNano                                              (* time.Now, in nanoseconds *)
  | GetAppPermission (ns name : string)                  (* its key and secret *)
  | PostEvent (url : string) (headers : list (string * string)) (body : json)
  | ListRegistries
  | PostCallback (timeout : Z) (url : string) (body : json)   (* the status *)
  | ListCronWorkflows (ns : string)                      (* the labels of each, may be nil *)
  | PromQuery (expr : string)                            (* labels, timestamp, value *)
  | Arrival (l : list string).                           (* the order in which goroutines end *)
Definition resp_evt (o : evt) : Set :=
  match o with
  | NowNano => Z
  | GetAppPermission _ _ => res (string * string)
  | PostEvent _ _ _ => res EventReply
  | ListRegistries => res (list SysEventRegistry)
  | PostCallback _ _ _ => res Z
  | ListCronWorkflows _ => res (list (option (gmap string string)))
  | PromQuery _ => res (list (gmap string string * (float64 * float64)))
  | Arrival _ => list string
  end.

(** ** What the middleware server talks to

    Its listers read the informers' caches.  A KubeBlocks cluster of the
    controller-runtime client, with the replicas of its components; Percona's
    MongoDB cluster, with the size of its replica sets (whose pointers may be
    nil); a user of Kubesphere, read in two stages, the object's annotations and
    its conversion, here to the email; the named ports of a service. *)
Record KbListed : Set := mkKbListed {
  kl_Name : string; kl_Namespace : string; kl_Labels : option (gmap string string); kl_Replicas : list Z }.
Record PSMDB : Set := mkPSMDB { ps_Name : string; ps_Replsets : list (option Z); ps_rest : string }.
Record KsUserObj : Set := mkKsUserObj { kso_Annotations : gmap string string; kso_Email : res string }.

(** BFL's policies of an application's entrances: the answers of its two calls. *)
Record SubPolicy : Set := mkSubPolicy { sp_URI : string; sp_Policy : string; sp_OneTime : bool; sp_Duration : Z }.
Record SettingsPolicy : Set := mkSettingsPolicy {
  st_DefaultPolicy : string; st_SubPolicies : list SubPolicy; st_OneTime : bool; st_Duration : Z }.
Record BflReply (A : Set) : Set := mkBflReply { bfl_Status : Z; bfl_Body : string; bfl_Code : Z; bfl_Message : string; bfl_Data : A }.
(** What is verified of a token, once its key is known. *)
Record UserClaims : Set := mkUserClaims { ucl_Username : string; ucl_Valid : bool }.

Inductive srv : Set :=
  | LookupRedixClusters
  | LookupPGClusters
  | ListKbClusters
  | GetServicePorts (ns name : string)
  | GetPSMDB (ns name : string)
  | UpdatePSMDB (ns : string) (c : PSMDB)
  | UpdatePGCluster (ns : string) (c : PGCluster)
  | GetKsUser (name : string)
  | JwtMethod (token : string)                      (* is its method an HMAC, and the method's name *)
  | JwtVerify (token key : string)
  | SaveFile (path : string)
  | GetPolicies (url token : string)                (* a policy may be null *)
  | PostPolicy (url token : string) (p : SettingsPolicy).
Definition resp_srv (o : srv) : Set :=
  match o with
  | LookupRedixClusters => res (list RedixCluster)
  | LookupPGClusters => res (list PGCluster)
  | ListKbClusters => res (list KbListed)
  | GetServicePorts _ _ => res (list (string * Z))
  | GetPSMDB _ _ => res (res PSMDB)
  | UpdatePSMDB _ _ | UpdatePGCluster _ _ => res unit
  | GetKsUser _ => res KsUserObj
  | JwtMethod _ => res (bool * string)
  | JwtVerify _ _ => res UserClaims
  | SaveFile _ => res unit
  | GetPolicies _ _ => res (BflReply (gmap string (option SettingsPolicy)))
  | PostPolicy _ _ _ => res (BflReply unit)
  end.

(** ** What the vault talks to

    Infisical's database: the rows the program reads and writes.  [None] is a
    nil pointer; times are in seconds. *)
Record UserEncryptionKeysPG : Set := mkUserKeys {
  uk_ID : option string; uk_ClientPublicKey : string; uk_ServerPrivateKey : string; uk_EncryptionVersion : Z;
  uk_ProtectedKey : string; uk_ProtectedKeyIV : string; uk_ProtectedKeyTag : string; uk_PublicKey : string;
  uk_EncryptedPrivateKey : string; uk_IV : string; uk_Tag : string; uk_Salt : string; uk_Verifier : string;
  uk_UserID : string; uk_OrgId : option string }.
Record AuthTokenSessionsPG : Set := mkSession {
  ts_ID : option string; ts_IP : string; ts_UserAgent : option string; ts_RefreshVersion : Z; ts_AccessVersion : Z;
  ts_UserId : string; ts_LastUsed : Z }.
Record OrganizationsPG : Set := mkOrg { og_ID : option string; og_Name : string }.
(** A value of a named statement's argument. *)
Inductive sqlval : Set := SqlStr (s : string) | SqlInt (z : Z) | SqlBool (b : bool).
(** What a query selects. *)
Inductive selected : Set := UserRow | SessionRow | OrgRow.
Definition row (s : selected) : Set :=
  match s with UserRow => UserEncryptionKeysPG | SessionRow => AuthTokenSessionsPG | OrgRow => OrganizationsPG end.

(** Infisical's API: what the body of an answer is decoded to, by what the call
    asks the HTTP client to decode.  A field of a secret may be of any type, and
    a list may hold null. *)
Record EncryptedKey : Set := mkEncryptedKey { ek_Encryptedkey : string; ek_Nonce : string; ek_SenderPublicKey : string }.
Inductive decoded : Set := OrganizationIds | WorkspaceList | ProjectOf | KeyOf | SecretOf | SecretList | Nothing.
Definition decoded_to (d : decoded) : Set :=
  match d with
  | OrganizationIds => list string
  | WorkspaceList => list (string * string)                 (* id, name *)
  | ProjectOf => option (string * string)
  | KeyOf => EncryptedKey
  | SecretOf => gmap string json
  | SecretList => list (option (gmap string json))
  | Nothing => unit
  end.
Record InfReply (d : decoded) : Set := mkInfReply { if_Status : Z; if_Body : string; if_Result : decoded_to d }.
Record TokenClaims : Set := mkClaims {
  tc_UserId : string; tc_AuthTokenType : string; tc_TokenVersionId : string; tc_AccessVersion : option Z;
  tc_RefreshVersion : option Z; tc_OrganizationId : string; tc_AuthMethod : string; tc_IssuedAt : Z; tc_ExpiresAt : Z }.
Record PermissionRequire : Set := mkPermReq { pq_Group : string; pq_DataType : string; pq_Version : string; pq_Ops : list string }.
Record AppPermission : Set := mkAppPermission { ap_App : string; ap_Permission : list PermissionRequire }.

Inductive vt : Set :=
  | BoxGenerateKey                                          (* public and private key *)
  | Jsrp (owner password : string)                          (* what the node script prints *)
  | NewUuid
  | JwtSign (claims : TokenClaims) (key : string)
  | InfConnect (dsn : string)
  | InfClose (conn : nat)
  | InfExec (conn : nat) (sql : string)
  | InfNamedExec (conn : nat) (sql : string) (arg : list (string * sqlval))
  | InfQuery (s : selected) (conn : nat) (sql : string) (arg : list (string * string))   (* its first row, if any *)
  | Infisical (d : decoded) (method url token : string) (query : list (string * string)) (body : option json)
  | ListAppPermissions (ns : string).
Definition resp_vt (o : vt) : Set :=
  match o with
  | BoxGenerateKey => res (string * string)
  | Jsrp _ _ => res string
  | NewUuid => string
  | JwtSign _ _ => res string
  | InfConnect _ => res nat
  | InfClose _ => unit
  | InfExec _ _ | InfNamedExec _ _ _ => res unit
  | InfQuery s _ _ _ => res (option (res (row s)))
  | Infisical d _ _ _ _ _ => res (InfReply d)
  | ListAppPermissions _ => res (list (res AppPermission))
  end.

(** ** What only code without a caller talks to

    Percona's operator: the status of its cluster (the routers' is a pointer; a
    replica set has a number of ready members), and its backups and restores,
    with their state, one of the operator's constants.  Each is read in two
    stages, the object and its conversion.  The users Infisical once kept in
    MongoDB; the identifier an insertion answers is of any type, and [None] when it
    is not an ObjectID.  And zinc. *)
Inductive PsmdbState : Set :=
  | PsNew | PsWaiting | PsRequested | PsRejected | PsRunning | PsError | PsReady | PsOther (s : string).
Record PsmdbStatus : Set := mkPsmdbStatus {
  pt_MongosReady : option bool; pt_Replsets : list (string * Z) }.
Record PsmdbJob : Set := mkPsmdbJob {
  pj_meta : ObjectMeta; pj_State : PsmdbState; pj_Error : string; pj_rest : string }.
Record UserMDB : Set := mkUserMDB {
  um_ID : string; um_Email : string; um_FirstName : string; um_LastName : string; um_EncryptionVersion : Z;
  um_ProtectedKey : string; um_ProtectedKeyIV : string; um_ProtectedKeyTag : string; um_PublicKey : string;
  um_EncryptedPrivateKey : string; um_IV : string; um_Tag : string; um_Salt : string; um_Verifier : string;
  um_RefreshVersion : Z; um_IsMfaEnabled : bool; um_MfaMethods : list string }.
Inductive MdbDoc : Set :=
  | UserDoc (u : UserMDB)
  | OrganizationMDB (name : string)
  | MembershipOrgMDB (organization user role status : string).

Inductive un : Set :=
  | GetPsmdbStatus (ns name : string)
  | GetPsmdbBackup (ns name : string)
  | ListPsmdbBackups
  | DeletePsmdbBackup (ns name : string)
  | CreatePsmdbBackup (ns : string) (b : PsmdbJob)
  | GetPsmdbRestore (ns name : string)
  | ListPsmdbRestores
  | DeletePsmdbRestore (ns name : string)
  | CreatePsmdbRestore (ns : string) (r : PsmdbJob)
  | MdbConnect (dsn : string)
  | MdbPing (conn : nat)
  | MdbDisconnect (conn : nat)
  | MdbFindUser (conn : nat) (db email : string)
  | MdbInsertOne (conn : nat) (db collection : string) (doc : MdbDoc)
  | ZincHttp (method url user pwd : string) (body : option json).
Definition resp_un (o : un) : Set :=
  match o with
  | GetPsmdbStatus _ _ => res (res PsmdbStatus)
  | GetPsmdbBackup _ _ | GetPsmdbRestore _ _ => res (res PsmdbJob)
  | ListPsmdbBackups | ListPsmdbRestores => res (list (res PsmdbJob))
  | DeletePsmdbBackup _ _ | CreatePsmdbBackup _ _ | DeletePsmdbRestore _ _ | CreatePsmdbRestore _ _ => res unit
  | MdbConnect _ => res nat
  | MdbPing _ => res unit
  | MdbDisconnect _ => unit
  | MdbFindUser _ _ _ => res (res UserMDB)
  | MdbInsertOne _ _ _ _ => res (option string)
  | ZincHttp _ _ _ _ _ => res HttpReply
  end.

Inductive ext : Set :=
  Rc (o : rc) | Mw (o : mw) | Evt (o : evt) | Srv (o : srv) | Vt (o : vt) | Un (o : un).
Definition resp_ext (o : ext) : Set :=
  match o with
  | Rc o => resp_rc o | Mw o => resp_mw o | Evt o => resp_evt o | Srv o => resp_srv o | Vt o => resp_vt o
  | Un o => resp_un o
  end.

(** When nothing answers. *)
Definition unavailable_ext (e : gerr) (o : ext) : resp_ext o :=
  match o with
  | Rc o => match o with
            | GetDRC _ _ => Err e | UpdateDRC _ _ => Err e | UpdateDRCStatus _ _ => Err e
            | GetRCBackup _ _ => Err e | ListRCBackups => Err e | CreateRCBackup _ _ => Err e
            | DeleteRCBackup _ _ => Err e | GetSysBackup _ _ => Err e | UpdateSysBackup _ _ => Err e
            | WatchSysBackups => Err e | WatchVeleroRestores => Err e | StopSysWatch _ => tt
            | GetMongoBackup _ _ => Err e
            end
  | Mw o => match o with
            | MinioNew _ _ _ => Err e | MadminNew _ _ _ => Err e | RabbitNew _ _ _ => Err e
            | ElasticNew _ _ _ => Err e | SqlOpen _ => Err e
            | MakeBucket _ _ => Err e | RemoveBucket _ _ => Err e | RemoveObject _ _ _ => Err e
            | AddUser _ _ _ => Err e | RemoveUser _ _ => Err e | AddCannedPolicy _ _ _ => Err e
            | SetPolicy _ _ _ => Err e | RemoveCannedPolicy _ _ => Err e | SqlExec _ _ => Err e
            | BucketExists _ _ => Err e | ListBuckets _ => Err e | ListMinioUsers _ => Err e
            | ListObjects _ _ => [Err e]
            | PutUser _ _ _ => Err e | PutVhost _ _ => Err e | UpdatePermissionsIn _ _ _ _ _ _ => Err e
            | ClearPermissionsIn _ _ _ => Err e | DeleteRabbitUser _ _ => Err e | DeleteVhost _ _ => Err e
            | IndicesExists _ _ => Err e | IndicesCreate _ _ => Err e | IndicesDelete _ _ => Err e
            | CatIndices _ _ => Err e | SecurityPutRole _ _ _ => Err e | SecurityDeleteRole _ _ => Err e
            | SecurityPutUser _ _ _ => Err e | SecurityDeleteUser _ _ => Err e
            | SqlClose _ => tt
            end
  | Evt o => match o with
             | NowNano => 0%Z | GetAppPermission _ _ => Err e | PostEvent _ _ _ => Err e | ListRegistries => Err e
             | PostCallback _ _ _ => Err e | ListCronWorkflows _ => Err e | PromQuery _ => Err e | Arrival l => l
             end
  | Srv o => match o with
             | LookupRedixClusters => Err e | LookupPGClusters => Err e | ListKbClusters => Err e
             | GetServicePorts _ _ => Err e | GetPSMDB _ _ => Err e | UpdatePSMDB _ _ => Err e
             | UpdatePGCluster _ _ => Err e | GetKsUser _ => Err e
             | JwtMethod _ => Err e | JwtVerify _ _ => Err e | SaveFile _ => Err e
             | GetPolicies _ _ => Err e | PostPolicy _ _ _ => Err e
             end
  | Vt o => match o with
            | BoxGenerateKey => Err e | Jsrp _ _ => Err e | NewUuid => "" | JwtSign _ _ => Err e
            | InfConnect _ => Err e | InfClose _ => tt | InfExec _ _ => Err e | InfNamedExec _ _ _ => Err e
            | InfQuery _ _ _ _ => Err e | Infisical _ _ _ _ _ _ => Err e | ListAppPermissions _ => Err e
            end
  | Un o => match o with
            | GetPsmdbStatus _ _ => Err e | GetPsmdbBackup _ _ => Err e | ListPsmdbBackups => Err e
            | DeletePsmdbBackup _ _ => Err e | CreatePsmdbBackup _ _ => Err e
            | GetPsmdbRestore _ _ => Err e | ListPsmdbRestores => Err e
            | DeletePsmdbRestore _ _ => Err e | CreatePsmdbRestore _ _ => Err e
            | MdbConnect _ => Err e | MdbPing _ => Err e | MdbDisconnect _ => tt
            | MdbFindUser _ _ _ => Err e | MdbInsertOne _ _ _ _ => Err e | ZincHttp _ _ _ _ _ => Err e
            end
  end.
