(* ===== verification/World.v ===== *)
(** * The services the handlers talk to

    One constructor per remote operation the program performs, with the type
    of its answer.  Nothing here says what an answer is: the Kubernetes API
    server, PostgreSQL, kvrocks, the file system and the clock are the
    surroundings of the model. *)

From S2P Require Import Prelude Effects Apr NatsConf.
From S2P Require Export Services.

(** ** Kubernetes objects, as far as the program reads or writes them *)

(** [valueFrom] of an environment variable: a secret reference (whose pointer
    may be nil) or any other source. *)
Inductive EnvVarSource : Set :=
  | FromSecret (ref : option SecretKeySelector)
  | FromField (path : string).
Record EnvVar : Set := mkEnv {
  env_Name : string; env_Value : string; env_ValueFrom : option EnvVarSource }.
Record Container : Set := mkContainer {
  c_Name : string;
  c_Image : string;
  c_ImagePullPolicy : string;
  c_Command : list string;
  c_Env : list EnvVar;
  c_VolumeMounts : list (string * string * string);   (* volume, mount path, sub path *)
  c_Resources : option string }.
(** A volume and the path of its [HostPath] source, nil when it has another. *)
Record Volume : Set := mkVolume { vol_Name : string; vol_HostPath : option string }.
Record PodTemplate : Set := mkPodTemplate {
  pt_Labels : gmap string string;
  pt_Containers : list Container;
  pt_Volumes : list Volume;
  pt_PriorityClassName : string }.
Record StatefulSet : Set := mkSts {
  sts_meta : ObjectMeta;
  sts_Replicas : option Z;
  sts_Template : PodTemplate }.
Definition sts_Name (s : StatefulSet) : string := om_Name (sts_meta s).
Definition sts_Namespace (s : StatefulSet) : string := om_Namespace (sts_meta s).

Record Scale : Set := mkScale { sc_Name : string; sc_Namespace : string; sc_Replicas : Z }.
Record Pod : Set := mkPod {
  pod_Name : string;
  pod_Namespace : string;
  pod_Phase : string;
  pod_Containers : list (string * bool);              (* name, ready *)
  pod_IP : string;
  pod_OwnerUIDs : list string }.
Record Service : Set := mkService {
  svc_Name : string; svc_Namespace : string; svc_ClusterIP : string;
  svc_Selector : gmap string string; svc_Ports : list Z }.
Record Secret : Set := mkSecret {
  sec_Name : string; sec_Namespace : string; sec_Data : gmap string string }.
Record Node : Set := mkNode {
  node_Labels : gmap string string; node_Addresses : list (string * string) }.   (* type, address *)
Record NamespaceObj : Set := mkNamespaceObj { nso_Name : string; nso_Labels : gmap string string }.
(** Objects of the dynamic client: a user's name and annotations, and an
    application, [None] when it cannot be converted. *)
Record UserObj : Set := mkUserObj { uo_Name : string; uo_Annotations : gmap string string }.
Record Application : Set := mkApplication {
  app_Name : string; app_Appid : string; app_Owner : string;
  app_SharedEntrances : list string }.                (* the host of each *)
Record Job : Set := mkJob {
  job_Name : string; job_Namespace : string; job_UID : string;
  job_Active : Z; job_Succeeded : Z; job_Failed : Z;
  job_Volumes : list Volume;
  job_Container : Container }.                        (* Containers[0] *)

(** What a receiver of a job's watch gets: the context is done, the channel is
    closed, a deletion with the job (another object is [None]), any other event. *)
Inductive JobNews : Set := WatchCancelled | WatchClosed | JobDeleted (j : option Job) | JobOther.

Inductive k8s : Set :=
  | GetSecret (ns name : string)
  | CreateSecret (ns : string) (s : Secret)
  | GetStatefulSet (ns name : string)
  | CreateStatefulSet (ns : string) (s : StatefulSet)
  | UpdateStatefulSet (ns : string) (s : StatefulSet)
  | DeleteStatefulSet (ns name : string)
  | GetScale (ns name : string)
  | UpdateScale (ns name : string) (s : Scale)
  | GetService (ns name : string)
  | CreateService (ns : string) (s : Service)
  | DeleteService (ns name : string)
  | GetPod (ns name : string)
  | ListPods (ns selector : string)
  | DeletePod (ns name : string)
  | GetPVC (ns name : string)
  | GetPV (name : string)
  | GetJob (ns name : string)
  | CreateJob (ns : string) (j : Job)
  | DeleteJob (ns name : string)
  | WatchJob (ns name : string)               (* of a single object, from any version *)
  | NextJobEvent (watch : nat)                (* select on the context and ResultChan *)
  | StopWatch (watch : nat)
  | GetConfigMap (ns name : string)
  | UpdateConfigMap (ns name : string) (data : gmap string string)
  | GetDeployment (ns name : string)
  | UpdateDeployment (ns name : string) (podLabels : gmap string string)
  | ListDistributedRedis (ns : string)        (* the redis-cluster operator's resources *)
  | ListStatefulSets (ns selector : string)
  | ListNodes
  | ListNamespaces
  | ListUsers
  | ListApplications.

Definition resp_k8s (o : k8s) : Set :=
  match o with
  | GetSecret _ _ => res Secret
  | CreateSecret _ _ => res unit
  | GetStatefulSet _ _ => res StatefulSet
  | CreateStatefulSet _ _ => res StatefulSet
  | UpdateStatefulSet _ _ => res StatefulSet
  | DeleteStatefulSet _ _ => res unit
  | GetScale _ _ => res Scale
  | UpdateScale _ _ _ => res Scale
  | GetService _ _ => res Service
  | CreateService _ _ => res unit
  | DeleteService _ _ => res unit
  | GetPod _ _ => res Pod
  | ListPods _ _ => res (list Pod)
  | DeletePod _ _ => res unit
  | GetPVC _ _ => res string                (* spec.volumeName *)
  | GetPV _ => res (option string)          (* spec.hostPath, a pointer *)
  | GetJob _ _ => res Job
  | CreateJob _ _ => res unit
  | DeleteJob _ _ => res unit
  | WatchJob _ _ => res nat
  | NextJobEvent _ => JobNews
  | StopWatch _ => unit
  | GetConfigMap _ _ => res (option (gmap string string))     (* Data, may be nil *)
  | UpdateConfigMap _ _ _ => res unit
  | GetDeployment _ _ => res (option (gmap string string))    (* the template's labels, may be nil *)
  | UpdateDeployment _ _ _ => res unit
  | ListDistributedRedis _ => res (list DistributedRedisCluster)
  | ListStatefulSets _ _ => res (list StatefulSet)
  | ListNodes => res (list Node)
  | ListNamespaces => res (list NamespaceObj)
  | ListUsers => res (list UserObj)
  | ListApplications => res (list (option Application))
  end.

(** The clientset generated for the custom resources. *)
Inductive apr : Set :=
  | GetPGCluster (ns name : string)
  | ListPGClusters (ns : string)
  | ListMiddlewareRequests (ns : string)
  | LookupMiddlewareRequests (ns : string)            (* the informer's lister *)
  | ListRedixClusters (ns : string)
  | GetPGBackup (ns name : string)
  | ListPGBackups
  | CreatePGBackup (ns : string) (b : PGClusterBackup)
  | DeletePGBackup (ns name : string)
  | UpdatePGBackupStatus (ns : string) (b : PGClusterBackup)
  | GetPGRestore (ns name : string)
  | ListPGRestores
  | CreatePGRestore (ns : string) (r : PGClusterRestore)
  | DeletePGRestore (ns name : string)
  | UpdatePGRestoreStatus (ns : string) (r : PGClusterRestore)
  | GetKVBackup (ns name : string)
  | ListKVBackups
  | CreateKVBackup (ns : string) (b : KVRocksBackup)
  | DeleteKVBackup (ns name : string)
  | GetKVRestore (ns name : string)
  | ListKVRestores
  | CreateKVRestore (ns : string) (r : KVRocksRestore)
  | DeleteKVRestore (ns name : string)
  | UpdateKVBackupStatus (ns : string) (b : KVRocksBackup)
  | UpdateKVRestoreStatus (ns : string) (r : KVRocksRestore)
  | GetRedixCluster (ns name : string).

Definition resp_apr (o : apr) : Set :=
  match o with
  | GetPGCluster _ _ => res PGCluster
  | ListPGClusters _ => res (list PGCluster)
  | ListMiddlewareRequests _ => res (list MiddlewareRequest)
  | LookupMiddlewareRequests _ => res (list MiddlewareRequest)
  | ListRedixClusters _ => res (list RedixCluster)
  | GetPGBackup _ _ => res PGClusterBackup
  | ListPGBackups => res (list PGClusterBackup)
  | UpdatePGBackupStatus _ _ => res PGClusterBackup
  | GetPGRestore _ _ => res PGClusterRestore
  | ListPGRestores => res (list PGClusterRestore)
  | UpdatePGRestoreStatus _ _ => res PGClusterRestore
  | GetKVBackup _ _ => res KVRocksBackup
  | ListKVBackups => res (list KVRocksBackup)
  | GetKVRestore _ _ => res KVRocksRestore
  | ListKVRestores => res (list KVRocksRestore)
  | UpdateKVBackupStatus _ _ => res KVRocksBackup
  | UpdateKVRestoreStatus _ _ => res KVRocksRestore
  | GetRedixCluster _ _ => res RedixCluster
  | CreatePGBackup _ _ | DeletePGBackup _ _ | CreatePGRestore _ _ | DeletePGRestore _ _
  | CreateKVBackup _ _ | DeleteKVBackup _ _ | CreateKVRestore _ _ | DeleteKVRestore _ _ => res unit
  end.

(** PostgreSQL through [sqlx]: a connection and a result set are handles.  A
    result set is the rows it will yield, each with the outcome of scanning it. *)
Record PgTarget : Set := mkTarget {
  tg_user : string; tg_password : string; tg_host : string; tg_port : Z; tg_database : string }.
Record Rows : Set := mkRows { rows_id : nat; rows_data : list (res string) }.

Inductive pg : Set :=
  | PgConnect (t : PgTarget)
  | PgClose (conn : nat)
  | PgExec (conn : nat) (sql : string)
  | PgQuery (conn : nat) (sql : string) (args : list (string * string))
  | PgRowsClose (rows : nat)
  | PgNamedExec (conn : nat) (sql : string) (args : list (string * string))
  | PgBegin (conn : nat)
  | PgCommit (tx : nat)
  | PgRollback (tx : nat).

Definition resp_pg (o : pg) : Set :=
  match o with
  | PgConnect _ => res nat
  | PgClose _ => unit                       (* its error is only logged *)
  | PgExec _ _ => res unit
  | PgQuery _ _ _ => res Rows
  | PgRowsClose _ => unit
  | PgNamedExec _ _ _ => res unit
  | PgBegin _ => res nat
  | PgCommit _ => res unit
  | PgRollback _ => unit
  end.

(** kvrocks through [go-redis]. *)
Inductive RedisReply : Set := RStr (s : string) | RArr (l : list string).
Inductive rds : Set :=
  | RdsPing (addr password : string)        (* NewClient and the first PING *)
  | RdsDo (addr : string) (args : list string)
  | RdsConfigRewrite (addr : string)
  | RdsBgSave (addr : string)
  | RdsClose (addr : string).

Definition resp_rds (o : rds) : Set :=
  match o with
  | RdsPing _ _ => res unit
  | RdsDo _ _ => res RedisReply
  | RdsConfigRewrite _ => res unit
  | RdsBgSave _ => res unit
  | RdsClose _ => unit
  end.

(** Operating system, clock, random source, and the two choices the Go
    runtime and the [wait] and [retry] packages make for the program: the order
    in which a map is ranged over, whether a poller runs its condition once
    more ([Ok]) or gives up (timeout or cancelled context, [Err]), and whether
    a backoff grants another attempt. *)
Inductive sys : Set :=
  | Sleep (seconds : Z)
  | Now
  | RandBytes (n : nat)
  | Stat (path : string)
  | RemoveAll (path : string)
  | Remove (path : string)
  | Rename (src dst : string)
  | MkdirAll (path : string)
  | Mkdir (path : string)
  | WriteFile (path data : string)
  | RangeMap (m : gmap string string)
  | Getenv (name : string)
  | PollTick
  | Backoff.

Definition resp_sys (o : sys) : Set :=
  match o with
  | Sleep _ => unit
  | Now => Z
  | RandBytes _ => res (list Z)
  | Stat _ => res bool                      (* is it a directory *)
  | RemoveAll _ | Remove _ | Rename _ _ | MkdirAll _ | Mkdir _ | WriteFile _ _ => res unit
  | RangeMap _ => list (string * string)
  | Getenv _ => string
  | PollTick => res unit
  | Backoff => bool
  end.

(** NATS: nats-server's configuration parser, bcrypt, and a JetStream
    connection. *)
Inductive nats : Set :=
  | KubeConfig                              (* ctrl.GetConfig and a clientset for it *)
  | BcryptHash (password : string)
  | ParseNatsConf (path : string)
  | Setenv (key value : string)
  | NatsConnect (url user password : string)
  | NatsDrain (conn : nat)
  | JsNew (conn : nat)
  | JsCreateStream (conn : nat) (name : string) (subjects : list string) (maxAge : Z)
  | JsDeleteStream (conn : nat) (name : string).

Definition resp_nats (o : nats) : Set :=
  match o with
  | KubeConfig => res unit
  | BcryptHash _ => res string
  | ParseNatsConf _ => res NatsConf.Config
  | Setenv _ _ => res unit
  | NatsConnect _ _ _ => res nat
  | NatsDrain _ => unit
  | JsNew _ | JsCreateStream _ _ _ _ | JsDeleteStream _ _ => res unit
  end.

(** MongoDB through its driver, [mongosh], and the KubeBlocks cluster object.
    A command's answer: its error, then the decoded document. *)
Inductive BsonVal : Set := BsonNum (is_one : bool) | BsonStr (s : string) | BsonOther.
Record MongoReply : Set := mkReply {
  mr_Err : option gerr; mr_Decode : option gerr;
  mr_ok : option BsonVal; mr_errmsg : option BsonVal }.
Inductive MongoCmd : Set :=
  | CmdCreateUser (user pwd : string) (roles : list (string * string))
  | CmdUpdateUser (user pwd : string) (roles : list (string * string))
  | CmdDropUser (user : string).
Record KbCluster : Set := mkKbCluster { kb_Name : string; kb_Namespace : string; kb_Phase : string }.

Inductive mongo : Set :=
  | MgConnect (dsn : string)
  | MgPing (conn : nat)
  | MgDisconnect (conn : nat)
  | MgFindUser (conn : nat) (user : string) (db : option string)   (* in admin's system.users *)
  | MgRunCommand (conn : nat) (db : string) (cmd : MongoCmd)
  | MgDropDatabase (conn : nat) (db : string)
  | Mongosh (dsn eval user password : string)
  | GetKbCluster (ns name : string).

Definition resp_mongo (o : mongo) : Set :=
  match o with
  | MgConnect _ => res nat
  | MgPing _ => res unit
  | MgDisconnect _ => unit
  | MgFindUser _ _ _ => res unit
  | MgRunCommand _ _ _ => MongoReply
  | MgDropDatabase _ _ => res unit
  | Mongosh _ _ _ _ => res unit
  | GetKbCluster _ _ => res KbCluster
  end.

Inductive op : Set :=
  | K8s (o : k8s) | Apr (o : apr) | Pg (o : pg) | Rds (o : rds) | Sys (o : sys)
  | NatsOp (o : nats) | MongoOp (o : mongo) | Ext (o : ext).
Definition resp (o : op) : Set :=
  match o with
  | K8s o => resp_k8s o | Apr o => resp_apr o | Pg o => resp_pg o
  | Rds o => resp_rds o | Sys o => resp_sys o
  | NatsOp o => resp_nats o | MongoOp o => resp_mongo o | Ext o => resp_ext o
  end.

Abbreviation io := (prog resp).
Abbreviation history := (list (event resp)).

Definition k8s_call (o : k8s) : io (resp_k8s o) := call (resp := resp) (K8s o).
Definition apr_call (o : apr) : io (resp_apr o) := call (resp := resp) (Apr o).
Definition pg_call (o : pg) : io (resp_pg o) := call (resp := resp) (Pg o).
Definition rds_call (o : rds) : io (resp_rds o) := call (resp := resp) (Rds o).
Definition sys_call (o : sys) : io (resp_sys o) := call (resp := resp) (Sys o).
Definition nats_call (o : nats) : io (resp_nats o) := call (resp := resp) (NatsOp o).
Definition mongo_call (o : mongo) : io (resp_mongo o) := call (resp := resp) (MongoOp o).
Definition rc_call (o : rc) : io (resp_rc o) := call (resp := resp) (Ext (Rc o)).
Definition evt_call (o : evt) : io (resp_evt o) := call (resp := resp) (Ext (Evt o)).
Definition srv_call (o : srv) : io (resp_srv o) := call (resp := resp) (Ext (Srv o)).
Definition vt_call (o : vt) : io (resp_vt o) := call (resp := resp) (Ext (Vt o)).
Definition un_call (o : un) : io (resp_un o) := call (resp := resp) (Ext (Un o)).
Definition mw_call (o : mw) : io (resp_mw o) := call (resp := resp) (Ext (Mw o)).

(** ** Shared control flow *)

(** What [wait.PollWithContext] is made of: [cond] is run for every tick that
    arrives and once more when the channel of ticks is closed, until it is done
    (with the value it computed on the way) or fails.  [rounds] bounds the number
    of both; the clock decides at each one. *)
Fixpoint WaitFor {A} (rounds : nat) (cond : io (res (option A))) : io (res A) :=
  match rounds with
  | O => Ret (Err (mkErr KTimeout "timed out waiting for the condition"))
  | S n =>
      do? sys_call PollTick;
      let? done := cond in
      match done with Some a => Ret (Ok a) | None => WaitFor n cond end
  end.
(** [wait.PollWithContext(ctx, interval, timeout, cond)]: [timeout / interval]
    ticks, and the channel is closed after the timeout. *)
Definition Poll {A} (ticks : nat) (cond : io (res (option A))) : io (res A) := WaitFor (S ticks) cond.

(** A loop rule: an invariant kept by the ticks and by the rounds
    that are not done. *)
Lemma wp_WaitFor {S A} (step : S -> event resp -> S) (I : S -> Prop) n (cond : io (res (option A)))
    (Q : S -> outcome (res A) -> Prop) s :
  (forall s r, I s -> I (step s (ev (Sys PollTick) r))) ->
  (forall s, I s -> wp step cond (fun s' x => match x with
                                              | Returned (Ok (Some a)) => Q s' (Returned (Ok a))
                                              | Returned (Ok None) => I s'
                                              | Returned (Err e) => Q s' (Returned (Err e))
                                              | Panicked w => Q s' (Panicked w)
                                              end) s) ->
  (forall s e, I s -> Q s (Returned (Err e))) ->
  I s -> wp step (WaitFor n cond) Q s.
Proof.
  intros Htick Hcond Herr. revert s. induction n as [|n IH]; intros s HI; cbn [WaitFor]; [by apply Herr|].
  rewrite wp_bind_ok. cbn [sys_call call wp]. intros [u|e]; [|by apply Herr, Htick].
  rewrite wp_bind_ok. eapply wp_mono; [|by apply Hcond, Htick]. cbn.
  intros s' [[[a|]|e]|w] H; [done|by apply IH|done..].
Qed.

(** It ends well with a run of the condition that is done. *)
Lemma WaitFor_returned {A} n (cond : io (res (option A))) tr a :
  runs (WaitFor n cond) tr (Returned (Ok a)) ->
  exists tr1 tr2, tr = tr1 ++ tr2 /\ runs cond tr2 (Returned (Ok (Some a))).
Proof.
  revert tr. induction n as [|n IH]; intros tr H; [by apply runs_inv in H as [_ [=]]|].
  apply runs_bind_ok_returned in H as (t1 & t2 & u & -> & _ & H).
  apply runs_bind_ok_returned in H as (t3 & t4 & [b|] & -> & H1 & H).
  - ret_inv H. exists t1, t3. by rewrite app_nil_r.
  - apply IH in H as (t5 & t6 & -> & H). exists (t1 ++ t3 ++ t5), t6. by rewrite <- !app_assoc.
Qed.

(** It ends at once with a run of the condition that is done. *)
Lemma WaitFor_at_once {A} n (cond : io (res (option A))) tr a :
  runs cond tr (Returned (Ok (Some a))) ->
  runs (WaitFor (S n) cond) (ev (Sys PollTick) (Ok tt : res unit) :: tr) (Returned (Ok a)).
Proof.
  intros H. cbn [WaitFor]. unfold bind_ok at 1. cbn [sys_call call bind]. apply runs_vis.
  rewrite <- (app_nil_r tr). eapply runs_bind_intro; [exact H|]. constructor.
Qed.

(** [wait.PollImmediate]: the same with a first run before any tick. *)
Definition PollImmediate {A} (ticks : nat) (cond : io (res (option A))) : io (res A) :=
  let? done := cond in
  match done with Some a => Ret (Ok a) | None => Poll ticks cond end.

(** [x, err := get(); if err != nil && !apierrors.IsNotFound(err) { return err }] *)
Definition found {A} (get : io (res A)) : io (res (option A)) :=
  let! r := get in
  match r with
  | Ok a => Ret (Ok (Some a))
  | Err e => if IsNotFound e then Ret (Ok None) else Ret (Err e)
  end.

(** Waiting for a deletion: done when the object is not found any more. *)
Definition gone {A} (get : io (res A)) : io (res (option unit)) :=
  let! r := get in
  match r with
  | Ok _ => Ret (Ok None)
  | Err e => if IsNotFound e then Ret (Ok (Some tt)) else Ret (Err e)
  end.

(** ** Programs that do not panic, whatever is answered *)

Definition survives {A} (m : io A) : Prop := forall tr why, ~ runs m tr (Panicked why).

Lemma survives_ret {A} (a : A) : survives (Ret a).
Proof. intros tr why H%runs_inv. destruct H as [_ [=]]. Qed.
Lemma survives_call (o : op) : survives (call (resp := resp) o).
Proof. intros tr why H%runs_inv. destruct H as (r & tr1 & _ & H%runs_inv). by destruct H as [_ [=]]. Qed.
Lemma survives_bind {A B} (m : io A) (f : A -> io B) :
  survives m -> (forall a, survives (f a)) -> survives (bind m f).
Proof.
  intros Hm Hf tr why H. apply runs_bind_inv in H as [(t1 & t2 & a & _ & H1 & H2)|(w & [= ->] & H)].
  - exact (Hf a _ _ H2).
  - exact (Hm _ _ H).
Qed.
Lemma survives_bind_ok {A B} (m : io (res A)) (f : A -> io (res B)) :
  survives m -> (forall a, survives (f a)) -> survives (bind_ok m f).
Proof. intros Hm Hf. apply survives_bind; [done|]. intros [a|e]; [apply Hf|apply survives_ret]. Qed.
Lemma survives_gone {A} (get : io (res A)) : survives get -> survives (gone get).
Proof. intros H. apply survives_bind; [done|]. intros [a|e]; [|case_match]; apply survives_ret. Qed.
Lemma survives_WaitFor {A} n (cond : io (res (option A))) : survives cond -> survives (WaitFor n cond).
Proof.
  intros H. induction n as [|n IH]; cbn [WaitFor]; [apply survives_ret|].
  apply survives_bind_ok; [exact (survives_call (Sys PollTick))|intros _]. apply survives_bind_ok; [done|].
  intros [a|]; [apply survives_ret|done].
Qed.
Lemma survives_PollImmediate {A} n (cond : io (res (option A))) : survives cond -> survives (PollImmediate n cond).
Proof. intros H. apply survives_bind_ok; [done|]. intros [a|]; [apply survives_ret|by apply survives_WaitFor]. Qed.

(** [retry.OnError(backoff, retriable, fn)]: at most [steps] attempts; between
    two of them the backoff sleeps and may stop early (its duration cap). *)
Fixpoint RetryOnError {A} (steps : nat) (retriable : gerr -> bool) (fn : io (res A)) : io (res A) :=
  match steps with
  | O => Ret (Err (mkErr KTimeout "timed out waiting for the condition"))
  | S n =>
      let! r := fn in
      match r with
      | Ok a => Ret (Ok a)
      | Err e =>
          if retriable e
          then match n with
               | O => Ret (Err e)
               | _ =>
                   let! more := sys_call Backoff in
                   if more : bool then RetryOnError n retriable fn else Ret (Err e)
               end
          else Ret (Err e)
      end
  end.

(** Handing an error on with more text: [fmt.Errorf] with [%w] keeps what the
    error is, with [%v] it does not. *)
Definition on_err {A} (m : io (res A)) (f : gerr -> gerr) : io (res A) :=
  let! r := m in Ret (match r with Ok a => Ok a | Err e => Err (f e) end).
Definition wrap_w (text : string) (e : gerr) : gerr := mkErr (err_kind e) (text +:+ err_msg e).
Definition wrap_v (text : string) (e : gerr) : gerr := newErr (text +:+ err_msg e).

Lemma issues_on_err {A} P (m : io (res A)) f : issues P m -> issues P (on_err m f).
Proof. intros H. by apply issues_bind. Qed.
Lemma on_err_ok {A} (m : io (res A)) f tr a :
  runs (on_err m f) tr (Returned (Ok a)) -> runs m tr (Returned (Ok a)).
Proof.
  intros (tr1 & tr2 & [x|e] & -> & H1 & H2)%runs_bind_returned; ret_inv H2. by rewrite app_nil_r.
Qed.

(** ** What these loops can call *)

Lemma issues_WaitFor {A} P n (cond : io (res (option A))) :
  P (Sys PollTick) -> issues P cond -> issues P (WaitFor n cond).
Proof.
  intros Ht Hc. induction n as [|n IH]; [done|]. cbn [WaitFor]. apply issues_bind_ok; [by split|]. intros _.
  apply issues_bind_ok; [done|]. by intros [a|].
Qed.
Lemma issues_PollImmediate {A} P n (cond : io (res (option A))) :
  P (Sys PollTick) -> issues P cond -> issues P (PollImmediate n cond).
Proof. intros Ht Hc. apply issues_bind_ok; [done|]. intros [a|]; [done|]. by apply issues_WaitFor. Qed.
Lemma issues_found {A} P (get : io (res A)) : issues P get -> issues P (found get).
Proof. intros H. apply issues_bind; [done|]. intros [a|e]; [done|]. by destruct (IsNotFound e). Qed.
Lemma issues_gone {A} P (get : io (res A)) : issues P get -> issues P (gone get).
Proof. intros H. apply issues_bind; [done|]. intros [a|e]; [done|]. by destruct (IsNotFound e). Qed.
Lemma issues_RetryOnError {A} P n retriable (fn : io (res A)) :
  P (Sys Backoff) -> issues P fn -> issues P (RetryOnError n retriable fn).
Proof.
  intros Hb Hf. induction n as [|n IH]; [done|]. cbn [RetryOnError]. apply issues_bind; [done|]. intros [a|e]; [done|].
  destruct (retriable e); [|done]. destruct n; [done|]. apply issues_bind; [by split|]. by intros [].
Qed.

(** Walks over a program, down to its calls. *)
Ltac issues_step :=
  lazymatch goal with
  | |- issues _ (Ret _) => exact I
  | |- issues _ (Panic _) => exact I
  | |- issues _ (bind _ _) => apply issues_bind; [|intros ?]
  | |- issues _ (bind_ok _ _) => apply issues_bind_ok; [|intros ?]
  | |- issues _ (with_defer _ _) => apply issues_with_defer
  | |- issues _ (on_panic _ _) => apply issues_on_panic
  | |- issues _ (deref _) => apply issues_deref
  | |- issues _ (call _) => apply issues_call
  | |- issues _ (k8s_call _) => apply issues_call
  | |- issues _ (apr_call _) => apply issues_call
  | |- issues _ (rds_call _) => apply issues_call
  | |- issues _ (sys_call _) => apply issues_call
  | |- issues _ (rc_call _) => apply issues_call
  | |- issues _ (mw_call _) => apply issues_call
  | |- issues _ (evt_call _) => apply issues_call
  | |- issues _ (vt_call _) => apply issues_call
  | |- issues _ (un_call _) => apply issues_call
  | |- issues _ (srv_call _) => apply issues_call
  | |- issues _ (for_each _ _) => apply issues_for_each; intros ? _
  | |- issues _ (fold_all _ _ _) => apply issues_fold_all; intros ? ?
  | |- issues _ (fold_each _ _ _) => apply issues_fold_each; intros ? ?
  | |- issues _ (Poll _ _) => apply issues_WaitFor
  | |- issues _ (PollImmediate _ _) => apply issues_PollImmediate
  | |- issues _ (RetryOnError _ _ _) => apply issues_RetryOnError
  | |- issues _ (found _) => apply issues_found
  | |- issues _ (gone _) => apply issues_gone
  | |- issues _ (on_err _ _) => apply issues_on_err
  | |- issues _ (match ?x with _ => _ end) => destruct x
  | |- issues _ ?m => let h := head_of m in unfold h; cbv zeta
  end.
Ltac issues_walk := repeat (first [issues_step | done]).

(** [func (p *PasswordVar) GetVarValue(ctx, client, namespace)] *)
Definition GetVarValue (p : PasswordVar) (namespace : string) : io (res string) :=
  if negb (String.eqb (pv_Value p) "") then Ret (Ok (pv_Value p))
  else match pv_ValueFrom p with
       | None => Ret (Err (newErr "password is not defined"))
       | Some src =>
           let! sel := deref (pvs_SecretKeyRef src) in
           let? secret := k8s_call (GetSecret namespace (sel_Name sel)) in
           Ret (Ok (default "" (sec_Data secret !! sel_Key sel)))
       end.

(** What a password variable stood for during a run: its value, or the key of
    a secret that was read. *)
Definition resolved_in (tr : history) (namespace : string) (p : PasswordVar) (pwd : string) : Prop :=
  (pv_Value p <> "" /\ pwd = pv_Value p) \/
  (pv_Value p = "" /\ exists src sel secret,
     pv_ValueFrom p = Some src /\ pvs_SecretKeyRef src = Some sel /\
     ev (K8s (GetSecret namespace (sel_Name sel))) (Ok secret) ∈ tr /\
     pwd = default "" (sec_Data secret !! sel_Key sel)).

Lemma GetVarValue_returned p ns tr pwd :
  runs (GetVarValue p ns) tr (Returned (Ok pwd)) -> resolved_in tr ns p pwd.
Proof.
  unfold GetVarValue. destruct (String.eqb_spec (pv_Value p) "") as [E|E]; cbn.
  - destruct (pv_ValueFrom p) as [src|] eqn:Es; [|by intros [_ [=]]%runs_inv].
    destruct (pvs_SecretKeyRef src) as [sel|] eqn:Er; cbn; [|by intros [_ [=]]%runs_inv].
    intros (r & tr' & -> & H)%runs_inv. destruct r as [secret|e]; [|by apply runs_inv in H as [_ [=]]].
    apply runs_inv in H as [-> [= ->]]. right. split; [done|]. exists src, sel, secret.
    repeat split; try done. left.
  - intros [-> [= ->]]%runs_inv. by left.
Qed.

Lemma resolved_in_sub tr tr' ns p pwd : tr ⊆ tr' -> resolved_in tr ns p pwd -> resolved_in tr' ns p pwd.
Proof. intros Hs [H|(E & src & sel & secret & H1 & H2 & H3 & H4)]; [by left|]. right. eauto 10. Qed.

(** Writing to a map that may be nil. *)
Definition set_key (m : option (gmap string string)) (k v : string) : io (gmap string string) :=
  match m with Some m => Ret (<[k := v]> m) | None => Panic "assignment to entry in nil map" end.

(** A world in which every service is unavailable: the base case of the
    concrete worlds the witnesses run in. *)
Definition unavailable (o : op) : resp o :=
  let e := newErr "unavailable" in
  match o with
  | K8s o => match o with
             | GetSecret _ _ => Err e | CreateSecret _ _ => Err e
             | GetStatefulSet _ _ => Err e | CreateStatefulSet _ _ => Err e
             | UpdateStatefulSet _ _ => Err e | DeleteStatefulSet _ _ => Err e
             | GetScale _ _ => Err e | UpdateScale _ _ _ => Err e
             | GetService _ _ => Err e | CreateService _ _ => Err e | DeleteService _ _ => Err e
             | GetPod _ _ => Err e | ListPods _ _ => Err e | DeletePod _ _ => Err e
             | GetPVC _ _ => Err e | GetPV _ => Err e
             | GetJob _ _ => Err e | CreateJob _ _ => Err e | DeleteJob _ _ => Err e
             | WatchJob _ _ => Err e | NextJobEvent _ => WatchCancelled | StopWatch _ => tt
             | GetConfigMap _ _ => Err e | UpdateConfigMap _ _ _ => Err e
             | GetDeployment _ _ => Err e | UpdateDeployment _ _ _ => Err e
             | ListDistributedRedis _ => Err e | ListStatefulSets _ _ => Err e
             | ListNodes => Err e | ListNamespaces => Err e | ListUsers => Err e | ListApplications => Err e
             end
  | Apr o => match o with
             | GetPGCluster _ _ => Err e | ListPGClusters _ => Err e
             | ListMiddlewareRequests _ => Err e | LookupMiddlewareRequests _ => Err e
             | ListRedixClusters _ => Err e
             | GetPGBackup _ _ => Err e | ListPGBackups => Err e | CreatePGBackup _ _ => Err e
             | DeletePGBackup _ _ => Err e | UpdatePGBackupStatus _ _ => Err e
             | GetPGRestore _ _ => Err e | ListPGRestores => Err e | CreatePGRestore _ _ => Err e
             | DeletePGRestore _ _ => Err e | UpdatePGRestoreStatus _ _ => Err e
             | GetKVBackup _ _ => Err e | ListKVBackups => Err e | CreateKVBackup _ _ => Err e
             | DeleteKVBackup _ _ => Err e
             | GetKVRestore _ _ => Err e | ListKVRestores => Err e | CreateKVRestore _ _ => Err e
             | DeleteKVRestore _ _ => Err e
             | UpdateKVBackupStatus _ _ => Err e | UpdateKVRestoreStatus _ _ => Err e
             | GetRedixCluster _ _ => Err e
             end
  | Pg o => match o with
            | PgConnect _ => Err e | PgClose _ => tt | PgExec _ _ => Err e | PgQuery _ _ _ => Err e
            | PgRowsClose _ => tt | PgNamedExec _ _ _ => Err e | PgBegin _ => Err e
            | PgCommit _ => Err e | PgRollback _ => tt
            end
  | Rds o => match o with
             | RdsPing _ _ => Err e | RdsDo _ _ => Err e | RdsConfigRewrite _ => Err e
             | RdsBgSave _ => Err e | RdsClose _ => tt
             end
  | Sys o => match o with
             | Sleep _ => tt | Now => 0%Z | RandBytes _ => Err e | Stat _ => Err e
             | RemoveAll _ => Err e | Remove _ => Err e | Rename _ _ => Err e | MkdirAll _ => Err e | Mkdir _ => Err e
             | WriteFile _ _ => Err e | RangeMap m => map_to_list m | Getenv _ => EmptyString | PollTick => Err e
             | Backoff => false
             end
  | NatsOp o => match o with
                | KubeConfig => Err e | BcryptHash _ => Err e | ParseNatsConf _ => Err e
                | Setenv _ _ => Err e | NatsConnect _ _ _ => Err e | NatsDrain _ => tt
                | JsNew _ => Err e | JsCreateStream _ _ _ _ => Err e | JsDeleteStream _ _ => Err e
                end
  | MongoOp o => match o with
                 | MgConnect _ => Err e | MgPing _ => Err e | MgDisconnect _ => tt
                 | MgFindUser _ _ _ => Err e | MgRunCommand _ _ _ => mkReply (Some e) None None None
                 | MgDropDatabase _ _ => Err e | Mongosh _ _ _ _ => Err e | GetKbCluster _ _ => Err e
                 end
  | Ext o => unavailable_ext e o
  end.
