(* ===== verification/Demo.v ===== *)
(** * Concrete requests and worlds

    What the examples of the specifications share: an empty request, and the
    runs of a program in a world whose answers do not depend on the past. *)

From S2P Require Import Prelude Effects Apr World.

Definition no_pwd : PasswordVar := mkPwd "" None.
Definition empty_spec (app ns : string) (ty : MiddlewareType) : MiddlewareSpec := {|
  ms_App := app; ms_AppNamespace := ns; ms_Middleware := ty;
  ms_Redis := mkRedis no_pwd "";
  ms_MongoDB := mkMongoDB no_pwd [] "";
  ms_PostgreSQL := mkPostgreSQL no_pwd [] "";
  ms_Zinc := {| zinc_User := ""; zinc_Password := no_pwd; zinc_Indexes := [] |};
  ms_Nats := mkNats "" no_pwd [] [];
  ms_Minio := {| minio_User := ""; minio_Password := no_pwd; minio_Buckets := [];
                 minio_AllowNamespaceBuckets := false |};
  ms_RabbitMQ := {| rabbit_User := ""; rabbit_Password := no_pwd; rabbit_Vhosts := [] |};
  ms_Elasticsearch := {| es_User := ""; es_Password := no_pwd; es_Indexes := [];
                         es_AllowNamespaceIndexes := false |};
  ms_MariaDB := {| maria_User := ""; maria_Password := no_pwd; maria_Databases := [] |};
  ms_Mysql := {| mysql_User := ""; mysql_Password := no_pwd; mysql_Databases := [] |} |}.

Definition with_redis (s : MiddlewareSpec) (r : Redis) : MiddlewareSpec := {|
  ms_App := ms_App s; ms_AppNamespace := ms_AppNamespace s; ms_Middleware := ms_Middleware s;
  ms_Redis := r; ms_MongoDB := ms_MongoDB s; ms_PostgreSQL := ms_PostgreSQL s; ms_Zinc := ms_Zinc s;
  ms_Nats := ms_Nats s; ms_Minio := ms_Minio s; ms_RabbitMQ := ms_RabbitMQ s;
  ms_Elasticsearch := ms_Elasticsearch s; ms_MariaDB := ms_MariaDB s; ms_Mysql := ms_Mysql s |}.
Definition with_mongo (s : MiddlewareSpec) (m : MongoDB) : MiddlewareSpec := {|
  ms_App := ms_App s; ms_AppNamespace := ms_AppNamespace s; ms_Middleware := ms_Middleware s;
  ms_Redis := ms_Redis s; ms_MongoDB := m; ms_PostgreSQL := ms_PostgreSQL s; ms_Zinc := ms_Zinc s;
  ms_Nats := ms_Nats s; ms_Minio := ms_Minio s; ms_RabbitMQ := ms_RabbitMQ s;
  ms_Elasticsearch := ms_Elasticsearch s; ms_MariaDB := ms_MariaDB s; ms_Mysql := ms_Mysql s |}.
Definition with_minio (s : MiddlewareSpec) (m : Minio) : MiddlewareSpec := {|
  ms_App := ms_App s; ms_AppNamespace := ms_AppNamespace s; ms_Middleware := ms_Middleware s;
  ms_Redis := ms_Redis s; ms_MongoDB := ms_MongoDB s; ms_PostgreSQL := ms_PostgreSQL s; ms_Zinc := ms_Zinc s;
  ms_Nats := ms_Nats s; ms_Minio := m; ms_RabbitMQ := ms_RabbitMQ s;
  ms_Elasticsearch := ms_Elasticsearch s; ms_MariaDB := ms_MariaDB s; ms_Mysql := ms_Mysql s |}.
Definition with_rabbit (s : MiddlewareSpec) (m : RabbitMQ) : MiddlewareSpec := {|
  ms_App := ms_App s; ms_AppNamespace := ms_AppNamespace s; ms_Middleware := ms_Middleware s;
  ms_Redis := ms_Redis s; ms_MongoDB := ms_MongoDB s; ms_PostgreSQL := ms_PostgreSQL s; ms_Zinc := ms_Zinc s;
  ms_Nats := ms_Nats s; ms_Minio := ms_Minio s; ms_RabbitMQ := m;
  ms_Elasticsearch := ms_Elasticsearch s; ms_MariaDB := ms_MariaDB s; ms_Mysql := ms_Mysql s |}.
Definition with_elastic (s : MiddlewareSpec) (m : Elasticsearch) : MiddlewareSpec := {|
  ms_App := ms_App s; ms_AppNamespace := ms_AppNamespace s; ms_Middleware := ms_Middleware s;
  ms_Redis := ms_Redis s; ms_MongoDB := ms_MongoDB s; ms_PostgreSQL := ms_PostgreSQL s; ms_Zinc := ms_Zinc s;
  ms_Nats := ms_Nats s; ms_Minio := ms_Minio s; ms_RabbitMQ := ms_RabbitMQ s;
  ms_Elasticsearch := m; ms_MariaDB := ms_MariaDB s; ms_Mysql := ms_Mysql s |}.
Definition with_maria (s : MiddlewareSpec) (m : MariaDB) : MiddlewareSpec := {|
  ms_App := ms_App s; ms_AppNamespace := ms_AppNamespace s; ms_Middleware := ms_Middleware s;
  ms_Redis := ms_Redis s; ms_MongoDB := ms_MongoDB s; ms_PostgreSQL := ms_PostgreSQL s; ms_Zinc := ms_Zinc s;
  ms_Nats := ms_Nats s; ms_Minio := ms_Minio s; ms_RabbitMQ := ms_RabbitMQ s;
  ms_Elasticsearch := ms_Elasticsearch s; ms_MariaDB := m; ms_Mysql := ms_Mysql s |}.
Definition with_mysql (s : MiddlewareSpec) (m : Mysql) : MiddlewareSpec := {|
  ms_App := ms_App s; ms_AppNamespace := ms_AppNamespace s; ms_Middleware := ms_Middleware s;
  ms_Redis := ms_Redis s; ms_MongoDB := ms_MongoDB s; ms_PostgreSQL := ms_PostgreSQL s; ms_Zinc := ms_Zinc s;
  ms_Nats := ms_Nats s; ms_Minio := ms_Minio s; ms_RabbitMQ := ms_RabbitMQ s;
  ms_Elasticsearch := ms_Elasticsearch s; ms_MariaDB := ms_MariaDB s; ms_Mysql := m |}.

Definition plain_meta (ns name : string) : ObjectMeta := mkMeta name ns ∅ ∅.

Definition run_in {A} (world : forall o, resp o) (m : io A) : history * outcome A * unit :=
  exec (fun o u => (world o, u)) m tt.
Definition trace_in {A} (world : forall o, resp o) (m : io A) : history := fst (fst (run_in world m)).
Definition out_in {A} (world : forall o, resp o) (m : io A) : outcome A := snd (fst (run_in world m)).
Lemma runs_in {A} world (m : io A) : runs m (trace_in world m) (out_in world m).
Proof. unfold trace_in, out_in. destruct (run_in world m) as [[tr out] u] eqn:E. by eapply exec_runs. Qed.

(** The run in a world where it returns [a]. *)
Lemma runs_in_to {A} world (m : io A) (a : A) :
  out_in world m = Returned a -> runs m (trace_in world m) (Returned a).
Proof. intros <-. apply runs_in. Qed.
