(* ===== verification/Provision.v ===== *)
(** * What the request handlers of one kind have in common

    MinIO, RabbitMQ, Elasticsearch, MariaDB and MySQL are reached with the
    account that a secret of the middleware's namespace holds, and each has a
    function that creates or updates a request and one that deletes it.  The
    class states what the controller relies on: that the account is read before
    anything else, that a request cannot be served without it, and that there is
    nothing to delete once the secret is gone. *)

From S2P Require Import Prelude Effects Apr World.

(** The account in a secret. *)
Definition account_in (secret : Secret) : string * string :=
  (default "" (sec_Data secret !! "username"), default "" (sec_Data secret !! "password")).
Definition find_account (namespace name : string) : io (res (string * string)) :=
  let? secret := k8s_call (GetSecret namespace name) in
  Ret (Ok (account_in secret)).

Lemma find_account_one_call ns name tr out : runs (find_account ns name) tr out -> length tr = 1.
Proof.
  intros (r & tr' & -> & H)%runs_inv. destruct r; cbn in H; by apply runs_inv in H as [-> _].
Qed.

Definition answered (e : gerr) (m : io (res unit)) : Prop :=
  if IsNotFound e then m = Ret (Ok tt) else exists e', m = Ret (Err e').
Class Provisioner (create delete : MiddlewareRequest -> io (res unit)) : Type := {
  prov_namespace : string;
  prov_secret : string;
  prov_create_reads : forall req, exists k, create req = Vis (K8s (GetSecret prov_namespace prov_secret)) k /\
    forall e, exists e', k (Err e) = Ret (Err e') /\ err_kind e' = err_kind e;
  prov_delete_reads : forall req, exists k, delete req = Vis (K8s (GetSecret prov_namespace prov_secret)) k /\
    forall e, answered e (k (Err e)) }.

Section Laws.
Context (create delete : MiddlewareRequest -> io (res unit)) {P : Provisioner create delete}.

(** A run of [create] begins with reading the account, and is over when it
    cannot be read. *)
Lemma create_reads_account req tr out : runs (create req) tr out ->
  exists r tr', tr = ev (K8s (GetSecret prov_namespace prov_secret)) r :: tr' /\
    forall e, r = Err e -> tr' = [] /\ exists e', out = Returned (Err e') /\ err_kind e' = err_kind e.
Proof.
  destruct (prov_create_reads req) as (k & -> & Hk). intros (r & tr' & -> & H)%runs_inv.
  exists r, tr'. split; [done|]. intros e ->. destruct (Hk e) as (e' & Hr & He). cbn in H. rewrite Hr in H.
  apply runs_inv in H as [-> ->]. eauto.
Qed.

(** Deleting a request of a middleware that is not there any more is one call,
    and succeeds. *)
Lemma delete_reads_account req tr out : runs (delete req) tr out ->
  exists r tr', tr = ev (K8s (GetSecret prov_namespace prov_secret)) r :: tr' /\
    forall e, r = Err e -> tr' = [] /\
      if IsNotFound e then out = Returned (Ok tt) else exists e', out = Returned (Err e').
Proof.
  destruct (prov_delete_reads req) as (k & -> & Hk). intros (r & tr' & -> & H)%runs_inv.
  exists r, tr'. split; [done|]. intros e ->. specialize (Hk e). unfold answered in Hk. cbn in H, Hk.
  destruct (IsNotFound e).
  - rewrite Hk in H. by apply runs_inv in H as [-> ->].
  - destruct Hk as [e' Hk]. rewrite Hk in H. apply runs_inv in H as [-> ->]. eauto.
Qed.
End Laws.

(** The laws hold of programs that are written this way by evaluation. *)
Ltac solve_provisioner :=
  intros req; eexists; split; [reflexivity|]; intros e; unfold answered; cbn;
  try destruct (IsNotFound e); eauto.
