(* ===== verification/WorkQueue.v ===== *)
(** * The work queue of a controller

    [controller.go] of pgcluster, redixcluster, the four backup and restore
    controllers and middleware-request under src/cmd/middleware/operator, and
    [app.go] of src/cmd/sys-event/watchers: informers put notifications into
    client-go's work queue, one worker takes them out and calls the handler.

    An entry is a pointer, which is its identity (every notification brings an
    object of its own, and the queue compares pointers), and what it points to; a
    handler may change the object, and then the entry that is put back has the
    changed one.  Shutting the queue down, and entries of another type than the
    only one that is ever put in, are left out. *)

From S2P Require Import Prelude Effects Apr World.

Section Queue.
Context {J : Type}.
(* What handling an entry does: the object after it, and whether it failed. *)
Context (handler : J -> io (J * res unit)).
(* Failed entries that are not put back: the worker calls the handler again
   after a second (deletions in middleware-request, none elsewhere). *)
Context (holds : J -> bool).

Record entry : Type := mkEntry { en_ptr : nat; en_job : J }.

(** The queue, the entries waiting for their delay, the entry the worker holds,
    and the history: what arrived, and each call of the handler with whether it
    succeeded. *)
Record queue_state : Type := mkQueue {
  q_ready : list entry;
  q_waiting : list entry;
  q_running : option entry;
  q_arrived : list entry;
  q_log : list (entry * bool);
  q_crashed : bool }.
Definition queue0 : queue_state := mkQueue [] [] None [] [] false.
Definition after (e : entry) (j : J) : entry := mkEntry (en_ptr e) j.

Inductive queue_step : queue_state -> queue_state -> Prop :=
  (* handleAddObject, handleUpdateObject, handleDeleteObject: Add *)
  | step_enqueue q w c a l e :
      en_ptr e ∉ map en_ptr a ->
      queue_step (mkQueue q w c a l false) (mkQueue (q ++ [e]) w c (a ++ [e]) l false)
  (* Get *)
  | step_get q w a l e :
      queue_step (mkQueue (e :: q) w None a l false) (mkQueue q w (Some e) a l false)
  (* the handler succeeds: Forget, Done *)
  | step_success q w a l e j tr :
      runs (handler (en_job e)) tr (Returned (j, Ok tt)) ->
      queue_step (mkQueue q w (Some e) a l false) (mkQueue q w None a (l ++ [(e, true)]) false)
  (* it fails: AddRateLimited or AddAfter, Done *)
  | step_requeue q w a l e j tr err :
      runs (handler (en_job e)) tr (Returned (j, Err err)) -> holds (en_job e) = false ->
      queue_step (mkQueue q w (Some e) a l false) (mkQueue q (w ++ [after e j]) None a (l ++ [(e, false)]) false)
  (* it fails and the worker goes on with it *)
  | step_retry q w a l e j tr err :
      runs (handler (en_job e)) tr (Returned (j, Err err)) -> holds (en_job e) = true ->
      queue_step (mkQueue q w (Some e) a l false) (mkQueue q w (Some (after e j)) a (l ++ [(e, false)]) false)
  (* the delay of an entry is over *)
  | step_ready q w1 w2 c a l e :
      queue_step (mkQueue q (w1 ++ e :: w2) c a l false) (mkQueue (q ++ [e]) (w1 ++ w2) c a l false)
  (* the handler panics, and the process with it *)
  | step_crash q w a l e tr why :
      runs (handler (en_job e)) tr (Panicked why) ->
      queue_step (mkQueue q w (Some e) a l false) (mkQueue q w (Some e) a l true).

Definition queue_runs : queue_state -> queue_state -> Prop := rtc queue_step.
Definition queue_reaches (s : queue_state) : Prop := queue_runs queue0 s.
End Queue.
Arguments entry J : clear implicits.
Arguments queue_state J : clear implicits.
Arguments queue0 {J}.

(** A handler that leaves the object alone. *)
Definition reading {J} (handler : J -> io (res unit)) (j : J) : io (J * res unit) :=
  let! r := handler j in Ret (j, r).
