(* ===== verification/WorkQueueSpec.v ===== *)
(** * What every controller's queue guarantees, and what it does not *)

From S2P Require Import Prelude Effects Apr World WorkQueue.

Section Spec.
Context {J : Type} (handler : J -> io (J * res unit)) (holds : J -> bool).
Abbreviation step := (queue_step handler holds).
Abbreviation steps := (queue_runs handler holds).
Abbreviation reaches := (queue_reaches handler holds).
Implicit Types s : queue_state J.

Definition held s : list (entry J) := match q_running s with Some e => [e] | None => [] end.
Definition succeeded s : list (entry J) :=
  omap (fun x : entry J * bool => if snd x then Some (fst x) else None) (q_log s).

Lemma steps_ind (I : queue_state J -> Prop) s0 :
  I s0 -> (forall s s', step s s' -> I s -> I s') -> forall s, steps s0 s -> I s.
Proof. intros H0 Hs s Hd. induction Hd; eauto. Qed.

(** One step taken by naming it. *)
Lemma then_step s s1 s2 : reaches s -> step s s1 -> s1 = s2 -> reaches s2.
Proof. intros Hd Hs <-. by eapply rtc_r. Qed.

Lemma succeeded_snoc q w c a l k e b :
  succeeded (mkQueue q w c a (l ++ [(e, b)]) k) = succeeded (mkQueue q w c a l k) ++ (if b then [e] else []).
Proof. unfold succeeded. cbn [q_log]. rewrite omap_app. destruct b; reflexivity. Qed.

(** ** Nothing is lost *)

Definition conserved s : Prop :=
  NoDup (map en_ptr (q_arrived s)) /\
  map en_ptr (q_arrived s) ≡ₚ map en_ptr (q_ready s ++ q_waiting s ++ held s ++ succeeded s).

Lemma conserved_step s s' : step s s' -> conserved s -> conserved s'.
Proof.
  unfold conserved, held. intros Hst [Hn Hp]. split.
  - destruct Hst; cbn in *; try exact Hn. rewrite map_app. by apply NoDup_app_snoc.
  - destruct Hst; rewrite ?succeeded_snoc; cbn in *;
      rewrite ?map_app in *; cbn in *; rewrite ?map_app in *; cbn in *; rewrite Hp; solve_Permutation.
Qed.

Lemma queue_keeps_all s : reaches s -> conserved s.
Proof. revert s. apply steps_ind; [by split; [constructor|]|apply conserved_step]. Qed.

(** C19: A controller's queue loses no notification and handles none twice with
    success: at any moment, what has arrived is, up to order, what is queued,
    what waits for its retry, what the worker holds and what has been handled
    successfully, and no two of them are the same. *)
Theorem queue_conserves s :
  reaches s ->
  NoDup (map en_ptr (q_arrived s)) /\
  map en_ptr (q_arrived s) ≡ₚ map en_ptr (q_ready s ++ q_waiting s ++ held s ++ succeeded s).
Proof.
  apply queue_keeps_all.
Qed.

(** ** Order *)

Definition in_order s : Prop :=
  Forall (fun x => snd x = true) (q_log s) ->
  q_waiting s = [] /\ q_arrived s = map fst (q_log s) ++ held s ++ q_ready s.

(** As long as no call of the handler has failed, notifications are handled
    in the order in which they arrived. *)
Theorem queue_fifo s :
  reaches s -> Forall (fun x => snd x = true) (q_log s) ->
  q_arrived s = map fst (q_log s) ++ held s ++ q_ready s.
Proof.
  intros Hr Hok.
  assert (H : in_order s); [|by apply H].
  clear Hok. revert s Hr. apply (steps_ind in_order); [done|]. intros s s' Hst IH. unfold in_order, held in *.
  destruct Hst; cbn in *; rewrite ?Forall_app, ?map_app; intros Hok.
  - destruct (IH Hok) as [-> ->]. split; [done|]. by rewrite <- !app_assoc.
  - destruct (IH Hok) as [-> ->]. done.
  - destruct Hok as [Hok _]. destruct (IH Hok) as [-> ->]. split; [done|]. cbn. by rewrite <- app_assoc.
  - destruct Hok as [_ Hok]. by inversion_clear Hok.
  - destruct Hok as [_ Hok]. by inversion_clear Hok.
  - destruct (IH Hok) as [Hw _]. by destruct w1.
  - destruct (IH Hok) as [-> ->]. done.
Qed.

(** ** Retries *)

(** After a failure of an entry that the worker holds on to, the next call is
    for the same entry. *)
Definition last_failed s : Prop :=
  forall l e, q_log s = l ++ [(e, false)] -> holds (en_job e) = true ->
  exists e', q_running s = Some e' /\ en_ptr e' = en_ptr e.
Definition holding_repeats s : Prop :=
  forall l1 e next b l2, q_log s = l1 ++ (e, false) :: (next, b) :: l2 -> holds (en_job e) = true ->
  en_ptr next = en_ptr e.

Lemma holding_step s s' : step s s' -> last_failed s /\ holding_repeats s -> last_failed s' /\ holding_repeats s'.
Proof.
  unfold last_failed, holding_repeats. intros Hst [H1 H2].
  assert (Hlog : q_log s' = q_log s \/ exists e b, q_running s = Some e /\ q_log s' = q_log s ++ [(e, b)]).
  { destruct Hst; cbn; eauto. }
  assert (Hrep : holding_repeats s').
  { unfold holding_repeats. destruct Hlog as [->|(e0 & b0 & Hc & ->)]; [done|].
    intros l1 e next b l2 Heq Hdel. destruct l2 as [|x l2 _] using rev_ind.
    - change (l1 ++ [(e, false); (next, b)]) with (l1 ++ [(e, false)] ++ [(next, b)]) in Heq.
      rewrite app_assoc in Heq. apply app_inj_tail in Heq as [Heq [= -> ->]].
      destruct (H1 _ _ Heq Hdel) as (e' & He' & Hp). congruence.
    - rewrite !app_comm_cons, app_assoc in Heq. apply app_inj_tail in Heq as [Heq _]. eauto. }
  split; [|exact Hrep]. clear Hlog Hrep.
  destruct Hst; cbn in *; try exact H1; intros l0 e0 Heq Hdel.
  - by destruct (H1 _ _ Heq Hdel) as (? & [=] & _).
  - by apply app_inj_tail in Heq as [_ [=]].
  - apply app_inj_tail in Heq as [_ [= ->]]. congruence.
  - apply app_inj_tail in Heq as [_ [= ->]]. eauto.
Qed.
Lemma holding_is_repeated s : reaches s -> holding_repeats s.
Proof.
  intros Hd. assert (last_failed s /\ holding_repeats s) as [_ H]; [|exact H].
  revert s Hd. apply steps_ind; [|apply holding_step].
  split; [by intros [] ? ?|by intros [] ? ? ? ? ?].
Qed.

(** Jobs that cannot succeed, before and after a failure. *)
Definition hopeless (P : J -> Prop) : Prop :=
  forall j, P j -> forall tr j' r, runs (handler j) tr (Returned (j', r)) -> P j' /\ exists e, r = Err e.

(** One that the worker holds on to is all it does from then on. *)
Definition stuck_on (P : J -> Prop) (p : nat) (l : list (entry J * bool)) s : Prop :=
  (exists e, q_running s = Some e /\ en_ptr e = p /\ P (en_job e)) /\
  exists es, q_log s = l ++ map (fun e => (e, false)) es /\ Forall (fun e => en_ptr e = p) es.
Lemma stuck_step P p l s s' :
  hopeless P -> (forall j, P j -> holds j = true) -> step s s' -> stuck_on P p l s -> stuck_on P p l s'.
Proof.
  unfold stuck_on. intros Hh Hho Hst [(e0 & Hc & Hp & HP) (es & Hl & Hes)].
  destruct Hst; cbn in *; simplify_eq; try (split; [by eauto|by exists es]).
  - destruct (Hh _ HP _ _ _ H) as [_ [e [=]]].
  - rewrite (Hho _ HP) in H0. discriminate.
  - destruct (Hh _ HP _ _ _ H) as [HP' _]. split; [by exists (after e0 j)|].
    exists (es ++ [e0]). rewrite map_app, app_assoc. split; [done|]. by apply Forall_app_2; [|constructor].
Qed.
Lemma stuck_forever P p s s' :
  hopeless P -> (forall j, P j -> holds j = true) ->
  (exists e, q_running s = Some e /\ en_ptr e = p /\ P (en_job e)) ->
  steps s s' -> stuck_on P p (q_log s) s'.
Proof.
  intros Hh Hho Hc. revert s'. apply steps_ind; [|by intros; eapply stuck_step].
  split; [done|]. exists []. by rewrite app_nil_r.
Qed.

(** Where a pointer can be, and what is known of the hopeless ones. *)
Definition hopeless_kept (P : J -> Prop) s : Prop :=
  conserved s /\
  forall e, e ∈ q_arrived s -> P (en_job e) ->
    (forall e', e' ∈ q_ready s ++ q_waiting s ++ held s -> en_ptr e' = en_ptr e -> P (en_job e')) /\
    (forall e', e' ∈ succeeded s -> en_ptr e' <> en_ptr e).
Lemma pending_arrived s e :
  conserved s -> e ∈ q_ready s ++ q_waiting s ++ held s ++ succeeded s -> en_ptr e ∈ map en_ptr (q_arrived s).
Proof. intros [_ Hp] He. rewrite Hp. by apply list_elem_of_fmap_2. Qed.

Lemma hopeless_step P s s' : hopeless P -> step s s' -> hopeless_kept P s -> hopeless_kept P s'.
Proof.
  intros Hh Hst [Hc Hk]. pose proof (pending_arrived s) as Ha. split; [by eapply conserved_step|].
  unfold held in *. destruct Hst; rewrite ?succeeded_snoc; cbn in *; intros e0 He0 HP.
  - apply elem_of_app in He0 as [He0|He0%list_elem_of_singleton].
    + assert (Hne : en_ptr e <> en_ptr e0) by (intros E; apply H; rewrite E; by apply list_elem_of_fmap_2).
      destruct (Hk _ He0 HP) as [Hk1 Hk2]. split; [|done]. intros e' He'. specialize (Hk1 e'). set_solver.
    + subst e0. split; intros e' He'; [|intros E; apply H; rewrite <- E; apply Ha; [done|set_solver]].
      intros E. assert (e' = e \/ en_ptr e' ∈ map en_ptr a) as [->|Hin]; [|done|by rewrite E in Hin].
      specialize (Ha e' Hc). set_solver.
  - destruct (Hk _ He0 HP) as [Hk1 Hk2]. split; [|done]. intros e' He'. apply Hk1. set_solver.
  - destruct (Hk _ He0 HP) as [Hk1 Hk2]. split; [intros e' He'; apply Hk1; set_solver|].
    intros e' [He'|He'%list_elem_of_singleton]%elem_of_app; [by apply Hk2|]. subst e'. intros E.
    assert (HPe : P (en_job e)) by (apply Hk1; [set_solver|done]).
    destruct (Hh _ HPe _ _ _ H) as [_ [err [=]]].
  - destruct (Hk _ He0 HP) as [Hk1 Hk2]. split; [|intros e'; rewrite app_nil_r; apply Hk2]. intros e' He' E.
    assert (e' = after e j \/ e' ∈ q ++ w) as [->|He2] by set_solver; [|apply Hk1; [set_solver|done]].
    assert (HPe : P (en_job e)) by (apply Hk1; [set_solver|done]). by destruct (Hh _ HPe _ _ _ H).
  - destruct (Hk _ He0 HP) as [Hk1 Hk2]. split; [|intros e'; rewrite app_nil_r; apply Hk2]. intros e' He' E.
    assert (e' = after e j \/ e' ∈ q ++ w) as [->|He2] by set_solver; [|apply Hk1; [set_solver|done]].
    assert (HPe : P (en_job e)) by (apply Hk1; [set_solver|done]). by destruct (Hh _ HPe _ _ _ H).
  - destruct (Hk _ He0 HP) as [Hk1 Hk2]. split; [|done]. intros e' He'. apply Hk1. set_solver.
  - exact (Hk _ He0 HP).
Qed.

(** A notification whose handler cannot succeed is never dropped: it stays in
    the queue, in its delay or with the worker, however long the controller
    runs, and no call of the handler for it has succeeded. *)
Theorem hopeless_is_never_dropped P e s :
  hopeless P -> reaches s -> e ∈ q_arrived s -> P (en_job e) ->
  (exists e', e' ∈ q_ready s ++ q_waiting s ++ held s /\ en_ptr e' = en_ptr e) /\
  forall e', e' ∈ succeeded s -> en_ptr e' <> en_ptr e.
Proof.
  intros Hh Hr Hin HP.
  assert (Hinv : hopeless_kept P s).
  { revert s Hr Hin. intros s Hr _. revert s Hr. apply steps_ind; [|by intros s s' Hst; apply hopeless_step].
    split; [by split; [constructor|]|]. intros e0 He0. by apply not_elem_of_nil in He0. }
  destruct Hinv as [[_ Hperm] Hk]. destruct (Hk e Hin HP) as [_ Hs]. split; [|done].
  assert (Hp : en_ptr e ∈ map en_ptr (q_ready s ++ q_waiting s ++ held s ++ succeeded s)).
  { rewrite <- Hperm. by apply list_elem_of_fmap_2. }
  apply list_elem_of_fmap in Hp as (e' & Hptr & He'). exists e'. split; [|done].
  rewrite !elem_of_app in He'. specialize (Hs e'). rewrite !elem_of_app. naive_solver.
Qed.

(** ** Nothing gets stuck without a reason *)

(** The entries that are still to be handled, and that one of them can be. *)
Definition pending s : list (entry J) := q_ready s ++ q_waiting s ++ held s.
Definition can_succeed (e : entry J) : Prop := exists j tr, runs (handler (en_job e)) tr (Returned (j, Ok tt)).

(** One entry further: it is made ready, taken out and handled. *)
Lemma handle_one s :
  q_crashed s = false -> Forall can_succeed (pending s) -> pending s <> [] ->
  exists s', steps s s' /\ q_crashed s' = false /\ q_arrived s' = q_arrived s /\
    Forall can_succeed (pending s') /\ length (pending s') < length (pending s).
Proof.
  assert (Hrun : forall q w e a l, can_succeed e ->
    exists l', step (mkQueue q w (Some e) a l false) (mkQueue q w None a l' false)).
  { intros q w e a l (j & tr & H). eexists. by eapply step_success. }
  destruct s as [q w c a l k]. cbn. intros -> Hall Hne. unfold pending, held in *. cbn in *. destruct c as [e|].
  - assert (He : can_succeed e) by (rewrite !Forall_app, Forall_singleton in Hall; tauto).
    destruct (Hrun q w e a l He) as (l' & Hst). eexists. split; [by apply rtc_once|]. cbn.
    rewrite !app_nil_r, !length_app. rewrite !Forall_app in *. split_and!; [done|done|tauto|tauto|cbn; lia].
  - rewrite app_nil_r in *. destruct q as [|e q].
    + destruct w as [|e w]; [done|]. apply Forall_cons in Hall as [He Hall].
      destruct (Hrun [] w e a l He) as (l' & Hst). eexists. split.
      { eapply rtc_l; [by apply (step_ready _ _ [] [] w)|]. eapply rtc_l; [apply step_get|]. by apply rtc_once. }
      cbn. rewrite app_nil_r. split_and!; [done|done|done|lia].
    + apply Forall_cons in Hall as [He Hall]. destruct (Hrun q w e a l He) as (l' & Hst). eexists. split.
      { eapply rtc_l; [apply step_get|]. by apply rtc_once. }
      cbn. rewrite app_nil_r. split_and!; [done|done|done|lia].
Qed.

(** A controller can always get to the end of its work: as long as the process
    lives and each entry that is still to be handled can be handled, there is a
    run after which nothing is left. *)
Lemma queue_drains s :
  q_crashed s = false -> Forall can_succeed (pending s) ->
  exists s', steps s s' /\ q_crashed s' = false /\ q_arrived s' = q_arrived s /\ pending s' = [].
Proof.
  remember (length (pending s)) as n eqn:En. revert s En.
  induction n as [n IH] using lt_wf_ind. intros s -> Hc Hall.
  destruct (decide (pending s = [])) as [E|Hne].
  { exists s. split_and!; [apply rtc_refl|done..]. }
  destruct (handle_one s Hc Hall Hne) as (s1 & H1 & Hc1 & Ha1 & Hall1 & Hl).
  destruct (IH _ Hl s1 eq_refl Hc1 Hall1) as (s2 & H2 & Hc2 & Ha2 & Hp).
  exists s2. split_and!; [by etransitivity|done|congruence|done].
Qed.

(** Then everything that arrived has been handled successfully, once. *)
Lemma drained_succeeded s :
  conserved s -> pending s = [] -> map en_ptr (q_arrived s) ≡ₚ map en_ptr (succeeded s).
Proof.
  unfold pending. intros [_ ->] [-> [-> ->]%app_nil]%app_nil. done.
Qed.

(** A state that is not the end of the process stays so until its last step. *)
Lemma step_alive s s' : step s s' -> q_crashed s = false.
Proof. by destruct 1. Qed.

(** ** A retry can overtake *)

(** Two notifications [x] and [y], handled so: [x] fails and waits; [y] arrives
    and succeeds; [x] is tried again and succeeds. *)
Lemma retry_overtakes (x y : entry J) j tr1 tr2 tr3 err j2 j3 :
  en_ptr x <> en_ptr y -> holds (en_job x) = false ->
  runs (handler (en_job x)) tr1 (Returned (j, Err err)) ->
  runs (handler (en_job y)) tr2 (Returned (j2, Ok tt)) ->
  runs (handler j) tr3 (Returned (j3, Ok tt)) ->
  reaches (mkQueue [] [] None [x; y] [(x, false); (y, true); (after x j, true)] false).
Proof.
  intros Hne Hh H1 H2 H3. set (x' := after x j).
  assert (S1 : reaches (mkQueue [x] [] None [x] [] false)).
  { eapply then_step; [apply rtc_refl|apply (step_enqueue _ _ [] [] None [] [] x), not_elem_of_nil|done]. }
  assert (S2 : reaches (mkQueue [] [] (Some x) [x] [] false)) by (eapply then_step; [exact S1|apply step_get|done]).
  assert (S3 : reaches (mkQueue [] [x'] None [x] [(x, false)] false)).
  { eapply then_step; [exact S2|by apply (step_requeue _ _ [] [] [x] [] x j tr1 err)|done]. }
  assert (S4 : reaches (mkQueue [y] [x'] None [x; y] [(x, false)] false)).
  { eapply then_step; [exact S3|apply (step_enqueue _ _ [] [x'] None [x] _ y)|done].
    cbn. by rewrite list_elem_of_singleton. }
  assert (S5 : reaches (mkQueue [] [x'] (Some y) [x; y] [(x, false)] false))
    by (eapply then_step; [exact S4|apply step_get|done]).
  assert (S6 : reaches (mkQueue [] [x'] None [x; y] [(x, false); (y, true)] false)).
  { eapply then_step; [exact S5|by apply (step_success _ _ [] [x'] [x; y] [(x, false)] y j2 tr2)|done]. }
  assert (S7 : reaches (mkQueue [x'] [] None [x; y] [(x, false); (y, true)] false)).
  { eapply then_step; [exact S6|apply (step_ready _ _ [] [] [] None)|done]. }
  assert (S8 : reaches (mkQueue [] [] (Some x') [x; y] [(x, false); (y, true)] false))
    by (eapply then_step; [exact S7|apply step_get|done]).
  eapply then_step; [exact S8|by apply (step_success _ _ [] [] [x; y] _ x' j3 tr3)|done].
Qed.
End Spec.
