(* ===== verification/Postgres.v ===== *)
(** * The PostgreSQL client: [src/pkg/postgres/client.go] *)

From S2P Require Import Prelude Effects Apr World.

Definition PG_MASTER_HOST : string := "citus-0.citus-headless".
Definition PG_PORT : Z := 5432.

(** ** Builder and client *)

Definition NewClientBuidler (user password host : string) (port : Z) : PgTarget :=
  mkTarget user password host port "postgres".
Definition WithDatabase (b : PgTarget) (db : string) : PgTarget :=
  mkTarget (tg_user b) (tg_password b) (tg_host b) (tg_port b) db.

(** The connection string handed to the driver. *)
Definition DSN (t : PgTarget) : string :=
  "postgres://" +:+ tg_user t +:+ ":" +:+ tg_password t +:+ "@" +:+ tg_host t +:+ ":" +:+
  itoa (tg_port t) +:+ "/" +:+ tg_database t +:+ "?sslmode=disable".

Record client : Set := mkClient { cl_DB : nat; cl_builder : PgTarget }.

Definition Build (b : PgTarget) : io (res client) :=
  let? conn := pg_call (PgConnect b) in
  Ret (Ok (mkClient conn b)).

Definition Close (c : client) : io unit := pg_call (PgClose (cl_DB c)).

Definition ExecContext (c : client) (sql : string) : io (res unit) :=
  pg_call (PgExec (cl_DB c) sql).
Definition NamedQueryContext (c : client) (sql : string) (args : list (string * string)) : io (res Rows) :=
  pg_call (PgQuery (cl_DB c) sql args).

(** [c.Close()] first, then reconnect; on failure [c.DB] is the closed handle. *)
Definition SwitchDatabase (c : client) (db : string) : io (client * res unit) :=
  do! Close c;
  let b := WithDatabase (cl_builder c) db in
  let! r := Build b in
  match r with
  | Err e => Ret (mkClient (cl_DB c) b, Err e)
  | Ok c' => Ret (mkClient (cl_DB c') b, Ok tt)
  end.

(** ** Databases *)

Definition find_database_sql : string :=
  "select datname as name from pg_catalog.pg_database where datname=:name ORDER BY 1".

Definition findDatabase (c : client) (databaseName : string) : io (res (option string)) :=
  if String.eqb databaseName "" then Ret (Err (newErr "databaseName is empty"))
  else
    let? rows := NamedQueryContext c find_database_sql [("name", databaseName)] in
    with_defer (pg_call (PgRowsClose (rows_id rows)))
      match rows_data rows with
      | [] => Ret (Ok None)
      | Err e :: _ => Ret (Err e)
      | Ok name :: _ => Ret (Ok (Some name))
      end.

Definition create_database_sql (db owner : string) : string :=
  ("create database " +:+ db) +:+ (if String.eqb owner "" then "" else " owner " +:+ owner).

Definition CreateDatabaseIfNotExists (c : client) (db owner : string) : io (res unit) :=
  let? database := findDatabase c db in
  if bool_decide (database = Some db) then Ret (Ok tt)
  else ExecContext c (create_database_sql db owner).

Definition list_by_owner_sql : string :=
  "select datname as name from pg_catalog.pg_database where pg_catalog.pg_get_userbyid(datdba)=:owner".

(** [for rows.Next() { StructScan; append }] *)
Fixpoint scan_rows (l : list (res string)) (databases : list string) : res (list string) :=
  match l with
  | [] => Ok databases
  | Err e :: _ => Err e
  | Ok name :: l' => scan_rows l' (databases ++ [name])
  end.

Definition ListDatabaseByOwner (c : client) (owner : string) : io (res (list string)) :=
  let? rows := NamedQueryContext c list_by_owner_sql [("owner", owner)] in
  with_defer (pg_call (PgRowsClose (rows_id rows))) (Ret (scan_rows (rows_data rows) [])).

Definition drop_database_sql (db : string) : string := "drop database if exists " +:+ db.
Definition terminate_sql (pid : string) : string := "SELECT pg_terminate_backend(" +:+ pid +:+ ")".

(** The back ends connected to the database are terminated one by one while
    the result set is still open, then the database is dropped. *)
Definition DropDatabase (c : client) (db : string) : io (res unit) :=
  let? rows := NamedQueryContext c "SELECT pid from pg_stat_activity where datname=:db" [("db", db)] in
  with_defer (pg_call (PgRowsClose (rows_id rows)))
    (do? for_each (fun row => match row with
                              | Err e => Ret (Err e)
                              | Ok pid => ExecContext c (terminate_sql pid)
                              end) (rows_data rows);
     ExecContext c (drop_database_sql db)).

(** ** Extensions, scripts, citus *)

Definition extensionMap (e : string) : option string :=
  if String.eqb e "pgvector" then Some "vector"
  else if String.eqb e "vector" then Some "vector"
  else if String.eqb e "vectors" then Some "vectors"
  else if String.eqb e "pgvecto.rs" then Some "vectors"
  else None.

Definition create_extension_sql (e : string) : string :=
  "create extension if not exists " +:+ default e (extensionMap e) +:+ " cascade;".

(** [utils.AggregateErrs]: the texts of several errors joined by tabs. *)
Definition AggregateErrs (errs : list gerr) : res unit :=
  match errs with
  | [] => Ok tt
  | [e] => Err e
  | _ => Err (newErr (join (String (Ascii.ascii_of_nat 9) "") (map err_msg errs)))
  end.

(** Every extension is tried; the errors are collected. *)
Definition CreateExtensions (c : client) (extensions : list string) : io (res unit) :=
  let! errs := fold_all (fun errs e =>
    let! r := ExecContext c (create_extension_sql e) in
    Ret (errs ++ match r with Ok _ => [] | Err e => [e] end)) extensions [] in
  Ret (AggregateErrs errs).

Definition script_command (databaseName dbUsername cmd : string) : string :=
  let cmd := replace_all cmd "$databasename" databaseName in
  let cmd := replace_all cmd "$dbusername" dbUsername in
  if has_suffix ";" cmd then cmd else cmd +:+ ";".
Definition script_text (databaseName dbUsername : string) (scripts : list string) : string :=
  fold_left String.append (map (script_command databaseName dbUsername) scripts) "".

Definition ExecuteScript (c : client) (databaseName dbUsername : string) (scripts : list string)
  : io (res unit) :=
  ExecContext c (script_text databaseName dbUsername scripts).

Definition create_citus_sql : string := "create extension if not exists citus".
Definition add_node_sql : string := "SELECT * from citus_add_node(:node_addr, :node_port);".
Definition set_master_sql : string := "SELECT citus_set_coordinator_host(:node_addr, :node_port);".
Definition node_args (nodeAddr : string) (port : Z) : list (string * string) :=
  [("node_addr", nodeAddr); ("node_port", itoa port)].

Definition CreateCitus (c : client) : io (res unit) := ExecContext c create_citus_sql.

(** The result sets of these two calls are dropped without being closed. *)
Definition AddWorkerNode (c : client) (nodeAddr : string) (port : Z) : io (res unit) :=
  let? _ := NamedQueryContext c add_node_sql (node_args nodeAddr port) in
  Ret (Ok tt).
Definition SetMasterNode (c : client) (nodeAddr : string) (port : Z) : io (res unit) :=
  let? _ := NamedQueryContext c set_master_sql (node_args nodeAddr port) in
  Ret (Ok tt).
Definition Rebalance (c : client) : io (res unit) :=
  ExecContext c "select citus_rebalance_start()".

(** ** Roles *)

Definition create_role_sql (user pwd : string) : string :=
  "create role " +:+ user +:+ " with login password '" +:+ pwd +:+ "'".
Definition alter_role_sql (user pwd : string) : string :=
  "alter role " +:+ user +:+ " with password '" +:+ pwd +:+ "'".
Definition connection_limit_sql (user : string) : string :=
  "alter role " +:+ user +:+ " connection limit 30".
Definition grant_files_sql (user : string) : string :=
  "grant pg_write_server_files, pg_read_server_files to " +:+ user.

Definition CreateOrUpdateUser (c : client) (user pwd : string) : io (res unit) :=
  let? rows := NamedQueryContext c "select usename from pg_catalog.pg_user where usename=:user"
    [("user", user)] in
  with_defer (pg_call (PgRowsClose (rows_id rows)))
    (do? ExecContext c (match rows_data rows with
                        | _ :: _ => alter_role_sql user pwd
                        | [] => create_role_sql user pwd
                        end);
     do? ExecContext c (connection_limit_sql user);
     ExecContext c (grant_files_sql user)).

Definition create_admin_sql (user pwd : string) : string :=
  "create role " +:+ user +:+ " with superuser login password '" +:+ pwd +:+ "'".
Definition alter_admin_sql (user pwd : string) : string :=
  "alter role " +:+ user +:+ " with superuser password '" +:+ pwd +:+ "'".
Definition demote_sql (user : string) : string := "alter role " +:+ user +:+ " with nosuperuser".

Definition ChangeAdminUser (c : client) (olduser newuser newpwd : string) : io (res unit) :=
  let? roles := NamedQueryContext c "select rolname from pg_catalog.pg_roles where rolname=:role"
    [("role", newuser)] in
  with_defer (pg_call (PgRowsClose (rows_id roles)))
    (do? ExecContext c (match rows_data roles with
                        | [] => create_admin_sql newuser newpwd
                        | _ :: _ => alter_admin_sql newuser newpwd
                        end);
     if negb (String.eqb olduser newuser) then ExecContext c (demote_sql olduser)
     else Ret (Ok tt)).

(** [DB.QueryContext]; its result set is never closed either. *)
Definition DeleteUser (c : client) (user : string) : io (res unit) :=
  let? _ := pg_call (PgQuery (cl_DB c) ("drop role if exists " +:+ user) []) in
  Ret (Ok tt).

(** ** Code that works on a client which [SwitchDatabase] may replace *)

Definition cio (A : Type) : Type := client -> io (client * res A).
Definition cret {A} (a : A) : cio A := fun c => Ret (c, Ok a).
Definition cbind {A B} (m : cio A) (f : A -> cio B) : cio B := fun c =>
  let! (c', r) := m c in
  match r with Ok a => f a c' | Err e => Ret (c', Err e) end.
Definition lift {A} (f : client -> io (res A)) : cio A := fun c =>
  let! r := f c in Ret (c, r).
Definition cwhen (b : bool) (m : cio unit) : cio unit := if b then m else cret tt.
Fixpoint cfor_each {A} (body : A -> cio unit) (l : list A) : cio unit :=
  match l with
  | [] => cret tt
  | x :: l' => cbind (body x) (fun _ => cfor_each body l')
  end.

(** [client, err := builder.Build(); ...; defer client.Close(); body]: what is
    closed is the connection the client has by then; the bodies can panic only
    before they switch to another. *)
Definition with_client {A} (b : PgTarget) (body : cio A) : io (res A) :=
  let? c := Build b in
  let! (c', r) := on_panic (Close c) (body c) in
  do! Close c';
  Ret r.
