(* ===== verification/Citus.v ===== *)
(** * The citus workload: [src/pkg/workload/citus] and the PVC lookup of
    [src/pkg/workload/utils/tools.go] *)

From S2P Require Import Prelude Effects Apr World Postgres.

(** ** [templates.go] *)

Definition CitusAdminSecretName : string := "pgcluster-admin".
Definition CitusVolumeName : string := "pgdata".
Definition CitusBackupVolumeName : string := "pgbackup".
Definition CitusHeadlessServiceName : string := "citus-headless".
Definition PGClusterName : string := "citus".
Definition PGClusterNamespace : string := "os-platform".
Definition DefaultPGAdminUser : string := "olares".
Definition PGClusterBackupName : string := "citus-backup".
Definition PGClusterRestoreName : string := "citus-restore".
Definition CitusImage : string := "beclab/citus:11.3".

Definition PGNodeHBATrust : string := "
local   all             all                                     trust
host    all             all             127.0.0.1/32            trust
host    all             all             ::1/128                 trust
local   replication     all                                     trust
host    replication     all             127.0.0.1/32            trust
host    replication     all             ::1/128                 trust
".
Definition PGNodeHBAScram : string := "
host all all all scram-sha-256
".

Definition nl : Ascii.ascii := Ascii.ascii_of_nat 10.
Definition meta (name : string) (labels : gmap string string) : ObjectMeta :=
  mkMeta name "" labels ∅.

Definition CitusStatefulset : StatefulSet := {|
  sts_meta := meta PGClusterName {["managed-by" := "citus-operator"]};
  sts_Replicas := Some 1%Z;
  sts_Template := {|
    pt_Labels := list_to_map [("app", "citus"); ("app.kubernetes.io/name", "citus");
                              ("app.bytetrade.io/middleware", "true")];
    pt_Containers := [ {|
      c_Name := "postgres";
      c_Image := CitusImage;
      c_ImagePullPolicy := "IfNotPresent";
      c_Command := [];
      c_Env := [ mkEnv "POD_NAME" "" (Some (FromField "metadata.name"));
                 mkEnv "POSTGRES_PASSWORD" ""
                   (Some (FromSecret (Some (mkSel CitusAdminSecretName "password"))));
                 mkEnv "POSTGRES_USER" ""
                   (Some (FromSecret (Some (mkSel CitusAdminSecretName "user"))));
                 mkEnv "PGDATA" "/var/lib/postgresql/data/$(POD_NAME)" None ];
      c_VolumeMounts := [ (CitusVolumeName, "/var/lib/postgresql/data", "");
                          (CitusBackupVolumeName, "/backup", "") ];
      c_Resources := None |} ];
    pt_Volumes := [ mkVolume CitusVolumeName (Some ""); mkVolume CitusBackupVolumeName (Some "") ];
    pt_PriorityClassName := "" |} |}.

Definition CitusAdminSecret : Secret :=
  mkSecret CitusAdminSecretName "" (list_to_map [("user", ""); ("password", "")]).

Definition CitusHeadlessService : Service := {|
  svc_Name := CitusHeadlessServiceName;
  svc_Namespace := "";
  svc_ClusterIP := "None";
  svc_Selector := list_to_map [("app", "citus"); ("app.kubernetes.io/name", "citus")];
  svc_Ports := [5432%Z] |}.

Definition ClusterBackup : PGClusterBackup := {|
  pgb_meta := meta PGClusterBackupName ∅;
  pgb_ClusterName := PGClusterName;
  pgb_VolumeSpec := Some "";
  pgb_Status := mkBackupStatus StateNew None None "" "" |}.

Definition ClusterRestore : PGClusterRestore := {|
  pgr_meta := meta PGClusterRestoreName ∅;
  pgr_ClusterName := PGClusterName;
  pgr_BackupName := PGClusterBackupName;
  pgr_Status := mkRestoreStatus StateNew None None "" |}.

Definition job_template (name container command : string) : Job := {|
  job_Name := name; job_Namespace := ""; job_UID := "";
  job_Active := 0; job_Succeeded := 0; job_Failed := 0;
  job_Volumes := [];
  job_Container := {|
    c_Name := container;
    c_Image := CitusImage;
    c_ImagePullPolicy := "IfNotPresent";
    c_Command := ["sh"; "-c"; command];
    c_Env := [mkEnv "PG_HOST" "citus-0.citus-headless" None; mkEnv "PG_PORT" "5432" None];
    c_VolumeMounts := [];
    c_Resources := None |} |}.
Definition BackupJob : Job := job_template "pgc-backup-job" "backup"
  "pg_dumpall -U ${PGUSER} -h ${PG_HOST} -p ${PG_PORT} -f ${BACKUP_FILENAME}".
Definition RestoreJob : Job := job_template "pgc-restore-job" "restore"
  "psql -U ${PGUSER} -h ${PG_HOST} -p ${PG_PORT} -f ${BACKUP_FILENAME}".

(** ** [helper.go]: names *)

Definition GetDatabaseName (namespace db : string) : string :=
  replace_char "-"%char "_"%char (namespace +:+ "_" +:+ db).

(** Host name of the [i]-th node behind the headless service. *)
Definition node_host (sts : StatefulSet) (i : Z) : string :=
  sts_Name sts +:+ "-" +:+ itoa i +:+ ".citus-headless." +:+ sts_Namespace sts.

(** ** [helper.go]: creating the cluster *)

(** [workload/utils.GetUserDBPVCName] *)
Definition GetUserDBPVCName (namespace : string) : io (res string) :=
  let? bfl := k8s_call (GetStatefulSet namespace "bfl") in
  match om_Annotations (sts_meta bfl) !! "dbdata_hostpath" with
  | Some pvc => Ret (Ok pvc)
  | None => Ret (Err (newErr "cannot find user db data pvc, dbdata_hostpath"))
  end.

(** The host directory of the data of [user]'s middleware. *)
Definition data_path (user namespace pvcName : string) : io (res string) :=
  if String.eqb user "system" then
    let? volumeName := k8s_call (GetPVC namespace pvcName) in
    let? hostPath := k8s_call (GetPV volumeName) in
    let! path := deref hostPath in
    Ret (Ok path)
  else GetUserDBPVCName ("user-space-" +:+ user).

Definition with_namespace (m : ObjectMeta) (ns : string) : ObjectMeta :=
  mkMeta (om_Name m) ns (om_Labels m) (om_Annotations m).
Definition with_volumes (t : PodTemplate) (v : list Volume) : PodTemplate :=
  mkPodTemplate (pt_Labels t) (pt_Containers t) v (pt_PriorityClassName t).
Definition with_containers (t : PodTemplate) (c : list Container) : PodTemplate :=
  mkPodTemplate (pt_Labels t) c (pt_Volumes t) (pt_PriorityClassName t).
Definition with_env (c : Container) (env : list EnvVar) : Container :=
  mkContainer (c_Name c) (c_Image c) (c_ImagePullPolicy c) (c_Command c) env
    (c_VolumeMounts c) (c_Resources c).
Definition with_image (c : Container) (image : string) : Container :=
  mkContainer (c_Name c) image (c_ImagePullPolicy c) (c_Command c) (c_Env c)
    (c_VolumeMounts c) (c_Resources c).

(** The two host paths of the data and backup volumes. *)
Definition set_host_paths (dataVol backupVol data backup : string) (vols : list Volume) : list Volume :=
  map (fun v =>
         let v := if String.eqb (vol_Name v) dataVol then mkVolume (vol_Name v) (Some data) else v in
         if String.eqb (vol_Name v) backupVol then mkVolume (vol_Name v) (Some backup) else v) vols.

Definition GetPGClusterDefineByUser (user namespace : string) (clusterDef : PGCluster)
  : io (res StatefulSet) :=
  if String.eqb user "" then Ret (Err (newErr "user name is empty"))
  else
    let? pvc := data_path user namespace "citus-data-pvc" in
    let storage := pgs_BackupStorage (pgc_Spec clusterDef) in
    let backup := if String.eqb storage "" then pvc +:+ "/pgbackup" else storage in
    let t := sts_Template CitusStatefulset in
    let t := with_volumes t (set_host_paths CitusVolumeName CitusBackupVolumeName
                               (pvc +:+ "/pgdata") backup (pt_Volumes t)) in
    Ret (Ok (mkSts (with_namespace (sts_meta CitusStatefulset) namespace)
               (sts_Replicas CitusStatefulset)
               (mkPodTemplate (pt_Labels t) (pt_Containers t) (pt_Volumes t)
                  "system-cluster-critical"))).

Definition genPassword : io (res string) :=
  let? randPwd := sys_call (RandBytes 16) in
  Ret (Ok (hex_encode randPwd)).

Definition GetPGClusterDBUserSecretDefine (namespace user password : string) : io (res Secret) :=
  let? pwd := (if String.eqb password "" then genPassword else Ret (Ok password)) in
  Ret (Ok (mkSecret (sec_Name CitusAdminSecret) namespace
             (<["password" := pwd]> (<["user" := user]> (sec_Data CitusAdminSecret))))).

Definition createSecretForPG (namespace : string) : io (res SecretKeySelector) :=
  let? secret := found (k8s_call (GetSecret namespace CitusAdminSecretName)) in
  match secret with
  | Some s => Ret (Ok (mkSel (sec_Name s) "password"))
  | None =>
      let? s := GetPGClusterDBUserSecretDefine namespace DefaultPGAdminUser "" in
      do? k8s_call (CreateSecret namespace s);
      Ret (Ok (mkSel (sec_Name s) "password"))
  end.

(** The environment of a new cluster's postgres container. *)
Definition create_env (spec : PGClusterSpec) (e : EnvVar) : EnvVar :=
  if String.eqb (env_Name e) "POSTGRES_USER" then mkEnv (env_Name e) (pgs_AdminUser spec) None
  else if String.eqb (env_Name e) "POSTGRES_PASSWORD" then
    match pv_ValueFrom (pgs_Password spec) with
    | Some src => mkEnv (env_Name e) "" (Some (FromSecret (pvs_SecretKeyRef src)))
    | None => if String.eqb (pv_Value (pgs_Password spec)) "" then e
              else mkEnv (env_Name e) (pv_Value (pgs_Password spec)) None
    end
  else e.

(** Rewrite the environment of the containers called [postgres]. *)
Definition map_postgres_env (f : EnvVar -> EnvVar) (cs : list Container) : list Container :=
  map (fun c => if String.eqb (c_Name c) "postgres" then with_env c (map f (c_Env c)) else c) cs.

(** [Containers[0].Image = image] *)
Definition set_first_image (image : string) (cs : list Container) : list Container :=
  match cs with [] => [] | c :: cs' => with_image c image :: cs' end.

Definition define_containers (spec : PGClusterSpec) (cs : list Container) : list Container :=
  let cs := if String.eqb (pgs_CitusImage spec) "" then cs
            else set_first_image (pgs_CitusImage spec) cs in
  if String.eqb (pgs_AdminUser spec) "" then cs else map_postgres_env (create_env spec) cs.

Definition createPGCluster (user namespace : string) (clusterDef : PGCluster) : io (res StatefulSet) :=
  let? sts := found (k8s_call (GetStatefulSet namespace PGClusterName)) in
  match sts with
  | Some s => Ret (Ok s)
  | None =>
      let? s := GetPGClusterDefineByUser user namespace clusterDef in
      let t := sts_Template s in
      k8s_call (CreateStatefulSet namespace
        (mkSts (sts_meta s) (sts_Replicas s)
           (with_containers t (define_containers (pgc_Spec clusterDef) (pt_Containers t)))))
  end.

Definition createPGClusterService (namespace : string) : io (res unit) :=
  let? svc := found (k8s_call (GetService namespace CitusHeadlessServiceName)) in
  match svc with
  | Some _ => Ret (Ok tt)
  | None =>
      k8s_call (CreateService namespace
        (mkService (svc_Name CitusHeadlessService) namespace (svc_ClusterIP CitusHeadlessService)
           (svc_Selector CitusHeadlessService) (svc_Ports CitusHeadlessService)))
  end.

Definition with_admin (c : PGCluster) (user : string) (pwd : PasswordVar) : PGCluster :=
  let s := pgc_Spec c in
  mkPGCluster (pgc_meta c)
    (mkPGClusterSpec (pgs_Replicas s) user (pgs_CitusImage s) pwd (pgs_Owner s) (pgs_BackupStorage s)).

(** The definition is completed in place, so it is returned with the set. *)
Definition CreatePGClusterForUser (user : string) (clusterDef : PGCluster)
  : io (res (StatefulSet * PGCluster)) :=
  let namespace := om_Namespace (pgc_meta clusterDef) in
  let? clusterDef :=
    (if String.eqb (pgs_AdminUser (pgc_Spec clusterDef)) "" then
       let? password := createSecretForPG namespace in
       Ret (Ok (with_admin clusterDef DefaultPGAdminUser
                  (mkPwd "" (Some {| pvs_SecretKeyRef := Some password |}))))
     else Ret (Ok clusterDef)) in
  let? sts := createPGCluster user namespace clusterDef in
  do? createPGClusterService namespace;
  Ret (Ok (sts, clusterDef)).

(** ** [helper.go]: waiting for a pod *)

(** The condition of both workloads' [WaitForPodRunning]: the pod runs and no
    container of the given name is unready. *)
Definition pod_ready (container : string) (p : Pod) : bool :=
  String.eqb (pod_Phase p) "Running" &&
  forallb (fun c => negb (String.eqb (fst c) container && negb (snd c))) (pod_Containers p).

(** [time.Second, 10*time.Minute]: at most 600 ticks. *)
Definition wait_rounds : nat := 600.

Definition WaitForPodRunning (namespace podname : string) : io (res string) :=
  do! sys_call (Sleep 2);
  PollImmediate wait_rounds
    (let? pod := k8s_call (GetPod namespace podname) in
     if pod_ready "postgres" pod then
       do! sys_call (Sleep 5);
       Ret (Ok (Some (pod_IP pod)))
     else Ret (Ok None)).

(** ** [helper.go]: scaling *)

Definition hba_lines (namespace : string) : list string :=
  let masterNode := PGClusterName +:+ "-0.citus-headless." +:+ namespace +:+ ".svc.cluster.local" in
  split_char nl
    (PGNodeHBATrust +:+ String nl "" +:+ "host all all " +:+ masterNode +:+ " trust" +:+
     String nl "" +:+ PGNodeHBAScram).

(** Rewriting [pg_hba.conf] of one node through a scratch table.  The inserts
    go through the pool ([nodeClient.DB]), not through [tx]. *)
Definition update_hba (c : client) (namespace podName : string) : io (res unit) :=
  do? ExecContext c "drop table if exists hba";
  let? res := NamedQueryContext c "select setting from pg_settings where name like '%hba%'" [] in
  let? configFile :=
    match rows_data res with
    | [] => Ret (Ok ("/var/lib/postgresql/data/" +:+ podName +:+ "/pg_hba.conf"))
    | row :: _ => do! pg_call (PgRowsClose (rows_id res)); Ret row
    end in
  do? ExecContext c "create table if not exists hba(lines text)";
  let? tx := pg_call (PgBegin (cl_DB c)) in
  do? for_each (fun h =>
        let! r := pg_call (PgNamedExec (cl_DB c) "insert into hba values(:line)" [("line", h)]) in
        match r with
        | Ok _ => Ret (Ok tt)
        | Err e => do! pg_call (PgRollback tx); Ret (Err e)
        end) (hba_lines namespace);
  do? (let! r := pg_call (PgCommit tx) in
       match r with
       | Ok _ => Ret (Ok tt)
       | Err e => do! pg_call (PgRollback tx); Ret (Err e)
       end);
  do? ExecContext c ("copy hba to '" +:+ configFile +:+ "'");
  ExecContext c "SELECT pg_reload_conf()".

(** [for index < n] with an [int32] counter starting at [lo]. *)
Definition int_range (lo n : Z) : list Z := seqZ lo (n - lo).

Definition ScalePGClusterNodes (namespace : string) (replicas : Z) (admin pwd : string)
  : io (res Z) :=
  let? cluster := k8s_call (GetScale namespace PGClusterName) in
  let index := sc_Replicas cluster in
  let effected := (replicas - sc_Replicas cluster)%Z in
  if (effected =? 0)%Z then Ret (Ok effected)
  else if (effected <? 0)%Z then Ret (Err (newErr "scale down cluster not supported"))
  else
    do? k8s_call (UpdateScale namespace PGClusterName
                    (mkScale (sc_Name cluster) (sc_Namespace cluster) replicas));
    do? for_each (fun i =>
          let podName := PGClusterName +:+ "-" +:+ itoa i in
          let? ip := WaitForPodRunning namespace podName in
          let? nodeClient := Build (NewClientBuidler admin pwd ip PG_PORT) in
          with_defer (Close nodeClient) (update_hba nodeClient namespace podName))
        (int_range index replicas);
    Ret (Ok effected).

(** ** [helper.go]: who administers the cluster *)

Definition value_from_secret (namespace : string) (src : option EnvVarSource) : io (res string) :=
  let! s := deref src in
  let! sel := deref (match s with FromSecret ref => ref | FromField _ => None end) in
  let? secret := k8s_call (GetSecret namespace (sel_Name sel)) in
  Ret (Ok (default "" (sec_Data secret !! sel_Key sel))).

(** The last environment variable of this name in the postgres containers. *)
Definition postgres_env (name : string) (sts : StatefulSet) : option EnvVar :=
  last (filter (fun e => env_Name e = name)
          (concat (map c_Env (filter (fun c => c_Name c = "postgres")
                                 (pt_Containers (sts_Template sts)))))).

Definition env_empty (e : EnvVar) : bool :=
  String.eqb (env_Value e) "" && match env_ValueFrom e with None => true | Some _ => false end.

Definition GetPGClusterDefinedPassword (namespace : string) (clusterDef : PGCluster) : io (res string) :=
  GetVarValue (pgs_Password (pgc_Spec clusterDef)) namespace.

(** The current value of an environment variable. *)
Definition env_value (namespace : string) (e : EnvVar) : io (res string) :=
  if String.eqb (env_Value e) "" then value_from_secret namespace (env_ValueFrom e)
  else Ret (Ok (env_Value e)).

(** Second half of [MustUpdateClusterAdminUser]: the password comparison. *)
Definition password_changed (namespace : string) (userEnv pwdEnv : EnvVar) (clusterDef : PGCluster)
  : io (res (option (string * string))) :=
  let? newPwd := GetPGClusterDefinedPassword namespace clusterDef in
  let? oldPwd := env_value namespace pwdEnv in
  if String.eqb oldPwd newPwd then Ret (Ok None)
  else
    let? user := env_value namespace userEnv in
    Ret (Ok (Some (user, oldPwd))).

(** First half: the administrator comparison.  When the running user comes
    from a secret the old password is read from a secret too, whatever the
    password variable holds. *)
Definition admin_changed (namespace admin : string) (userEnv pwdEnv : EnvVar) (clusterDef : PGCluster)
  : io (res (option (string * string))) :=
  if negb (String.eqb (env_Value userEnv) "") then
    if negb (String.eqb (env_Value userEnv) admin) then
      let? pwd := env_value namespace pwdEnv in
      Ret (Ok (Some (env_Value userEnv, pwd)))
    else password_changed namespace userEnv pwdEnv clusterDef
  else
    let? user := value_from_secret namespace (env_ValueFrom userEnv) in
    if negb (String.eqb user admin) then
      let? pwd := value_from_secret namespace (env_ValueFrom pwdEnv) in
      Ret (Ok (Some (user, pwd)))
    else password_changed namespace userEnv pwdEnv clusterDef.

(** The decision: has the definition changed the administrator or the
    password the running set was started with?  [None] means no; [Some] carries
    the administrator and password still in force. *)
Definition MustUpdateClusterAdminUser (namespace : string) (clusterSts : StatefulSet)
    (clusterDef : PGCluster) : io (res (option (string * string))) :=
  let admin := pgs_AdminUser (pgc_Spec clusterDef) in
  if String.eqb admin "" then Ret (Ok None)
  else
    match postgres_env "POSTGRES_USER" clusterSts, postgres_env "POSTGRES_PASSWORD" clusterSts with
    | None, _ => Ret (Err (newErr "invalid pg cluster db definition, user is empty"))
    | Some userEnv, pwdEnv =>
        if env_empty userEnv
        then Ret (Err (newErr "invalid pg cluster db definition, user is empty"))
        else
          match pwdEnv with
          | None => Ret (Err (newErr "invalid pg cluster db definition, password is empty"))
          | Some pwdEnv =>
              if env_empty pwdEnv
              then Ret (Err (newErr "invalid pg cluster db definition, password is empty"))
              else admin_changed namespace admin userEnv pwdEnv clusterDef
          end
    end.

(** [GetPGClusterAdminUserAndPassword]; the administrator defaults to the
    generated secret. *)
Definition default_admin (namespace : string) (cluster : PGCluster) : io (res PGCluster) :=
  if String.eqb (pgs_AdminUser (pgc_Spec cluster)) "" then
    let? secret := k8s_call (GetSecret namespace CitusAdminSecretName) in
    Ret (Ok (with_admin cluster (default "" (sec_Data secret !! "user"))
               (mkPwd (default "" (sec_Data secret !! "password")) None)))
  else Ret (Ok cluster).

Definition GetPGClusterAdminUserAndPassword (namespace : string) : io (res (string * string)) :=
  let? cluster := apr_call (GetPGCluster namespace PGClusterName) in
  let? cluster := default_admin namespace cluster in
  let? pwd := GetPGClusterDefinedPassword namespace cluster in
  Ret (Ok (pgs_AdminUser (pgc_Spec cluster), pwd)).
