(* ===== verification/PgRequest.v ===== *)
(** * PostgreSQL requests: [src/cmd/middleware/operator/middleware-request/handler_pg.go] *)

From S2P Require Import Prelude Effects Apr World Postgres Citus.

Definition findClusterWorkloadAndAdminuserAndPassword : io (res (StatefulSet * string * string)) :=
  let? sts := k8s_call (GetStatefulSet PGClusterNamespace PGClusterName) in
  let? (adminUser, adminPwd) := GetPGClusterAdminUserAndPassword PGClusterNamespace in
  Ret (Ok (sts, adminUser, adminPwd)).

(** The nodes of the cluster, [0 .. *sts.Spec.Replicas - 1]. *)
Definition nodes (sts : StatefulSet) (from : Z) : io (list Z) :=
  let! n := deref (sts_Replicas sts) in
  Ret (int_range from n).

(** ** Creating and updating *)

Definition db_name (req : MiddlewareRequest) (db : CitusDatabase) : string :=
  GetDatabaseName (ms_AppNamespace (mr_Spec req)) (cdb_Name db).
Definition pg_user (req : MiddlewareRequest) : string := pg_User (ms_PostgreSQL (mr_Spec req)).
Definition pg_dbs (req : MiddlewareRequest) : list CitusDatabase :=
  pg_Databases (ms_PostgreSQL (mr_Spec req)).

(** A database exists on every node when it is distributed, on node 0 otherwise. *)
Definition on_node (index : Z) (db : CitusDatabase) : bool := IsDistributed db || (index =? 0)%Z.

(** One database on one node. *)
Definition create_db (req : MiddlewareRequest) (index : Z) (nodeHost : string) (db : CitusDatabase)
  : cio unit :=
  let dbRealName := db_name req db in
  cwhen (on_node index db)
    (cbind (lift (fun c => CreateDatabaseIfNotExists c dbRealName (pg_user req))) (fun _ =>
     cbind (fun c => SwitchDatabase c dbRealName) (fun _ =>
     cbind (cwhen (IsDistributed db)
              (cbind (lift CreateCitus) (fun _ =>
               cwhen (index =? 0)%Z (lift (fun c => SetMasterNode c nodeHost PG_PORT))))) (fun _ =>
     cbind (cwhen (negb (bool_decide (cdb_Extensions db = [])))
              (lift (fun c => CreateExtensions c (cdb_Extensions db)))) (fun _ =>
     cwhen (negb (bool_decide (cdb_Scripts db = [])))
       (lift (fun c => ExecuteScript c dbRealName (pg_user req) (cdb_Scripts db)))))))).

(** One node: the role first, then its databases. *)
Definition create_on_node (req : MiddlewareRequest) (index : Z) (nodeHost : string) : cio unit :=
  cbind (lift (fun _ => GetVarValue (pg_Password (ms_PostgreSQL (mr_Spec req))) (mr_Namespace req)))
    (fun pwd =>
  cbind (lift (fun c => CreateOrUpdateUser c (pg_user req) pwd)) (fun _ =>
  cfor_each (create_db req index nodeHost) (pg_dbs req))).

(** Registering the workers, database by database, on the master. *)
Definition add_worker (b : PgTarget) (req : MiddlewareRequest) (nodeHost : string) (db : CitusDatabase)
  : io (res unit) :=
  if IsDistributed db then
    let? masterClient := Build (WithDatabase b (db_name req db)) in
    let! r := AddWorkerNode masterClient nodeHost PG_PORT in
    do! Close masterClient;
    Ret r
  else Ret (Ok tt).

Definition addWorkerNode (req : MiddlewareRequest) : io (res unit) :=
  let? (sts, adminUser, adminPwd) := findClusterWorkloadAndAdminuserAndPassword in
  let b := NewClientBuidler adminUser adminPwd (node_host sts 0) PG_PORT in
  let! workers := nodes sts 1 in
  for_each (fun index => for_each (add_worker b req (node_host sts index)) (pg_dbs req)) workers.

Definition createOrUpdatePGRequest (req : MiddlewareRequest) : io (res unit) :=
  let? (sts, adminUser, adminPwd) := findClusterWorkloadAndAdminuserAndPassword in
  let! all := nodes sts 0 in
  do? for_each (fun index =>
        let nodeHost := node_host sts index in
        with_client (NewClientBuidler adminUser adminPwd nodeHost PG_PORT)
          (create_on_node req index nodeHost)) all;
  addWorkerNode req.

(** [PGClusterRecreated]: every request is replayed; failures are only logged. *)
Definition PGClusterRecreated : io unit :=
  let! reqs := apr_call (ListMiddlewareRequests "") in
  match reqs with
  | Err _ => Ret tt
  | Ok items => fold_all (fun _ r => let! _ := createOrUpdatePGRequest r in Ret tt) items tt
  end.

(** ** Deleting *)

Definition requested (req : MiddlewareRequest) (db : string) : bool :=
  existsb (fun rdb => String.eqb (db_name req rdb) db) (pg_dbs req).

(** Drop one database on every node, each through its own connection. *)
Definition drop_everywhere (sts : StatefulSet) (adminUser adminPwd db : string) : io (res unit) :=
  let! all := nodes sts 0 in
  for_each (fun index =>
    let? nodeClient := Build (NewClientBuidler adminUser adminPwd (node_host sts index) PG_PORT) in
    let! r := DropDatabase nodeClient db in
    do! Close nodeClient;
    Ret r) all.

Definition deleteDatabaseIfNotExists (req : MiddlewareRequest) : io (res unit) :=
  let? (sts, adminUser, adminPwd) := findClusterWorkloadAndAdminuserAndPassword in
  let? masterClient := Build (NewClientBuidler adminUser adminPwd (node_host sts 0) PG_PORT) in
  let! listed := ListDatabaseByOwner masterClient (pg_user req) in
  do! Close masterClient;
  match listed with
  | Err e => Ret (Err e)
  | Ok dbs =>
      for_each (fun db => if requested req db then Ret (Ok tt)
                          else drop_everywhere sts adminUser adminPwd db) dbs
  end.

(** One node of [deletePGAll]: the request's databases, then whatever else the
    role still owns there, then the role. *)
Definition delete_on_node (req : MiddlewareRequest) (index : Z) (nodeClient : client) : io (res unit) :=
  do? for_each (fun db => if on_node index db then DropDatabase nodeClient (db_name req db)
                          else Ret (Ok tt)) (pg_dbs req);
  let? dbs := ListDatabaseByOwner nodeClient (pg_user req) in
  do? for_each (DropDatabase nodeClient) dbs;
  DeleteUser nodeClient (pg_user req).

Definition deletePGAll (req : MiddlewareRequest) : io (res unit) :=
  let? (sts, adminUser, adminPwd) := findClusterWorkloadAndAdminuserAndPassword in
  let! all := nodes sts 0 in
  for_each (fun index =>
    let? nodeClient := Build (NewClientBuidler adminUser adminPwd (node_host sts index) PG_PORT) in
    with_defer (Close nodeClient) (delete_on_node req index nodeClient)) all.
