(* ===== verification/PgMonitor.v ===== *)
(** * Watching PostgreSQL

    A monitor of the calls of a handler: which connections are open, to which
    database, and which statements succeeded where.  The specifications of the
    client's operations are stated against it. *)

From S2P Require Import Prelude Effects Apr World Postgres Citus PgRequest.

Inductive pgfact : Set :=
  | Executed (t : PgTarget) (sql : string)
  | Answered (t : PgTarget) (sql : string) (args : list (string * string)) (rows : list (res string))
  | SawStatefulSet (sts : StatefulSet)
  | SawPod (ns name : string) (p : Pod)
  | SawScale (ns name : string) (replicas : Z)
  | SawRequests (ns : string) (reqs : list MiddlewareRequest).

Record pgstate : Set := mkPgState {
  conns : gmap nat PgTarget;
  facts : list pgfact }.

Definition pg_init : pgstate := mkPgState ∅ [].

Definition add_fact (s : pgstate) (f : pgfact) : pgstate := mkPgState (conns s) (facts s ++ [f]).

Definition pg_observe (o : op) : resp o -> pgstate -> pgstate :=
  match o with
  | Pg (PgConnect t) => fun r s =>
      match r with Ok c => mkPgState (<[c := t]> (conns s)) (facts s) | Err _ => s end
  | Pg (PgClose c) => fun _ s => mkPgState (delete c (conns s)) (facts s)
  | Pg (PgExec c sql) => fun r s =>
      match r, conns s !! c with
      | Ok _, Some t => add_fact s (Executed t sql)
      | _, _ => s
      end
  | Pg (PgQuery c sql args) => fun r s =>
      match r, conns s !! c with
      | Ok rows, Some t => add_fact s (Answered t sql args (rows_data rows))
      | _, _ => s
      end
  | K8s (GetStatefulSet _ _) => fun r s =>
      match r with Ok sts => add_fact s (SawStatefulSet sts) | Err _ => s end
  | K8s (GetPod ns name) => fun r s =>
      match r with Ok p => add_fact s (SawPod ns name p) | Err _ => s end
  | K8s (GetScale ns name) => fun r s =>
      match r with Ok sc => add_fact s (SawScale ns name (sc_Replicas sc)) | Err _ => s end
  | Apr (LookupMiddlewareRequests ns) => fun r s =>
      match r with Ok reqs => add_fact s (SawRequests ns reqs) | Err _ => s end
  | _ => fun _ s => s
  end.

Definition pg_step (s : pgstate) (e : event resp) : pgstate := pg_observe (projT1 e) (projT2 e) s.

Definition pg_watch (tr : history) : pgstate := fold_left pg_step tr pg_init.

(** ** Facts are never lost *)

Definition pg_le (s s' : pgstate) : Prop := forall f, f ∈ facts s -> f ∈ facts s'.
#[export] Instance pg_le_preorder : PreOrder pg_le.
Proof. split; [by intros s f Hf | intros a b c Hab Hbc f Hf; auto]. Qed.

Lemma add_fact_in s f : f ∈ facts (add_fact s f).
Proof. apply elem_of_app. right. by left. Qed.
Lemma add_fact_le s f : pg_le s (add_fact s f).
Proof. intros g Hg. apply elem_of_app. by left. Qed.

Lemma pg_step_le s e : pg_le s (pg_step s e).
Proof.
  destruct e as [[[]|[]|[]|[]|[]|[]|[]|?] r]; cbn;
    repeat case_match; first [by intros f Hf | apply add_fact_le].
Qed.

(** Specification of the successful path: [Q] when [m] returns a value. *)
Definition okwp {A} (m : io (res A)) (Q : pgstate -> A -> Prop) (s : pgstate) : Prop :=
  wp pg_step m (fun s' x => match x with Returned (Ok a) => Q s' a | _ => True end) s.
Definition cwp {A} (m : cio A) (Q : client -> A -> pgstate -> Prop) (c : client) (s : pgstate) : Prop :=
  wp pg_step (m c) (fun s' x => match x with Returned (c', Ok a) => Q c' a s' | _ => True end) s.

Lemma okwp_mono {A} (m : io (res A)) (Q R : pgstate -> A -> Prop) s :
  (forall s' a, pg_le s s' -> Q s' a -> R s' a) -> okwp m Q s -> okwp m R s.
Proof.
  intros HQR H. eapply wp_mono; [|apply (wp_extend _ pg_le); [apply pg_step_le | exact H]].
  cbn. intros s' [[a|e]|w] [Hle HQ]; auto.
Qed.

Lemma cwp_mono {A} (m : cio A) (Q R : client -> A -> pgstate -> Prop) c s :
  (forall c' a s', pg_le s s' -> Q c' a s' -> R c' a s') -> cwp m Q c s -> cwp m R c s.
Proof.
  intros HQR H. eapply wp_mono; [|apply (wp_extend _ pg_le); [apply pg_step_le | exact H]].
  cbn. intros s' [[c' [a|e]]|w] [Hle HQ]; auto.
Qed.

Lemma okwp_true {A} (m : io (res A)) s : okwp m (fun _ _ => True) s.
Proof. apply wp_runs. by intros tr [[a|e]|w]. Qed.

(** Reading a specification off the runs of a program. *)
Lemma okwp_runs {A} (m : io (res A)) (Q : pgstate -> A -> Prop) tr a :
  okwp m Q pg_init -> runs m tr (Returned (Ok a)) -> Q (pg_watch tr) a.
Proof. intros H Hr. apply (proj1 (wp_runs _ _ _ _) H _ _ Hr). Qed.

Lemma okwp_bind_ok {A B} (m : io (res A)) (f : A -> io (res B)) Q s :
  okwp m (fun s' a => okwp (f a) Q s') s -> okwp (bind_ok m f) Q s.
Proof.
  intros H. unfold okwp. rewrite wp_bind_ok. eapply wp_mono; [|exact H].
  cbn. by intros s' [[a|e]|w].
Qed.

Lemma okwp_with_defer {A} (d : io unit) (m : io (res A)) Q s :
  okwp m (fun s' a => wp pg_step d (fun s'' x => match x with
                                                 | Returned _ => Q s'' a
                                                 | Panicked _ => True end) s') s ->
  (forall s', wp pg_step d (fun _ _ => True) s') ->
  okwp (with_defer d m) Q s.
Proof.
  intros H Hd. unfold okwp. rewrite wp_with_defer. eapply wp_mono; [|exact H].
  cbn. intros s' [[a|e]|w] HQ.
  - eapply wp_mono; [|exact HQ]. cbn. by intros s'' [].
  - eapply wp_mono; [|apply Hd]. cbn. by intros s'' [].
  - eapply wp_mono; [|apply Hd]. cbn. by intros s'' [].
Qed.

Lemma cwp_bind {A B} (m : cio A) (f : A -> cio B) Q c s :
  cwp m (fun c' a s' => cwp (f a) Q c' s') c s -> cwp (cbind m f) Q c s.
Proof.
  intros H. unfold cwp, cbind. rewrite wp_bind. eapply wp_mono; [|exact H].
  cbn. by intros s' [[c' [a|e]]|w].
Qed.

Lemma cwp_lift {A} (f : client -> io (res A)) Q c s :
  okwp (f c) (fun s' a => Q c a s') s -> cwp (lift f) Q c s.
Proof.
  intros H. unfold cwp, lift. rewrite wp_bind. eapply wp_mono; [|exact H].
  cbn. by intros s' [[a|e]|w].
Qed.

Lemma cwp_when (b : bool) (m : cio unit) (Q : client -> unit -> pgstate -> Prop) c s :
  (b = true -> cwp m Q c s) -> (b = false -> Q c tt s) -> cwp (cwhen b m) Q c s.
Proof. unfold cwp, cwhen. destruct b; cbn; auto. Qed.

(** Loops: what each round establishes for its element, and keeps, holds of
    all the elements at the end. *)
Lemma cwp_for_each {A} (body : A -> cio unit) (I : client -> pgstate -> Prop)
    (P : A -> pgstate -> Prop) l c s :
  (forall x s' s'', pg_le s' s'' -> P x s' -> P x s'') ->
  (forall x c' s', x ∈ l -> I c' s' -> cwp (body x) (fun c'' _ s'' => I c'' s'' /\ P x s'') c' s') ->
  I c s ->
  cwp (cfor_each body l) (fun c' _ s' => I c' s' /\ forall x, x ∈ l -> P x s') c s.
Proof.
  intros HP. revert c s. induction l as [|x l IH]; intros c s Hbody HI; cbn.
  - split; [done|]. intros x Hx. inversion Hx.
  - apply cwp_bind. eapply cwp_mono; [|apply Hbody; [left | exact HI]].
    cbn. intros c' _ s' _ [HI' HPx].
    eapply cwp_mono; [|apply IH; [|exact HI']; intros; apply Hbody; [by right|done]].
    cbn. intros c'' _ s'' Hle [HI'' Hl]. split; [done|].
    intros y Hy. inversion Hy; subst; eauto.
Qed.

Lemma okwp_for_each {A} (body : A -> io (res unit)) (P : A -> pgstate -> Prop) l s :
  (forall x s' s'', pg_le s' s'' -> P x s' -> P x s'') ->
  (forall x s', x ∈ l -> okwp (body x) (fun s'' _ => P x s'') s') ->
  okwp (for_each body l) (fun s' _ => forall x, x ∈ l -> P x s') s.
Proof.
  intros HP. revert s. induction l as [|x l IH]; intros s Hbody; cbn.
  - intros x Hx. inversion Hx.
  - apply okwp_bind_ok. eapply okwp_mono; [|apply Hbody; left].
    cbn. intros s' _ _ HPx.
    eapply okwp_mono; [|apply IH; intros; apply Hbody; by right].
    cbn. intros s'' _ Hle Hl y Hy. inversion Hy; subst; eauto.
Qed.

(** ** Specifications of the client's operations *)

(** The client's handle is open on the target its builder names. *)
Definition live (c : client) (s : pgstate) : Prop := conns s !! cl_DB c = Some (cl_builder c).

Definition executed (t : PgTarget) (sql : string) (s : pgstate) : Prop := Executed t sql ∈ facts s.
Definition answered (t : PgTarget) (sql : string) (args : list (string * string))
    (rows : list (res string)) (s : pgstate) : Prop := Answered t sql args rows ∈ facts s.

Lemma executed_le t sql s s' : pg_le s s' -> executed t sql s -> executed t sql s'.
Proof. intros H. apply H. Qed.
Lemma answered_le t sql args rows s s' :
  pg_le s s' -> answered t sql args rows s -> answered t sql args rows s'.
Proof. intros H. apply H. Qed.

Create HintDb pg discriminated.
#[export] Hint Resolve executed_le answered_le add_fact_in : pg.

Lemma Build_ok b (Q : pgstate -> client -> Prop) s :
  (forall conn, Q (mkPgState (<[conn := b]> (conns s)) (facts s)) (mkClient conn b)) ->
  okwp (Build b) Q s.
Proof. intros H [conn|e]; cbn; [apply H | done]. Qed.

Lemma wp_Build b (Q : pgstate -> outcome (res client) -> Prop) s :
  (forall conn, Q (mkPgState (<[conn := b]> (conns s)) (facts s)) (Returned (Ok (mkClient conn b)))) ->
  (forall e, Q s (Returned (Err e))) ->
  wp pg_step (Build b) Q s.
Proof. intros H He [conn|e]; cbn; auto. Qed.

Lemma wp_Close {A} c (k : io A) (Q : pgstate -> outcome A -> Prop) s :
  wp pg_step k Q (mkPgState (delete (cl_DB c) (conns s)) (facts s)) ->
  wp pg_step (do! Close c; k) Q s.
Proof. by intros H []. Qed.

Lemma ExecContext_ok c sql s :
  live c s ->
  okwp (ExecContext c sql) (fun s' _ => live c s' /\ executed (cl_builder c) sql s') s.
Proof.
  intros Hl [u|e]; cbn; [|done]. unfold live in Hl. rewrite Hl.
  split; [done | apply add_fact_in].
Qed.

Lemma NamedQuery_ok c sql args s :
  live c s ->
  okwp (NamedQueryContext c sql args)
    (fun s' rows => live c s' /\ answered (cl_builder c) sql args (rows_data rows) s') s.
Proof.
  intros Hl [u|e]; cbn; [|done]. unfold live in Hl. rewrite Hl.
  split; [done | apply add_fact_in].
Qed.

(** Closing a result set is invisible to the monitor. *)
Lemma close_rows_ok {A} (m : io (res A)) n (Q : pgstate -> A -> Prop) s :
  okwp m Q s -> okwp (with_defer (pg_call (PgRowsClose n)) m) Q s.
Proof. intros H. apply okwp_with_defer; [|done]. eapply okwp_mono; [|exact H]. by cbn. Qed.

(** One statement: [Hl] is consumed and reproved after it, [He] records it and
    [Hle] that history only grew. *)
Ltac pg_exec Hl He Hle :=
  apply okwp_bind_ok;
  eapply okwp_mono; [|apply ExecContext_ok; exact Hl]; cbn beta; clear Hl;
  intros ? _ Hle [Hl He].

(** The role: created or altered, limited, granted the file roles. *)
Definition role_ready (t : PgTarget) (user pwd : string) (s : pgstate) : Prop :=
  (executed t (create_role_sql user pwd) s \/ executed t (alter_role_sql user pwd) s) /\
  executed t (connection_limit_sql user) s /\ executed t (grant_files_sql user) s.

Lemma role_ready_le t user pwd s s' : pg_le s s' -> role_ready t user pwd s -> role_ready t user pwd s'.
Proof. intros Hle ([H|H] & Hl & Hg); repeat split; eauto with pg. Qed.

Lemma CreateOrUpdateUser_ok c user pwd s :
  live c s ->
  okwp (CreateOrUpdateUser c user pwd)
    (fun s' _ => live c s' /\ role_ready (cl_builder c) user pwd s') s.
Proof.
  intros Hl. apply okwp_bind_ok.
  eapply okwp_mono; [|by apply NamedQuery_ok]. intros s1 rows _ [Hl1 _].
  apply close_rows_ok. pg_exec Hl1 He1 Hle1. pg_exec Hl1 He2 Hle2.
  eapply okwp_mono; [|by apply ExecContext_ok]. intros s4 _ Hle [Hl4 Hg].
  split; [done|]. unfold role_ready.
  destruct (rows_data rows); repeat split; eauto with pg.
Qed.

(** The database: created just now or already listed by the catalogue. *)
Definition db_present (t : PgTarget) (db owner : string) (s : pgstate) : Prop :=
  executed t (create_database_sql db owner) s \/
  exists rows, answered t find_database_sql [("name", db)] (Ok db :: rows) s.

Lemma db_present_le t db owner s s' : pg_le s s' -> db_present t db owner s -> db_present t db owner s'.
Proof. intros Hle [H|[rows H]]; [left|right; exists rows]; eauto with pg. Qed.

Lemma findDatabase_ok c db s :
  live c s ->
  okwp (findDatabase c db)
    (fun s' found => live c s' /\ (found = Some db ->
       exists rows, answered (cl_builder c) find_database_sql [("name", db)] (Ok db :: rows) s')) s.
Proof.
  intros Hl. unfold findDatabase. destruct (String.eqb db ""); [done|].
  apply okwp_bind_ok. eapply okwp_mono; [|by apply NamedQuery_ok].
  intros s1 rows _ [Hl1 Ha]. apply close_rows_ok.
  destruct (rows_data rows) as [|[n|e] l] eqn:E; cbn; try done.
  split; [done|]. intros [= ->]. by exists l.
Qed.

Lemma CreateDatabaseIfNotExists_ok c db owner s :
  live c s ->
  okwp (CreateDatabaseIfNotExists c db owner)
    (fun s' _ => live c s' /\ db_present (cl_builder c) db owner s') s.
Proof.
  intros Hl. apply okwp_bind_ok. eapply okwp_mono; [|by apply findDatabase_ok].
  intros s1 fd _ [Hl1 Hf]. case_bool_decide as E.
  - split; [done|]. right. auto.
  - eapply okwp_mono; [|by apply ExecContext_ok]. intros s2 _ _ [Hl2 He].
    split; [done|]. by left.
Qed.

Lemma SwitchDatabase_ok c db s :
  cwp (fun c => SwitchDatabase c db)
    (fun c' _ s' => live c' s' /\ cl_builder c' = WithDatabase (cl_builder c) db) c s.
Proof.
  unfold cwp, SwitchDatabase. cbn. intros _ [conn|e]; cbn; [|done].
  split; [|done]. unfold live. cbn. apply lookup_insert_eq.
Qed.

Lemma CreateExtensions_ok c extensions s :
  live c s ->
  okwp (CreateExtensions c extensions)
    (fun s' _ => live c s' /\ forall e, e ∈ extensions ->
       executed (cl_builder c) (create_extension_sql e) s') s.
Proof.
  intros Hl. unfold CreateExtensions, okwp. rewrite wp_bind.
  assert (forall l errs s0, live c s0 ->
    wp pg_step (fold_all (fun errs e =>
        let! r := ExecContext c (create_extension_sql e) in
        Ret (errs ++ match r with Ok _ => [] | Err e => [e] end)) l errs)
      (fun s' x => match x with
                   | Returned errs' => live c s' /\ pg_le s0 s' /\ length errs <= length errs' /\
                       (errs' = [] -> forall e, e ∈ l -> executed (cl_builder c) (create_extension_sql e) s')
                   | Panicked _ => True
                   end) s0) as Hloop.
  { induction l as [|x l IH]; intros errs s0 Hl0; cbn.
    - repeat split; [done|done|lia|]. intros _ e He. inversion He.
    - intros [u|e]; cbn; unfold live in Hl0; rewrite ?Hl0.
      + rewrite app_nil_r. eapply wp_mono; [|by apply IH]. cbn.
        intros s' [errs'|w]; [|done]. intros (Hl' & Hle & Hn & Hx).
        repeat split; [done| |done|].
        * etransitivity; [apply add_fact_le | done].
        * intros Hnil y Hy. inversion Hy; subst; [|by apply Hx].
          eapply executed_le; [exact Hle | apply add_fact_in].
      + eapply wp_mono; [|by apply IH]. cbn.
        intros s' [errs'|w]; [|done]. intros (Hl' & Hle & Hn & Hx).
        rewrite length_app in Hn. cbn in Hn. repeat split; [done|done|lia|].
        intros ->. cbn in Hn. lia. }
  eapply wp_mono; [|by apply Hloop]. cbn.
  intros s' [errs'|w]; [|done]. intros (Hl' & _ & _ & Hx).
  destruct errs' as [|e1 [|e2 es]]; cbn; [|done..]. auto.
Qed.

Lemma SetMasterNode_ok c node port s :
  live c s ->
  okwp (SetMasterNode c node port)
    (fun s' _ => live c s' /\ exists rows, answered (cl_builder c) set_master_sql (node_args node port) rows s') s.
Proof.
  intros Hl. apply okwp_bind_ok. eapply okwp_mono; [|by apply NamedQuery_ok].
  intros s1 rows _ [Hl1 Ha]. split; eauto.
Qed.

Lemma AddWorkerNode_ok c node port s :
  live c s ->
  okwp (AddWorkerNode c node port)
    (fun s' _ => live c s' /\ exists rows, answered (cl_builder c) add_node_sql (node_args node port) rows s') s.
Proof.
  intros Hl. apply okwp_bind_ok. eapply okwp_mono; [|by apply NamedQuery_ok].
  intros s1 rows _ [Hl1 Ha]. split; eauto.
Qed.

Lemma DropDatabase_ok c db s :
  live c s ->
  okwp (DropDatabase c db) (fun s' _ => live c s' /\ executed (cl_builder c) (drop_database_sql db) s') s.
Proof.
  intros Hl. apply okwp_bind_ok. eapply okwp_mono; [|by apply NamedQuery_ok].
  intros s1 rows _ [Hl1 _]. apply close_rows_ok. apply okwp_bind_ok.
  apply (okwp_mono _ (fun s' _ => live c s')).
  - intros s2 _ _ Hl2. by apply ExecContext_ok.
  - apply (wp_for_each _ _ (fun _ => live c)); [|done|exact Hl1].
    intros [pid|e] l s2 Hl2; cbn; [|done]. intros [u|e]; cbn; [|done].
    unfold live in Hl2 |- *. by rewrite Hl2.
Qed.

Lemma with_client_ok {A} b (body : cio A) (Q : pgstate -> A -> Prop) s :
  (forall c s', live c s' -> cl_builder c = b -> pg_le s s' ->
     cwp body (fun c' a s'' => forall s3, facts s3 = facts s'' -> Q s3 a) c s') ->
  okwp (with_client b body) Q s.
Proof.
  intros H. apply okwp_bind_ok. apply Build_ok. intros conn.
  unfold okwp. rewrite wp_bind, wp_on_panic. eapply wp_mono; [|apply H].
  - cbn. intros s' [[c' [a|e]]|w] HQ; cbn; [|done..]. intros _. by apply HQ.
  - unfold live. cbn. apply lookup_insert_eq.
  - done.
  - by intros f Hf.
Qed.

(** ** Programs restricted in the statements they execute *)

Definition execs_only (ok : string -> Prop) (o : op) : Prop :=
  match o with Pg (PgExec _ sql) => ok sql | _ => True end.

Lemma pg_step_executed s o r t sql :
  executed t sql (pg_step s (ev o r)) -> executed t sql s \/ exists c, o = Pg (PgExec c sql).
Proof.
  unfold executed. destruct o as [[]|[]|[]|[]|[]|[]|[]|?]; cbn; auto;
    repeat case_match; auto; cbn; rewrite elem_of_app, list_elem_of_singleton;
    intros [?|[=]]; subst; eauto.
Qed.

(** An assertion about executed statements is kept by a program whose
    statements all satisfy it. *)
Lemma wp_execs_only {A} (m : io A) (ok : string -> Prop) (good : string -> pgstate -> Prop) s :
  (forall sql s' s'', pg_le s' s'' -> good sql s' -> good sql s'') ->
  issues (execs_only ok) m ->
  (forall sql s', pg_le s s' -> ok sql -> good sql s') ->
  (forall t sql, executed t sql s -> good sql s) ->
  wp pg_step m (fun s' _ => forall t sql, executed t sql s' -> good sql s') s.
Proof.
  intros Hmono Hm Hok Hs.
  eapply wp_mono; [|apply (wp_issues _ (fun s' => pg_le s s' /\ forall t sql, executed t sql s' -> good sql s')
                              (execs_only ok)); [|exact Hm|by split]].
  - cbn. by intros s' _ [_ H].
  - intros s' o r Ho [Hle HI]. assert (pg_le s (pg_step s' (ev o r))) as Hle'.
    { etransitivity; [exact Hle | apply pg_step_le]. }
    split; [done|]. intros t sql [He|[c ->]]%pg_step_executed.
    + eapply Hmono; [apply pg_step_le | eauto].
    + by apply Hok.
Qed.

Lemma issues_GetVarValue P p ns :
  (forall n, P (K8s (GetSecret ns n))) -> issues P (GetVarValue p ns).
Proof.
  intros H. unfold GetVarValue. destruct (negb _); [done|]. destruct (pv_ValueFrom p); [|done].
  apply issues_bind; [apply issues_deref|]. intros sel.
  apply issues_bind_ok; [apply issues_call, H | done].
Qed.

Lemma issues_find_cluster P :
  (forall o, P (K8s o)) -> (forall o, P (Apr o)) ->
  issues P findClusterWorkloadAndAdminuserAndPassword.
Proof.
  intros Hk Ha. unfold findClusterWorkloadAndAdminuserAndPassword, GetPGClusterAdminUserAndPassword.
  apply issues_bind_ok; [apply issues_call, Hk|]. intros sts.
  apply issues_bind_ok; [|by intros [??]].
  apply issues_bind_ok; [apply issues_call, Ha|]. intros cl.
  apply issues_bind_ok.
  - unfold default_admin. destruct (String.eqb _ _); [|done].
    apply issues_bind_ok; [apply issues_call, Hk|done].
  - intros cl'. apply issues_bind_ok; [by apply issues_GetVarValue|done].
Qed.

Lemma issues_DropDatabase c db :
  issues (execs_only (fun sql => (exists pid, sql = terminate_sql pid) \/ sql = drop_database_sql db))
    (DropDatabase c db).
Proof.
  unfold DropDatabase. apply issues_bind_ok; [by apply issues_call|]. intros rows.
  apply issues_with_defer; [by apply issues_call|].
  apply issues_bind_ok; [|intros _; apply issues_call; cbn; eauto].
  apply issues_for_each. intros [pid|e] _; [|done]. apply issues_call. cbn. eauto.
Qed.

Lemma issues_ListDatabaseByOwner c owner ok : issues (execs_only ok) (ListDatabaseByOwner c owner).
Proof.
  unfold ListDatabaseByOwner. apply issues_bind_ok; [by apply issues_call|]. intros rows.
  by apply issues_with_defer; [apply issues_call|].
Qed.

Lemma ListDatabaseByOwner_ok c owner s :
  live c s ->
  okwp (ListDatabaseByOwner c owner)
    (fun s' dbs => live c s' /\ exists rows,
       answered (cl_builder c) list_by_owner_sql [("owner", owner)] rows s' /\
       scan_rows rows [] = Ok dbs) s.
Proof.
  intros Hl. apply okwp_bind_ok. eapply okwp_mono; [|by apply NamedQuery_ok].
  intros s1 rows _ [Hl1 Ha]. apply close_rows_ok. unfold okwp. cbn.
  destruct (scan_rows (rows_data rows) []) as [dbs|] eqn:E; [|done]. eauto.
Qed.

(** ** Connections *)

Definition not_connect (o : op) : Prop := match o with Pg (PgConnect _) => False | _ => True end.

Lemma pg_step_conns s o r : not_connect o -> dom (conns (pg_step s (ev o r))) ⊆ dom (conns s).
Proof.
  destruct o as [[]|[]|[]|[]|[]|[]|[]|?]; cbn; try done; intros _; repeat case_match; cbn; try done.
  rewrite dom_delete_L. set_solver.
Qed.

(** [m] returns with at most the connections [D] open, if it began so. *)
Definition keeps_open {A} (D : gset nat) (m : io A) (D' : A -> gset nat) : Prop :=
  forall s, dom (conns s) ⊆ D ->
    wp pg_step m (fun s' x => match x with
                              | Returned a => dom (conns s') ⊆ D' a
                              | Panicked _ => True
                              end) s.
Definition closing {A} (m : io A) : Prop := forall D, keeps_open D m (fun _ => D).

Lemma closing_quiet {A} (m : io A) : issues not_connect m -> closing m.
Proof.
  intros Hm D s Hs.
  eapply wp_mono; [|apply (wp_issues _ (fun s' => dom (conns s') ⊆ D) not_connect); [|exact Hm|exact Hs]].
  - by intros s' [].
  - intros s' o r Ho HD. etransitivity; [by apply pg_step_conns | done].
Qed.

Lemma keeps_open_bind {A B} D (m : io A) D1 (f : A -> io B) D2 :
  keeps_open D m D1 -> (forall a, keeps_open (D1 a) (f a) D2) -> keeps_open D (bind m f) D2.
Proof.
  intros Hm Hf s Hs. rewrite wp_bind. eapply wp_mono; [|by apply Hm].
  intros s' [a|w] H; [by apply (Hf a)|done].
Qed.

Lemma closing_bind {A B} (m : io A) (f : A -> io B) :
  closing m -> (forall a, closing (f a)) -> closing (bind m f).
Proof. intros Hm Hf D. eapply keeps_open_bind; [apply Hm | intros a; apply Hf]. Qed.

Lemma closing_bind_ok {A B} (m : io (res A)) (f : A -> io (res B)) :
  closing m -> (forall a, closing (f a)) -> closing (bind_ok m f).
Proof. intros Hm Hf. apply closing_bind; [done|]. intros [a|e]; [done|]. by apply closing_quiet. Qed.

Lemma closing_for_each {A} (body : A -> io (res unit)) l :
  (forall x, closing (body x)) -> closing (for_each body l).
Proof.
  intros H. induction l as [|x l IH]; cbn; [by apply closing_quiet|].
  by apply closing_bind_ok.
Qed.

Lemma keeps_Close D c : keeps_open (D ∪ {[cl_DB c]}) (Close c) (fun _ => D).
Proof.
  intros s Hs []. cbn. rewrite dom_delete_L. set_solver.
Qed.

(** Whatever is done with a fresh connection, closing it at the end balances. *)
Lemma closing_Build {A} b (f : client -> io (res A)) :
  (forall D c, keeps_open (D ∪ {[cl_DB c]}) (f c) (fun _ => D)) -> closing (bind_ok (Build b) f).
Proof.
  intros Hf D s Hs. rewrite wp_bind_ok. apply wp_Build; [|done]. intros conn.
  apply (Hf D (mkClient conn b)). cbn. rewrite dom_insert_L. set_solver.
Qed.

Lemma keeps_then_Close {A} D c (m : io A) :
  issues not_connect m -> keeps_open (D ∪ {[cl_DB c]}) (let! r := m in do! Close c; Ret r) (fun _ => D).
Proof.
  intros Hm. eapply keeps_open_bind; [by apply closing_quiet|]. intros a.
  eapply keeps_open_bind; [apply keeps_Close|]. intros []. by apply closing_quiet.
Qed.

Lemma keeps_defer_Close {A} D c (m : io A) :
  issues not_connect m -> keeps_open (D ∪ {[cl_DB c]}) (with_defer (Close c) m) (fun _ => D).
Proof.
  intros Hm s Hs. rewrite wp_with_defer.
  eapply wp_mono; [|by apply (closing_quiet _ Hm (D ∪ {[cl_DB c]}))].
  cbn. intros s' [a|w] H []; [|done]. rewrite dom_delete_L. set_solver.
Qed.

(** The same for code that may switch database on the way. *)
Definition cclosing {A} (m : cio A) : Prop :=
  forall D c, keeps_open (D ∪ {[cl_DB c]}) (m c) (fun x => D ∪ {[cl_DB (fst x)]}).

Lemma cclosing_bind {A B} (m : cio A) (f : A -> cio B) :
  cclosing m -> (forall a, cclosing (f a)) -> cclosing (cbind m f).
Proof.
  intros Hm Hf D c. eapply keeps_open_bind; [apply Hm|].
  intros [c' [a|e]]; [apply Hf|]. by intros s Hs.
Qed.
Lemma cclosing_lift {A} (f : client -> io (res A)) :
  (forall c, issues not_connect (f c)) -> cclosing (lift f).
Proof.
  intros Hf D c. eapply keeps_open_bind; [by apply closing_quiet|]. by intros r s Hs.
Qed.
Lemma cclosing_when b (m : cio unit) : cclosing m -> cclosing (cwhen b m).
Proof. intros Hm D c. destruct b; [apply Hm|]. by intros s Hs. Qed.
Lemma cclosing_for_each {A} (body : A -> cio unit) l :
  (forall x, cclosing (body x)) -> cclosing (cfor_each body l).
Proof.
  intros H. induction l as [|x l IH]; cbn; [by intros D c s Hs|]. by apply cclosing_bind.
Qed.
Lemma cclosing_SwitchDatabase db : cclosing (fun c => SwitchDatabase c db).
Proof.
  intros D c s Hs. unfold SwitchDatabase. cbn. intros _ [conn|e]; cbn;
    rewrite ?dom_insert_L, dom_delete_L; set_solver.
Qed.

Lemma closing_with_client {A} b (body : cio A) : cclosing body -> closing (with_client b body).
Proof.
  intros Hb. apply closing_Build. intros D c.
  eapply keeps_open_bind.
  - intros s Hs. rewrite wp_on_panic. eapply wp_mono; [|by apply Hb]. intros s' [x|w] H'; [exact H'|]. by cbn; intros [].
  - intros [c' r]. eapply keeps_open_bind; [apply keeps_Close|]. intros []. by apply closing_quiet.
Qed.

Create HintDb closing discriminated.
#[export] Hint Resolve closing_quiet closing_bind closing_bind_ok closing_for_each
  closing_with_client cclosing_bind cclosing_when cclosing_for_each
  cclosing_SwitchDatabase : closing.

(** The client's operations open no connection. *)
Lemma quiet_ExecContext c sql : issues not_connect (ExecContext c sql).
Proof. by apply issues_call. Qed.
Lemma quiet_NamedQuery c sql args : issues not_connect (NamedQueryContext c sql args).
Proof. by apply issues_call. Qed.
#[export] Hint Resolve quiet_ExecContext quiet_NamedQuery : issues.

Ltac quiet :=
  repeat first
    [ exact I | apply quiet_ExecContext | apply quiet_NamedQuery
    | apply issues_bind_ok; [|intros ?] | apply issues_bind; [|intros ?]
    | apply issues_with_defer | apply issues_deref
    | apply issues_for_each; intros ? _ | apply issues_fold_all; intros ? ?
    | case_match | done | by apply issues_call ].

Lemma quiet_CreateDatabaseIfNotExists c db owner : issues not_connect (CreateDatabaseIfNotExists c db owner).
Proof. unfold CreateDatabaseIfNotExists, findDatabase. quiet. Qed.
Lemma quiet_CreateOrUpdateUser c user pwd : issues not_connect (CreateOrUpdateUser c user pwd).
Proof. unfold CreateOrUpdateUser. quiet. Qed.
Lemma quiet_DropDatabase c db : issues not_connect (DropDatabase c db).
Proof. unfold DropDatabase. quiet. Qed.
Lemma quiet_ListDatabaseByOwner c owner : issues not_connect (ListDatabaseByOwner c owner).
Proof. unfold ListDatabaseByOwner. quiet. Qed.
Lemma quiet_CreateExtensions c es : issues not_connect (CreateExtensions c es).
Proof. unfold CreateExtensions. quiet. Qed.
