(* ===== verification/PgRequestSpec.v ===== *)
(** * What a PostgreSQL request achieves

    Provisioning, pruning and removal, stated over the statements the servers
    acknowledged, and the safety of pruning and the closing of connections,
    which hold on every path. *)

From S2P Require Import Prelude Effects Apr World Demo Postgres Citus PgRequest PgMonitor.

(** The connection target of the [i]-th node. *)
Definition node_target (sts : StatefulSet) (adminUser adminPwd : string) (i : Z) : PgTarget :=
  NewClientBuidler adminUser adminPwd (node_host sts i) PG_PORT.

(** One database of the request on one node. *)
Definition db_ready (req : MiddlewareRequest) (b : PgTarget) (i : Z) (db : CitusDatabase) (s : pgstate)
  : Prop :=
  let name := db_name req db in
  let t := WithDatabase b name in
  (exists d, db_present (WithDatabase b d) name (pg_user req) s) /\
  (IsDistributed db = true -> executed t create_citus_sql s) /\
  (IsDistributed db = true -> i = 0%Z ->
     exists rows, answered t set_master_sql (node_args (tg_host b) PG_PORT) rows s) /\
  (forall e, e ∈ cdb_Extensions db -> executed t (create_extension_sql e) s) /\
  (cdb_Scripts db <> [] -> executed t (script_text name (pg_user req) (cdb_Scripts db)) s).

Definition node_ready (req : MiddlewareRequest) (b : PgTarget) (i : Z) (s : pgstate) : Prop :=
  (exists pwd, role_ready b (pg_user req) pwd s) /\
  forall db, db ∈ pg_dbs req -> on_node i db = true -> db_ready req b i db s.

Definition worker_added (req : MiddlewareRequest) (master : PgTarget) (worker : string) (s : pgstate)
  : Prop :=
  forall db, db ∈ pg_dbs req -> IsDistributed db = true ->
    exists rows, answered (WithDatabase master (db_name req db)) add_node_sql
                   (node_args worker PG_PORT) rows s.

Lemma db_ready_le req b i db s s' : pg_le s s' -> db_ready req b i db s -> db_ready req b i db s'.
Proof.
  intros Hle ((d & Hp) & Hc & Hm & He & Hs). repeat split.
  - exists d. by eapply db_present_le.
  - eauto with pg.
  - intros Hd Hi. destruct (Hm Hd Hi) as [rows ?]. exists rows. eauto with pg.
  - eauto with pg.
  - eauto with pg.
Qed.

Lemma node_ready_le req b i s s' : pg_le s s' -> node_ready req b i s -> node_ready req b i s'.
Proof.
  intros Hle [[pwd Hr] Hd]. split.
  - exists pwd. by eapply role_ready_le.
  - intros db Hin Hon. eapply db_ready_le; eauto.
Qed.

(** A client connected to the target [t]. *)
Definition on (t : PgTarget) (c : client) (s : pgstate) : Prop := live c s /\ cl_builder c = t.

(** An operation that keeps the connection and establishes [P]. *)
Lemma cwp_lift_on {A} (f : client -> io (res A)) t c s (P : A -> pgstate -> Prop) :
  on t c s ->
  okwp (f c) (fun s' a => live c s' /\ P a s') s ->
  cwp (lift f) (fun c' a s' => on t c' s' /\ P a s') c s.
Proof.
  intros [_ Hb] H. apply cwp_lift. eapply okwp_mono; [|exact H].
  cbn beta. intros s' a _ [Hl HP]. by repeat split.
Qed.

(** A conditional operation that keeps the connection. *)
Lemma cwp_when_on (g : bool) (f : client -> io (res unit)) t c s (P : pgstate -> Prop) :
  on t c s ->
  (g = true -> okwp (f c) (fun s' _ => live c s' /\ P s') s) ->
  cwp (cwhen g (lift f)) (fun c' _ s' => on t c' s' /\ (g = true -> P s')) c s.
Proof.
  intros Hon H. apply cwp_when; [intros Hg | by intros ->].
  eapply cwp_mono; [|apply (cwp_lift_on f t c s (fun _ => P)); auto].
  cbn beta. by intros c' _ s' _ [??].
Qed.

(** Citus in the database [t] points at, with the coordinator on node 0. *)
Lemma citus_ok db i host t c s :
  on t c s ->
  cwp (cwhen (IsDistributed db)
         (cbind (lift CreateCitus) (fun _ =>
          cwhen (i =? 0)%Z (lift (fun c => SetMasterNode c host PG_PORT)))))
    (fun c' _ s' => on t c' s' /\
       (IsDistributed db = true -> executed t create_citus_sql s') /\
       (IsDistributed db = true -> i = 0%Z ->
          exists rows, answered t set_master_sql (node_args host PG_PORT) rows s')) c s.
Proof.
  intros Hon. apply cwp_when; [|by intros ->]. intros _. apply cwp_bind.
  eapply cwp_mono; [|apply (cwp_lift_on _ t); [exact Hon | apply ExecContext_ok, Hon]].
  cbn beta. intros c1 _ s1 _ [Hon1 Hc].
  eapply cwp_mono; [|apply (cwp_when_on _ _ t); [exact Hon1 | intros _; apply SetMasterNode_ok, Hon1]].
  cbn beta. intros c2 _ s2 Hle [Hon2 Hm].
  destruct Hon as [_ Hb], Hon1 as [_ Hb1]. rewrite Hb in Hc. rewrite Hb1 in Hm.
  repeat split; [apply Hon2..|eauto with pg|]. intros _ Hi. by apply Hm, Z.eqb_eq.
Qed.

Lemma bool_nonempty {A} `{EqDecision A} (l : list A) : negb (bool_decide (l = [])) = true <-> l <> [].
Proof. case_bool_decide; naive_solver. Qed.

(** Extensions and scripts of one database. *)
Lemma contents_ok req db name t c s :
  on t c s ->
  cwp (cbind (cwhen (negb (bool_decide (cdb_Extensions db = [])))
                (lift (fun c => CreateExtensions c (cdb_Extensions db)))) (fun _ =>
       cwhen (negb (bool_decide (cdb_Scripts db = [])))
         (lift (fun c => ExecuteScript c name (pg_user req) (cdb_Scripts db)))))
    (fun c' _ s' => on t c' s' /\
       (forall e, e ∈ cdb_Extensions db -> executed t (create_extension_sql e) s') /\
       (cdb_Scripts db <> [] -> executed t (script_text name (pg_user req) (cdb_Scripts db)) s')) c s.
Proof.
  intros Hon. apply cwp_bind.
  eapply cwp_mono; [|apply (cwp_when_on _ _ t); [exact Hon | intros _; apply CreateExtensions_ok, Hon]].
  cbn beta. intros c1 _ s1 _ [Hon1 He].
  eapply cwp_mono; [|apply (cwp_when_on _ _ t); [exact Hon1 | intros _; apply ExecContext_ok, Hon1]].
  cbn beta. intros c2 _ s2 Hle [Hon2 Hs]. destruct Hon as [_ Hb], Hon1 as [_ Hb1].
  rewrite Hb in He. rewrite Hb1 in Hs. repeat split; [apply Hon2..| |].
  - intros e Hin. eapply executed_le; [exact Hle|]. apply He; [|done].
    apply bool_nonempty. intros E. rewrite E in Hin. inversion Hin.
  - intros Hne. by apply Hs, bool_nonempty.
Qed.

(** One database of the request: reached, prepared, filled. *)
Lemma create_db_ok req i b d db c s :
  on (WithDatabase b d) c s ->
  cwp (create_db req i (tg_host b) db)
    (fun c' _ s' => (exists d', on (WithDatabase b d') c' s') /\
                    (on_node i db = true -> db_ready req b i db s')) c s.
Proof.
  intros Hon. apply cwp_when; [|intros ->; split; [by exists d | done]]. intros _.
  set (name := db_name req db). set (t := WithDatabase b name).
  apply cwp_bind. eapply cwp_mono;
    [|apply (cwp_lift_on _ (WithDatabase b d)); [exact Hon | apply CreateDatabaseIfNotExists_ok, Hon]].
  cbn beta. intros c1 _ s1 _ [Hon1 Hp].
  apply cwp_bind. eapply cwp_mono; [|apply SwitchDatabase_ok].
  cbn beta. intros c2 _ s2 Hle2 [Hl2 Hb2].
  assert (on t c2 s2) as Hon2.
  { split; [done|]. destruct Hon1 as [_ Hb1]. by rewrite Hb2, Hb1. }
  apply cwp_bind. eapply cwp_mono; [|by apply (citus_ok db i (tg_host b))].
  cbn beta. intros c3 _ s3 Hle3 (Hon3 & Hc & Hm).
  eapply cwp_mono; [|by apply (contents_ok req db name)].
  cbn beta. intros c4 _ s4 Hle4 (Hon4 & He & Hs). split; [by exists name|]. intros _.
  destruct Hon as [_ Hb]. rewrite Hb in Hp.
  repeat split; fold name t; [| | |exact He|exact Hs].
  - exists d. eapply db_present_le; [|exact Hp]. do 2 (etransitivity; [eassumption|]). done.
  - eauto with pg.
  - intros Hd Hi. destruct (Hm Hd Hi) as [rows Ha]. eauto with pg.
Qed.

Lemma create_on_node_ok req i b c s :
  on b c s ->
  cwp (create_on_node req i (tg_host b)) (fun _ _ s' => node_ready req b i s') c s.
Proof.
  intros Hon. apply cwp_bind. apply cwp_lift.
  apply (okwp_mono _ (fun s' _ => live c s')).
  2: { unfold GetVarValue, okwp. destruct Hon as [Hl _]. unfold live in Hl.
       repeat case_match; cbn; try done. destruct (pvs_SecretKeyRef _); cbn; [|done].
       by intros [sec|e]; cbn. }
  intros s1 pwd _ Hl1. apply cwp_bind. eapply cwp_mono;
    [|apply (cwp_lift_on _ b); [split; [done | apply Hon] | by apply CreateOrUpdateUser_ok]].
  cbn beta. intros c2 _ s2 Hle2 [Hon2 Hr]. destruct Hon as [_ Hb]. rewrite Hb in Hr.
  eapply cwp_mono; [|apply (cwp_for_each _
      (fun c' s' => exists d, on (WithDatabase b d) c' s')
      (fun db s' => on_node i db = true -> db_ready req b i db s'))].
  - cbn beta. intros _ _ s3 Hle3 [_ Hdbs]. split; [|by auto].
    exists pwd. by eapply role_ready_le.
  - intros db s' s'' Hle Hready Hn. eapply db_ready_le; eauto.
  - intros db c' s' _ [d Hd]. by apply (create_db_ok req i b d).
  - exists (tg_database b). destruct Hon2 as [Hl2 Hb2]. split; [done|]. by destruct b.
Qed.

Lemma okwp_seen {A} ns name (f : StatefulSet -> io (res A)) Q s :
  (forall sts s', SawStatefulSet sts ∈ facts s' -> okwp (f sts) Q s') ->
  okwp (bind_ok (k8s_call (GetStatefulSet ns name)) f) Q s.
Proof. intros H [sts|e]; cbn; [|done]. apply H, add_fact_in. Qed.

(** The prologue common to all four operations. *)
Lemma find_cluster_ok {A} (f : StatefulSet * string * string -> io (res A)) Q s :
  (forall sts user pwd s', SawStatefulSet sts ∈ facts s' -> okwp (f (sts, user, pwd)) Q s') ->
  okwp (bind_ok findClusterWorkloadAndAdminuserAndPassword f) Q s.
Proof.
  intros H. apply okwp_bind_ok. unfold findClusterWorkloadAndAdminuserAndPassword.
  apply okwp_seen. intros sts s1 Hs1. apply okwp_bind_ok.
  apply (okwp_mono _ (fun _ _ => True)).
  - cbn beta. intros s2 [user pwd] Hle _. apply H. by apply Hle.
  - apply okwp_true.
Qed.

Lemma elem_of_int_range lo n i : i ∈ int_range lo n <-> (lo <= i < n)%Z.
Proof. unfold int_range. rewrite elem_of_seqZ. lia. Qed.

(** Every worker of the cluster is registered for every distributed database. *)
Definition workers_added (req : MiddlewareRequest) (s : pgstate) : Prop :=
  exists sts adminUser adminPwd n,
    SawStatefulSet sts ∈ facts s /\ sts_Replicas sts = Some n /\
    forall i, (1 <= i < n)%Z ->
      worker_added req (node_target sts adminUser adminPwd 0) (node_host sts i) s.

Lemma add_worker_ok b req worker db s :
  okwp (add_worker b req worker db) (fun s' _ => IsDistributed db = true ->
    exists rows, answered (WithDatabase b (db_name req db)) add_node_sql (node_args worker PG_PORT) rows s') s.
Proof.
  unfold add_worker. destruct (IsDistributed db); [|done].
  apply okwp_bind_ok, Build_ok. intros conn. unfold okwp. rewrite wp_bind.
  eapply wp_mono; [|apply (AddWorkerNode_ok (mkClient conn _)); unfold live; cbn; apply lookup_insert_eq].
  cbn. intros s' [[u|e]|w]; cbn; [|done..]. intros [_ [rows Ha]] _ _. by exists rows.
Qed.

Lemma addWorkerNode_ok req s : okwp (addWorkerNode req) (fun s' _ => workers_added req s') s.
Proof.
  apply find_cluster_ok. intros sts user pwd s1 Hseen. unfold nodes.
  destruct (sts_Replicas sts) as [n|] eqn:Hn; cbn -[for_each]; [|done].
  set (master := NewClientBuidler user pwd (node_host sts 0) PG_PORT).
  eapply okwp_mono; [|apply (okwp_for_each _ (fun i s' => worker_added req master (node_host sts i) s'))].
  - cbn beta. intros s' _ Hle Hall. exists sts, user, pwd, n.
    repeat split; [by apply Hle|done|]. intros i Hi. apply Hall. by apply elem_of_int_range.
  - intros i s' s'' Hle Hw db Hin Hd. destruct (Hw db Hin Hd) as [rows Ha]. eauto with pg.
  - intros i s' _. eapply okwp_mono; [|apply (okwp_for_each _ (fun db s' => IsDistributed db = true ->
      exists rows, answered (WithDatabase master (db_name req db)) add_node_sql
                     (node_args (node_host sts i) PG_PORT) rows s'))].
    + cbn beta. intros s2 _ _ Hall db. apply Hall.
    + intros db s2 s3 Hle Hx Hd. destruct (Hx Hd) as [rows Ha]. eauto with pg.
    + intros db s2 _. apply add_worker_ok.
Qed.

Definition provisioned (req : MiddlewareRequest) (s : pgstate) : Prop :=
  exists sts adminUser adminPwd n,
    SawStatefulSet sts ∈ facts s /\ sts_Replicas sts = Some n /\
    forall i, (0 <= i < n)%Z -> node_ready req (node_target sts adminUser adminPwd i) i s.

Lemma createOrUpdatePGRequest_ok req s :
  okwp (createOrUpdatePGRequest req) (fun s' _ => provisioned req s' /\ workers_added req s') s.
Proof.
  apply find_cluster_ok. intros sts user pwd s1 Hseen. unfold nodes.
  destruct (sts_Replicas sts) as [n|] eqn:Hn; cbn -[for_each bind_ok]; [|done].
  apply okwp_bind_ok.
  eapply okwp_mono; [|apply (okwp_for_each _ (fun i s' => node_ready req (node_target sts user pwd i) i s'))].
  - cbn beta. intros s2 _ Hle2 Hall. eapply okwp_mono; [|apply addWorkerNode_ok].
    cbn beta. intros s3 _ Hle3 Hw. split; [|done]. exists sts, user, pwd, n.
    split; [by apply Hle3, Hle2 | split; [done|]]. intros i Hi.
    eapply node_ready_le; [exact Hle3|]. apply Hall. by apply elem_of_int_range.
  - intros i s' s'' Hle. by apply node_ready_le.
  - intros i s2 _. apply with_client_ok. intros c s' Hl Hb _.
    eapply cwp_mono; [|apply (create_on_node_ok req i (node_target sts user pwd i)); by split].
    cbn beta. intros _ _ s3 _ Hr s4 Hf. eapply node_ready_le; [|exact Hr].
    intros f. by rewrite Hf.
Qed.

(** ** Pruning *)

Lemma scan_rows_ok l acc dbs :
  scan_rows l acc = Ok dbs -> dbs = acc ++ omap (fun r => match r with Ok n => Some n | Err _ => None end) l
                              /\ Forall (fun r => is_ok r = true) l.
Proof.
  revert acc. induction l as [|[n|e] l IH]; intros acc; cbn; [|..|done].
  - intros [= <-]. by rewrite app_nil_r.
  - intros [-> Hl]%IH. rewrite <- app_assoc. by split; [|constructor].
Qed.

Lemma elem_of_scanned l dbs d : scan_rows l [] = Ok dbs -> d ∈ dbs <-> Ok d ∈ l.
Proof.
  intros [-> _]%scan_rows_ok. cbn. rewrite list_elem_of_omap. split.
  - intros ([n|e] & Hin & [= ->]). done.
  - intros Hin. by exists (Ok d).
Qed.

(** Why a statement may be executed while pruning: it ends a session, or it
    drops a database that the role owns and the request does not ask for. *)
Definition prune_allowed (req : MiddlewareRequest) (sql : string) (s : pgstate) : Prop :=
  (exists pid, sql = terminate_sql pid) \/
  exists d t rows,
    sql = drop_database_sql d /\ requested req d = false /\ Ok d ∈ rows /\
    answered t list_by_owner_sql [("owner", pg_user req)] rows s.

Lemma prune_allowed_le req sql s s' : pg_le s s' -> prune_allowed req sql s -> prune_allowed req sql s'.
Proof.
  intros Hle [H|(d & t & rows & ? & ? & ? & ?)]; [by left|right]. exists d, t, rows. eauto with pg.
Qed.

Lemma issues_drop_everywhere sts user pwd db :
  issues (execs_only (fun sql => (exists pid, sql = terminate_sql pid) \/ sql = drop_database_sql db))
    (drop_everywhere sts user pwd db).
Proof.
  unfold drop_everywhere. apply issues_bind.
  { unfold nodes. apply issues_bind; [apply issues_deref | done]. }
  intros all. apply issues_for_each. intros i _.
  apply issues_bind_ok; [by unfold Build; apply issues_bind_ok; [apply issues_call|]|].
  intros c. apply issues_bind; [apply issues_DropDatabase|]. intros r.
  by apply issues_bind; [apply issues_call|].
Qed.

Definition pruned_safely (req : MiddlewareRequest) (s : pgstate) : Prop :=
  forall t sql, executed t sql s -> prune_allowed req sql s.

(** A stretch of the handler that executes no statement. *)
Lemma quiet_safely {A} req (m : io A) s :
  issues (execs_only (fun _ => False)) m -> pruned_safely req s ->
  wp pg_step m (fun s' _ => pruned_safely req s') s.
Proof.
  intros Hm Hs. apply (wp_execs_only _ (fun _ => False)); [|done|done|exact Hs].
  intros. by eapply prune_allowed_le.
Qed.

Lemma prune_one_safely req sts user pwd db t rows s :
  requested req db = false -> Ok db ∈ rows ->
  answered t list_by_owner_sql [("owner", pg_user req)] rows s ->
  pruned_safely req s ->
  wp pg_step (drop_everywhere sts user pwd db) (fun s' _ => pruned_safely req s') s.
Proof.
  intros Hr Hin Ha Hs. eapply wp_execs_only;
    [|apply issues_drop_everywhere| |exact Hs].
  - intros. by eapply prune_allowed_le.
  - intros sql s' Hle [Hp| ->]; [by left|right]. exists db, t, rows. eauto with pg.
Qed.

Lemma deleteDatabaseIfNotExists_safely req s :
  pruned_safely req s ->
  wp pg_step (deleteDatabaseIfNotExists req) (fun s' _ => pruned_safely req s') s.
Proof.
  intros Hs. unfold deleteDatabaseIfNotExists. rewrite wp_bind_ok.
  eapply wp_mono; [|apply (quiet_safely req); [by apply issues_find_cluster | exact Hs]].
  intros s1 [[[[sts user] pwd]|e]|w] Hs1; [|done..]. cbn [fst snd].
  set (b := NewClientBuidler user pwd (node_host sts 0) PG_PORT).
  rewrite wp_bind_ok. apply wp_Build; [|done]. intros conn.
  set (s2 := mkPgState _ _). set (c := mkClient conn b).
  rewrite wp_bind. eapply wp_mono; [|apply wp_and;
    [apply (quiet_safely req); [apply (issues_ListDatabaseByOwner c) | exact Hs1]
    |apply (ListDatabaseByOwner_ok c); unfold live; cbn; apply lookup_insert_eq]].
  cbn beta. intros s3 [[dbs|e]|w]; [| |by intros [? _]]; intros [Hs3 Hok]; apply wp_Close; [|done].
  destruct Hok as (_ & rows & Ha & Hscan).
  apply (wp_for_each _ _ (fun l s' => pruned_safely req s' /\ pg_le s3 s' /\ l ⊆ dbs));
    [|by intros s' [? _] | split; [exact Hs3 | split; [by intros f|done]]].
  intros d l s' (Hs' & Hle & Hsub). destruct (requested req d) eqn:Er; cbn.
  - repeat split; [done..|]. intros x Hx. apply Hsub. by right.
  - eapply wp_mono; [|apply (wp_extend _ pg_le); [apply pg_step_le|]; apply (prune_one_safely req _ _ _ d b rows s' Er)].
    + cbn. intros s4 [[u|e]|w] [Hle4 Hs4]; [|done..]. repeat split; [done|by etransitivity|].
      intros x Hx. apply Hsub. by right.
    + rewrite <- elem_of_scanned; [|exact Hscan]. apply Hsub. left.
    + by eapply answered_le.
    + done.
Qed.

(** Nothing the role owns beyond the request survives on any node. *)
Definition dropped_everywhere (sts : StatefulSet) (user pwd db : string) (n : Z) (s : pgstate) : Prop :=
  forall i, (0 <= i < n)%Z -> executed (node_target sts user pwd i) (drop_database_sql db) s.

Lemma drop_everywhere_ok sts user pwd db s :
  okwp (drop_everywhere sts user pwd db)
    (fun s' _ => exists n, sts_Replicas sts = Some n /\ dropped_everywhere sts user pwd db n s') s.
Proof.
  unfold drop_everywhere, nodes. destruct (sts_Replicas sts) as [n|]; cbn -[for_each bind_ok]; [|done].
  eapply okwp_mono; [|apply (okwp_for_each _ (fun i s' =>
    executed (node_target sts user pwd i) (drop_database_sql db) s'))].
  - cbn beta. intros s' _ _ H. exists n. split; [done|]. intros i Hi. apply H. by apply elem_of_int_range.
  - intros i s' s''. apply executed_le.
  - intros i s1 _. apply okwp_bind_ok, Build_ok. intros conn. unfold okwp. rewrite wp_bind.
    eapply wp_mono; [|apply (DropDatabase_ok (mkClient conn _)); unfold live; cbn; apply lookup_insert_eq].
    cbn. intros s' [[u|e]|w]; cbn; [|done..]. by intros [_ He] _.
Qed.

Definition pruned (req : MiddlewareRequest) (s : pgstate) : Prop :=
  exists sts user pwd rows,
    SawStatefulSet sts ∈ facts s /\
    answered (node_target sts user pwd 0) list_by_owner_sql [("owner", pg_user req)] rows s /\
    forall d, Ok d ∈ rows -> requested req d = false ->
      exists n, sts_Replicas sts = Some n /\ dropped_everywhere sts user pwd d n s.

Lemma deleteDatabaseIfNotExists_ok req s :
  okwp (deleteDatabaseIfNotExists req) (fun s' _ => pruned req s') s.
Proof.
  apply find_cluster_ok. intros sts user pwd s1 Hseen.
  apply okwp_bind_ok, Build_ok. intros conn. set (s2 := mkPgState _ _). set (c := mkClient conn _).
  unfold okwp. rewrite wp_bind.
  eapply wp_mono; [|apply (wp_extend _ pg_le); [apply pg_step_le|]; apply (ListDatabaseByOwner_ok c);
    unfold live; cbn; apply lookup_insert_eq].
  cbn beta. intros s3 [[dbs|e]|w]; [| |done]; intros [Hle Hok]; apply wp_Close; [|done].
  destruct Hok as (_ & rows & Ha & Hscan).
  eapply okwp_mono; [|apply (okwp_for_each _ (fun d s' => requested req d = false ->
    exists n, sts_Replicas sts = Some n /\ dropped_everywhere sts user pwd d n s'))].
  - cbn beta. intros s5 _ Hle5 Hall. exists sts, user, pwd, rows.
    split; [apply Hle5; by apply Hle|]. split; [by apply Hle5|].
    intros d Hin Hr. apply Hall; [|done]. by apply (elem_of_scanned rows).
  - intros d s5 s6 Hle5 H Hr. destruct (H Hr) as (n & Hn & Hd). exists n. split; [done|].
    intros i Hi. eapply executed_le; [exact Hle5|]. by apply Hd.
  - intros d s5 _. destruct (requested req d); [done|].
    eapply okwp_mono; [|by apply drop_everywhere_ok]. by cbn.
Qed.

(** ** Removal *)

(** What is executed on one node when a request is deleted. *)
Definition removed_from (req : MiddlewareRequest) (t : PgTarget) (i : Z) (s : pgstate) : Prop :=
  (forall db, db ∈ pg_dbs req -> on_node i db = true -> executed t (drop_database_sql (db_name req db)) s) /\
  (exists rows, answered t list_by_owner_sql [("owner", pg_user req)] rows s /\
     forall d, Ok d ∈ rows -> executed t (drop_database_sql d) s) /\
  (exists rows, answered t ("drop role if exists " +:+ pg_user req) [] rows s).

Lemma removed_from_le req t i s s' : pg_le s s' -> removed_from req t i s -> removed_from req t i s'.
Proof.
  intros Hle (Hd & (rows & Ha & Hl) & rows' & Hr). repeat split; [|exists rows; split|exists rows'];
    eauto with pg.
Qed.

(** Several drops through one connection. *)
Lemma drop_all_ok {A} (g : A -> bool) (name : A -> string) c l s :
  live c s ->
  okwp (for_each (fun x => if g x then DropDatabase c (name x) else Ret (Ok tt)) l)
    (fun s' _ => live c s' /\ forall x, x ∈ l -> g x = true ->
       executed (cl_builder c) (drop_database_sql (name x)) s') s.
Proof.
  revert s. induction l as [|x l IH]; intros s Hl; cbn [for_each].
  - split; [done|]. intros x Hx. inversion Hx.
  - apply okwp_bind_ok. apply (okwp_mono _ (fun s' _ => live c s' /\
      (g x = true -> executed (cl_builder c) (drop_database_sql (name x)) s'))).
    + intros s1 _ _ [Hl1 He]. eapply okwp_mono; [|by apply IH].
      cbn beta. intros s2 _ Hle [Hl2 Hall]. split; [done|].
      intros y Hy Hg. inversion Hy; subst; eauto with pg.
    + destruct (g x); [|done]. eapply okwp_mono; [|by apply DropDatabase_ok]. by intros s1 _ _ [??].
Qed.

Lemma drop_each_ok c l s :
  live c s ->
  okwp (for_each (DropDatabase c) l)
    (fun s' _ => live c s' /\ forall d, d ∈ l -> executed (cl_builder c) (drop_database_sql d) s') s.
Proof.
  intros Hl. eapply okwp_mono; [|apply (drop_all_ok (fun _ => true) (fun d => d) c l s Hl)].
  cbn beta. intros s' _ _ [? H]. split; [done|]. intros d Hd. by apply H.
Qed.

Lemma delete_on_node_ok req i c s :
  live c s -> okwp (delete_on_node req i c) (fun s' _ => removed_from req (cl_builder c) i s') s.
Proof.
  intros Hl. unfold delete_on_node. apply okwp_bind_ok.
  eapply okwp_mono; [|apply (drop_all_ok (on_node i) (db_name req)); exact Hl].
  cbn beta. intros s1 _ _ [Hl1 Hd]. apply okwp_bind_ok.
  eapply okwp_mono; [|by apply ListDatabaseByOwner_ok].
  cbn beta. intros s2 dbs Hle2 (Hl2 & rows & Ha & Hscan). apply okwp_bind_ok.
  eapply okwp_mono; [|by apply drop_each_ok].
  cbn beta. intros s3 _ Hle3 [Hl3 Hall]. unfold DeleteUser. apply okwp_bind_ok.
  eapply okwp_mono; [|by apply (NamedQuery_ok c)].
  cbn beta. intros s4 rows4 Hle4 [_ Hr]. repeat split.
  - intros db Hin Hon. eapply executed_le; [|by apply Hd].
    do 2 (etransitivity; [eassumption|]). done.
  - exists rows. split; [eauto with pg|]. intros d Hin.
    eapply executed_le; [exact Hle4|]. apply Hall. by apply (elem_of_scanned rows).
  - by exists (rows_data rows4).
Qed.

Definition removed (req : MiddlewareRequest) (s : pgstate) : Prop :=
  exists sts user pwd n,
    SawStatefulSet sts ∈ facts s /\ sts_Replicas sts = Some n /\
    forall i, (0 <= i < n)%Z -> removed_from req (node_target sts user pwd i) i s.

Lemma deletePGAll_ok req s : okwp (deletePGAll req) (fun s' _ => removed req s') s.
Proof.
  apply find_cluster_ok. intros sts user pwd s1 Hseen. unfold nodes.
  destruct (sts_Replicas sts) as [n|] eqn:Hn; cbn -[for_each bind_ok]; [|done].
  eapply okwp_mono; [|apply (okwp_for_each _ (fun i s' => removed_from req (node_target sts user pwd i) i s'))].
  - cbn beta. intros s' _ Hle Hall. exists sts, user, pwd, n.
    split; [by apply Hle | split; [done|]]. intros i Hi. apply Hall. by apply elem_of_int_range.
  - intros i s' s''. apply removed_from_le.
  - intros i s2 _. apply okwp_bind_ok, Build_ok. intros conn.
    apply okwp_with_defer; [|by intros s' []].
    eapply okwp_mono; [|apply (delete_on_node_ok req i (mkClient conn _)); unfold live; cbn; apply lookup_insert_eq].
    cbn. intros s3 _ _ H []. eapply removed_from_le; [|exact H]. by intros f.
Qed.

(** ** Connections *)

Lemma closing_find_cluster : closing findClusterWorkloadAndAdminuserAndPassword.
Proof. apply closing_quiet, issues_find_cluster; done. Qed.

Lemma closing_nodes sts from : closing (nodes sts from).
Proof. apply closing_quiet. unfold nodes. apply issues_bind; [apply issues_deref | done]. Qed.

Lemma cclosing_create_on_node req i host : cclosing (create_on_node req i host).
Proof.
  unfold create_on_node. apply cclosing_bind.
  { apply cclosing_lift. intros _. by apply issues_GetVarValue. }
  intros pwd. apply cclosing_bind; [apply cclosing_lift; intros; apply quiet_CreateOrUpdateUser|].
  intros _. apply cclosing_for_each. intros db. unfold create_db. apply cclosing_when.
  apply cclosing_bind; [apply cclosing_lift; intros; apply quiet_CreateDatabaseIfNotExists|].
  intros _. apply cclosing_bind; [apply cclosing_SwitchDatabase|].
  intros _. apply cclosing_bind.
  { apply cclosing_when, cclosing_bind; [by apply cclosing_lift; intros; apply issues_call|].
    intros _. apply cclosing_when, cclosing_lift. intros c. unfold SetMasterNode. quiet. }
  intros _. apply cclosing_bind; intros; apply cclosing_when, cclosing_lift; intros.
  - apply quiet_CreateExtensions.
  - by apply issues_call.
Qed.

Lemma closing_addWorkerNode req : closing (addWorkerNode req).
Proof.
  apply closing_bind_ok; [apply closing_find_cluster|]. intros [[sts user] pwd].
  apply closing_bind; [apply closing_nodes|]. intros workers.
  apply closing_for_each. intros i. apply closing_for_each. intros db. unfold add_worker.
  destruct (IsDistributed db); [|by apply closing_quiet].
  apply closing_Build. intros D c. apply keeps_then_Close. unfold AddWorkerNode. quiet.
Qed.

Lemma closing_createOrUpdate req : closing (createOrUpdatePGRequest req).
Proof.
  apply closing_bind_ok; [apply closing_find_cluster|]. intros [[sts user] pwd].
  apply closing_bind; [apply closing_nodes|]. intros all.
  apply closing_bind_ok; [|intros _; apply closing_addWorkerNode].
  apply closing_for_each. intros i. apply closing_with_client, cclosing_create_on_node.
Qed.

Lemma closing_deleteDatabase req : closing (deleteDatabaseIfNotExists req).
Proof.
  apply closing_bind_ok; [apply closing_find_cluster|]. intros [[sts user] pwd].
  apply closing_Build. intros D c.
  eapply keeps_open_bind; [apply closing_quiet, quiet_ListDatabaseByOwner|]. intros r.
  eapply keeps_open_bind; [apply keeps_Close|]. intros [].
  destruct r as [dbs|e]; [|by apply closing_quiet].
  apply closing_for_each. intros db. destruct (requested req db); [by apply closing_quiet|].
  apply closing_bind; [apply closing_nodes|]. intros all. apply closing_for_each. intros i.
  apply closing_Build. intros D' c'. apply keeps_then_Close, quiet_DropDatabase.
Qed.

Lemma closing_deleteAll req : closing (deletePGAll req).
Proof.
  apply closing_bind_ok; [apply closing_find_cluster|]. intros [[sts user] pwd].
  apply closing_bind; [apply closing_nodes|]. intros all. apply closing_for_each. intros i.
  apply closing_Build. intros D c. apply keeps_defer_Close. unfold delete_on_node.
  apply issues_bind_ok; [apply issues_for_each; intros db _; destruct (on_node i db); [apply quiet_DropDatabase|done]|].
  intros _. apply issues_bind_ok; [apply quiet_ListDatabaseByOwner|]. intros dbs.
  apply issues_bind_ok; [apply issues_for_each; intros; apply quiet_DropDatabase|].
  intros _. unfold DeleteUser. quiet.
Qed.

(** From no open connection, a closing program ends with none. *)
Lemma closing_runs {A} (m : io A) tr a :
  closing m -> runs m tr (Returned a) -> conns (pg_watch tr) = ∅.
Proof.
  intros Hm Hr. specialize (Hm ∅ pg_init). rewrite wp_runs in Hm.
  specialize (Hm ltac:(done) _ _ Hr). apply dom_empty_inv_L. set_solver.
Qed.


(** ** A two-node cluster to run the handlers in *)

Definition demo_sts : StatefulSet :=
  mkSts (mkMeta "citus" "os-platform" ∅ ∅) (Some 2%Z) (sts_Template CitusStatefulset).
Definition demo_cluster : PGCluster :=
  mkPGCluster (mkMeta "citus" "os-platform" ∅ ∅)
    (mkPGClusterSpec 2 "olares" "" (mkPwd "secret" None) "system" "").

(** Every node holds the databases [ns_old] (owned by the role) and [ns_a];
    handles are numbered from the state. *)
Definition demo_world (o : op) (next : nat) : resp o * nat :=
  match o return resp o * nat with
  | K8s (GetStatefulSet _ _) => (Ok demo_sts, next)
  | Apr (GetPGCluster _ _) => (Ok demo_cluster, next)
  | Pg (PgConnect _) => (Ok next, S next)
  | Pg (PgExec _ _) => (Ok tt, next)
  | Pg (PgQuery _ sql args) =>
      (Ok (mkRows next (if String.eqb sql list_by_owner_sql then [Ok "ns_old"; Ok "ns_a"]
                        else if String.eqb sql find_database_sql then map (fun a => Ok (snd a)) args
                        else [])), next)
  | o => (unavailable o, next)
  end.

Definition with_pg (s : MiddlewareSpec) (p : PostgreSQL) : MiddlewareSpec := {|
  ms_App := ms_App s; ms_AppNamespace := ms_AppNamespace s; ms_Middleware := ms_Middleware s;
  ms_Redis := ms_Redis s; ms_MongoDB := ms_MongoDB s; ms_PostgreSQL := p; ms_Zinc := ms_Zinc s;
  ms_Nats := ms_Nats s; ms_Minio := ms_Minio s; ms_RabbitMQ := ms_RabbitMQ s;
  ms_Elasticsearch := ms_Elasticsearch s; ms_MariaDB := ms_MariaDB s; ms_Mysql := ms_Mysql s |}.

Definition demo_req : MiddlewareRequest :=
  mkMiddlewareRequest (mkMeta "req" "user-space-bob" ∅ ∅)
    (with_pg (empty_spec "app" "ns" TypePostgreSQL)
       (mkPostgreSQL (mkPwd "pw" None)
          [mkCitusDatabase "a" ["pgvector"] ["grant all to $dbusername"] (Some true);
           mkCitusDatabase "b" [] [] None] "bob")).

Definition trace_of {A} (m : io A) : history := fst (fst (exec demo_world m 0)).
Definition outcome_of {A} (m : io A) : outcome A := snd (fst (exec demo_world m 0)).
Lemma demo_runs {A} (m : io A) : runs m (trace_of m) (outcome_of m).
Proof.
  unfold trace_of, outcome_of. destruct (exec demo_world m 0) as [[tr out] w] eqn:E.
  by eapply exec_runs.
Qed.

(** ** The properties *)

(** C1: when a PostgreSQL request is reported as provisioned, then on every
    node of the cluster the role was created or altered with a password and
    limited, and each database belonging on that node was found or created
    for that role and, in it, citus, every requested extension and the
    request's script were executed successfully; and every worker node was
    registered with the master for every distributed database. *)
Theorem createOrUpdatePGRequest_provisions req tr :
  runs (createOrUpdatePGRequest req) tr (Returned (Ok tt)) ->
  provisioned req (pg_watch tr) /\ workers_added req (pg_watch tr).
Proof. intros Hr. apply (okwp_runs _ _ tr tt (createOrUpdatePGRequest_ok req pg_init) Hr). Qed.

Lemma createOrUpdatePGRequest_provisions_witness :
  let tr := trace_of (createOrUpdatePGRequest demo_req) in
  outcome_of (createOrUpdatePGRequest demo_req) = Returned (Ok tt) /\
  provisioned demo_req (pg_watch tr) /\ workers_added demo_req (pg_watch tr).
Proof.
  split; [vm_compute; reflexivity|].
  apply createOrUpdatePGRequest_provisions. apply (demo_runs (createOrUpdatePGRequest demo_req)).
Defined.

(** C2: pruning is safe on every path, failing or not: each statement executed
    while an updated request is pruned either ends a session or drops a
    database which the catalogue listed as owned by the request's role and
    which the request does not name. *)
Theorem deleteDatabaseIfNotExists_safe req tr out :
  runs (deleteDatabaseIfNotExists req) tr out ->
  forall t sql, executed t sql (pg_watch tr) -> prune_allowed req sql (pg_watch tr).
Proof.
  intros Hr. pose proof (deleteDatabaseIfNotExists_safely req pg_init) as H.
  rewrite wp_runs in H. apply (H ltac:(intros t sql Hx; inversion Hx) _ _ Hr).
Qed.

Lemma deleteDatabaseIfNotExists_safe_witness :
  let tr := trace_of (deleteDatabaseIfNotExists demo_req) in
  executed (node_target demo_sts "olares" "secret" 1) (drop_database_sql "ns_old") (pg_watch tr) /\
  prune_allowed demo_req (drop_database_sql "ns_old") (pg_watch tr).
Proof.
  assert (executed (node_target demo_sts "olares" "secret" 1) (drop_database_sql "ns_old")
            (pg_watch (trace_of (deleteDatabaseIfNotExists demo_req)))) as He.
  { vm_compute. do 5 right. left. }
  split; [exact He|].
  exact (deleteDatabaseIfNotExists_safe _ _ _ (demo_runs (deleteDatabaseIfNotExists demo_req)) _ _ He).
Defined.

(** C10: pruning is complete: when it succeeds, every database the role owned
    on the master and the request no longer names has been dropped on every
    node. *)
Theorem deleteDatabaseIfNotExists_complete req tr :
  runs (deleteDatabaseIfNotExists req) tr (Returned (Ok tt)) -> pruned req (pg_watch tr).
Proof. intros Hr. apply (okwp_runs _ _ tr tt (deleteDatabaseIfNotExists_ok req pg_init) Hr). Qed.

Lemma deleteDatabaseIfNotExists_complete_witness :
  outcome_of (deleteDatabaseIfNotExists demo_req) = Returned (Ok tt) /\
  pruned demo_req (pg_watch (trace_of (deleteDatabaseIfNotExists demo_req))).
Proof.
  split; [vm_compute; reflexivity|].
  apply deleteDatabaseIfNotExists_complete. apply (demo_runs (deleteDatabaseIfNotExists demo_req)).
Defined.

(** when a PostgreSQL request is reported as deleted, on every node its
    databases, then every other database the role owned there, have been
    dropped, and the role itself. *)
Theorem deletePGAll_removes req tr :
  runs (deletePGAll req) tr (Returned (Ok tt)) -> removed req (pg_watch tr).
Proof. intros Hr. apply (okwp_runs _ _ tr tt (deletePGAll_ok req pg_init) Hr). Qed.

Lemma deletePGAll_removes_witness :
  outcome_of (deletePGAll demo_req) = Returned (Ok tt) /\
  removed demo_req (pg_watch (trace_of (deletePGAll demo_req))).
Proof.
  split; [vm_compute; reflexivity|].
  apply deletePGAll_removes. apply (demo_runs (deletePGAll demo_req)).
Defined.

(** C11: no connection outlives a handler: whatever the servers answer, when
    any of the three PostgreSQL operations returns, with success or with an
    error, every connection it opened (also the one a database switch
    replaced) has been closed. *)
Theorem pg_handlers_close_connections req m tr r :
  m ∈ [createOrUpdatePGRequest req; deleteDatabaseIfNotExists req; deletePGAll req] ->
  runs m tr (Returned r) -> conns (pg_watch tr) = ∅.
Proof.
  intros Hm. apply closing_runs.
  repeat (apply elem_of_cons in Hm as [->|Hm];
    [eauto using closing_createOrUpdate, closing_deleteDatabase, closing_deleteAll|]).
  inversion Hm.
Qed.

Lemma pg_handlers_close_connections_witness :
  outcome_of (deletePGAll demo_req) = Returned (Ok tt) /\
  conns (pg_watch (trace_of (deletePGAll demo_req))) = ∅.
Proof.
  split; [vm_compute; reflexivity|].
  apply (pg_handlers_close_connections demo_req (deletePGAll demo_req) _ (Ok tt)).
  - right. right. left.
  - apply (demo_runs (deletePGAll demo_req)).
Defined.
