(* ===== verification/Websocket.v ===== *)
(** * The WebSocket gateway: [src/pkg/ws], its handshake middleware
    [src/pkg/ws/middleware], and the HTTP controller [src/cmd/websocket/app]

    Clients are heap objects: the connection's goroutine and the server's user
    table point to the same one, so they are kept in a store and referred to
    by reference. *)

From S2P Require Import Prelude.

(** ** Data *)

Definition expirationDuration : Z := 45.
Definition queueSize : nat := 500.

Inductive action : Set := ACTION_OPEN | ACTION_CLOSE | ACTION_MESSAGE.
#[export] Instance action_eq_dec : EqDecision action.
Proof. solve_decision. Defined.

(** What a frame holds once [json.Unmarshal] has decoded it into a map; a
    value other than a string is kept as its text. *)
Inductive jvalue : Set := JString (s : string) | JOther (raw : string).
#[export] Instance jvalue_eq_dec : EqDecision jvalue.
Proof. solve_decision. Defined.

(** [client.go]: the locals of the connection, and whether its context was
    cancelled.  An absent or zero [expired] local is 0. *)
Record Client : Set := mkClient {
  cl_connId : string;
  cl_token : string;
  cl_tokenOriginal : string;
  cl_user : string;
  cl_userAgent : string;
  cl_cookie : string;
  cl_public : bool;
  cl_expired : Z;
  cl_cancelled : bool }.

Record User : Set := mkUser { u_name : string; u_conns : gmap string nat }.

Record CloseMessage : Set := mkClose {
  cm_ConnIds : list string; cm_Tokens : list string; cm_Users : list string;
  cm_UsersAccessType : Z }.
Record ReadMessage : Set := mkRead {
  rm_AccessPublic : bool; rm_Token : string; rm_ConnId : string; rm_UserName : string;
  rm_Data : gmap string jvalue; rm_Cookie : string; rm_Action : action }.
Record WriteMessage : Set := mkWrite {
  wm_MessageType : Z; wm_Message : gmap string jvalue; wm_ConnId : string;
  wm_Tokens : list string; wm_Users : list string; wm_UsersAccessType : Z }.

Record Server : Set := mkServer {
  users : gmap string User;
  store : gmap nat Client }.

Definition TextMessage : Z := 1.

(** ** [filters.go] *)

Record fields : Set := mkFields {
  f_user : string; f_token : string; f_connId : string; f_public : string; f_client : nat }.

Definition bool_text (b : bool) : string := if b then "true" else "false".

(** The connections of one user.  A client whose object is missing would be a
    nil pointer; [wf] below excludes it. *)
Definition user_fields (st : gmap nat Client) (userName : string) (conns : gmap string nat) : list fields :=
  omap (fun '(connId, ref) =>
          c ← st !! ref;
          Some (mkFields userName (cl_token c) connId (bool_text (cl_public c)) ref))
    (map_to_list conns).

Definition NewFilter (s : Server) : list fields :=
  concat (map (fun '(userName, u) => user_fields (store s) userName (u_conns u))
            (map_to_list (users s))).

Definition ListContains (items : list string) (v : string) : bool := existsb (fun i => String.eqb v i) items.

(** An empty list of wanted values clears the selection. *)
Definition filter_fields (wanted : list string) (fieldValue : fields -> string) (data : list fields)
  : list fields :=
  match wanted with
  | [] => []
  | _ => base.filter (fun d => ListContains wanted (fieldValue d) = true) data
  end.

Definition FilterByUsers (l : list string) := filter_fields l f_user.
Definition FilterByUsersPublicsOnly := filter_fields ["true"] f_public.
Definition FilterByUsersPrivatesOnly := filter_fields ["false"] f_public.
Definition FilterByTokens (l : list string) := filter_fields l f_token.
Definition FilterByConnIds (l : list string) := filter_fields l f_connId.

Definition isExpired (now : Z) (c : Client) : bool :=
  (cl_expired c =? 0)%Z || (expirationDuration <? now - cl_expired c)%Z.

Definition FilterByExpired (now : Z) (s : Server) (data : list fields) : list fields :=
  base.filter (fun d => match store s !! f_client d with Some c => isExpired now c | None => false end = true) data.

(** A set, in no particular order. *)
Definition Result (data : list fields) : list string := elements (list_to_set (C := gset string) (map f_connId data)).

(** ** [server.go] *)

Definition nonempty {A} (l : list A) : bool := match l with [] => false | _ => true end.

(** The selection of [closeConns] and [routineWrite]: each criterion applies
    only when it is given, the access type only together with users. *)
Definition select (s : Server) (connIds tokens usrs : list string) (accessType : Z) : list fields :=
  let d := NewFilter s in
  let d := if nonempty usrs then
             let d := FilterByUsers usrs d in
             if (accessType =? 1)%Z then FilterByUsersPrivatesOnly d
             else if (accessType =? 2)%Z then FilterByUsersPublicsOnly d
             else d
           else d in
  let d := if nonempty tokens then FilterByTokens tokens d else d in
  if nonempty connIds then FilterByConnIds connIds d else d.

Definition close_result (s : Server) (m : CloseMessage) : list string :=
  Result (select s (cm_ConnIds m) (cm_Tokens m) (cm_Users m) (cm_UsersAccessType m)).

Definition cancel (c : Client) : Client :=
  mkClient (cl_connId c) (cl_token c) (cl_tokenOriginal c) (cl_user c) (cl_userAgent c)
    (cl_cookie c) (cl_public c) (cl_expired c) true.

(** Deleting the selected identifiers from one user's table; [client.close()]
    cancels the objects found there. *)
Definition close_user (result : list string) (u : User) : User :=
  mkUser (u_name u) (filter (fun kv => kv.1 ∉ result) (u_conns u)).

Definition closed_refs (result : list string) (us : gmap string User) : gset nat :=
  list_to_set (concat (map (fun '(_, u) => map snd (map_to_list (filter (fun kv => kv.1 ∈ result) (u_conns u))))
                         (map_to_list us))).

(** Second half of [closeConns], under the write lock: entries are deleted in
    every user's table, then the users left without any are removed. *)
Definition apply_close (result : list string) (s : Server) : Server :=
  match result with
  | [] => s
  | _ =>
      let us := close_user result <$> users s in
      mkServer (filter (fun kv => u_conns kv.2 <> ∅) us)
        (map_imap (fun ref c => Some (if decide (ref ∈ closed_refs result (users s)) then cancel c else c))
           (store s))
  end.

Definition closeConns (m : CloseMessage) (s : Server) : Server := apply_close (close_result s m) s.

Definition addClient (ref : nat) (c : Client) (s : Server) : Server :=
  let u := match users s !! cl_user c with
           | None => mkUser (cl_user c) {[cl_connId c := ref]}
           | Some u => mkUser (u_name u) (<[cl_connId c := ref]> (u_conns u))
           end in
  mkServer (<[cl_user c := u]> (users s)) (<[ref := c]> (store s)).

(** [routineWrite]: the selected identifiers, then, under the read lock
    taken again, the connections some user's table holds for them. *)
Definition write_result (s : Server) (m : WriteMessage) : list string :=
  Result (select s (if String.eqb (wm_ConnId m) "" then [] else [wm_ConnId m])
            (wm_Tokens m) (wm_Users m) (wm_UsersAccessType m)).
Definition deliver (result : list string) (s : Server) : list nat :=
  concat (map (fun '(_, u) => omap (fun connId => u_conns u !! connId) result) (map_to_list (users s))).

(** [List()]: per user, the private and the public connections with the
    identifier, token and user agent of each. *)
Record conn_row : Set := mkRow {
  cr_id : string; cr_token : string; cr_userAgent : string; cr_userAgentTag : string }.
Record listed : Set := mkListed {
  ls_name : string; ls_conns : list conn_row; ls_conns_number : nat;
  ls_public_conns : list conn_row; ls_public_conns_number : nat }.

(** [checkExpired]: what the ticker enqueues, if anything. *)
Definition expired_message (now : Z) (s : Server) : option CloseMessage :=
  match Result (FilterByExpired now s (NewFilter s)) with
  | [] => None
  | result => Some (mkClose result [] [] 0)
  end.

(** ** [client.go] *)

Definition checkPingMessage (msg : option (gmap string jvalue)) : bool :=
  match msg with
  | Some data => bool_decide (data !! "event" = Some (JString "ping"))
  | None => false
  end.

Definition updateExpiration (now : Z) (c : Client) : Client :=
  mkClient (cl_connId c) (cl_token c) (cl_tokenOriginal c) (cl_user c) (cl_userAgent c)
    (cl_cookie c) (cl_public c) now (cl_cancelled c).

Definition read_message (c : Client) (data : gmap string jvalue) (a : action) : ReadMessage :=
  mkRead (cl_public c) (cl_tokenOriginal c) (cl_connId c) (cl_user c) data (cl_cookie c) a.
Definition pong_message (c : Client) : WriteMessage :=
  mkWrite TextMessage {["event" := JString "pong"]} (cl_connId c) [] [] 0.

(** ** [ws/middleware]: the handshake *)

Section Handshake.
  (* crypto/md5 in hexadecimal, and the identifiers uuid.New() returns *)
  Variable MD5 : string -> string.

(** [Client.md5] leaves the empty input alone. *)
Definition client_md5 (s : string) : string := if String.eqb s "" then "" else MD5 s.

Definition list_row (c : Client) : conn_row :=
  mkRow (cl_connId c) (cl_tokenOriginal c) (cl_userAgent c) (client_md5 (cl_userAgent c)).
Definition list_user (st : gmap nat Client) (u : User) : listed :=
  let cs := omap (fun ref => st !! ref) (map snd (map_to_list (u_conns u))) in
  let conns := map list_row (base.filter (fun c => cl_public c = false) cs) in
  let publics := map list_row (base.filter (fun c => cl_public c = true) cs) in
  mkListed (u_name u) conns (length conns) publics (length publics).
Definition ListConns (s : Server) : list listed :=
  map (fun '(_, u) => list_user (store s) u) (map_to_list (users s)).

Inductive handshake_error : Set := ErrUpgradeRequired | ErrBadRequest.

(** [RequireHeader] followed by [setLocals]: a request without the cookie gets
    a fresh token and public access; [newToken] and [connId] are what
    [uuid.New()] answers. *)
Definition RequireHeader (upgrade : bool) (auth_token newToken connId : string)
    (headers : option (gmap string string)) (now : Z) : Client + handshake_error :=
  if negb upgrade then inr ErrUpgradeRequired
  else
    let accessPublic := String.eqb auth_token "" in
    let token := if accessPublic then newToken else auth_token in
    match headers with
    | None => inr ErrBadRequest
    | Some headers =>
        let header k := default "" (headers !! k) in
        inl (mkClient connId (MD5 token) token (header "X-Bfl-User") (header "User-Agent")
               (header "Cookie") accessPublic now false)
    end.

(** ** [cmd/websocket/app/handler.go] *)

Record disConnectionReq : Set := mkDisconnect {
  dr_Conns : list string; dr_Tokens : list string; dr_Users : list string; dr_UsersAccessType : Z }.
Record sendMessageReq : Set := mkSend {
  sr_Payload : gmap string jvalue; sr_Users : list string; sr_UsersAccessType : Z;
  sr_Tokens : list string; sr_ConnId : string }.

(** The server's [Close] and [Push]: what they put in the queues. *)
Definition ws_Close (connIds tokens users : list string) (usersAccessType : Z) : CloseMessage :=
  mkClose connIds tokens users usersAccessType.
Definition ws_Push (connId : string) (tokens users : list string) (usersAccessType : Z)
    (message : gmap string jvalue) : WriteMessage :=
  mkWrite TextMessage message connId tokens users usersAccessType.

(** Blank tokens are skipped; an undecodable body is answered with 400. *)
Definition CloseConnection (body : option disConnectionReq) : option CloseMessage :=
  match body with
  | None => None
  | Some r =>
      Some (ws_Close (dr_Conns r)
              (map MD5 (base.filter (fun t => t <> "") (dr_Tokens r)))
              (dr_Users r) (dr_UsersAccessType r))
  end.

Definition SendMessage (body : option sendMessageReq) : option WriteMessage :=
  match body with
  | None => None
  | Some r =>
      if String.eqb (sr_ConnId r) "" && negb (nonempty (sr_Users r)) && negb (nonempty (sr_Tokens r))
      then None
      else Some (ws_Push (sr_ConnId r) (map MD5 (sr_Tokens r)) (sr_Users r) (sr_UsersAccessType r) (sr_Payload r))
  end.

(** The answers with code 0; the debug endpoint has nothing else left. *)
Record ws_answer : Set := mkWsAnswer { wa_code : Z; wa_message : string; wa_data : option (list listed) }.
Definition ListConnection (s : Server) : ws_answer := mkWsAnswer 0 "success" (Some (ListConns s)).
Definition DebugFunc : ws_answer := mkWsAnswer 0 "success" None.

(** [ServerRun]: the routes. *)
Inductive endpoint : Set := EHandshake | EListConnection | ESendMessage | ECloseConnection | EDebugFunc.
Definition ServerRun (method path : string) : option endpoint :=
  if String.eqb method "GET" then
    if String.eqb path "/ws" then Some EHandshake
    else if String.eqb path "/tapr/ws/conn/list" then Some EListConnection else None
  else if String.eqb method "POST" then
    if String.eqb path "/tapr/ws/conn/send" then Some ESendMessage
    else if String.eqb path "/tapr/ws/conn/close" then Some ECloseConnection
    else if String.eqb path "/tapr/ws/conn/debug" then Some EDebugFunc else None
  else None.

(** [getEnvAppInfo]: where events are posted; no application when one of the
    environment variables is missing. *)
Definition getEnvAppInfo (appPortName appUrlName : string) : string :=
  if String.eqb appPortName "" then ""
  else if String.eqb appUrlName "" then ""
  else "http://127.0.0.1:" +:+ appPortName +:+ appUrlName.

(** [handleWebSocketMessage]: the request posted for an event, as URL, cookie
    header and body; the answer is only logged. *)
Definition handleWebSocketMessage (appPath : string) (data : ReadMessage)
  : option (string * string * ReadMessage) :=
  if String.eqb appPath "" then None else Some (appPath, rm_Cookie data, data).

(** ** The running gateway

    Every connection has a goroutine ([onConnection]); the server has one per
    queue and one for the expiry ticker.  A state is the user table, the three
    bounded queues and where each goroutine stands. *)

Inductive phase : Set :=
  | PAdded                                      (* in the table, "open" not sent *)
  | PSelect                                     (* at the select of the loop *)
  | PReading                                    (* blocked in conn.ReadMessage *)
  | PGot (msg : option (gmap string jvalue))    (* a frame, with what it decodes to *)
  | PPonged                                     (* pong queued, locals not updated *)
  | PLost                                       (* read failed, "close" not sent *)
  | PReport                                     (* "close" sent, removal not requested *)
  | PDone.

#[export] Instance phase_eq_dec : EqDecision phase.
Proof. solve_decision. Defined.

Record gateway : Set := mkGw {
  g_server : Server;
  g_read : list ReadMessage;
  g_write : list WriteMessage;
  g_close : list CloseMessage;
  g_phase : gmap nat phase;
  g_closing : option (list string);                 (* routineClose, between its two locks *)
  g_writing : option (WriteMessage * list string);  (* routineWrite, likewise *)
  g_ticker : option CloseMessage;                   (* checkExpired, blocked on the queue *)
  g_handled : list ReadMessage;                     (* what the handler was called with *)
  g_frames : list (nat * WriteMessage) }.           (* frames written, by connection *)

Definition gateway0 : gateway := mkGw (mkServer ∅ ∅) [] [] [] ∅ None None None [] [].

Definition set_server s g := mkGw s (g_read g) (g_write g) (g_close g) (g_phase g) (g_closing g)
  (g_writing g) (g_ticker g) (g_handled g) (g_frames g).
Definition set_phase ref p g := mkGw (g_server g) (g_read g) (g_write g) (g_close g)
  (<[ref := p]> (g_phase g)) (g_closing g) (g_writing g) (g_ticker g) (g_handled g) (g_frames g).

Definition push_read m g := mkGw (g_server g) (g_read g ++ [m]) (g_write g) (g_close g) (g_phase g)
  (g_closing g) (g_writing g) (g_ticker g) (g_handled g) (g_frames g).
Definition push_write m g := mkGw (g_server g) (g_read g) (g_write g ++ [m]) (g_close g) (g_phase g)
  (g_closing g) (g_writing g) (g_ticker g) (g_handled g) (g_frames g).
Definition push_close m g := mkGw (g_server g) (g_read g) (g_write g) (g_close g ++ [m]) (g_phase g)
  (g_closing g) (g_writing g) (g_ticker g) (g_handled g) (g_frames g).
Definition set_ticker t g := mkGw (g_server g) (g_read g) (g_write g) (g_close g) (g_phase g)
  (g_closing g) (g_writing g) t (g_handled g) (g_frames g).

(** Sending on a channel: possible only while it has room. *)
Definition has_room {A} (q : list A) : bool := bool_decide (length q < queueSize).
Definition send_read (m : ReadMessage) (g : gateway) : option gateway :=
  if has_room (g_read g) then Some (push_read m g) else None.
Definition send_write (m : WriteMessage) (g : gateway) : option gateway :=
  if has_room (g_write g) then Some (push_write m g) else None.
Definition send_close (m : CloseMessage) (g : gateway) : option gateway :=
  if has_room (g_close g) then Some (push_close m g) else None.

(** What [conn.ReadMessage] gives: an error (or a type below 1), or a frame. *)
Inductive frame : Set := FError | FMessage (decoded : option (gmap string jvalue)).

(** [onConnection] (with [noticeConnected] before it), up to its next
    communication.  [f] is the answer of a read, [now] the clock. *)
Definition client_step (ref : nat) (f : frame) (now : Z) (g : gateway) : option gateway :=
  c ← store (g_server g) !! ref;
  p ← g_phase g !! ref;
  match p with
  | PAdded => set_phase ref PSelect <$> send_read (read_message c ∅ ACTION_OPEN) g
  | PSelect => Some (set_phase ref (if cl_cancelled c then PDone else PReading) g)
  | PReading => Some (set_phase ref (match f with FError => PLost | FMessage d => PGot d end) g)
  | PGot msg =>
      if checkPingMessage msg
      then set_phase ref PPonged <$> send_write (pong_message c) g
      else set_phase ref PSelect <$> send_read (read_message c (default ∅ msg) ACTION_MESSAGE) g
  | PPonged =>
      let s := g_server g in
      Some (set_phase ref PSelect
              (set_server (mkServer (users s) (<[ref := updateExpiration now c]> (store s))) g))
  | PLost => set_phase ref PReport <$> send_read (read_message c ∅ ACTION_CLOSE) g
  | PReport => set_phase ref PDone <$> send_close (mkClose [cl_connId c] [] [] 0) g
  | PDone => None
  end.

(** [New]: the client object is made and entered in the table.  References
    and connection identifiers are new, and an identifier, being printed from
    a UUID, is not empty. *)
Definition connect_step (ref : nat) (c : Client) (g : gateway) : option gateway :=
  if bool_decide (store (g_server g) !! ref = None) && bool_decide (cl_connId c <> "") &&
     bool_decide (map_Forall (fun _ d => cl_connId d <> cl_connId c) (store (g_server g)))
  then Some (set_phase ref PAdded (set_server (addClient ref c (g_server g)) g))
  else None.

Definition routineRead_step (g : gateway) : option gateway :=
  match g_read g with
  | [] => None
  | m :: q => Some (mkGw (g_server g) q (g_write g) (g_close g) (g_phase g) (g_closing g)
                      (g_writing g) (g_ticker g) (g_handled g ++ [m]) (g_frames g))
  end.

Definition routineClose_step (g : gateway) : option gateway :=
  match g_closing g, g_close g with
  | Some result, _ =>
      Some (mkGw (apply_close result (g_server g)) (g_read g) (g_write g) (g_close g) (g_phase g)
              None (g_writing g) (g_ticker g) (g_handled g) (g_frames g))
  | None, m :: q =>
      Some (mkGw (g_server g) (g_read g) (g_write g) q (g_phase g)
              (Some (close_result (g_server g) m)) (g_writing g) (g_ticker g) (g_handled g) (g_frames g))
  | None, [] => None
  end.

Definition routineWrite_step (g : gateway) : option gateway :=
  match g_writing g, g_write g with
  | Some (m, result), _ =>
      Some (mkGw (g_server g) (g_read g) (g_write g) (g_close g) (g_phase g) (g_closing g) None
              (g_ticker g) (g_handled g)
              (g_frames g ++ map (fun ref => (ref, m)) (deliver result (g_server g))))
  | None, m :: q =>
      Some (mkGw (g_server g) (g_read g) q (g_close g) (g_phase g) (g_closing g)
              (Some (m, write_result (g_server g) m)) (g_ticker g) (g_handled g) (g_frames g))
  | None, [] => None
  end.

Definition checkExpired_step (now : Z) (g : gateway) : option gateway :=
  match g_ticker g with
  | Some m => set_ticker None <$> send_close m g
  | None => Some (set_ticker (expired_message now (g_server g)) g)
  end.

Inductive label : Set :=
  | LConnect (ref : nat) (upgrade : bool) (auth_token newToken connId : string)
      (headers : option (gmap string string)) (now : Z)
  | LClient (ref : nat) (f : frame) (now : Z)
  | LRead | LWrite | LClose
  | LTick (now : Z)
  | LCloseConnection (body : option disConnectionReq)
  | LSendMessage (body : option sendMessageReq).

Definition gw_step (l : label) (g : gateway) : option gateway :=
  match l with
  | LConnect ref upgrade auth_token newToken connId headers now =>
      match RequireHeader upgrade auth_token newToken connId headers now with
      | inl c => connect_step ref c g
      | inr _ => Some g
      end
  | LClient ref f now => client_step ref f now g
  | LRead => routineRead_step g
  | LWrite => routineWrite_step g
  | LClose => routineClose_step g
  | LTick now => checkExpired_step now g
  | LCloseConnection body =>
      match CloseConnection body with None => Some g | Some m => send_close m g end
  | LSendMessage body =>
      match SendMessage body with None => Some g | Some m => send_write m g end
  end.

Inductive reachable : gateway -> Prop :=
  | reach_init : reachable gateway0
  | reach_step g l g' : reachable g -> gw_step l g = Some g' -> reachable g'.

(** Several steps in a row, for examples. *)
Fixpoint gw_steps (ls : list label) (g : gateway) : option gateway :=
  match ls with
  | [] => Some g
  | l :: ls' => g' ← gw_step l g; gw_steps ls' g'
  end.
End Handshake.
