(* ===== verification/WsSpec.v ===== *)
(** * What the WebSocket gateway guarantees

    The user table is two maps deep and its entries are pointers; the abstract
    view is the relation [connected]: which client objects are in the table.
    Selection, removal and delivery are characterised on that view, and the
    interleaving of the goroutines is treated by invariants of [reachable]. *)

From S2P Require Import Prelude Websocket.

Definition connected (s : Server) (ref : nat) (c : Client) : Prop :=
  store s !! ref = Some c /\
  exists u, users s !! cl_user c = Some u /\ u_conns u !! cl_connId c = Some ref.

(** Well-formed tables: users are filed under their name and have a
    connection; entries are clients of that user and identifier; identifiers
    are unique; a client is in the table until it is cancelled. *)
Record wf (s : Server) : Prop := {
  wf_user n u : users s !! n = Some u -> u_name u = n /\ u_conns u <> ∅;
  wf_conn n u k ref : users s !! n = Some u -> u_conns u !! k = Some ref ->
    exists c, store s !! ref = Some c /\ cl_user c = n /\ cl_connId c = k;
  wf_ids r1 r2 c1 c2 : store s !! r1 = Some c1 -> store s !! r2 = Some c2 ->
    cl_connId c1 = cl_connId c2 -> r1 = r2;
  wf_live ref c : store s !! ref = Some c -> (connected s ref c <-> cl_cancelled c = false) }.

(** The selection as a predicate on one client. *)
Definition access_ok (accessType : Z) (public : bool) : bool :=
  if (accessType =? 1)%Z then negb public else if (accessType =? 2)%Z then public else true.
Definition given (wanted : list string) (v : string) : bool :=
  match wanted with [] => true | _ => bool_decide (v ∈ wanted) end.
Definition selects (connIds tokens usrs : list string) (accessType : Z) (c : Client) : bool :=
  given connIds (cl_connId c) && given tokens (cl_token c) && given usrs (cl_user c) &&
  (negb (nonempty usrs) || access_ok accessType (cl_public c)).
Definition closes (m : CloseMessage) : Client -> bool :=
  selects (cm_ConnIds m) (cm_Tokens m) (cm_Users m) (cm_UsersAccessType m).
Definition targets (m : WriteMessage) : Client -> bool :=
  selects (if String.eqb (wm_ConnId m) "" then [] else [wm_ConnId m])
    (wm_Tokens m) (wm_Users m) (wm_UsersAccessType m).

(** ** Selection *)

Definition client_fields (ref : nat) (c : Client) : fields :=
  mkFields (cl_user c) (cl_token c) (cl_connId c) (bool_text (cl_public c)) ref.

Section Selection.
Context (s : Server) (Hwf : wf s).

Lemma elem_of_NewFilter d :
  d ∈ NewFilter s <-> exists ref c, connected s ref c /\ d = client_fields ref c.
Proof using Hwf.
  unfold NewFilter. rewrite (elem_of_concat_map_to_list (fun n u => user_fields (store s) n (u_conns u))).
  unfold user_fields. split.
  - intros (n & u & Hu & Hd).
    apply list_elem_of_omap in Hd as ([k ref] & Hk%elem_of_map_to_list & Hd).
    destruct (wf_conn _ Hwf _ _ _ _ Hu Hk) as (c & Hc & <- & <-).
    rewrite Hc in Hd. cbn in Hd. simplify_eq. exists ref, c. unfold connected. eauto.
  - intros (ref & c & (Hc & u & Hu & Hk) & ->). exists (cl_user c), u. split; [done|].
    apply list_elem_of_omap. exists (cl_connId c, ref). split; [by apply elem_of_map_to_list|].
    by rewrite Hc.
Qed.

Lemma ListContains_spec l v : ListContains l v = true <-> v ∈ l.
Proof.
  unfold ListContains. rewrite existsb_exists. setoid_rewrite <- list_elem_of_In.
  setoid_rewrite String.eqb_eq. naive_solver.
Qed.

Lemma elem_of_filter_fields wanted f d data :
  d ∈ filter_fields wanted f data <-> d ∈ data /\ f d ∈ wanted.
Proof.
  unfold filter_fields. destruct wanted as [|w ws].
  - set_solver.
  - rewrite list_elem_of_filter, ListContains_spec. naive_solver.
Qed.

(** A criterion that is skipped when it is empty. *)
Lemma elem_of_given wanted f d data :
  d ∈ (if nonempty wanted then filter_fields wanted f data else data) <->
  d ∈ data /\ given wanted (f d) = true.
Proof.
  destruct wanted as [|w ws]; cbn -[filter_fields]; [naive_solver|].
  rewrite elem_of_filter_fields. unfold given. by rewrite bool_decide_eq_true.
Qed.

Lemma elem_of_select connIds tokens usrs at_ d :
  d ∈ select s connIds tokens usrs at_ <->
  exists ref c, connected s ref c /\ d = client_fields ref c /\ selects connIds tokens usrs at_ c = true.
Proof using Hwf.
  unfold select, FilterByConnIds, FilterByTokens. cbv zeta. rewrite !elem_of_given.
  assert (Hu : d ∈ (if nonempty usrs then
                      if (at_ =? 1)%Z then FilterByUsersPrivatesOnly (FilterByUsers usrs (NewFilter s))
                      else if (at_ =? 2)%Z then FilterByUsersPublicsOnly (FilterByUsers usrs (NewFilter s))
                      else FilterByUsers usrs (NewFilter s)
                    else NewFilter s) <->
    exists ref c, connected s ref c /\ d = client_fields ref c /\ given usrs (cl_user c) = true /\
      negb (nonempty usrs) || access_ok at_ (cl_public c) = true).
  { assert (Hg := elem_of_given usrs f_user d (NewFilter s)).
    unfold FilterByUsersPrivatesOnly, FilterByUsersPublicsOnly, FilterByUsers.
    destruct (nonempty usrs) eqn:E; cbn [negb orb].
    - unfold access_ok.
      destruct (at_ =? 1)%Z; [|destruct (at_ =? 2)%Z];
        rewrite ?elem_of_filter_fields, ?Hg, elem_of_NewFilter;
        rewrite elem_of_filter_fields, elem_of_NewFilter in Hg.
      + split.
        * intros (((ref & c & Hc & ->) & Hin) & Hp). exists ref, c. repeat split; [apply Hc..| |].
          -- apply Hg. cbn. split; [by eauto|done].
          -- cbn in Hp. destruct (cl_public c); [set_solver|done].
        * intros (ref & c & Hc & -> & Hin & Hp). split; [apply Hg; cbn; eauto|].
          cbn. destruct (cl_public c); [done|set_solver].
      + split.
        * intros (((ref & c & Hc & ->) & Hin) & Hp). exists ref, c. repeat split; [apply Hc..| |].
          -- apply Hg. cbn. split; [by eauto|done].
          -- cbn in Hp. destruct (cl_public c); [done|set_solver].
        * intros (ref & c & Hc & -> & Hin & Hp). split; [apply Hg; cbn; eauto|].
          cbn. destruct (cl_public c); [set_solver|done].
      + split; [intros ((ref & c & Hc & ->) & Hin)|intros (ref & c & Hc & -> & Hin & _)]; naive_solver.
    - rewrite elem_of_NewFilter. destruct usrs; [|done]. cbn. naive_solver. }
  rewrite Hu. unfold selects. split.
  - intros (((ref & c & Hc & -> & H1 & H2) & H3) & H4). exists ref, c.
    cbn in H3, H4. by rewrite H1, H2, H3, H4.
  - intros (ref & c & Hc & -> & H). rewrite !andb_true_iff in H. cbn. naive_solver.
Qed.

Lemma elem_of_Result k data : k ∈ Result data <-> exists d, d ∈ data /\ f_connId d = k.
Proof.
  unfold Result. rewrite elem_of_elements, elem_of_list_to_set, list_elem_of_fmap. naive_solver.
Qed.

Lemma elem_of_selected connIds tokens usrs at_ k :
  k ∈ Result (select s connIds tokens usrs at_) <->
  exists ref c, connected s ref c /\ selects connIds tokens usrs at_ c = true /\ cl_connId c = k.
Proof using Hwf.
  rewrite elem_of_Result. setoid_rewrite elem_of_select. split.
  - intros (d & (ref & c & Hc & -> & Hs) & <-). by exists ref, c.
  - intros (ref & c & Hc & Hs & <-). exists (client_fields ref c).
    split; [by exists ref, c | done].
Qed.
End Selection.

(** ** Removal *)

Lemma connected_inj s r1 r2 c1 c2 : wf s -> connected s r1 c1 -> connected s r2 c2 ->
  cl_connId c1 = cl_connId c2 -> r1 = r2 /\ c1 = c2.
Proof.
  intros Hwf [H1 _] [H2 _] E. assert (r1 = r2) as -> by eauto using wf_ids. by simplify_eq.
Qed.

Lemma elem_of_closed_refs s result ref : wf s ->
  ref ∈ closed_refs result (users s) <-> exists c, connected s ref c /\ cl_connId c ∈ result.
Proof.
  intros Hwf. unfold closed_refs.
  rewrite elem_of_list_to_set, (elem_of_concat_map_to_list
    (fun _ u => map snd (map_to_list (filter (fun kv => kv.1 ∈ result) (u_conns u))))).
  setoid_rewrite list_elem_of_fmap. split.
  - intros (n & u & Hu & [k r] & -> & Hk%elem_of_map_to_list).
    apply map_lookup_filter_Some in Hk as [Hk Hin].
    destruct (wf_conn _ Hwf _ _ _ _ Hu Hk) as (c & Hc & <- & <-).
    exists c. split; [|done]. split; [done|]. eauto.
  - intros (c & (Hc & u & Hu & Hk) & Hin). exists (cl_user c), u. split; [done|].
    exists (cl_connId c, ref). split; [done|]. apply elem_of_map_to_list, map_lookup_filter_Some. done.
Qed.

(** What [apply_close] leaves of one client object. *)
Definition after_close (result : list string) (c : Client) : Client :=
  if decide (cl_connId c ∈ result) then cancel c else c.

Lemma apply_close_nil s : apply_close [] s = s.
Proof. done. Qed.

Section Close.
Context (result : list string) (s : Server) (Hwf : wf s).

Lemma store_apply_close ref c' :
  store (apply_close result s) !! ref = Some c' <->
  exists c, store s !! ref = Some c /\ c' = after_close result c.
Proof using Hwf.
  assert (Hid : forall c, cl_connId c ∈ result -> store s !! ref = Some c ->
            ref ∉ closed_refs result (users s) -> cancel c = c).
  { intros c Hin Hc Hno. rewrite elem_of_closed_refs in Hno by done.
    assert (cl_cancelled c <> false) as Hx.
    { intros Hx%(wf_live _ Hwf _ _ Hc). apply Hno. eauto. }
    destruct c as [??????? ? []]; done. }
  destruct result as [|k ks] eqn:E.
  { cbn. unfold after_close. cbn. split; [intros ->; eexists; split; [done|]|].
    - destruct (decide _) as [H|]; [by apply not_elem_of_nil in H|done].
    - intros (c & Hc & ->). destruct (decide _) as [H|]; [by apply not_elem_of_nil in H|done]. }
  rewrite <- E in *. replace (apply_close result s) with (apply_close (k :: ks) s) by (by rewrite E).
  cbn [apply_close]. rewrite <- E. cbn [store]. rewrite map_lookup_imap. unfold after_close.
  destruct (store s !! ref) as [c|] eqn:Hc; cbn; [|naive_solver].
  assert (Hx : (if decide (ref ∈ closed_refs result (users s)) then cancel c else c) =
          (if decide (cl_connId c ∈ result) then cancel c else c)).
  { destruct (decide (ref ∈ _)) as [Hin|Hno]; destruct (decide (cl_connId c ∈ result)) as [Hr|Hr]; try done.
    - apply elem_of_closed_refs in Hin as (d & [Hd _] & Hd'); [|done]. simplify_eq. done.
    - symmetry. by apply Hid. }
  rewrite Hx. naive_solver.
Qed.

Lemma users_apply_close n u' :
  users (apply_close result s) !! n = Some u' <->
  exists u, users s !! n = Some u /\ u' = close_user result u /\ u_conns u' <> ∅.
Proof using Hwf.
  assert (Hnil : result = [] -> forall u, close_user result u = u).
  { intros -> [nm cs]. unfold close_user. cbn. f_equal. apply map_filter_id. intros k x _. apply not_elem_of_nil. }
  destruct (decide (result = [])) as [E|E].
  - rewrite E. cbn [apply_close]. rewrite <- E. setoid_rewrite (Hnil E). split.
    + intros H. exists u'. repeat split; [done|]. by apply (wf_user _ Hwf n).
    + intros (u & H & -> & _). done.
  - assert (Hu : users (apply_close result s) = filter (fun kv => u_conns kv.2 <> ∅) (close_user result <$> users s)).
    { by destruct result. }
    rewrite Hu, map_lookup_filter_Some, lookup_fmap_Some. cbn. naive_solver.
Qed.

Lemma connected_apply_close ref c :
  connected (apply_close result s) ref c <-> connected s ref c /\ cl_connId c ∉ result.
Proof using Hwf.
  unfold connected. rewrite store_apply_close. setoid_rewrite users_apply_close. unfold after_close. split.
  - intros ((c0 & Hc0 & Hc) & u' & (u & Hu & -> & _) & Hk).
    cbn in Hk. apply map_lookup_filter_Some in Hk as [Hk Hno]. cbn in Hno.
    assert (cl_connId c = cl_connId c0 /\ cl_user c = cl_user c0) as [E1 E2].
    { subst c. by destruct (decide _). }
    rewrite E1 in Hno. rewrite decide_False in Hc by done. subst c. eauto.
  - intros ((Hc & u & Hu & Hk) & Hno). split.
    + exists c. by rewrite decide_False.
    + assert (Hk' : u_conns (close_user result u) !! cl_connId c = Some ref).
      { cbn. by apply map_lookup_filter_Some. }
      exists (close_user result u). split; [|done]. exists u. repeat split; [done|].
      intros E. by rewrite E in Hk'.
Qed.

Lemma wf_apply_close : wf (apply_close result s).
Proof using Hwf.
  split.
  - intros n u' (u & Hu & -> & Hne)%users_apply_close. split; [|done]. apply (wf_user _ Hwf n u Hu).
  - intros n u' k ref (u & Hu & -> & _)%users_apply_close Hk.
    cbn in Hk. apply map_lookup_filter_Some in Hk as [Hk _].
    destruct (wf_conn _ Hwf _ _ _ _ Hu Hk) as (c & Hc & <- & <-).
    exists (after_close result c). split; [apply store_apply_close; eauto|].
    unfold after_close. by destruct (decide _).
  - intros r1 r2 c1 c2 (d1 & H1 & ->)%store_apply_close (d2 & H2 & ->)%store_apply_close E.
    apply (wf_ids _ Hwf _ _ _ _ H1 H2). revert E. unfold after_close.
    by repeat destruct (decide _).
  - intros ref c' Hc'. rewrite connected_apply_close.
    apply store_apply_close in Hc' as (c & Hc & ->).
    assert (Hl := wf_live _ Hwf _ _ Hc). unfold after_close.
    destruct (decide _) as [Hin|Hno]; cbn; [|tauto]. split; [intros [_ H]; by destruct H | done].
Qed.
End Close.

Lemma wf_addClient s ref c : wf s -> store s !! ref = None -> cl_cancelled c = false ->
  map_Forall (fun _ d => cl_connId d <> cl_connId c) (store s) -> wf (addClient ref c s).
Proof.
  intros Hwf Hnew Hlive Hfresh.
  set (u' := match users s !! cl_user c with
             | None => mkUser (cl_user c) {[cl_connId c := ref]}
             | Some u => mkUser (u_name u) (<[cl_connId c := ref]> (u_conns u))
             end).
  assert (Hconns : forall k r, u_conns u' !! k = Some r <->
            k = cl_connId c /\ r = ref \/
            k <> cl_connId c /\ exists u, users s !! cl_user c = Some u /\ u_conns u !! k = Some r).
  { intros k r. subst u'. destruct (users s !! cl_user c) as [u|]; cbn.
    - rewrite lookup_insert_Some. naive_solver.
    - rewrite lookup_singleton_Some. naive_solver. }
  assert (Hname : u_name u' = cl_user c).
  { subst u'. destruct (users s !! cl_user c) as [u|] eqn:E; cbn; [|done]. by apply (wf_user _ Hwf _ _ E). }
  assert (Hconn : forall r d, connected (addClient ref c s) r d <-> r = ref /\ d = c \/ connected s r d).
  { intros r d. unfold connected, addClient. fold u'. cbn. rewrite lookup_insert_Some.
    setoid_rewrite lookup_insert_Some. split.
    - intros [[[<- <-]|[Hne Hd]] (u & Hu & Hk)]; [by left|]. right. split; [done|].
      destruct Hu as [[E <-]|[_ Hu]]; [|by eauto]. rewrite Hconns in Hk.
      destruct Hk as [[_ ->]|(_ & u & Hu & Hk)]; [done|]. rewrite E in Hu. eauto.
    - intros [[-> ->]|[Hd (u & Hu & Hk)]].
      + split; [by left|]. exists u'. split; [by left|]. rewrite Hconns. by left.
      + assert (r <> ref) by congruence. split; [by right|].
        destruct (decide (cl_user c = cl_user d)) as [E|E]; [|by eauto].
        exists u'. split; [by left|]. rewrite Hconns. right. rewrite E.
        split; [|by eauto]. by apply (Hfresh r). }
  assert (Hus : users (addClient ref c s) = <[cl_user c := u']> (users s)) by done.
  assert (Hst : store (addClient ref c s) = <[ref := c]> (store s)) by done.
  split; rewrite ?Hus, ?Hst.
  - intros n u [[<- <-]|[Hn Hu]]%lookup_insert_Some; [|by apply (wf_user _ Hwf)].
    split; [done|]. intros E. assert (Hx : u_conns u' !! cl_connId c = Some ref).
    { rewrite Hconns. by left. } by rewrite E in Hx.
  - intros n u k r [[<- <-]|[Hn Hu]]%lookup_insert_Some Hk.
    + apply Hconns in Hk as [[-> ->]|(_ & u & Hu & Hk)].
      * exists c. by rewrite lookup_insert_eq.
      * destruct (wf_conn _ Hwf _ _ _ _ Hu Hk) as (d & Hd & E1 & E2). exists d.
        split; [|done]. rewrite lookup_insert_ne; [done|congruence].
    + destruct (wf_conn _ Hwf _ _ _ _ Hu Hk) as (d & Hd & E1 & E2). exists d.
      split; [|done]. rewrite lookup_insert_ne; [done|congruence].
  - intros r1 r2 c1 c2 [[<- <-]|[? H1]]%lookup_insert_Some [[<- <-]|[? H2]]%lookup_insert_Some E;
      [done|by apply Hfresh in H2|by apply Hfresh in H1|]. by eapply (wf_ids _ Hwf).
  - intros r d Hd. rewrite Hconn.
    apply lookup_insert_Some in Hd as [[<- <-]|[Hne Hd]].
    + split; [done|by left].
    + rewrite <- (wf_live _ Hwf _ _ Hd). split; [intros [[-> _]|?]; done | by right].
Qed.


(** ** The steps of the gateway, one constructor per kind *)

Definition update_client ref c g :=
  set_server (mkServer (users (g_server g)) (<[ref := c]> (store (g_server g)))) g.

(** What never changes about a client object. *)
Definition same_client (c d : Client) : Prop :=
  cl_connId c = cl_connId d /\ cl_token c = cl_token d /\ cl_tokenOriginal c = cl_tokenOriginal d /\
  cl_user c = cl_user d /\ cl_public c = cl_public d /\ cl_cookie c = cl_cookie d.

#[export] Instance same_client_equiv : Equivalence same_client.
Proof.
  split; [intros ?; repeat split|intros c d; unfold same_client; naive_solver|].
  intros a b c (?&?&?&?&?&?) (?&?&?&?&?&?). repeat split; congruence.
Qed.

Lemma selects_same connIds tokens usrs at_ c d :
  same_client c d -> selects connIds tokens usrs at_ c = selects connIds tokens usrs at_ d.
Proof. intros (E1 & E2 & _ & E3 & E4 & _). unfold selects. by rewrite E1, E2, E3, E4. Qed.

Lemma wf_update_client s ref c c' : wf s -> store s !! ref = Some c -> same_client c c' ->
  cl_cancelled c' = cl_cancelled c -> wf (mkServer (users s) (<[ref := c']> (store s))).
Proof.
  intros Hwf Hc (E1 & _ & _ & E2 & _) Ec.
  assert (Hst : forall r d, <[ref := c']> (store s) !! r = Some d ->
            exists d0, store s !! r = Some d0 /\ cl_connId d0 = cl_connId d /\ cl_user d0 = cl_user d /\
                       cl_cancelled d0 = cl_cancelled d).
  { intros r d [[<- <-]|[_ Hd]]%lookup_insert_Some; eauto. }
  split; cbn.
  - apply (wf_user _ Hwf).
  - intros n u k r Hu Hk. destruct (wf_conn _ Hwf _ _ _ _ Hu Hk) as (d & Hd & F1 & F2).
    destruct (decide (ref = r)) as [->|Hne].
    + exists c'. rewrite lookup_insert_eq. simplify_eq. done.
    + exists d. by rewrite lookup_insert_ne.
  - intros r1 r2 c1 c2 (d1 & H1 & F1 & _)%Hst (d2 & H2 & F2 & _)%Hst E.
    apply (wf_ids _ Hwf _ _ _ _ H1 H2). congruence.
  - intros r d Hd. destruct (Hst _ _ Hd) as (d0 & Hd0 & F1 & F2 & F3).
    rewrite <- F3, <- (wf_live _ Hwf _ _ Hd0). unfold connected. cbn. rewrite Hd, F1, F2. naive_solver.
Qed.

Section Gateway.
Context (MD5 : string -> string).

Inductive gstep (g : gateway) : gateway -> Prop :=
  | gs_idle : gstep g g
  | gs_connect ref c :
      store (g_server g) !! ref = None -> cl_connId c <> "" -> cl_cancelled c = false ->
      map_Forall (fun _ d => cl_connId d <> cl_connId c) (store (g_server g)) ->
      gstep g (set_phase ref PAdded (set_server (addClient ref c (g_server g)) g))
  | gs_tell ref c p p' a data :
      store (g_server g) !! ref = Some c -> g_phase g !! ref = Some p -> has_room (g_read g) = true ->
      (p, a, p') = (PAdded, ACTION_OPEN, PSelect) \/ (p, a, p') = (PLost, ACTION_CLOSE, PReport) \/
      (exists msg, (p, a, p') = (PGot msg, ACTION_MESSAGE, PSelect)) ->
      gstep g (set_phase ref p' (push_read (read_message c data a) g))
  | gs_local ref c p p' :
      store (g_server g) !! ref = Some c -> g_phase g !! ref = Some p ->
      (p = PSelect /\ p' = if cl_cancelled c then PDone else PReading) \/
      p = PReading /\ (p' = PLost \/ exists msg, p' = PGot msg) ->
      gstep g (set_phase ref p' g)
  | gs_pong ref c msg :
      store (g_server g) !! ref = Some c -> g_phase g !! ref = Some (PGot msg) ->
      has_room (g_write g) = true ->
      gstep g (set_phase ref PPonged (push_write (pong_message c) g))
  | gs_touch ref c now :
      store (g_server g) !! ref = Some c -> g_phase g !! ref = Some PPonged ->
      gstep g (set_phase ref PSelect (update_client ref (updateExpiration now c) g))
  | gs_report ref c :
      store (g_server g) !! ref = Some c -> g_phase g !! ref = Some PReport ->
      has_room (g_close g) = true ->
      gstep g (set_phase ref PDone (push_close (mkClose [cl_connId c] [] [] 0) g))
  | gs_handle g' : routineRead_step g = Some g' -> gstep g g'
  | gs_close g' : routineClose_step g = Some g' -> gstep g g'
  | gs_write g' : routineWrite_step g = Some g' -> gstep g g'
  | gs_tick now : g_ticker g = None -> gstep g (set_ticker (expired_message now (g_server g)) g)
  | gs_expire m : g_ticker g = Some m -> has_room (g_close g) = true ->
      gstep g (set_ticker None (push_close m g))
  | gs_http_close body m : CloseConnection MD5 body = Some m -> has_room (g_close g) = true ->
      gstep g (push_close m g)
  | gs_http_send body m : SendMessage MD5 body = Some m -> has_room (g_write g) = true ->
      gstep g (push_write m g).

Lemma client_gstep ref f now g g' : client_step ref f now g = Some g' -> gstep g g'.
Proof.
  unfold client_step, send_read, send_write, send_close. cbn.
  destruct (store (g_server g) !! ref) as [c|] eqn:Hc; cbn; [|done].
  destruct (g_phase g !! ref) as [p|] eqn:Hp; cbn; [|done].
  destruct p as [| | |msg| | | |]; [| | |destruct (checkPingMessage msg)| | | |];
    intros H; try destruct (has_room _) eqn:Hr; cbn in H; simplify_eq.
  - eapply gs_tell; eauto.
  - eapply gs_local; eauto.
  - eapply gs_local; [done..|]. right. split; [done|]. destruct f; eauto.
  - by eapply gs_pong.
  - eapply gs_tell; eauto 10.
  - by eapply gs_touch.
  - eapply gs_tell; eauto.
  - by eapply gs_report.
Qed.

Lemma gw_step_gstep l g g' : gw_step MD5 l g = Some g' -> gstep g g'.
Proof.
  destruct l as [ref up tok tok' k hs now|ref f now| | | |now|body|body]; cbn.
  - unfold RequireHeader. destruct up; cbn; [|intros [= <-]; apply gs_idle].
    destruct hs as [hs|]; [|intros [= <-]; apply gs_idle]. unfold connect_step.
    destruct (bool_decide (store _ !! _ = None)) eqn:H1; cbn [andb]; [|done].
    destruct (bool_decide (cl_connId _ <> "")) eqn:H2; cbn [andb]; [|done].
    destruct (bool_decide (map_Forall _ _)) eqn:H3; [|done].
    apply bool_decide_eq_true in H1, H2, H3. intros [= <-]. by apply gs_connect.
  - apply client_gstep.
  - apply gs_handle.
  - apply gs_write.
  - apply gs_close.
  - unfold checkExpired_step, send_close. destruct (g_ticker g) as [m|] eqn:Et.
    + destruct (has_room _) eqn:Hr; [|done]. intros [= <-]. by apply gs_expire.
    + intros [= <-]. by apply gs_tick.
  - destruct (CloseConnection MD5 body) as [m|] eqn:E; [|intros [= <-]; apply gs_idle].
    unfold send_close. destruct (has_room _) eqn:Hr; [|done]. intros [= <-]. by eapply gs_http_close.
  - destruct (SendMessage MD5 body) as [m|] eqn:E; [|intros [= <-]; apply gs_idle].
    unfold send_write. destruct (has_room _) eqn:Hr; [|done]. intros [= <-]. by eapply gs_http_send.
Qed.

(** Induction on [reachable] through the relation. *)
Lemma reachable_gstep (I : gateway -> Prop) :
  I gateway0 -> (forall g g', reachable MD5 g -> I g -> gstep g g' -> I g') ->
  forall g, reachable MD5 g -> I g.
Proof. intros H0 Hs g Hg. induction Hg; eauto using gw_step_gstep. Qed.

Lemma gw_steps_reachable ls g g' : reachable MD5 g -> gw_steps MD5 ls g = Some g' -> reachable MD5 g'.
Proof.
  revert g. induction ls as [|l ls IH]; cbn; intros g Hg H; [by simplify_eq|].
  destruct (gw_step MD5 l g) as [g1|] eqn:E; [|done]. eapply IH; [|done]. by eapply reach_step.
Qed.
(** ** The table, the phases and the queues *)

Record base_inv (g : gateway) : Prop := {
  b_wf : wf (g_server g);
  b_named ref c : store (g_server g) !! ref = Some c -> cl_connId c <> "";
  b_phase ref : is_Some (g_phase g !! ref) <-> is_Some (store (g_server g) !! ref);
  b_room : length (g_read g) <= queueSize /\ length (g_write g) <= queueSize /\
           length (g_close g) <= queueSize }.

Lemma has_room_spec {A} (q : list A) x : has_room q = true -> length (q ++ [x]) <= queueSize.
Proof. unfold has_room. rewrite bool_decide_eq_true, length_app. cbn. lia. Qed.

(** How a step changes the client objects. *)
Lemma gstep_store g g' ref c : base_inv g -> gstep g g' -> store (g_server g) !! ref = Some c ->
  exists c', store (g_server g') !! ref = Some c' /\ same_client c c'.
Proof.
  intros [Hwf _ _ _] Hs Hc.
  destruct Hs as [|r d Hn|r d p p' a data Hd|r d p p' Hd|r d msg Hd|r d now Hd|r d Hd
    |g' H|g' H|g' H|now Hn|m Hm|b m Hm|b m Hm]; cbn; try (by exists c).
  - exists c. rewrite lookup_insert_ne; [done|congruence].
  - destruct (decide (r = ref)) as [->|Hne].
    + eexists. rewrite lookup_insert_eq. split; [done|]. by simplify_eq.
    + exists c. by rewrite lookup_insert_ne.
  - unfold routineRead_step in H. destruct (g_read g); [done|]. simplify_eq. by exists c.
  - unfold routineClose_step in H. destruct (g_closing g) as [result|]; [|destruct (g_close g); [done|]];
      simplify_eq; [|by exists c]. cbn. exists (after_close result c). split.
    + apply store_apply_close; eauto.
    + unfold after_close. by destruct (decide _).
  - unfold routineWrite_step in H. destruct (g_writing g) as [[m result]|]; [|destruct (g_write g); [done|]];
      simplify_eq; by exists c.
Qed.

Lemma base_inv_gstep g g' : base_inv g -> gstep g g' -> base_inv g'.
Proof.
  intros [Hwf Hnm Hph (Hr & Hw & Hc)] Hs.
  assert (Hkeep : forall p r d, store (g_server g) !! r = Some d ->
            forall ref, is_Some (<[r := p]> (g_phase g) !! ref) <-> is_Some (store (g_server g) !! ref)).
  { intros p r d Hd ref. rewrite lookup_insert_is_Some, Hph.
    destruct (decide (r = ref)) as [->|]; [rewrite Hd|]; naive_solver. }
  destruct Hs as [|r d Hn Hne Hlive Hfresh|r d p p' a data Hd Hp Hroom|r d p p' Hd|r d msg Hd Hp Hroom|r d now Hd|r d Hd Hp Hroom
    |g' H|g' H|g' H|now Hn|m Hm Hroom|b m Hm Hroom|b m Hm Hroom];
    [done|..]; try (by split; cbn; eauto using has_room_spec).
  - split; cbn; [by apply wf_addClient| |intros ref; rewrite !lookup_insert_is_Some, Hph; naive_solver|done].
    intros ref c [[<- <-]|[_ Hx]]%lookup_insert_Some; eauto.
  - split; cbn; [by eapply wf_update_client| | |done].
    + intros ref c [[<- <-]|[_ Hx]]%lookup_insert_Some; cbn; eauto.
    + intros ref. rewrite !lookup_insert_is_Some, Hph. naive_solver.
  - unfold routineRead_step in H. destruct (g_read g) eqn:E; [done|]. simplify_eq.
    split; cbn in *; [done..|]. lia.
  - unfold routineClose_step in H. destruct (g_closing g) as [result|]; [|destruct (g_close g); [done|]];
      simplify_eq; split; cbn in *; [by apply wf_apply_close| | |done|done..|lia].
    + intros ref c (c0 & H0 & ->)%store_apply_close; [|done]. unfold after_close.
      destruct (decide _); cbn; eauto.
    + intros ref. rewrite Hph. split; intros [x Hx].
      * exists (after_close result x). apply store_apply_close; eauto.
      * apply store_apply_close in Hx as (y & Hy & _); eauto.
  - unfold routineWrite_step in H. destruct (g_writing g) as [[m result]|]; [|destruct (g_write g); [done|]];
      simplify_eq; split; cbn in *; try done. lia.
Qed.

Lemma base_inv_init : base_inv gateway0.
Proof.
  split; cbn.
  - split; cbn; intros; by simplify_map_eq.
  - intros; by simplify_map_eq.
  - intros ref. by rewrite !lookup_empty.
  - unfold queueSize. lia.
Qed.

Lemma reachable_base g : reachable MD5 g -> base_inv g.
Proof. revert g. apply reachable_gstep; [apply base_inv_init | eauto using base_inv_gstep]. Qed.

(** ** What the application is told *)

(** The events of one connection: handled already, then still queued. *)
Definition told (g : gateway) : list ReadMessage := g_handled g ++ g_read g.
Definition actions (k : string) (l : list ReadMessage) : list action :=
  map rm_Action (filter (fun m => rm_ConnId m = k) l).

Definition allowed (p : phase) (l : list action) : Prop :=
  let talk n := ACTION_OPEN :: replicate n ACTION_MESSAGE in
  match p with
  | PAdded => l = []
  | PReport => exists n, l = talk n ++ [ACTION_CLOSE]
  | PDone => exists n, l = talk n \/ l = talk n ++ [ACTION_CLOSE]
  | _ => exists n, l = talk n
  end.

Definition speaks_for (c : Client) (m : ReadMessage) : Prop :=
  rm_ConnId m = cl_connId c /\ rm_UserName m = cl_user c /\ rm_Token m = cl_tokenOriginal c /\
  rm_AccessPublic m = cl_public c /\ rm_Cookie m = cl_cookie c.

Record talk_inv (g : gateway) : Prop := {
  t_allowed ref c p : store (g_server g) !! ref = Some c -> g_phase g !! ref = Some p ->
    allowed p (actions (cl_connId c) (told g));
  t_owner m : m ∈ told g -> exists ref c, store (g_server g) !! ref = Some c /\ speaks_for c m }.

Lemma speaks_for_same c d m : same_client c d -> speaks_for c m -> speaks_for d m.
Proof. unfold same_client, speaks_for. intros (?&?&?&?&?&?) (?&?&?&?&?). repeat split; congruence. Qed.

Lemma actions_snoc k l m :
  actions k (l ++ [m]) = actions k l ++ (if decide (rm_ConnId m = k) then [rm_Action m] else []).
Proof. unfold actions. rewrite filter_app, map_app, filter_cons. by destruct (decide _). Qed.

Lemma replicate_snoc {A} n (x : A) : replicate n x ++ [x] = replicate (S n) x.
Proof. by rewrite replicate_S_end. Qed.

(** Steps that tell the application nothing. *)
Lemma talk_keep g g' : talk_inv g -> told g' = told g ->
  (forall ref c, store (g_server g) !! ref = Some c ->
     exists c', store (g_server g') !! ref = Some c' /\ same_client c c') ->
  (forall ref c p, store (g_server g') !! ref = Some c -> g_phase g' !! ref = Some p ->
     exists c0 p0, store (g_server g) !! ref = Some c0 /\ cl_connId c0 = cl_connId c /\
       g_phase g !! ref = Some p0 /\ forall l, allowed p0 l -> allowed p l) ->
  talk_inv g'.
Proof.
  intros [Ha Ho] Et Hst Hback. split; rewrite Et.
  - intros ref c p Hc Hp. destruct (Hback _ _ _ Hc Hp) as (c0 & p0 & H1 & <- & H3 & H4). eauto.
  - intros m Hm. destruct (Ho m Hm) as (ref & c & Hc & Hs). destruct (Hst _ _ Hc) as (c' & Hc' & Hsame).
    exists ref, c'. eauto using speaks_for_same.
Qed.

(** A step of one connection that only moves its goroutine. *)
Lemma talk_move g g' ref c c' p p' : talk_inv g -> told g' = told g ->
  store (g_server g) !! ref = Some c -> g_phase g !! ref = Some p -> same_client c c' ->
  store (g_server g') = <[ref := c']> (store (g_server g)) ->
  g_phase g' = <[ref := p']> (g_phase g) ->
  (forall l, allowed p l -> allowed p' l) -> talk_inv g'.
Proof.
  intros Hi Et Hc Hp Hsame Hst Hph Hal. apply (talk_keep g); rewrite ?Hst, ?Hph; [done..| |].
  - intros r d Hd. destruct (decide (ref = r)) as [->|].
    + rewrite lookup_insert_eq. exists c'. by simplify_eq.
    + exists d. by rewrite lookup_insert_ne.
  - intros r d q [[<- <-]|[Hne Hd]]%lookup_insert_Some.
    + rewrite lookup_insert_eq. intros [= <-]. exists c, p. repeat split; [done|apply Hsame|done..].
    + rewrite lookup_insert_ne by done. intros Hq. exists d, q. done.
Qed.

Lemma talk_tell g ref c p p' a data : base_inv g -> talk_inv g ->
  store (g_server g) !! ref = Some c -> g_phase g !! ref = Some p ->
  (p, a, p') = (PAdded, ACTION_OPEN, PSelect) \/ (p, a, p') = (PLost, ACTION_CLOSE, PReport) \/
  (exists msg, (p, a, p') = (PGot msg, ACTION_MESSAGE, PSelect)) ->
  talk_inv (set_phase ref p' (push_read (read_message c data a) g)).
Proof.
  intros Hb [Ha Ho] Hc Hp Hcase.
  set (g' := set_phase _ _ _).
  assert (Et : told g' = told g ++ [read_message c data a]) by (unfold told; cbn; by rewrite app_assoc).
  split; rewrite Et.
  - cbn. intros r d q Hd Hq. rewrite actions_snoc. cbn. destruct (decide (ref = r)) as [<-|Hne].
    + rewrite lookup_insert_eq in Hq. simplify_eq. rewrite decide_True by done.
      specialize (Ha _ _ _ Hc Hp).
      destruct Hcase as [E|[E|[msg E]]]; simplify_eq; cbn in Ha.
      * rewrite Ha. by exists 0.
      * destruct Ha as [n ->]. by exists n.
      * destruct Ha as [n ->]. exists (S n). cbn [app]. by rewrite replicate_snoc.
    + rewrite lookup_insert_ne in Hq by done. rewrite decide_False, app_nil_r; [by eapply Ha|].
      intros E. apply Hne. by apply (wf_ids _ (b_wf _ Hb) _ _ _ _ Hc Hd).
  - cbn. intros m [Hm | ->%list_elem_of_singleton]%elem_of_app; [by apply Ho|].
    exists ref, c. done.
Qed.

Lemma talk_connect g ref c : talk_inv g -> store (g_server g) !! ref = None ->
  map_Forall (fun _ d => cl_connId d <> cl_connId c) (store (g_server g)) ->
  talk_inv (set_phase ref PAdded (set_server (addClient ref c (g_server g)) g)).
Proof.
  intros [Ha Ho] Hn Hfresh. split.
  - cbn. intros r d q [[<- <-]|[Hne Hd]]%lookup_insert_Some.
    + rewrite lookup_insert_eq. intros [= <-]. cbn. unfold actions.
      rewrite (elem_of_nil_inv (filter _ _)); [done|].
      intros m [Hk Hm]%list_elem_of_filter. destruct (Ho m Hm) as (r & d & Hd & Hs & _).
      apply (Hfresh _ _ Hd). congruence.
    + rewrite lookup_insert_ne by done. by apply Ha.
  - intros m Hm. destruct (Ho m Hm) as (r & d & Hd & Hs). exists r, d. split; [|done].
    cbn. rewrite lookup_insert_ne; [done|congruence].
Qed.

Lemma talk_gstep g g' : base_inv g -> talk_inv g -> gstep g g' -> talk_inv g'.
Proof.
  intros Hb Hi Hs. assert (Hst := fun ref c => gstep_store g g' ref c Hb Hs).
  assert (Hsame : store (g_server g') = store (g_server g) -> g_phase g' = g_phase g ->
            told g' = told g -> talk_inv g').
  { intros E1 E2 E3. apply (talk_keep g); [done..|]. rewrite E1, E2. intros ref c p Hc Hp. eauto 10. }
  destruct Hs as [|r d Hn Hne Hlive Hfresh|r d p p' a data Hd Hp Hroom|r d p p' Hd Hp Hcase|r d msg Hd Hp Hroom|r d now Hd Hp|r d Hd Hp Hroom
    |g' H|g' H|g' H|now Hn|m Hm Hroom|b m Hm Hroom|b m Hm Hroom]; try (by apply Hsame).
  - by apply talk_connect.
  - by eapply talk_tell.
  - eapply (talk_move g _ r d d p p'); cbn; [done..|by rewrite insert_id|done|].
    destruct Hcase as [[-> ->]|[-> [->|[msg ->]]]]; try done.
    destruct (cl_cancelled d); [|done]. cbn. intros l [n ->]. eauto.
  - eapply (talk_move g _ r d d); cbn; [done..|by rewrite insert_id|done|done].
  - eapply (talk_move g _ r d (updateExpiration now d)); cbn; done.
  - eapply (talk_move g _ r d d); cbn; [done..|by rewrite insert_id|done|].
    intros l [n ->]. exists n. by right.
  - unfold routineRead_step in H. destruct (g_read g) eqn:E; [done|]. simplify_eq.
    apply Hsame; [done..|]. unfold told. cbn. rewrite E. by rewrite <- app_assoc.
  - unfold routineClose_step in H. destruct (g_closing g) as [result|]; [|destruct (g_close g); [done|]];
      simplify_eq; [|by apply Hsame].
    apply (talk_keep g); cbn; [done..|]. intros ref c p (c0 & H0 & ->)%store_apply_close Hp; [|apply Hb].
    exists c0, p. split; [done|]. split; [unfold after_close; by destruct (decide _)|]. done.
  - unfold routineWrite_step in H. destruct (g_writing g) as [[m result]|]; [|destruct (g_write g); [done|]];
      simplify_eq; by apply Hsame.
Qed.

Lemma reachable_talk g : reachable MD5 g -> talk_inv g.
Proof.
  revert g. apply reachable_gstep.
  - split; cbn; intros; [by simplify_map_eq | by apply not_elem_of_nil in H].
  - intros g g' Hg Hi Hs. eapply talk_gstep; eauto using reachable_base.
Qed.
(** ** Where frames go *)

Definition has_target (m : WriteMessage) : Prop :=
  wm_ConnId m <> "" \/ wm_Users m <> [] \/ wm_Tokens m <> [].

(** Some client of the table's history that [m] selects. *)
Definition targeted (g : gateway) (m : WriteMessage) (ref : nat) : Prop :=
  exists c, store (g_server g) !! ref = Some c /\ targets m c = true.

Record write_inv (g : gateway) : Prop := {
  w_queue m : m ∈ g_write g -> has_target m;
  w_writing m result : g_writing g = Some (m, result) ->
    has_target m /\ forall k, k ∈ result -> exists ref c,
      store (g_server g) !! ref = Some c /\ cl_connId c = k /\ targets m c = true;
  w_frames ref m : (ref, m) ∈ g_frames g -> has_target m /\ targeted g m ref }.

Lemma elem_of_write_result s m k : wf s ->
  k ∈ write_result s m <-> exists ref c, connected s ref c /\ targets m c = true /\ cl_connId c = k.
Proof. intros Hwf. apply elem_of_selected, Hwf. Qed.

Lemma elem_of_deliver s result ref : wf s ->
  ref ∈ deliver result s <-> exists c, connected s ref c /\ cl_connId c ∈ result.
Proof.
  intros Hwf. unfold deliver. rewrite (elem_of_concat_map_to_list
    (fun _ u => omap (fun connId => u_conns u !! connId) result)).
  setoid_rewrite list_elem_of_omap. split.
  - intros (n & u & Hu & k & Hk & Hr). destruct (wf_conn _ Hwf _ _ _ _ Hu Hr) as (c & Hc & <- & <-).
    exists c. split; [|done]. split; eauto.
  - intros (c & (Hc & u & Hu & Hr) & Hin). eauto 10.
Qed.

Lemma SendMessage_has_target body m : SendMessage MD5 body = Some m -> has_target m.
Proof.
  destruct body as [r|]; cbn; [|done].
  destruct (String.eqb_spec (sr_ConnId r) "") as [E|E]; destruct (sr_Users r) eqn:Eu;
    destruct (sr_Tokens r) eqn:Et; cbn; intros H; simplify_eq; unfold has_target; cbn; auto.
Qed.

(** Steps leaving the writer alone. *)
Lemma write_keep g g' : write_inv g -> g_writing g' = g_writing g -> g_frames g' = g_frames g ->
  (forall m, m ∈ g_write g' -> m ∈ g_write g \/ has_target m) ->
  (forall ref c, store (g_server g) !! ref = Some c ->
     exists c', store (g_server g') !! ref = Some c' /\ same_client c c') ->
  write_inv g'.
Proof.
  intros [Hq Hw Hf] E1 E2 Hq' Hst.
  assert (Ht : forall m r c, store (g_server g) !! r = Some c -> targets m c = true ->
    exists c', store (g_server g') !! r = Some c' /\ cl_connId c' = cl_connId c /\ targets m c' = true).
  { intros m r c (c' & Hc' & Hs)%Hst Ht. exists c'. split; [done|]. split; [symmetry; apply Hs|].
    rewrite <- Ht. symmetry. by apply selects_same. }
  split; rewrite ?E1, ?E2.
  - intros m [Hm|Hm]%Hq'; eauto.
  - intros m result (H1 & H2)%Hw. split; [done|]. intros k (r & c & Hc & <- & Htc)%H2.
    destruct (Ht _ _ _ Hc Htc) as (c' & ? & ? & ?). eauto.
  - intros r m (H1 & c & Hc & Htc)%Hf. split; [done|].
    destruct (Ht _ _ _ Hc Htc) as (c' & ? & ? & ?). exists c'. eauto.
Qed.

Lemma write_gstep g g' : base_inv g -> write_inv g -> gstep g g' -> write_inv g'.
Proof.
  intros Hb Hi Hs. assert (Hst := fun ref c => gstep_store g g' ref c Hb Hs).
  assert (Hsame : g_writing g' = g_writing g -> g_frames g' = g_frames g -> g_write g' = g_write g ->
            write_inv g').
  { intros E1 E2 E3. apply (write_keep g); [done..| |done]. rewrite E3. by left. }
  destruct Hs as [|r d Hn Hne Hlive Hfresh|r d p p' a data Hd Hp Hroom|r d p p' Hd Hp Hcase|r d msg Hd Hp Hroom|r d now Hd Hp|r d Hd Hp Hroom
    |g' H|g' H|g' H|now Hn|m Hm Hroom|b m Hm Hroom|b m Hm Hroom]; try (by apply Hsame).
  - apply (write_keep g); [done..| |done]. cbn.
    intros m [Hm| ->%list_elem_of_singleton]%elem_of_app; [by left|right].
    left. cbn. by eapply b_named.
  - unfold routineRead_step in H. destruct (g_read g); [done|]. simplify_eq. by apply Hsame.
  - unfold routineClose_step in H. destruct (g_closing g) as [result|]; [|destruct (g_close g); [done|]];
      simplify_eq; by apply Hsame.
  - unfold routineWrite_step in H. destruct Hi as [Hq Hw Hf].
    destruct (g_writing g) as [[m result]|]; [|destruct (g_write g) as [|m q]; [done|]]; simplify_eq.
    + destruct (Hw _ _ eq_refl) as [H1 H2]. split; cbn; [done..|].
      intros ref m' [Hr|Hr]%elem_of_app; [by apply Hf|].
      apply list_elem_of_fmap in Hr as (r & [= -> ->] & Hr). split; [done|].
      apply elem_of_deliver in Hr as (c & [Hc _] & Hin); [|apply Hb].
      destruct (H2 _ Hin) as (r' & c' & Hc' & E & Ht).
      assert (r' = r) as -> by (by eapply wf_ids; [apply Hb|..]). exists c'. done.
    + split; cbn; [intros; apply Hq; by right| |done].
      intros m' result [= <- <-]. split; [apply Hq; by left|].
      intros k (r & c & [Hc _] & Ht & Hk)%elem_of_write_result; [|apply Hb]. eauto.
  - apply (write_keep g); [done..| |done]. cbn.
    intros m' [Hm'| ->%list_elem_of_singleton]%elem_of_app; [by left|right].
    by eapply SendMessage_has_target.
Qed.

Lemma reachable_write g : reachable MD5 g -> write_inv g.
Proof.
  revert g. apply reachable_gstep.
  - split; cbn; [by intros m ?%not_elem_of_nil|done|by intros r m ?%not_elem_of_nil].
  - intros g g' Hg Hi Hs. eapply write_gstep; eauto using reachable_base.
Qed.

(** ** Removal is never lost *)

Definition removal_pending (g : gateway) (k : string) : Prop :=
  mkClose [k] [] [] 0 ∈ g_close g \/ exists result, g_closing g = Some result /\ k ∈ result.

Definition removal_inv (g : gateway) : Prop :=
  forall ref c, store (g_server g) !! ref = Some c -> g_phase g !! ref = Some PDone ->
    cl_cancelled c = false -> removal_pending g (cl_connId c).

Lemma elem_of_close_result s m k : wf s ->
  k ∈ close_result s m <-> exists ref c, connected s ref c /\ closes m c = true /\ cl_connId c = k.
Proof. intros Hwf. apply elem_of_selected, Hwf. Qed.

(** Steps leaving the closer alone. *)
Lemma removal_keep g g' : removal_inv g -> g_closing g' = g_closing g ->
  (forall m, m ∈ g_close g -> m ∈ g_close g') ->
  (forall ref c, store (g_server g') !! ref = Some c -> g_phase g' !! ref = Some PDone ->
     cl_cancelled c = false -> exists c0, store (g_server g) !! ref = Some c0 /\
       cl_connId c0 = cl_connId c /\ g_phase g !! ref = Some PDone /\ cl_cancelled c0 = false) ->
  removal_inv g'.
Proof.
  intros Hi E Hq Hback ref c Hc Hp Hl. destruct (Hback _ _ Hc Hp Hl) as (c0 & H0 & <- & Hp0 & Hl0).
  destruct (Hi _ _ H0 Hp0 Hl0) as [H|H]; [left; auto|right; by rewrite E].
Qed.

(** One connection moves to a phase other than the last. *)
Lemma removal_move g g' ref c' p' : removal_inv g -> g_closing g' = g_closing g ->
  g_close g' = g_close g -> p' <> PDone ->
  store (g_server g') = <[ref := c']> (store (g_server g)) -> g_phase g' = <[ref := p']> (g_phase g) ->
  removal_inv g'.
Proof.
  intros Hi E1 E2 Hp Hst Hph. apply (removal_keep g); [done..|by rewrite E2|].
  rewrite Hst, Hph. intros r d [[<- <-]|[Hne Hd]]%lookup_insert_Some.
  - rewrite lookup_insert_eq. congruence.
  - rewrite lookup_insert_ne by done. eauto.
Qed.

Lemma removal_gstep g g' : base_inv g -> removal_inv g -> gstep g g' -> removal_inv g'.
Proof.
  intros Hb Hi Hs.
  assert (Hsame : g_closing g' = g_closing g -> (forall m, m ∈ g_close g -> m ∈ g_close g') ->
            g_server g' = g_server g -> g_phase g' = g_phase g -> removal_inv g').
  { intros E1 E2 E3 E4. apply (removal_keep g); [done..|]. rewrite E3, E4. eauto. }
  destruct Hs as [|r d Hn Hne Hlive Hfresh|r d p p' a data Hd Hp Hroom Hcase|r d p p' Hd Hp Hcase|r d msg Hd Hp Hroom|r d now Hd Hp|r d Hd Hp Hroom
    |g' H|g' H|g' H|now Hn|m Hm Hroom|b m Hm Hroom|b m Hm Hroom];
    try (by apply Hsame); try (apply Hsame; cbn; [done| |done..]; intros; apply elem_of_app; by left).
  - by eapply (removal_move g _ r d PAdded).
  - eapply (removal_move g _ r d p'); cbn; [done..| |by rewrite insert_id|done].
    destruct Hcase as [?|[?|[? ?]]]; by simplify_eq.
  - destruct (decide (p' = PDone)) as [->|Hne];
      [|by eapply (removal_move g _ r d p'); cbn; [..|rewrite insert_id|]].
    apply (removal_keep g); [done..|]. cbn. intros r' c Hc. destruct (decide (r = r')) as [<-|Hne].
    + intros _ Hl. destruct Hcase as [[-> E]|[_ [?|[? ?]]]]; [|done..].
      simplify_eq. by rewrite Hl in E.
    + rewrite lookup_insert_ne by done. eauto.
  - by eapply (removal_move g _ r d PPonged); cbn; [..|rewrite insert_id|].
  - by eapply (removal_move g _ r _ PSelect).
  - intros r' c Hc Hp' Hl. cbn in *. unfold removal_pending. cbn.
    apply lookup_insert_Some in Hp' as [[<- _]|[Hne Hp']].
    + left. simplify_eq. apply elem_of_app. right. by left.
    + destruct (Hi _ _ Hc Hp' Hl) as [?|?]; [left|by right]. apply elem_of_app. by left.
  - unfold routineRead_step in H. destruct (g_read g); [done|]. simplify_eq. by apply Hsame.
  - unfold routineClose_step in H. destruct (g_closing g) as [result|] eqn:Ec;
      [|destruct (g_close g) as [|m q] eqn:Eq; [done|]]; simplify_eq.
    + intros ref c (c0 & H0 & ->)%store_apply_close Hp Hl; [|apply Hb]. cbn in Hp.
      unfold after_close in *. destruct (decide _) as [Hin|Hno]; [done|].
      destruct (Hi _ _ H0 Hp Hl) as [?|(res & Hr & Hk)]; [by left|]. rewrite Ec in Hr. by simplify_eq.
    + intros ref c Hc Hp Hl. cbn in Hc, Hp. unfold removal_pending. cbn.
      destruct (Hi _ _ Hc Hp Hl) as [Hin|(res & Hr & _)]; [|congruence]. rewrite Eq in Hin.
      apply elem_of_cons in Hin as [<-|Hin]; [|by left]. right. eexists. split; [done|].
      apply elem_of_close_result; [apply Hb|]. exists ref, c.
      split; [by apply (wf_live _ (b_wf _ Hb))|]. split; [|done].
      unfold closes, selects, given. cbn. rewrite bool_decide_eq_true_2; [done|by left].
  - unfold routineWrite_step in H. destruct (g_writing g) as [[m result]|]; [|destruct (g_write g); [done|]];
      simplify_eq; by apply Hsame.
Qed.

Lemma reachable_removal g : reachable MD5 g -> removal_inv g.
Proof.
  revert g. apply reachable_gstep.
  - intros ref c Hc. cbn in Hc. by rewrite lookup_empty in Hc.
  - intros g g' Hg Hi Hs. eapply removal_gstep; eauto using reachable_base.
Qed.
(** ** The properties *)

(** C7: [closeConns] on a well-formed table refines "remove the sessions that
    match": it leaves the table well formed (no empty user stays), the table
    afterwards holds exactly the connections the message does not match, and
    exactly the matching ones have been cancelled, the others untouched. *)
Theorem closeConns_removes_exactly s m :
  wf s ->
  wf (closeConns m s) /\
  (forall ref c, connected (closeConns m s) ref c <-> connected s ref c /\ closes m c = false) /\
  (forall ref c, store s !! ref = Some c ->
     store (closeConns m s) !! ref = Some (if closes m c then cancel c else c)).
Proof.
  intros Hwf. unfold closeConns.
  assert (Hin : forall ref c, connected s ref c -> cl_connId c ∈ close_result s m <-> closes m c = true).
  { intros ref c Hc. rewrite elem_of_close_result by done. split; [|by eauto].
    intros (r & d & Hd & Hm & E). by destruct (connected_inj _ _ _ _ _ Hwf Hd Hc E) as [-> ->]. }
  split; [by apply wf_apply_close|]. split.
  - intros ref c. rewrite connected_apply_close by done. split; intros [Hc Hm]; (split; [done|]);
      rewrite Hin in * by done; by destruct (closes m c).
  - intros ref c Hc. apply store_apply_close; [done|]. exists c. split; [done|]. unfold after_close.
    destruct (cl_cancelled c) eqn:El.
    + assert (cancel c = c) as -> by (destruct c; cbn in *; by subst).
      by destruct (closes m c), (decide _).
    + apply (wf_live _ Hwf _ _ Hc), Hin in El.
      destruct (closes m c), (decide _); naive_solver.
Qed.

(** C8: Whatever the interleaving of the connections' goroutines, the queue
    routines, the expiry ticker and the HTTP requests, the application hears of
    every connection one "open", then messages, then at most one "close" (and
    nothing after it), each event with that connection's own user, token,
    access level and cookie; and no event comes from anything else. *)
Theorem gateway_protocol g :
  reachable MD5 g ->
  (forall ref c p, store (g_server g) !! ref = Some c -> g_phase g !! ref = Some p ->
     allowed p (actions (cl_connId c) (told g))) /\
  (forall m, m ∈ told g -> exists ref c, store (g_server g) !! ref = Some c /\ speaks_for c m).
Proof. intros Hg. destruct (reachable_talk g Hg). done. Qed.

(** C3: Isolation: every frame the gateway ever writes goes to a connection
    its message selects (by identifier, token, user and access level), although
    the table may have changed since the selection; and no message without any
    target is ever written. *)
Theorem gateway_isolation g :
  reachable MD5 g ->
  forall ref m, (ref, m) ∈ g_frames g -> has_target m /\ targeted g m ref.
Proof. intros Hg. apply (w_frames _ (reachable_write g Hg)). Qed.

(** C12: The table stays well formed under every interleaving, no queue exceeds
    its 500 places, and a connection whose goroutine has ended is either out of
    the table (cancelled) or has its removal queued or in progress. *)
Theorem gateway_table_sound g :
  reachable MD5 g ->
  wf (g_server g) /\
  (length (g_read g) <= 500 /\ length (g_write g) <= 500 /\ length (g_close g) <= 500) /\
  (forall ref c, store (g_server g) !! ref = Some c -> g_phase g !! ref = Some PDone ->
     ~ connected (g_server g) ref c \/ removal_pending g (cl_connId c)).
Proof.
  intros Hg. assert (Hb := reachable_base g Hg). split; [apply Hb|]. split; [apply Hb|].
  intros ref c Hc Hp. destruct (cl_cancelled c) eqn:El.
  - left. rewrite (wf_live _ (b_wf _ Hb) _ _ Hc). by rewrite El.
  - right. by apply (reachable_removal g Hg ref).
Qed.
End Gateway.

(** With the table unchanged between selection and delivery, a write
    message reaches exactly the connections it selects. *)
Theorem write_reaches_exactly s m :
  wf s -> forall ref, ref ∈ deliver (write_result s m) s <-> exists c, connected s ref c /\ targets m c = true.
Proof.
  intros Hwf ref. rewrite elem_of_deliver by done. setoid_rewrite (elem_of_write_result _ _ _ Hwf). split.
  - intros (c & Hc & r & d & Hd & Ht & E). destruct (connected_inj _ _ _ _ _ Hwf Hd Hc E) as [-> ->]. eauto.
  - intros (c & Hc & Ht). eauto 10.
Qed.

Lemma elem_of_expired now s k : wf s ->
  k ∈ Result (FilterByExpired now s (NewFilter s)) <->
  exists ref c, connected s ref c /\ isExpired now c = true /\ cl_connId c = k.
Proof.
  intros Hwf. rewrite elem_of_Result. unfold FilterByExpired. setoid_rewrite list_elem_of_filter.
  setoid_rewrite (elem_of_NewFilter s Hwf). split.
  - intros (d & (He & ref & c & Hc & ->) & <-). exists ref, c. cbn in He.
    rewrite (proj1 Hc) in He. done.
  - intros (ref & c & Hc & He & <-). exists (client_fields ref c). split; [|done].
    split; [|by exists ref, c]. cbn. by rewrite (proj1 Hc).
Qed.

(** The ticker asks for the removal of exactly the connections whose last
    ping (or handshake) is more than 45 seconds old, or was never recorded, and
    asks for nothing when there are none: its request never has the empty
    criteria that would select everybody. *)
Theorem expired_message_exact now s :
  wf s ->
  match expired_message now s with
  | None => forall ref c, connected s ref c -> isExpired now c = false
  | Some m => cm_ConnIds m <> [] /\
      forall ref c, connected s ref c -> closes m c = isExpired now c
  end.
Proof.
  intros Hwf. unfold expired_message.
  assert (Hin := fun k => elem_of_expired now s k Hwf).
  destruct (Result _) as [|k0 ks].
  - intros ref c Hc. destruct (isExpired now c) eqn:E; [|done].
    exfalso. apply (not_elem_of_nil (cl_connId c)). rewrite Hin. eauto.
  - split; [done|]. intros ref c Hc. unfold closes, selects. cbn [given nonempty negb orb cm_ConnIds
      cm_Tokens cm_Users cm_UsersAccessType]. rewrite !andb_true_r.
    apply eq_bool_prop_intro. rewrite bool_decide_spec, Hin. split.
    + intros (r & d & Hd & He & E). destruct (connected_inj _ _ _ _ _ Hwf Hd Hc E) as [-> ->].
      by apply Is_true_true.
    + intros He%Is_true_true. eauto.
Qed.

(** A request to close connections whose only criteria are blank tokens is
    taken as one without criteria and closes every session of every user. *)
Theorem CloseConnection_blank_closes_all MD5 s r :
  wf s -> dr_Conns r = [] -> dr_Users r = [] -> Forall (fun t => t = "") (dr_Tokens r) ->
  exists m, CloseConnection MD5 (Some r) = Some m /\ users (closeConns m s) = ∅.
Proof.
  intros Hwf E1 E2 Ht. cbn. unfold ws_Close. eexists. split; [done|].
  rewrite E1, E2, (elem_of_nil_inv (filter _ _)).
  2:{ intros t [Hn Hin]%list_elem_of_filter. by rewrite Forall_forall in Ht; apply Hn, Ht. }
  set (m := mkClose _ _ _ _).
  assert (Hin : forall ref c, connected s ref c -> cl_connId c ∈ close_result s m).
  { intros ref c Hc. apply elem_of_close_result; [done|]. exists ref, c. done. }
  apply map_eq. intros n. rewrite lookup_empty.
  destruct (users (closeConns m s) !! n) as [u|] eqn:Hu; [exfalso|done].
  unfold closeConns in Hu. assert (Hwf' := wf_apply_close (close_result s m) s Hwf).
  destruct (wf_user _ Hwf' _ _ Hu) as [_ Hne]. apply map_choose in Hne as (k & ref & Hk).
  destruct (wf_conn _ Hwf' _ _ _ _ Hu Hk) as (c & Hc & <- & <-).
  assert (Hconn : connected (apply_close (close_result s m) s) ref c) by (split; eauto).
  apply connected_apply_close in Hconn as [Hconn Hno]; [|done]. eauto.
Qed.

(** ** Witnesses *)

(** Two users; Alice's connection pings, sends a message and is lost; Bob gets
    a frame by access level; the ticker then removes Bob. *)
Definition demo_md5 (s : string) : string := "md5:" +:+ s.
Definition demo_headers (user : string) : option (gmap string string) := Some {["X-Bfl-User" := user]}.
Definition demo_labels : list label :=
  [ LConnect 0 true "tokA" "u1" "c0" (demo_headers "alice") 100;
    LConnect 1 true "" "u2" "c1" (demo_headers "bob") 100;
    LClient 0 FError 100; LClient 0 FError 100; LClient 1 FError 100; LClient 1 FError 100;
    LClient 0 (FMessage (Some {["event" := JString "ping"]})) 150; LClient 0 FError 150; LClient 0 FError 150;
    LClient 0 FError 150; LClient 0 (FMessage (Some {["x" := JString "1"]})) 151; LClient 0 FError 151;
    LSendMessage (Some (mkSend {["hi" := JString "bob"]} ["bob"; "alice"] 2 [] ""));
    LWrite; LWrite; LRead; LRead;
    LWrite; LTick 160; LTick 160; LClose;
    LWrite; LClient 0 FError 152; LClient 0 FError 152; LClient 0 FError 152;
    LClient 0 FError 152; LRead].
Definition demo_gw : gateway := default gateway0 (gw_steps demo_md5 demo_labels gateway0).

Lemma demo_gw_reachable : reachable demo_md5 demo_gw.
Proof.
  unfold demo_gw. destruct (gw_steps _ _ _) as [g|] eqn:E; [|apply reach_init].
  eapply gw_steps_reachable; [apply reach_init|exact E].
Qed.

Definition demo_wf : wf (g_server demo_gw) := b_wf _ (reachable_base demo_md5 demo_gw demo_gw_reachable).

Lemma closeConns_removes_exactly_witness :
  wf (g_server demo_gw) /\
  wf (closeConns (mkClose [] [] ["alice"] 1) (g_server demo_gw)) /\
  map fst (map_to_list (users (closeConns (mkClose [] [] ["alice"] 1) (g_server demo_gw)))) = ["bob"].
Proof.
  split; [exact demo_wf|]. split; [|vm_compute; reflexivity].
  exact (proj1 (closeConns_removes_exactly (g_server demo_gw) (mkClose [] [] ["alice"] 1) demo_wf)).
Defined.

Lemma gateway_protocol_witness :
  reachable demo_md5 demo_gw /\
  actions "c0" (told demo_gw) = [ACTION_OPEN; ACTION_MESSAGE; ACTION_CLOSE] /\
  forall m, m ∈ told demo_gw -> exists ref c, store (g_server demo_gw) !! ref = Some c /\ speaks_for c m.
Proof.
  split; [exact demo_gw_reachable|]. split; [vm_compute; reflexivity|].
  exact (proj2 (gateway_protocol demo_md5 demo_gw demo_gw_reachable)).
Defined.

Lemma gateway_isolation_witness :
  reachable demo_md5 demo_gw /\ map fst (g_frames demo_gw) = [0; 1] /\
  forall ref m, (ref, m) ∈ g_frames demo_gw -> has_target m /\ targeted demo_gw m ref.
Proof.
  split; [exact demo_gw_reachable|]. split; [vm_compute; reflexivity|].
  exact (gateway_isolation demo_md5 demo_gw demo_gw_reachable).
Defined.

Lemma gateway_table_sound_witness :
  reachable demo_md5 demo_gw /\ g_phase demo_gw !! 0 = Some PDone /\ length (g_close demo_gw) <= 500.
Proof.
  split; [exact demo_gw_reachable|]. split; [vm_compute; reflexivity|].
  apply (gateway_table_sound demo_md5 demo_gw demo_gw_reachable).
Defined.

Lemma write_reaches_exactly_witness :
  wf (g_server demo_gw) /\
  (1 ∈ deliver (write_result (g_server demo_gw) (mkWrite 1 ∅ "" [] ["bob"] 0)) (g_server demo_gw) <->
   exists c, connected (g_server demo_gw) 1 c /\ targets (mkWrite 1 ∅ "" [] ["bob"] 0) c = true).
Proof. split; [exact demo_wf|]. apply (write_reaches_exactly _ _ demo_wf). Defined.

Lemma expired_message_exact_witness :
  wf (g_server demo_gw) /\
  match expired_message 170 (g_server demo_gw) with
  | None => False
  | Some m => cm_ConnIds m = ["c1"] /\ cm_ConnIds m <> []
  end.
Proof.
  split; [exact demo_wf|].
  pose proof (expired_message_exact 170 (g_server demo_gw) demo_wf) as H.
  destruct (expired_message 170 (g_server demo_gw)) as [m|] eqn:E; [|vm_compute in E; discriminate E].
  split; [|apply H]. vm_compute in E. injection E as <-. reflexivity.
Defined.

Lemma CloseConnection_blank_closes_all_witness :
  wf (g_server demo_gw) /\ size (users (g_server demo_gw)) = 2 /\
  exists m, CloseConnection demo_md5 (Some (mkDisconnect [] [""] [] 0)) = Some m /\
    users (closeConns m (g_server demo_gw)) = ∅.
Proof.
  split; [exact demo_wf|]. split; [vm_compute; reflexivity|].
  apply (CloseConnection_blank_closes_all demo_md5 _ _ demo_wf); [reflexivity..|].
  repeat constructor.
Defined.
