(* ===== verification/Nats.v ===== *)
(** * NATS users: [src/pkg/workload/nats/helper.go],
    [src/cmd/middleware/operator/middleware-request/handler_nats.go] and the
    handler of [controller_config.go] *)

From S2P Require Import Prelude Effects Apr NatsConf World.
Import NatsConf.

Definition ConfPath : string := "/dbdata/nats_data/config/nats.conf".
Definition Allow : string := "allow".
Definition PlatformNamespace : string := "os-platform".

Definition defaultPubPerm : list string :=
  ["$JS.API.INFO"; "$JS.API.STREAM.NAMES"; "$JS.API.CONSUMER.CREATE.>"; "_INBOX.>"; "$JS.ACK.>";
   "$SYS.ACCOUNT.*.CONNECT"; "$SYS.ACCOUNT.*.DISCONNECT"; "$JS.FC.>"; "$SYS._INBOX_.>";
   "$SYS.SERVER.*.CLIENT.AUTH.ERR"; "$SYS.REQ.SERVER.PING.>"].
Definition defaultSubPerm : list string :=
  ["$JS.API.STREAM.NAMES"; "$JS.API.CONSUMER.CREATE.>"; "_INBOX.>"; "$SYS.ACCOUNT.*.CONNECT";
   "$SYS.ACCOUNT.*.DISCONNECT"; "$JS.FC.>"; "$SYS._INBOX_.>"; "$SYS.SERVER.*.CLIENT.AUTH.ERR";
   "$SYS.REQ.SERVER.PING.>"].

(** ** Subject names *)

Definition MakeRealSubjectName (subject appNamespace : string) : string :=
  appNamespace +:+ "." +:+ subject.

Definition GetOwnerNameFromNs (ns : string) : string := default "" (last (split_char "-"%char ns)).

Definition MakeRealNameForRefSubjectName (refNamespace subject ownerName : string) : string :=
  let refAppNs := if has_prefix "user-space" refNamespace then "user-space-" +:+ ownerName
                  else if has_prefix "user-system" refNamespace then "user-system-" +:+ ownerName
                  else refNamespace in
  refAppNs +:+ "." +:+ subject.

(** The regular expression of [re]: what follows the third dot, if it has no
    newline. *)
Fixpoint after_dots (n : nat) (s : string) : option string :=
  match n with
  | O => Some s
  | S n' =>
      (fix skip (s : string) : option string :=
         match s with
         | EmptyString => None
         | String c s' => if Ascii.eqb c "."%char then after_dots n' s' else skip s'
         end) s
  end.
Definition GetOriginSubjectName (subjectName : string) : string :=
  match after_dots 3 subjectName with
  | Some rest => if str_contains (Ascii.ascii_of_nat 10) rest then "" else rest
  | None => ""
  end.

(** ** Permissions of a request: [getAllowPubSubSubjectFromMR] *)

Record export : Set := mkExport {
  ex_subjectName : string; ex_appName : string; ex_pub : string; ex_sub : string }.

(** Everything the NATS requests of the system export, in order. *)
Definition exports (mrs : list MiddlewareRequest) : list export :=
  concat (map (fun mr =>
    if bool_decide (ms_Middleware (mr_Spec mr) = TypeNats)
    then concat (map (fun s =>
           map (fun e => mkExport (MakeRealSubjectName (sub_Name s) (ms_AppNamespace (mr_Spec mr)))
                           (perm_AppName e) (perm_Pub e) (perm_Sub e)) (sub_Export s))
           (nats_Subjects (ms_Nats (mr_Spec mr))))
    else []) mrs).

(** [appExportMap[app]] *)
Definition exported_to (app : string) (es : list export) : list export :=
  base.filter (fun e => ex_appName e = app) es.

(** The subject is appended once per export that allows it; none is an error. *)
Definition grant (ep : list export) (who : export -> string) (name : string) : res (list string) :=
  match base.filter (fun e => name = ex_subjectName e /\ who e = Allow) ep with
  | [] => Err (newErr ("not found export permission for subject " +:+ name))
  | es => Ok (map (fun _ => name) es)
  end.

(** One subject of a reference: its "pub" permission, then its "sub". *)
Definition grant_subject (ep : list export) (name : string) (perm : list string)
    (acc : list string * list string) : res (list string * list string) :=
  match ep with
  | [] => Err (newErr "not found export permission")
  | _ =>
      let pub := if bool_decide ("pub" ∈ perm) then grant ep ex_pub name else Ok [] in
      match pub with
      | Err e => Err e
      | Ok pub =>
          let sub := if bool_decide ("sub" ∈ perm) then grant ep ex_sub name else Ok [] in
          match sub with
          | Err e => Err e
          | Ok sub => Ok (fst acc ++ pub, snd acc ++ sub)
          end
      end
  end.

Fixpoint grant_all (ep : list export) (l : list (string * list string))
    (acc : list string * list string) : res (list string * list string) :=
  match l with
  | [] => Ok acc
  | (name, perm) :: l' =>
      match grant_subject ep name perm acc with
      | Err e => Err e
      | Ok acc => grant_all ep l' acc
      end
  end.

(** The request's own subjects it may publish to (subscribe to). *)
Definition own_subjects (req : MiddlewareRequest) (who : Permission -> string) : list string :=
  map (fun s => MakeRealSubjectName (sub_Name s) (ms_AppNamespace (mr_Spec req)))
    (base.filter (fun s => who (sub_Permission s) = Allow) (nats_Subjects (ms_Nats (mr_Spec req)))).

Definition ref_real_name (req : MiddlewareRequest) (r : Ref) (s : RefSubject) : string :=
  MakeRealNameForRefSubjectName (ref_AppNamespace r) (rs_Name s) (GetOwnerNameFromNs (mr_Namespace req)).

(** The subjects it refers to, under their real names. *)
Definition ref_subjects (req : MiddlewareRequest) : list (string * list string) :=
  concat (map (fun r => map (fun s => (ref_real_name req r s, rs_Perm s)) (ref_Subjects r))
            (nats_Refs (ms_Nats (mr_Spec req)))).

Definition with_defaults (defaults l : list string) : list string :=
  match l with [] => [] | _ => l ++ defaults end.

Definition allowed_subjects (req : MiddlewareRequest) (mrs : list MiddlewareRequest)
  : res (list string * list string) :=
  match grant_all (exported_to (ms_App (mr_Spec req)) (exports mrs)) (ref_subjects req)
          (own_subjects req perm_Pub, own_subjects req perm_Sub) with
  | Err e => Err e
  | Ok (pub, sub) => Ok (with_defaults defaultPubPerm pub, with_defaults defaultSubPerm sub)
  end.

Definition getAllowPubSubSubjectFromMR (req : MiddlewareRequest) : io (res (list string * list string)) :=
  do? nats_call KubeConfig;
  let? mrs := apr_call (ListMiddlewareRequests "") in
  Ret (allowed_subjects req mrs).

(** ** The configuration file *)

Definition getAdminPassword : io (res string) :=
  do? nats_call KubeConfig;
  let? secret := k8s_call (GetSecret PlatformNamespace "nats-secrets") in
  Ret (Ok (default "" (sec_Data secret !! "nats_password"))).

Definition loadConf : io (res Config) :=
  let? password := getAdminPassword in
  do? nats_call (Setenv "ADMIN_PASSWORD" password);
  nats_call (ParseNatsConf ConfPath).

Definition RenderConfigFile (c : Config) : io (res unit) :=
  sys_call (WriteFile ConfPath (renderConfigFile c)).

(** Every entry with the user's name is replaced; when there is none the user
    is appended. *)
Definition upsert_user (u : User) (us : list User) : list User :=
  if existsb (fun v => String.eqb (Username v) (Username u)) us
  then map (fun v => if String.eqb (Username v) (Username u) then u else v) us
  else us ++ [u].

Definition createOrUpdateUser (req : MiddlewareRequest) (password : string) (loadConfig : io (res Config))
  : io (res Config) :=
  let? encryptedPassword := nats_call (BcryptHash password) in
  let? (pub, sub) := getAllowPubSubSubjectFromMR req in
  let user := mkUser (nats_User (ms_Nats (mr_Spec req))) encryptedPassword (mkPermissions pub sub) in
  let? config := loadConfig in
  Ret (Ok (set_users (upsert_user user (Users config)) config)).

Definition CreateOrUpdateUser (req : MiddlewareRequest) (password : string) : io (res Config) :=
  let? config := createOrUpdateUser req password loadConf in
  do? RenderConfigFile config;
  Ret (Ok config).

(** [append(users[:i], users[i+1:]...)] on a slice of length [m]: the entries
    move within the shared backing array [b]; a slice beyond the length panics. *)
Definition slice_delete {A} (i m : nat) (b : list A) : option (list A * nat) :=
  if (i + 1 <=? m)%nat
  then Some (take i b ++ take (m - (i + 1)) (drop (i + 1) b) ++ drop (m - 1) b, m - 1)
  else None.

(** [for i, u := range users { if u.Username == username { users = ... } }]:
    the range was fixed before the loop, the array it reads is the one the
    body moves entries in. *)
Fixpoint delete_range (username : string) (todo i m : nat) (b : list User) : option (list User) :=
  match todo with
  | O => Some (take m b)
  | S todo' =>
      match b !! i with
      | None => None
      | Some u =>
          if String.eqb (Username u) username
          then match slice_delete i m b with
               | Some (b', m') => delete_range username todo' (i + 1) m' b'
               | None => None
               end
          else delete_range username todo' (i + 1) m b
      end
  end.
Definition delete_users (username : string) (us : list User) : option (list User) :=
  delete_range username (length us) 0 (length us) us.

Definition DeleteUser (username : string) : io (res unit) :=
  let? config := loadConf in
  match delete_users username (Users config) with
  | None => Panic "slice bounds out of range"
  | Some us => RenderConfigFile (set_users us config)
  end.

(** ** Streams *)

(** [nats.Connect] as the administrator, [defer nc.Drain()], [jetstream.New]. *)
Definition with_jetstream (body : nat -> io (res unit)) : io (res unit) :=
  let? adminPassword := getAdminPassword in
  let? nc := nats_call (NatsConnect ("nats://nats." +:+ PlatformNamespace) "admin" adminPassword) in
  with_defer (nats_call (NatsDrain nc))
    (do? nats_call (JsNew nc);
     body nc).

Definition CreateOrUpdateStream : io (res unit) :=
  with_jetstream (fun nc =>
    let! r := nats_call (JsCreateStream nc "os-stream" ["os.>"] (24 * 60 * 60)) in
    match r with
    | Ok _ => Ret (Ok tt)
    | Err e => if isKind KStreamInUse e then Ret (Ok tt) else Ret (Err e)
    end).

(** Only a missing stream is reported; any other error is dropped. *)
Definition DeleteStream (appNamespace app : string) : io (res unit) :=
  with_jetstream (fun nc =>
    let! r := nats_call (JsDeleteStream nc (appNamespace +:+ "-" +:+ app)) in
    match r with
    | Ok _ => Ret (Ok tt)
    | Err e => if isKind KStreamNotFound e then Ret (Err e) else Ret (Ok tt)
    end).

Definition FindNatsAdminUser : io (res (string * string)) :=
  let? secret := k8s_call (GetSecret PlatformNamespace "nats-secrets") in
  Ret (Ok ("admin", default "" (sec_Data secret !! "nats_password"))).

(** ** [handler_nats.go] *)

Definition createOrUpdateNatsUser (req : MiddlewareRequest) : io (res unit) :=
  if String.eqb (nats_User (ms_Nats (mr_Spec req))) "" then Ret (Err (newErr "nats user is empty"))
  else
    let? password := GetVarValue (nats_Password (ms_Nats (mr_Spec req))) (mr_Namespace req) in
    do? CreateOrUpdateUser req password;
    CreateOrUpdateStream.

Definition deleteNatsUserAndStream (req : MiddlewareRequest) : io (res unit) :=
  do? DeleteUser (nats_User (ms_Nats (mr_Spec req)));
  DeleteStream (ms_AppNamespace (mr_Spec req)) (ms_App (mr_Spec req)).

(** ** [controller_config.go]: seeding the file from its config map.  [None]
    is an object that is not a ConfigMap. *)

Definition config_handler (cm : option (gmap string string)) : io (res unit) :=
  match cm with
  | None => Ret (Err (newErr "invalid configmap object"))
  | Some data =>
      let! st := sys_call (Stat ConfPath) in
      match st with
      | Ok _ => Ret (Ok tt)
      | Err _ =>
          match data !! "nats.conf" with
          | None => Ret (Err (newErr "nats.conf not found in configmap data"))
          | Some natsConf =>
              do? sys_call (MkdirAll "/dbdata/nats_data/config");
              sys_call (WriteFile ConfPath natsConf)
          end
      end
  end.
