(* ===== verification/NatsConfSpec.v ===== *)
(** * What the NATS configuration file says

    A reader of the part of nats-server's syntax that the file uses, and that it
    reads what [renderConfigFile] writes as the configuration it was given. *)

From S2P Require Import Prelude NatsConf.
Import NatsConf.

(** ** A reader

    Quoted strings without escapes, bare words, maps and lists; commas and line
    ends only separate. *)

Inductive token : Set := TStr (s : string) | TBare (s : string) | TOpen | TClose | TBegin | TEnd | TColon.
Inductive value : Type := VStr (s : string) | VBare (s : string) | VList (l : list value) | VMap (l : list (string * value)).

Definition is_space (c : Ascii.ascii) : bool :=
  Ascii.eqb c " " || Ascii.eqb c "," || Ascii.eqb c (Ascii.ascii_of_nat 9) || Ascii.eqb c (Ascii.ascii_of_nat 10).
Definition is_quote (c : Ascii.ascii) : bool := Ascii.eqb c (Ascii.ascii_of_nat 34).
Definition punct (c : Ascii.ascii) : option token :=
  if Ascii.eqb c "{" then Some TOpen else if Ascii.eqb c "}" then Some TClose
  else if Ascii.eqb c "[" then Some TBegin else if Ascii.eqb c "]" then Some TEnd
  else if Ascii.eqb c ":" then Some TColon else None.

(** Between words, in a quoted string, in a bare word. *)
Inductive lexer : Set := Between | Quoted (acc : string) | Bare (acc : string).
Definition word (st : lexer) : list token := match st with Bare a => [TBare a] | _ => [] end.
Definition snoc (s : string) (c : Ascii.ascii) : string := s +:+ String c "".
Definition lex_char (st : lexer) (c : Ascii.ascii) : lexer * list token :=
  match st with
  | Quoted a => if is_quote c then (Between, [TStr a]) else (Quoted (snoc a c), [])
  | _ =>
      if is_space c then (Between, word st)
      else if is_quote c then (Quoted "", word st)
      else match punct c with
           | Some t => (Between, word st ++ [t])
           | None => (Bare (snoc (match st with Bare a => a | _ => "" end) c), [])
           end
  end.
Fixpoint lex (st : lexer) (s : string) : lexer * list token :=
  match s with
  | EmptyString => (st, [])
  | String c s' => let '(st1, t1) := lex_char st c in let '(st2, t2) := lex st1 s' in (st2, t1 ++ t2)
  end.

(** What is being read: a list, a map, a map after a key, and after its colon. *)
Inductive frame : Type :=
  | InList (acc : list value) | InMap (fs : list (string * value))
  | AfterKey (fs : list (string * value)) (k : string) | AtValue (fs : list (string * value)) (k : string).
Definition push (v : value) (st : list frame) : option (list frame) :=
  match st, v with
  | InList acc :: st, _ => Some (InList (acc ++ [v]) :: st)
  | AtValue fs k :: st, _ => Some (InMap (fs ++ [(k, v)]) :: st)
  | InMap fs :: st, VStr k => Some (AfterKey fs k :: st)
  | _, _ => None
  end.
Definition read_token (st : list frame) (t : token) : option (list frame) :=
  match t with
  | TStr s => push (VStr s) st
  | TBare s => push (VBare s) st
  | TOpen => Some (InMap [] :: st)
  | TBegin => Some (InList [] :: st)
  | TColon => match st with AfterKey fs k :: st => Some (AtValue fs k :: st) | _ => None end
  | TClose => match st with InMap fs :: st => push (VMap fs) st | _ => None end
  | TEnd => match st with InList acc :: st => push (VList acc) st | _ => None end
  end.
Fixpoint read_tokens (st : list frame) (ts : list token) : option (list frame) :=
  match ts with [] => Some st | t :: ts => st ← read_token st t; read_tokens st ts end.

Definition read_conf (text : string) : option value :=
  match lex Between text with
  | (Between, ts) => match read_tokens [InList []] ts with Some [InList [v]] => Some v | _ => None end
  | _ => None
  end.

(** ** What is to be read *)

Definition starts_dollar (s : string) : bool := match s with String c _ => Ascii.eqb c "$" | EmptyString => false end.
(** A hash or a variable is a bare word; the administrator's password is always
    the variable. *)
Definition password_value (u : User) : value :=
  if String.eqb (Username u) "admin" then VBare "$ADMIN_PASSWORD"
  else if starts_dollar (Password u) then VBare (Password u) else VStr (Password u).
Definition allow_value (l : list string) : value := VMap [("allow", VList (map VStr l))].
Definition user_value (u : User) : value := VMap [
  ("user", VStr (Username u)); ("password", password_value u);
  ("permissions", VMap [("publish", allow_value (Publish_Allow (UserPermissions u)));
                        ("subscribe", allow_value (Subscribe_Allow (UserPermissions u)))])].
Definition conf_value (c : Config) : value := VMap [
  ("http_port", VBare (itoa (HTTPPort c)));
  ("jetstream", VMap [("max_file_store", VBare (itoa (MaxFileStore (ConfJetstream c))));
                      ("max_memory_store", VBare (itoa (MaxMemoryStore (ConfJetstream c))));
                      ("store_dir", VStr (StoreDir (ConfJetstream c)))]);
  ("accounts", VMap [("terminus", VMap [("jetstream", VBare "enabled"); ("users", VList (map user_value (Users c)))])]);
  ("port", VBare (itoa (Port c))); ("pid_file", VStr (PidFile c)); ("server_name", VStr (ServerName c))].

(** Text that ends where its quotes end, and a word that has no end in it. *)
Definition plain_char (c : Ascii.ascii) : bool := negb (is_quote c || Ascii.eqb c "\").
Definition bare_char (c : Ascii.ascii) : bool :=
  negb (is_space c || is_quote c || Ascii.eqb c "\" || Ascii.eqb c "#" || bool_decide (is_Some (punct c))).
Definition plain (s : string) : Prop := all_chars plain_char s = true.
Definition plain_user (u : User) : Prop :=
  plain (Username u) /\ Forall plain (Publish_Allow (UserPermissions u)) /\
  Forall plain (Subscribe_Allow (UserPermissions u)) /\
  all_chars (if starts_dollar (Password u) then bare_char else plain_char) (Password u) = true.
Definition plain_conf (c : Config) : Prop :=
  plain (StoreDir (ConfJetstream c)) /\ plain (PidFile c) /\ plain (ServerName c) /\ Forall plain_user (Users c).

(** ** Reading text in pieces *)

Lemma lex_app st a b st1 t1 st2 t2 :
  lex st a = (st1, t1) -> lex st1 b = (st2, t2) -> lex st (a +:+ b) = (st2, t1 ++ t2).
Proof.
  revert st st1 t1. induction a as [|c a IH]; intros st st1 t1 Ha Hb.
  - injection Ha as <- <-. exact Hb.
  - change (lex st (String c (a +:+ b)) = (st2, t1 ++ t2)). cbn [lex] in *.
    destruct (lex_char st c) as [st' t]. destruct (lex st' a) as [st'' t'] eqn:E. injection Ha as -> <-.
    by rewrite (IH _ _ _ E Hb), app_assoc.
Qed.
Lemma lex_quoted_from s acc : plain s -> lex (Quoted acc) (s +:+ dq) = (Between, [TStr (acc +:+ s)]).
Proof.
  revert acc. induction s as [|c s IH]; intros acc H.
  - cbn. by rewrite string_app_nil_r.
  - unfold plain in *. cbn [all_chars] in H. apply andb_true_iff in H as [Hc Hs].
    change (lex (Quoted acc) (String c (s +:+ dq)) = (Between, [TStr (acc +:+ String c s)])). cbn [lex lex_char].
    unfold plain_char in Hc. apply negb_true_iff, orb_false_iff in Hc as [-> _]. rewrite (IH _ Hs). unfold snoc.
    by rewrite string_app_assoc.
Qed.
Lemma lex_quoted s : plain s -> lex Between (quoted s) = (Between, [TStr s]).
Proof. intros H. exact (lex_app Between dq (s +:+ dq) _ [] _ _ eq_refl (lex_quoted_from s "" H)). Qed.
Lemma lex_bare_from s acc : all_chars bare_char s = true -> lex (Bare acc) s = (Bare (acc +:+ s), []).
Proof.
  revert acc. induction s as [|c s IH]; intros acc H; [by cbn; rewrite string_app_nil_r|].
  cbn [all_chars] in H. apply andb_true_iff in H as [Hc Hs]. unfold bare_char in Hc.
  rewrite !negb_orb, !andb_true_iff, !negb_true_iff in Hc. destruct Hc as [[[[H1 H2] _] _] H3].
  cbn [lex lex_char]. rewrite H1, H2. destruct (punct c); [by case_bool_decide as Hd; [|destruct Hd]|].
  rewrite (IH _ Hs). unfold snoc. by rewrite string_app_assoc.
Qed.
Lemma lex_bare s : s <> "" -> all_chars bare_char s = true -> lex Between s = (Bare s, []).
Proof.
  destruct s as [|c s]; [done|]. intros _ H. cbn [all_chars] in H. apply andb_true_iff in H as [Hc Hs].
  unfold bare_char in Hc. rewrite !negb_orb, !andb_true_iff, !negb_true_iff in Hc. destruct Hc as [[[[H1 H2] _] _] H3].
  cbn [lex lex_char]. rewrite H1, H2. destruct (punct c); [by case_bool_decide as Hd; [|destruct Hd]|].
  by rewrite (lex_bare_from _ _ Hs).
Qed.

(** The digits of a number are a bare word. *)
Lemma digits_bare (n : N) s :
  all_chars bare_char s = true ->
  all_chars bare_char (pretty_N_go n s) = true /\ (s <> "" -> pretty_N_go n s <> "").
Proof.
  revert s. induction (N.lt_wf_0 n) as [n _ IH]. intros s Hs. destruct (decide (0 < n)%N) as [Hn|Hn].
  - rewrite pretty_N_go_step by done.
    destruct (IH (n `div` 10)%N ltac:(apply N.div_lt; lia) (String (pretty_N_char (n `mod` 10)) s)) as [H1 H2].
    { cbn [all_chars]. rewrite Hs, andb_true_r. unfold pretty_N_char. by repeat case_match. }
    split; [done|]. intros _. by apply H2.
  - replace n with 0%N by lia. by rewrite pretty_N_go_0.
Qed.
Lemma itoa_bare z : itoa z <> "" /\ all_chars bare_char (itoa z) = true.
Proof.
  assert (Hp : forall p : positive, pretty p <> "" /\ all_chars bare_char (pretty p) = true).
  { intros p. change (pretty p) with (pretty_N_go (Npos p) "").
    split; [|by apply digits_bare]. rewrite pretty_N_go_step by done. apply digits_bare; [|done].
    cbn [all_chars]. rewrite andb_true_r. unfold pretty_N_char. by repeat case_match. }
  destruct z as [|p|p]; [done|apply Hp|]. split; [done|]. apply (Hp p).
Qed.

(** Pieces of the file, one after the other. *)
Definition says (text : string) (ts : list token) : Prop := lex Between text = (Between, ts).
Lemma says_app a b t1 t2 : says a t1 -> says b t2 -> says (a +:+ b) (t1 ++ t2).
Proof. apply lex_app. Qed.
Lemma concat_str_cons a l : concat_str (a :: l) = a +:+ concat_str l.
Proof. destruct l; [symmetry; apply string_app_nil_r|done]. Qed.
Lemma says_concat l ts : Forall2 says l ts -> says (concat_str l) (concat ts).
Proof. intros H. induction H as [|a t l ts Ha _ IH]; [done|]. rewrite concat_str_cons. by apply says_app. Qed.
Lemma says_line n l t : says (concat_str l) t -> says (line n l) t.
Proof.
  intros H. unfold line. apply (says_app nl _ [] t); [done|]. apply (says_app _ _ [] t); [|done].
  replace [] with (concat (replicate n ([] : list token))) by (induction n; [done|by cbn]).
  apply says_concat. induction n; constructor; done.
Qed.
Lemma says_word s rest t :
  s <> "" -> all_chars bare_char s = true -> says ("," +:+ rest) t -> says (s +:+ "," +:+ rest) (TBare s :: t).
Proof.
  intros Hne Hb Hr. unfold says in *. eapply (lex_app _ s _ _ []); [by apply lex_bare|].
  change (lex (Bare s) (String "," rest) = (Between, TBare s :: t)). change (lex Between (String "," rest) = (Between, t)) in Hr.
  cbn [lex lex_char is_space Ascii.eqb] in *. cbn in *. destruct (lex Between rest) as [st ts]. by injection Hr as -> ->.
Qed.
Lemma says_eq text t t' : says text t -> t = t' -> says text t'.
Proof. by intros H <-. Qed.
Lemma says_bare_line n k s :
  plain k -> s <> "" -> all_chars bare_char s = true ->
  says (line n [quoted k; ": "; s; ","]) [TStr k; TColon; TBare s].
Proof.
  intros Hk Hne Hs. apply says_line. rewrite !concat_str_cons.
  apply (says_app _ _ [TStr k]); [by apply lex_quoted|]. apply (says_app ": " _ [TColon]); [done|].
  by apply (says_word s "").
Qed.
Lemma says_number n k z : plain k -> says (line n [quoted k; ": "; itoa z; ","]) [TStr k; TColon; TBare (itoa z)].
Proof. intros Hk. destruct (itoa_bare z). by apply says_bare_line. Qed.
Lemma says_names l : Forall plain l -> says (join ", " (map quoted l)) (map TStr l).
Proof.
  intros H. induction H as [|s l Hs Hl IH]; [done|]. destruct l as [|s' l]; [by apply lex_quoted|].
  cbn [map] in *. rewrite join_cons by done. apply (says_app _ _ [TStr s]); [by apply lex_quoted|].
  by apply (says_app ", " _ []).
Qed.
Definition allow_tokens (l : list string) : list token := TBegin :: map TStr l ++ [TEnd].
Lemma says_allow l : Forall plain l -> says (allow_list l) (allow_tokens l).
Proof.
  intros H. apply (says_app "[" _ [TBegin]); [done|]. apply says_app; [by apply says_names|done].
Qed.

Definition password_token (u : User) : token :=
  match password_value u with VBare s => TBare s | VStr s => TStr s | _ => TColon end.
Definition user_tokens (u : User) : list token :=
  [TOpen; TStr "user"; TColon; TStr (Username u); TStr "password"; TColon; password_token u;
   TStr "permissions"; TColon; TOpen; TStr "publish"; TColon; TOpen; TStr "allow"; TColon] ++
  allow_tokens (Publish_Allow (UserPermissions u)) ++
  [TClose; TStr "subscribe"; TColon; TOpen; TStr "allow"; TColon] ++
  allow_tokens (Subscribe_Allow (UserPermissions u)) ++ [TClose; TClose; TClose].

Lemma says_password u :
  plain_user u ->
  says (if String.eqb (Username u) "admin" then line 10 [quoted "password"; ": $ADMIN_PASSWORD,"]
        else line 10 [quoted "password"; ": "; quoteOrNot (Password u); ","])
    [TStr "password"; TColon; password_token u].
Proof.
  intros (_ & _ & _ & Hp). unfold password_token, password_value. destruct (String.eqb _ _); [done|].
  destruct (Password u) as [|c p] eqn:E; [done|]. cbn [starts_dollar] in *.
  assert (Hq : quoteOrNot (String c p) = if Ascii.eqb c "$" then String c p else quoted (String c p)).
  { unfold quoteOrNot. cbn [has_prefix]. rewrite (Ascii.eqb_sym c "$"). destruct (Ascii.eqb "$" c); [by destruct (_ && _)|done]. }
  rewrite Hq. destruct (Ascii.eqb c "$"); [by apply says_bare_line|].
  apply says_line. apply (says_concat [_; _; _; _] [[TStr "password"]; [TColon]; [TStr (String c p)]; []]).
  repeat constructor. by apply lex_quoted.
Qed.
Lemma says_key_line n k rest t :
  plain k -> says (concat_str rest) t -> says (line n (quoted k :: ": " :: rest)) ([TStr k; TColon] ++ t).
Proof.
  intros Hk Hr. apply says_line. rewrite !concat_str_cons. apply (says_app _ _ [TStr k]); [by apply lex_quoted|].
  by apply (says_app ": " _ [TColon]).
Qed.
Lemma says_user i u : plain_user u -> says (render_user i u) (user_tokens u).
Proof.
  intros Hu. pose proof (says_password u Hu) as Hp. destruct Hu as (Hn & Hpub & Hsub & _).
  apply (says_concat [_; _; _; _; _; _; _; _; _; _; _; _; _; _; _]
    [[]; [TOpen]; [TStr "user"; TColon; TStr (Username u)]; []; [TStr "password"; TColon; password_token u]; [];
     [TStr "permissions"; TColon; TOpen]; [TStr "publish"; TColon; TOpen];
     [TStr "allow"; TColon] ++ allow_tokens (Publish_Allow (UserPermissions u)); [TClose];
     [TStr "subscribe"; TColon; TOpen]; [TStr "allow"; TColon] ++ allow_tokens (Subscribe_Allow (UserPermissions u));
     [TClose]; [TClose]; [TClose]]).
  repeat (apply Forall2_cons; split); try exact Hp; try done.
  - by destruct i.
  - apply (says_key_line 10 "user" _ [TStr (Username u)]); [done|].
    apply (says_concat [_; _] [[_]; []]). repeat constructor. by apply lex_quoted.
  - apply (says_key_line 14 "allow"); [done|]. by apply says_allow.
  - apply (says_key_line 14 "allow"); [done|]. by apply says_allow.
Qed.
Lemma says_users f us :
  (forall i u, u ∈ us -> says (f i u) (user_tokens u)) ->
  says (concat_str (imap f us)) (concat (map user_tokens us)).
Proof.
  revert f. induction us as [|u us IH]; intros f H; [done|]. rewrite imap_cons, concat_str_cons.
  apply says_app; [apply H; left|]. apply IH. intros i v Hv. apply H. by right.
Qed.

Definition conf_tokens (c : Config) : list token :=
  [TOpen; TStr "http_port"; TColon; TBare (itoa (HTTPPort c)); TStr "jetstream"; TColon; TOpen;
   TStr "max_file_store"; TColon; TBare (itoa (MaxFileStore (ConfJetstream c)));
   TStr "max_memory_store"; TColon; TBare (itoa (MaxMemoryStore (ConfJetstream c)));
   TStr "store_dir"; TColon; TStr (StoreDir (ConfJetstream c)); TClose;
   TStr "accounts"; TColon; TOpen; TStr "terminus"; TColon; TOpen;
   TStr "jetstream"; TColon; TBare "enabled"; TStr "users"; TColon; TBegin] ++
  concat (map user_tokens (Users c)) ++
  [TEnd; TClose; TClose; TStr "port"; TColon; TBare (itoa (Port c)); TStr "pid_file"; TColon; TStr (PidFile c);
   TStr "server_name"; TColon; TStr (ServerName c); TClose].
Lemma concat_str_app l l' : concat_str (l ++ l') = concat_str l +:+ concat_str l'.
Proof. induction l as [|a l IH]; [done|]. cbn [app]. by rewrite !concat_str_cons, IH, string_app_assoc. Qed.
Lemma says_string_line n k s : plain k -> plain s -> says (line n [quoted k; ": "; quoted s]) [TStr k; TColon; TStr s].
Proof. intros Hk Hs. by apply (says_key_line n k _ [TStr s]), lex_quoted. Qed.
Lemma says_conf c : plain_conf c -> says (renderConfigFile c) (conf_tokens c).
Proof.
  intros (Hd & Hpid & Hname & Hus). unfold renderConfigFile. rewrite !concat_str_app. apply says_app; [|apply says_app].
  - apply (says_concat [_; _; _; _; _; _; _; _; _; _; _]
      [[TOpen]; [TStr "http_port"; TColon; TBare (itoa (HTTPPort c))]; [TStr "jetstream"; TColon; TOpen];
       [TStr "max_file_store"; TColon; TBare (itoa (MaxFileStore (ConfJetstream c)))];
       [TStr "max_memory_store"; TColon; TBare (itoa (MaxMemoryStore (ConfJetstream c)))];
       [TStr "store_dir"; TColon; TStr (StoreDir (ConfJetstream c))]; [TClose];
       [TStr "accounts"; TColon; TOpen]; [TStr "terminus"; TColon; TOpen];
       [TStr "jetstream"; TColon; TBare "enabled"]; [TStr "users"; TColon; TBegin]]).
    repeat (apply Forall2_cons; split); first [by apply says_number | by apply says_string_line | done].
  - apply says_users. intros i u Hu. apply says_user. by rewrite Forall_forall in Hus; apply Hus.
  - apply (says_concat [_; _; _; _; _; _; _]
      [[TEnd]; [TClose]; [TClose]; [TStr "port"; TColon; TBare (itoa (Port c))]; [TStr "pid_file"; TColon; TStr (PidFile c)];
       [TStr "server_name"; TColon; TStr (ServerName c)]; [TClose]]).
    repeat (apply Forall2_cons; split); first [by apply says_number | by apply says_string_line | done].
Qed.

(** ** The values read *)

Lemma read_app st a b : read_tokens st (a ++ b) = (st' ← read_tokens st a; read_tokens st' b).
Proof. revert st. induction a as [|t a IH]; intros st; [done|]. cbn. destruct (read_token st t); cbn; [apply IH|done]. Qed.
Lemma read_names acc st l :
  read_tokens (InList acc :: st) (map TStr l) = Some (InList (acc ++ map VStr l) :: st).
Proof.
  revert acc. induction l as [|s l IH]; intros acc; cbn; [by rewrite app_nil_r|].
  by rewrite IH, <- app_assoc.
Qed.
Lemma read_allow fs k st l :
  read_tokens (AtValue fs k :: st) (allow_tokens l) = Some (InMap (fs ++ [(k, VList (map VStr l))]) :: st).
Proof. unfold allow_tokens. cbn. by rewrite read_app, read_names. Qed.
#[local] Arguments allow_tokens : simpl never.
Lemma read_user acc st u : read_tokens (InList acc :: st) (user_tokens u) = Some (InList (acc ++ [user_value u]) :: st).
Proof.
  unfold user_tokens. rewrite read_app.
  unfold user_value, password_token. unfold password_value in *. destruct (String.eqb (Username u) "admin"), (starts_dollar (Password u));
    cbn; rewrite read_app, read_allow; cbn; by rewrite read_app, read_allow.
Qed.
Lemma read_users acc st us :
  read_tokens (InList acc :: st) (concat (map user_tokens us)) = Some (InList (acc ++ map user_value us) :: st).
Proof.
  revert acc. induction us as [|u us IH]; intros acc; cbn [map concat]; [cbn; by rewrite app_nil_r|].
  rewrite read_app, read_user. cbn. by rewrite IH, <- app_assoc.
Qed.

Lemma render_read c : plain_conf c -> read_conf (renderConfigFile c) = Some (conf_value c).
Proof.
  intros Hc. unfold read_conf. rewrite (says_conf c Hc). unfold conf_tokens. rewrite !read_app. cbn.
  rewrite read_app, read_users. reflexivity.
Qed.

(** C38: The configuration file is read back as the configuration it was
    written for: the ports, the store, and for each user its name, its password
    (a hash as a bare word, the administrator's as the variable, any other text
    quoted), what it may publish and what it may subscribe to, in the order of
    the list.  Names and subjects must hold no quote and no backslash, hashes
    nothing that ends a bare word. *)
Theorem rendered_is_read c : plain_conf c -> read_conf (renderConfigFile c) = Some (conf_value c).
Proof. apply render_read. Qed.

(** ** The property on a concrete configuration *)

Definition demo_conf : Config :=
  mkConfig 8222 (mkJetstream 10737418240 1073741824 "/data/jetstream")
    [mkUser "admin" "" (mkPermissions [">"] [">"]);
     mkUser "files" "$2a$11$Dx8nq./KUlxPqW9Q" (mkPermissions ["os.files"; "_INBOX.>"] ["os.files.done"]);
     mkUser "plain" "secret" (mkPermissions [] [])]
    4222 "/var/run/nats/nats.pid" "nats-0".

Lemma rendered_is_read_witness :
  plain_conf demo_conf /\ read_conf (renderConfigFile demo_conf) = Some (conf_value demo_conf).
Proof.
  assert (H : plain_conf demo_conf).
  { unfold plain_conf, plain_user, plain. cbn. split_and!; repeat constructor. }
  split; [exact H|]. exact (rendered_is_read demo_conf H).
Defined.
