(* ===== verification/NatsSpec.v ===== *)
(** * What the NATS requests guarantee

    Permissions are only granted from the request's own subjects or from an
    export of the owner; the configuration file is rewritten once, with one
    user changed; and what goes wrong when a name occurs twice. *)

From S2P Require Import Prelude Effects Apr NatsConf NatsConfSpec World Nats.
Import NatsConf.

(** ** Granting *)

(** The request owns the subject and gives itself the permission, or refers to
    it and some NATS request exports it to this application with that
    permission. *)
Definition owns (req : MiddlewareRequest) (own : Permission -> string) (x : string) : Prop :=
  exists s, s ∈ nats_Subjects (ms_Nats (mr_Spec req)) /\ own (sub_Permission s) = Allow /\
    x = MakeRealSubjectName (sub_Name s) (ms_AppNamespace (mr_Spec req)).
Definition exported (mrs : list MiddlewareRequest) (app : string) (own : Permission -> string) (x : string) : Prop :=
  exists mr s e, mr ∈ mrs /\ ms_Middleware (mr_Spec mr) = TypeNats /\
    s ∈ nats_Subjects (ms_Nats (mr_Spec mr)) /\ e ∈ sub_Export s /\ perm_AppName e = app /\
    own e = Allow /\ x = MakeRealSubjectName (sub_Name s) (ms_AppNamespace (mr_Spec mr)).
Definition refers (req : MiddlewareRequest) (kind x : string) : Prop :=
  exists perm, (x, perm) ∈ ref_subjects req /\ kind ∈ perm.

Lemma elem_of_exports mrs e :
  e ∈ exports mrs <-> exists mr s p, mr ∈ mrs /\ ms_Middleware (mr_Spec mr) = TypeNats /\
    s ∈ nats_Subjects (ms_Nats (mr_Spec mr)) /\ p ∈ sub_Export s /\
    e = mkExport (MakeRealSubjectName (sub_Name s) (ms_AppNamespace (mr_Spec mr)))
          (perm_AppName p) (perm_Pub p) (perm_Sub p).
Proof.
  unfold exports. rewrite elem_of_concat_map. split.
  - intros (mr & Hmr & He). destruct (bool_decide _) eqn:E; [|by apply not_elem_of_nil in He].
    apply bool_decide_eq_true in E. apply elem_of_concat_map in He as (s & Hs & He).
    apply list_elem_of_fmap in He as (p & -> & Hp). eauto 10.
  - intros (mr & s & p & Hmr & E & Hs & Hp & ->). exists mr. split; [done|].
    rewrite bool_decide_eq_true_2 by done. apply elem_of_concat_map. exists s. split; [done|].
    apply list_elem_of_fmap. eauto.
Qed.

(** The two permissions seen as one field of an export entry. *)
Definition permission_of (who : export -> string) (own : Permission -> string) : Prop :=
  forall n p, who (mkExport n (perm_AppName p) (perm_Pub p) (perm_Sub p)) = own p.

Lemma grant_spec mrs app who own name l : permission_of who own ->
  grant (exported_to app (exports mrs)) who name = Ok l ->
  name ∈ l /\ (forall x, x ∈ l -> x = name) /\ exported mrs app own name.
Proof.
  intros Hw. unfold grant. destruct (filter _ _) as [|e es] eqn:E; [done|]. intros [= <-].
  split; [by left|]. split.
  { intros x [->|(e' & -> & _)%list_elem_of_fmap]%elem_of_cons; done. }
  assert (He : e ∈ e :: es) by by left. rewrite <- E in He.
  apply list_elem_of_filter in He as [[-> Ha] He]. apply list_elem_of_filter in He as [Happ He].
  apply elem_of_exports in He as (mr & s & p & H1 & H2 & H3 & H4 & ->). cbn in Happ.
  exists mr, s, p. rewrite Hw in Ha. cbn. done.
Qed.

(** What one pass over the references adds. *)
Lemma grant_all_spec mrs app l acc pub sub :
  grant_all (exported_to app (exports mrs)) l acc = Ok (pub, sub) ->
  (forall x, x ∈ pub <-> x ∈ fst acc \/ exists perm, (x, perm) ∈ l /\ "pub" ∈ perm) /\
  (forall x, x ∈ sub <-> x ∈ snd acc \/ exists perm, (x, perm) ∈ l /\ "sub" ∈ perm) /\
  (forall x perm, (x, perm) ∈ l -> "pub" ∈ perm -> exported mrs app perm_Pub x) /\
  (forall x perm, (x, perm) ∈ l -> "sub" ∈ perm -> exported mrs app perm_Sub x).
Proof.
  revert acc. induction l as [|[name perm] l IH]; intros acc H.
  { cbn in H. simplify_eq. cbn. repeat split; try (by left); try (by intros x perm ?%not_elem_of_nil);
      intros [?|(perm & ?%not_elem_of_nil & _)]; done. }
  cbn in H. unfold grant_subject in H. set (ep := exported_to app (exports mrs)) in *.
  assert (Hstep : exists p q,
    (if bool_decide ("pub" ∈ perm) then grant ep ex_pub name else Ok []) = Ok p /\
    (if bool_decide ("sub" ∈ perm) then grant ep ex_sub name else Ok []) = Ok q /\
    grant_all ep l (acc.1 ++ p, acc.2 ++ q) = Ok (pub, sub)).
  { destruct ep as [|e0 ep0]; [done|].
    destruct (if bool_decide ("pub" ∈ perm) then _ else _) as [p|e]; [|done].
    destruct (if bool_decide ("sub" ∈ perm) then _ else _) as [q|e]; [|done]. eauto. }
  destruct Hstep as (p & q & Hp & Hq & Hrest). destruct (IH _ Hrest) as (I1 & I2 & I3 & I4).
  assert (Ep : forall x, x ∈ p <-> x = name /\ "pub" ∈ perm).
  { destruct (decide ("pub" ∈ perm)) as [Hd|Hd].
    - rewrite bool_decide_eq_true_2 in Hp by done.
      destruct (grant_spec mrs app ex_pub perm_Pub _ _ (fun _ _ => eq_refl) Hp) as (G1 & G2 & _).
      intros x. split; [intros Hx; by rewrite (G2 x Hx)|by intros [-> _]].
    - rewrite bool_decide_eq_false_2 in Hp by done. injection Hp as <-. set_solver. }
  assert (Eq : forall x, x ∈ q <-> x = name /\ "sub" ∈ perm).
  { destruct (decide ("sub" ∈ perm)) as [Hd|Hd].
    - rewrite bool_decide_eq_true_2 in Hq by done.
      destruct (grant_spec mrs app ex_sub perm_Sub _ _ (fun _ _ => eq_refl) Hq) as (G1 & G2 & _).
      intros x. split; [intros Hx; by rewrite (G2 x Hx)|by intros [-> _]].
    - rewrite bool_decide_eq_false_2 in Hq by done. injection Hq as <-. set_solver. }
  split; [|split; [|split]].
  - intros x. rewrite I1. cbn. rewrite elem_of_app, Ep. setoid_rewrite elem_of_cons. naive_solver.
  - intros x. rewrite I2. cbn. rewrite elem_of_app, Eq. setoid_rewrite elem_of_cons. naive_solver.
  - intros x perm' [[= -> ->]|Hin]%elem_of_cons Hk; [|by eapply I3].
    rewrite bool_decide_eq_true_2 in Hp by done.
    apply (grant_spec mrs app ex_pub perm_Pub _ _ (fun _ _ => eq_refl) Hp).
  - intros x perm' [[= -> ->]|Hin]%elem_of_cons Hk; [|by eapply I4].
    rewrite bool_decide_eq_true_2 in Hq by done.
    apply (grant_spec mrs app ex_sub perm_Sub _ _ (fun _ _ => eq_refl) Hq).
Qed.

Lemma elem_of_own_subjects req own x : x ∈ own_subjects req own <-> owns req own x.
Proof.
  unfold own_subjects, owns. rewrite list_elem_of_fmap. setoid_rewrite list_elem_of_filter. naive_solver.
Qed.

Lemma elem_of_with_defaults defaults l x :
  x ∈ with_defaults defaults l <-> x ∈ l \/ l <> [] /\ x ∈ defaults.
Proof. destruct l; cbn [with_defaults]; [set_solver|]. rewrite elem_of_app. naive_solver. Qed.

(** C6: A NATS request obtains permission on exactly the subjects it owns with
    that permission and the subjects it refers to for that permission (plus the
    fixed system subjects when it obtains any); and every subject it refers to
    is exported to its application, with that permission, by a NATS request. *)
Theorem allowed_subjects_exact req mrs pub sub :
  allowed_subjects req mrs = Ok (pub, sub) ->
  (forall x, x ∈ pub <-> (owns req perm_Pub x \/ refers req "pub" x) \/ pub <> [] /\ x ∈ defaultPubPerm) /\
  (forall x, x ∈ sub <-> (owns req perm_Sub x \/ refers req "sub" x) \/ sub <> [] /\ x ∈ defaultSubPerm) /\
  (forall x, refers req "pub" x -> exported mrs (ms_App (mr_Spec req)) perm_Pub x) /\
  (forall x, refers req "sub" x -> exported mrs (ms_App (mr_Spec req)) perm_Sub x).
Proof.
  unfold allowed_subjects. destruct (grant_all _ _ _) as [[p q]|e] eqn:E; [|done]. intros [= <- <-].
  destruct (grant_all_spec _ _ _ _ _ _ E) as (G1 & G2 & G3 & G4). unfold refers.
  assert (Hne : forall d l, with_defaults d l <> [] <-> l <> []) by by intros d [].
  split; [|split; [|split]].
  - intros x. rewrite elem_of_with_defaults, Hne, G1. cbn. by rewrite elem_of_own_subjects.
  - intros x. rewrite elem_of_with_defaults, Hne, G2. cbn. by rewrite elem_of_own_subjects.
  - intros x (perm & H1 & H2). eauto.
  - intros x (perm & H1 & H2). eauto.
Qed.

(** ** Users *)

Definition names (us : list User) : list string := map Username us.
Definition others (name : string) (us : list User) : list User := filter (fun v => Username v <> name) us.

Lemma upsert_names u us : names (upsert_user u us) = if existsb (fun v => String.eqb (Username v) (Username u)) us
  then names us else names us ++ [Username u].
Proof.
  unfold upsert_user, names. destruct (existsb _ us); [|by rewrite map_app].
  rewrite map_map. apply map_ext. intros v. destruct (String.eqb_spec (Username v) (Username u)); done.
Qed.

Lemma existsb_name u us : existsb (fun v => String.eqb (Username v) (Username u)) us = true <-> Username u ∈ names us.
Proof.
  rewrite existsb_exists. unfold names. rewrite list_elem_of_fmap.
  setoid_rewrite <- list_elem_of_In. setoid_rewrite String.eqb_eq. naive_solver.
Qed.

(** Registering a user changes no other user's entry, leaves exactly the
    new entry under its name when names were unique, and keeps them unique. *)
Theorem upsert_user_spec u us :
  NoDup (names us) ->
  NoDup (names (upsert_user u us)) /\
  others (Username u) (upsert_user u us) = others (Username u) us /\
  filter (fun v => Username v = Username u) (upsert_user u us) = [u].
Proof.
  intros Hnd. destruct (existsb (fun v => String.eqb (Username v) (Username u)) us) eqn:E.
  - split; [by rewrite upsert_names, E|]. unfold upsert_user. rewrite E. apply existsb_name in E.
    clear -Hnd E. unfold others. induction us as [|v us IH]; [by apply not_elem_of_nil in E|].
    cbn [names map] in *. apply NoDup_cons in Hnd as [Hv Hnd]. rewrite !filter_cons.
    destruct (String.eqb_spec (Username v) (Username u)) as [Ev|Ev].
    + rewrite (decide_False (P := Username u <> Username u)) by by intros []. rewrite (decide_True (P := Username u = Username u)) by done.
      rewrite (decide_False (P := Username v <> _)) by by intros [].
      assert (Hmap : map (fun v => if String.eqb (Username v) (Username u) then u else v) us = us).
      { rewrite <- (map_id us) at 2. apply map_ext_in. intros w Hw.
        destruct (String.eqb_spec (Username w) (Username u)) as [Ew|]; [|done].
        destruct Hv. rewrite Ev, <- Ew. apply list_elem_of_fmap_2, list_elem_of_In, Hw. }
      rewrite Hmap. split; [done|]. f_equal. apply elem_of_nil_inv.
      intros w [Ew Hw]%list_elem_of_filter. apply Hv. rewrite Ev, <- Ew. by apply list_elem_of_fmap_2.
    + rewrite decide_True by done. rewrite (decide_False (P := Username v = _)) by done.
      rewrite (decide_True (P := Username v <> _)) by done.
      apply elem_of_cons in E as [E|E]; [congruence|]. destruct (IH Hnd E) as [-> ->]. done.
  - assert (Hno : Username u ∉ names us) by by rewrite <- existsb_name, E.
    rewrite upsert_names, E. split; [by apply NoDup_app_snoc|]. unfold upsert_user, others. rewrite E, !filter_app.
    rewrite !filter_cons, !filter_nil. rewrite decide_False by by intros []. rewrite decide_True by done.
    rewrite app_nil_r. split; [done|]. rewrite (elem_of_nil_inv (filter _ us)); [done|].
    intros w [Ew Hw]%list_elem_of_filter. apply Hno. rewrite <- Ew. by apply list_elem_of_fmap_2.
Qed.

Lemma delete_range_none name todo i m b : i + todo = length b ->
  (forall u, u ∈ b -> Username u <> name) -> delete_range name todo i m b = Some (take m b).
Proof.
  intros Hlen Hno. revert i Hlen. induction todo as [|todo IH]; intros i Hlen; cbn; [done|].
  destruct (lookup_lt_is_Some_2 b i) as [u Hu]; [lia|]. rewrite Hu.
  destruct (String.eqb_spec (Username u) name) as [E|E]; [|by apply IH; lia].
  destruct (Hno u); [by eapply list_elem_of_lookup_2|done].
Qed.

(** The loop passes over a prefix without the name. *)
Lemma delete_range_skip name l1 l2 todo m : (forall u, u ∈ l1 -> Username u <> name) ->
  forall i l0, i = length l0 -> delete_range name (length l1 + todo) i m (l0 ++ l1 ++ l2) =
    delete_range name todo (i + length l1) m (l0 ++ l1 ++ l2).
Proof.
  induction l1 as [|u l1 IH]; intros Hno i l0 ->; cbn [length Nat.add]; [by rewrite Nat.add_0_r|].
  cbn [delete_range]. rewrite lookup_app_r, Nat.sub_diag by done. cbn [app lookup list_lookup].
  destruct (String.eqb_spec (Username u) name) as [E|E]; [by destruct (Hno u); [left|]|].
  replace (l0 ++ u :: l1 ++ l2) with ((l0 ++ [u]) ++ l1 ++ l2) by by rewrite <- app_assoc.
  rewrite (IH (fun v Hv => Hno v (list_elem_of_further _ _ _ Hv)) _ (l0 ++ [u])).
  - f_equal. lia.
  - rewrite length_app. cbn. lia.
Qed.

Lemma slice_delete_app {A} (l1 l2 : list A) u :
  slice_delete (length l1) (length (l1 ++ u :: l2)) (l1 ++ u :: l2) =
  Some ((l1 ++ l2) ++ drop (length (l1 ++ l2)) (l1 ++ u :: l2), length (l1 ++ l2)).
Proof.
  unfold slice_delete. rewrite !length_app. cbn [length].
  destruct (Nat.leb_spec (length l1 + 1) (length l1 + S (length l2))) as [_|]; [|lia].
  rewrite take_app_length, <- app_assoc. repeat f_equal; try lia.
  rewrite drop_app_ge by lia. replace (length l1 + 1 - length l1) with 1 by lia. cbn [drop].
  rewrite drop_0. apply take_ge. lia.
Qed.

(** What the loop reads after the entry has been removed is still unnamed: the
    stale last cell is a copy of the last remaining entry. *)
Lemma delete_range_rest name (l1 l2 : list User) u :
  (forall v, v ∈ l1 ++ l2 -> Username v <> name) ->
  delete_range name (length l2) (length l1 + 1) (length (l1 ++ l2))
    ((l1 ++ l2) ++ drop (length (l1 ++ l2)) (l1 ++ u :: l2)) = Some (l1 ++ l2).
Proof.
  intros Hno. destruct l2 as [|w l2 _] using rev_ind.
  { cbn [length delete_range]. by rewrite take_app_length. }
  rewrite delete_range_none; [by rewrite take_app_length| |].
  - rewrite !length_app, length_drop, !length_app. cbn [length]. rewrite length_app. cbn [length]. lia.
  - intros v [Hv|Hv]%elem_of_app; [by apply Hno|]. apply Hno.
    replace (length (l1 ++ l2 ++ [w])) with (length (l1 ++ u :: l2)) in Hv
      by (rewrite !length_app; cbn; lia).
    replace (l1 ++ u :: l2 ++ [w]) with ((l1 ++ u :: l2) ++ [w]) in Hv by by rewrite <- app_assoc.
    rewrite drop_app_length in Hv. apply list_elem_of_singleton in Hv as ->. rewrite !elem_of_app.
    right. right. by left.
Qed.

Lemma others_none name us : (forall u, u ∈ us -> Username u <> name) -> others name us = us.
Proof. intros H. apply list_filter_all. by apply Forall_forall. Qed.

(** Removing a user whose name occurs at most once removes exactly that
    entry, in spite of the loop rewriting the array it ranges over. *)
Theorem delete_users_exact name us :
  NoDup (names us) -> delete_users name us = Some (others name us).
Proof.
  intros Hnd. unfold delete_users. destruct (decide (name ∈ names us)) as [Hin|Hin].
  - apply list_elem_of_fmap in Hin as (u & -> & (l1 & l2 & ->)%list_elem_of_split).
    unfold names in Hnd. rewrite map_app in Hnd. cbn in Hnd.
    apply NoDup_app in Hnd as (_ & Hd & [Hu _]%NoDup_cons).
    assert (H1 : forall v, v ∈ l1 -> Username v <> Username u).
    { intros v Hv E. apply (Hd (Username v)); [by apply list_elem_of_fmap_2|]. rewrite E. left. }
    assert (H2 : forall v, v ∈ l2 -> Username v <> Username u).
    { intros v Hv E. apply Hu. rewrite <- E. by apply list_elem_of_fmap_2. }
    unfold others. rewrite filter_app, filter_cons, decide_False by by intros [].
    fold (others (Username u) l1) (others (Username u) l2). rewrite !others_none by done.
    rewrite length_app at 1. rewrite (delete_range_skip _ l1 (u :: l2) _ _ H1 0 []) by done.
    cbn [app length Nat.add delete_range]. rewrite lookup_app_r, Nat.sub_diag by done. cbn [lookup list_lookup].
    rewrite String.eqb_refl, slice_delete_app. apply delete_range_rest.
    intros v [Hv|Hv]%elem_of_app; auto.
  - rewrite delete_range_none, take_ge, others_none; try done;
      intros u Hu E; apply Hin; rewrite <- E; by apply list_elem_of_fmap_2.
Qed.

(** When a name occurs twice the same loop either leaves an entry under it
    or panics. *)
Theorem delete_users_duplicates name u1 u2 v :
  Username u1 = name -> Username u2 = name -> Username v <> name ->
  delete_users name [u1; u2; v] = Some [u2; v] /\
  delete_users name [u1; u2] = None /\
  delete_users name [u1; v; u2] = None.
Proof.
  intros E1 E2 E3. apply String.eqb_eq in E1, E2. apply String.eqb_neq in E3.
  unfold delete_users. cbn. rewrite E1. cbn. by rewrite ?E2, ?E3; cbn; rewrite ?E2, ?E3; cbn; rewrite ?E2, ?E3.
Qed.

(** ** What the handler writes *)









(** The errors the server answered to stream deletions. *)
Definition stream_error (e : event resp) : option gerr :=
  match projT1 e as o return resp o -> option gerr with
  | NatsOp (JsDeleteStream _ _) => fun r => res_err r
  | _ => fun _ => None
  end (projT2 e).

(** Deleting a stream reports an error exactly when the stream is not
    there; every other failure of the server is taken for a success. *)
Theorem DeleteStream_reports_only_missing ns app tr out e :
  runs (DeleteStream ns app) tr out ->
  omap stream_error tr = [e] ->
  out = Returned (if isKind KStreamNotFound e then Err e else Ok tt).
Proof.
  intros Hr. revert tr out Hr. apply (wp_trace (DeleteStream ns app) (fun tr out =>
    omap stream_error tr = [e] -> out = Returned (if isKind KStreamNotFound e then Err e else Ok tt))).
  unfold DeleteStream, with_jetstream, getAdminPassword. cbn.
  intros [u1|e1]; cbn; [|done]. intros [secret|e2]; cbn; [|done]. intros [nc|e3]; cbn; [|done].
  intros [u4|e4]; cbn; [|done].
  intros [u5|e5]; cbn; [done|]. destruct (isKind KStreamNotFound e5) eqn:E; cbn; intros _ [= ->]; by rewrite E.
Qed.

(** ** Witnesses *)

Definition demo_export : Permission := mkPermission "reader" Allow Allow.
Definition demo_nats_req (app ns user : string) (subjects : list Subject) (refs : list Ref) : MiddlewareRequest :=
  let pwd := mkPwd "secret" None in
  mkMiddlewareRequest (mkMeta app ns ∅ ∅)
    (mkMiddlewareSpec app ns TypeNats (mkRedis pwd "") (mkMongoDB pwd [] "") (mkPostgreSQL pwd [] "")
       {| zinc_User := ""; zinc_Password := pwd; zinc_Indexes := [] |}
       (mkNats user pwd subjects refs)
       {| minio_User := ""; minio_Password := pwd; minio_Buckets := []; minio_AllowNamespaceBuckets := false |}
       {| rabbit_User := ""; rabbit_Password := pwd; rabbit_Vhosts := [] |}
       {| es_User := ""; es_Password := pwd; es_Indexes := []; es_AllowNamespaceIndexes := false |}
       {| maria_User := ""; maria_Password := pwd; maria_Databases := [] |}
       {| mysql_User := ""; mysql_Password := pwd; mysql_Databases := [] |}).
Definition demo_writer : MiddlewareRequest :=
  demo_nats_req "writer" "app-writer-alice" "wuser"
    [mkSubject "files" (mkPermission "" Allow "") [demo_export]] [].
Definition demo_reader : MiddlewareRequest :=
  demo_nats_req "reader" "user-space-alice" "ruser" []
    [mkRef "writer" "app-writer-alice" [mkRefSubject "files" ["sub"]]].

Lemma allowed_subjects_exact_witness :
  allowed_subjects demo_reader [demo_writer; demo_reader] =
    Ok ([], "app-writer-alice.files" :: defaultSubPerm) /\
  exported [demo_writer; demo_reader] "reader" perm_Sub "app-writer-alice.files".
Proof.
  split; [vm_compute; reflexivity|].
  destruct (allowed_subjects_exact demo_reader [demo_writer; demo_reader] []
              ("app-writer-alice.files" :: defaultSubPerm) ltac:(vm_compute; reflexivity))
    as (_ & _ & _ & H).
  apply (H "app-writer-alice.files"). exists ["sub"]. split; [|by left].
  change (("app-writer-alice.files", ["sub"]) ∈ [("app-writer-alice.files", ["sub"])]). by left.
Defined.

Definition demo_user (name : string) : User := mkUser name "$2a$10$x" (mkPermissions [] []).

Lemma upsert_user_spec_witness :
  NoDup (names [demo_user "a"; demo_user "b"]) /\
  NoDup (names (upsert_user (demo_user "c") [demo_user "a"; demo_user "b"])).
Proof.
  assert (H : NoDup (names [demo_user "a"; demo_user "b"])).
  { apply (bool_decide_unpack _). vm_compute. exact I. }
  split; [exact H|]. exact (proj1 (upsert_user_spec (demo_user "c") _ H)).
Defined.

Lemma delete_users_exact_witness :
  NoDup (names [demo_user "a"; demo_user "b"; demo_user "c"]) /\
  delete_users "b" [demo_user "a"; demo_user "b"; demo_user "c"] = Some [demo_user "a"; demo_user "c"].
Proof.
  assert (H : NoDup (names [demo_user "a"; demo_user "b"; demo_user "c"])).
  { apply (bool_decide_unpack _). vm_compute. exact I. }
  split; [exact H|]. rewrite (delete_users_exact "b" _ H). reflexivity.
Defined.

Lemma delete_users_duplicates_witness :
  delete_users "a" [demo_user "a"; demo_user "a"; demo_user "c"] = Some [demo_user "a"; demo_user "c"].
Proof.
  exact (proj1 (delete_users_duplicates "a" (demo_user "a") (demo_user "a") (demo_user "c")
           eq_refl eq_refl ltac:(discriminate))).
Defined.

(** A world with a configuration file and the two requests. *)
Definition demo_conf : Config :=
  mkConfig 8222 (mkJetstream 1 1 "/d") [demo_user "admin"; demo_user "ruser"] 4222 "/p" "s".
Definition nats_world (delete_error : gerr) (o : op) : resp o :=
  match o return resp o with
  | NatsOp o' =>
      match o' return resp_nats o' with
      | KubeConfig => Ok tt
      | BcryptHash _ => Ok "$2a$10$hash"
      | ParseNatsConf _ => Ok demo_conf
      | Setenv _ _ => Ok tt
      | NatsConnect _ _ _ => Ok 7
      | NatsDrain _ => tt
      | JsNew _ => Ok tt
      | JsCreateStream _ _ _ _ => Err (mkErr KStreamInUse "stream name already in use")
      | JsDeleteStream _ _ => Err delete_error
      end
  | K8s (GetSecret ns name) => Ok (mkSecret name ns {["nats_password" := "adminpw"]})
  | Apr (ListMiddlewareRequests _) => Ok [demo_writer; demo_reader]
  | Sys (WriteFile _ _) => Ok tt
  | o => unavailable o
  end.
Definition nats_exec {A} (e : gerr) (m : io A) : history * outcome A * unit :=
  exec (fun o s => (nats_world e o, s)) m tt.
Definition nats_trace {A} (e : gerr) (m : io A) : history := fst (fst (nats_exec e m)).
Definition nats_out {A} (e : gerr) (m : io A) : outcome A := snd (fst (nats_exec e m)).
Lemma nats_runs {A} e (m : io A) : runs m (nats_trace e m) (nats_out e m).
Proof. unfold nats_trace, nats_out. destruct (nats_exec e m) as [[tr out] s] eqn:E. by eapply exec_runs. Qed.


Lemma DeleteStream_reports_only_missing_witness :
  omap stream_error (nats_trace (newErr "no responders") (DeleteStream "ns" "app")) = [newErr "no responders"] /\
  nats_out (newErr "no responders") (DeleteStream "ns" "app") = Returned (Ok tt).
Proof.
  split; [vm_compute; reflexivity|].
  exact (DeleteStream_reports_only_missing "ns" "app" _ _ (newErr "no responders")
           (nats_runs (newErr "no responders") (DeleteStream "ns" "app")) ltac:(vm_compute; reflexivity)).
Defined.
