(* ===== verification/PgCluster.v ===== *)
(** * Reconciling a PostgreSQL cluster:
    [src/cmd/middleware/operator/pgcluster/handler.go] *)

From S2P Require Import Prelude Effects Apr World Postgres Citus PgRequest.

(** ** Changing the administrator *)

(** The environment written back: a literal is set next to whatever source the
    variable already has, and a source next to whatever literal it has. *)
Definition patch_env (spec : PGClusterSpec) (e : EnvVar) : EnvVar :=
  if String.eqb (env_Name e) "POSTGRES_USER" then mkEnv (env_Name e) (pgs_AdminUser spec) (env_ValueFrom e)
  else if String.eqb (env_Name e) "POSTGRES_PASSWORD" then
    match pv_ValueFrom (pgs_Password spec) with
    | Some src => mkEnv (env_Name e) (env_Value e) (Some (FromSecret (pvs_SecretKeyRef src)))
    | None => if String.eqb (pv_Value (pgs_Password spec)) "" then e
              else mkEnv (env_Name e) (pv_Value (pgs_Password spec)) (env_ValueFrom e)
    end
  else e.

Definition patch_sts (spec : PGClusterSpec) (sts : StatefulSet) : StatefulSet :=
  let t := sts_Template sts in
  mkSts (sts_meta sts) (sts_Replicas sts)
    (with_containers t (map_postgres_env (patch_env spec) (pt_Containers t))).

Definition pod_name (sts : StatefulSet) (i : Z) : string := sts_Name sts +:+ "-" +:+ itoa i.

(** One node, through the administrator still in force. *)
Definition change_admin_on_node (sts : StatefulSet) (olduser oldpwd newuser newpwd : string) (i : Z)
  : io (res unit) :=
  let? ip := WaitForPodRunning (sts_Namespace sts) (pod_name sts i) in
  let? pgclient := Build (NewClientBuidler olduser oldpwd ip PG_PORT) in
  let! r := ChangeAdminUser pgclient olduser newuser newpwd in
  do! Close pgclient;
  Ret r.

(** The stateful set after the change; its caller goes on with it. *)
Definition update_admin (newCluster : bool) (sts : StatefulSet) (cluster : PGCluster)
    (olduser oldpwd : string) : io (res StatefulSet) :=
  let? newpwd := GetPGClusterDefinedPassword (sts_Namespace sts) cluster in
  let sts' := if newCluster then sts else patch_sts (pgc_Spec cluster) sts in
  do? (if newCluster then Ret (Ok tt)
       else let? _ := k8s_call (UpdateStatefulSet (sts_Namespace sts') sts') in Ret (Ok tt));
  let! all := nodes sts' 0 in
  do? for_each (change_admin_on_node sts' olduser oldpwd (pgs_AdminUser (pgc_Spec cluster)) newpwd) all;
  Ret (Ok sts').

(** ** Scaling up *)

(** One distributed database on one new node, under its name in the request. *)
Definition sync_db_on_node (sts : StatefulSet) (admin pwd : string) (b : PgTarget)
    (req : MiddlewareRequest) (db : CitusDatabase) (i : Z) : io (res unit) :=
  let? ip := WaitForPodRunning (sts_Namespace sts) (pod_name sts i) in
  with_client (NewClientBuidler admin pwd ip PG_PORT)
    (cbind (lift (fun _ => GetVarValue (pg_Password (ms_PostgreSQL (mr_Spec req))) (mr_Namespace req)))
       (fun userpwd =>
     cbind (lift (fun c => CreateOrUpdateUser c (pg_user req) userpwd)) (fun _ =>
     cbind (lift (fun c => CreateDatabaseIfNotExists c (cdb_Name db) (pg_user req))) (fun _ =>
     cbind (fun c => SwitchDatabase c (cdb_Name db)) (fun _ =>
     cbind (lift CreateCitus) (fun _ =>
     lift (fun _ =>
       let? masterClient := Build (WithDatabase b (cdb_Name db)) in
       let! r := AddWorkerNode masterClient (node_host sts i) PG_PORT in
       do! Close masterClient;
       Ret r))))))).

(** A distributed database on all the new nodes, then rebalanced. *)
Definition sync_db (sts : StatefulSet) (admin pwd : string) (b : PgTarget) (from upto : Z)
    (req : MiddlewareRequest) (db : CitusDatabase) : io (res unit) :=
  if IsDistributed db then
    do? for_each (sync_db_on_node sts admin pwd b req db) (int_range from upto);
    let? masterClient := Build (WithDatabase b (cdb_Name db)) in
    let! r := Rebalance masterClient in
    do! Close masterClient;
    Ret r
  else Ret (Ok tt).

Definition scale_up (sts : StatefulSet) (cluster : PGCluster) (from : Z) : io (res unit) :=
  let? pwd := GetPGClusterDefinedPassword (sts_Namespace sts) cluster in
  let admin := pgs_AdminUser (pgc_Spec cluster) in
  let upto := pgs_Replicas (pgc_Spec cluster) in
  let? effected := ScalePGClusterNodes (sts_Namespace sts) upto admin pwd in
  if (0 <? effected)%Z then
    let b := NewClientBuidler admin pwd (PG_MASTER_HOST +:+ "." +:+ sts_Namespace sts) PG_PORT in
    let? requests := apr_call (LookupMiddlewareRequests (sts_Namespace sts)) in
    for_each (fun req =>
      if bool_decide (ms_Middleware (mr_Spec req) = TypePostgreSQL)
      then for_each (sync_db sts admin pwd b from upto req) (pg_dbs req)
      else Ret (Ok tt)) requests
  else Ret (Ok tt).

(** ** The handler *)

(** The second half, for a cluster that is defined and has its set. *)
Definition reconcile (newCluster : bool) (sts : StatefulSet) (cluster : PGCluster) : io (res unit) :=
  let? must := MustUpdateClusterAdminUser (sts_Namespace sts) sts cluster in
  let? sts := match must with
              | Some (olduser, oldpwd) => update_admin newCluster sts cluster olduser oldpwd
              | None => Ret (Ok sts)
              end in
  do! (if newCluster then PGClusterRecreated else Ret tt);
  let! replicas := deref (sts_Replicas sts) in
  if (pgs_Replicas (pgc_Spec cluster) =? replicas)%Z then Ret (Ok tt)
  else scale_up sts cluster replicas.

(** [obj] is [None] when the queue held something else than a cluster.  The
    action does not matter: the API server is asked for the current state. *)
Definition pgcluster_handler (obj : option PGCluster) : io (res unit) :=
  match obj with
  | None => Ret (Err (newErr "invalid object"))
  | Some cluster =>
      let namespace := om_Namespace (pgc_meta cluster) in
      let? currentCluster := found (apr_call (GetPGCluster namespace (om_Name (pgc_meta cluster)))) in
      let? currentSts := found (k8s_call (GetStatefulSet namespace PGClusterName)) in
      match currentCluster, currentSts with
      | None, Some _ => k8s_call (DeleteStatefulSet namespace PGClusterName)
      | None, None => Ret (Ok tt)
      | Some cc, None =>
          let? (sts, cc) := CreatePGClusterForUser (pgs_Owner (pgc_Spec cc)) cc in
          reconcile true sts cc
      | Some cc, Some sts =>
          let? cc := default_admin namespace cc in
          reconcile false sts cc
      end
  end.
