(* ===== verification/PgClusterSpec.v ===== *)
(** * What reconciling a PostgreSQL cluster achieves

    The administrator is changed on every node, new nodes receive every
    distributed database, connections are closed, and the set is only deleted
    for a cluster that is no longer defined. *)

From S2P Require Import Prelude Effects Apr World Postgres Citus PgRequest PgMonitor PgRequestSpec PgCluster.

(** ** Waiting for a pod *)

Lemma WaitFor_ok {A} n (cond : io (res (option A))) (Q : pgstate -> A -> Prop) s :
  (forall s', pg_le s s' -> okwp cond (fun s'' o => forall a, o = Some a -> Q s'' a) s') ->
  okwp (WaitFor n cond) Q s.
Proof.
  revert s. induction n as [|n IH]; intros s Hc; cbn [WaitFor]; [done|].
  apply okwp_bind_ok. intros [u|e]; cbn [sys_call call wp]; [|done].
  apply okwp_bind_ok. eapply okwp_mono; [|by apply Hc]. cbn beta.
  intros s1 [a|] Hle HQ; [by apply HQ|]. apply IH. intros s2 Hle2. apply Hc. by etransitivity.
Qed.

(** The pod an address was taken from. *)
Definition pod_seen (ns name ip : string) (s : pgstate) : Prop :=
  exists p, SawPod ns name p ∈ facts s /\ pod_ready "postgres" p = true /\ pod_IP p = ip.

Lemma pod_seen_le ns name ip s s' : pg_le s s' -> pod_seen ns name ip s -> pod_seen ns name ip s'.
Proof. intros Hle (p & H1 & H2). exists p. split; [by apply Hle|done]. Qed.

Lemma WaitForPodRunning_ok ns name s :
  okwp (WaitForPodRunning ns name) (fun s' ip => pod_seen ns name ip s') s.
Proof.
  unfold WaitForPodRunning, PollImmediate. intros []. cbn [sys_call call wp].
  assert (Hcond : forall s', okwp (let? pod := k8s_call (GetPod ns name) in
     if pod_ready "postgres" pod then do! sys_call (Sleep 5); Ret (Ok (Some (pod_IP pod))) else Ret (Ok None))
     (fun s'' o => forall a, o = Some a -> pod_seen ns name a s'') s').
  { intros s' [p|e]; cbn; [|done]. destruct (pod_ready "postgres" p) eqn:E; cbn; [|done].
    intros _ a [= <-]. exists p. split; [apply add_fact_in|done]. }
  apply okwp_bind_ok. eapply okwp_mono; [|apply Hcond]. cbn beta.
  intros s1 [a|] _ HQ; [by apply HQ|]. apply WaitFor_ok. auto.
Qed.

(** ** Changing the administrator *)

Definition admin_ready (t : PgTarget) (olduser newuser newpwd : string) (s : pgstate) : Prop :=
  (executed t (create_admin_sql newuser newpwd) s \/ executed t (alter_admin_sql newuser newpwd) s) /\
  (olduser <> newuser -> executed t (demote_sql olduser) s).

Lemma admin_ready_le t o n p s s' : pg_le s s' -> admin_ready t o n p s -> admin_ready t o n p s'.
Proof. intros Hle [[H|H] Hd]; split; eauto with pg. Qed.

Lemma ChangeAdminUser_ok c olduser newuser newpwd s :
  live c s ->
  okwp (ChangeAdminUser c olduser newuser newpwd)
    (fun s' _ => live c s' /\ admin_ready (cl_builder c) olduser newuser newpwd s') s.
Proof.
  intros Hl. apply okwp_bind_ok. eapply okwp_mono; [|by apply NamedQuery_ok].
  intros s1 rows _ [Hl1 _]. apply close_rows_ok. pg_exec Hl1 He1 Hle1.
  assert (Hadm : executed (cl_builder c) (create_admin_sql newuser newpwd) s' \/
                 executed (cl_builder c) (alter_admin_sql newuser newpwd) s').
  { destruct (rows_data rows); auto. }
  destruct (String.eqb_spec olduser newuser) as [->|Hne]; cbn [negb].
  - split; [done|]. split; [done|]. by intros [].
  - eapply okwp_mono; [|by apply ExecContext_ok]. intros s3 _ Hle3 [Hl3 Hd].
    split; [done|]. split; [|done]. destruct Hadm; eauto with pg.
Qed.

(** A client that is closed whatever its one operation answers. *)
Lemma build_run_close_ok {A} b (f : client -> io (res A)) (Q : pgstate -> A -> Prop) s :
  (forall c s', live c s' -> cl_builder c = b -> pg_le s s' ->
     okwp (f c) (fun s'' a => forall s3, facts s3 = facts s'' -> Q s3 a) s') ->
  okwp (let? c := Build b in let! r := f c in do! Close c; Ret r) Q s.
Proof.
  intros H. apply okwp_bind_ok, Build_ok. intros conn. unfold okwp. rewrite wp_bind.
  eapply wp_mono; [|apply H].
  - cbn. intros s' [[a|e]|w] HQ; cbn; [|done..]. intros _. by apply HQ.
  - unfold live. cbn. apply lookup_insert_eq.
  - done.
  - by intros f' Hf.
Qed.

Definition admin_changed_on (sts : StatefulSet) (olduser oldpwd newuser newpwd : string) (i : Z) (s : pgstate)
  : Prop :=
  exists ip, pod_seen (sts_Namespace sts) (pod_name sts i) ip s /\
    admin_ready (NewClientBuidler olduser oldpwd ip PG_PORT) olduser newuser newpwd s.

Lemma admin_changed_on_le sts o op n np i s s' : pg_le s s' ->
  admin_changed_on sts o op n np i s -> admin_changed_on sts o op n np i s'.
Proof.
  intros Hle (ip & H1 & H2). exists ip. eauto using pod_seen_le, admin_ready_le.
Qed.

Lemma change_admin_on_node_ok sts olduser oldpwd newuser newpwd i s :
  okwp (change_admin_on_node sts olduser oldpwd newuser newpwd i)
    (fun s' _ => admin_changed_on sts olduser oldpwd newuser newpwd i s') s.
Proof.
  apply okwp_bind_ok. eapply okwp_mono; [|apply WaitForPodRunning_ok]. intros s1 ip _ Hpod.
  apply build_run_close_ok. intros c s2 Hl Hb Hle2.
  eapply okwp_mono; [|by apply ChangeAdminUser_ok]. intros s3 _ Hle3 [_ Ha] s4 Hf.
  assert (Hle : pg_le s3 s4) by by intros f; rewrite Hf.
  exists ip. rewrite Hb in Ha. split; [|by eapply admin_ready_le].
  eapply pod_seen_le; [|exact Hpod]. do 2 (etransitivity; [eassumption|]). done.
Qed.

(** A literal password in the definition is the one used. *)
Definition defined_password (cluster : PGCluster) (pwd : string) : Prop :=
  let v := pv_Value (pgs_Password (pgc_Spec cluster)) in v <> "" -> pwd = v.

Lemma DefinedPassword_ok ns cluster s :
  okwp (GetPGClusterDefinedPassword ns cluster) (fun _ pwd => defined_password cluster pwd) s.
Proof.
  unfold GetPGClusterDefinedPassword, GetVarValue, defined_password.
  destruct (String.eqb_spec (pv_Value (pgs_Password (pgc_Spec cluster))) "") as [->|Hne]; cbn [negb].
  - eapply okwp_mono; [|apply okwp_true]. by intros s' a _ _ [].
  - unfold okwp. cbn. auto.
Qed.

Lemma update_admin_ok newCluster sts cluster olduser oldpwd s :
  okwp (update_admin newCluster sts cluster olduser oldpwd)
    (fun s' sts' => exists n newpwd, sts_Replicas sts' = Some n /\ sts_Replicas sts' = sts_Replicas sts /\
      defined_password cluster newpwd /\
      forall i, (0 <= i < n)%Z ->
        admin_changed_on sts' olduser oldpwd (pgs_AdminUser (pgc_Spec cluster)) newpwd i s') s.
Proof.
  apply okwp_bind_ok. eapply okwp_mono; [|apply DefinedPassword_ok]. intros s1 newpwd _ Hpwd. cbv zeta.
  set (sts1 := if newCluster then sts else _).
  assert (Hsame : sts_Replicas sts1 = sts_Replicas sts) by by subst sts1; destruct newCluster.
  apply okwp_bind_ok. eapply okwp_mono; [|apply okwp_true]. intros s2 _ _ _.
  unfold nodes. destruct (sts_Replicas sts1) as [n|] eqn:En; cbn -[for_each bind_ok]; [|done].
  apply okwp_bind_ok.
  eapply okwp_mono; [|apply (okwp_for_each _ (fun i s' =>
    admin_changed_on sts1 olduser oldpwd (pgs_AdminUser (pgc_Spec cluster)) newpwd i s'))].
  - cbn beta. intros s3 _ _ Hall. cbn. exists n, newpwd. split; [done|]. split; [congruence|]. split; [done|].
    intros i Hi. apply Hall. by apply elem_of_int_range.
  - intros i s3 s4. apply admin_changed_on_le.
  - intros i s3 _. apply change_admin_on_node_ok.
Qed.

(** C14: A successful change of the administrator reaches every node of the
    set: on each, connected to its pod as the old administrator, the new one
    has been made (or altered to be) superuser with one password (the literal of
    the definition when it has one), and a different old one has been demoted; the set returned has
    the same replicas. *)
Theorem update_admin_everywhere newCluster sts cluster olduser oldpwd tr sts' :
  runs (update_admin newCluster sts cluster olduser oldpwd) tr (Returned (Ok sts')) ->
  exists n newpwd, sts_Replicas sts' = Some n /\ sts_Replicas sts' = sts_Replicas sts /\
    defined_password cluster newpwd /\
    forall i, (0 <= i < n)%Z ->
      admin_changed_on sts' olduser oldpwd (pgs_AdminUser (pgc_Spec cluster)) newpwd i (pg_watch tr).
Proof. apply (okwp_runs _ _ _ _ (update_admin_ok _ _ _ _ _ _)). Qed.

(** ** Scaling up *)

(** A distributed database on one new node: the role, the database under the
    name the request gives it, citus, and the node registered on the master. *)
Definition synced_on (sts : StatefulSet) (admin pwd : string) (b : PgTarget) (req : MiddlewareRequest)
    (db : CitusDatabase) (i : Z) (s : pgstate) : Prop :=
  exists ip, let t := NewClientBuidler admin pwd ip PG_PORT in
    pod_seen (sts_Namespace sts) (pod_name sts i) ip s /\
    (exists userpwd, role_ready t (pg_user req) userpwd s) /\
    db_present t (cdb_Name db) (pg_user req) s /\
    executed (WithDatabase t (cdb_Name db)) create_citus_sql s /\
    exists rows, answered (WithDatabase b (cdb_Name db)) add_node_sql (node_args (node_host sts i) PG_PORT) rows s.

Definition synced (sts : StatefulSet) (admin pwd : string) (b : PgTarget) (from upto : Z)
    (req : MiddlewareRequest) (db : CitusDatabase) (s : pgstate) : Prop :=
  (forall i, (from <= i < upto)%Z -> synced_on sts admin pwd b req db i s) /\
  executed (WithDatabase b (cdb_Name db)) "select citus_rebalance_start()" s.

Lemma synced_on_le sts admin pwd b req db i s s' : pg_le s s' ->
  synced_on sts admin pwd b req db i s -> synced_on sts admin pwd b req db i s'.
Proof.
  intros Hle (ip & H1 & (u & H2) & H3 & H4 & rows & H5). exists ip.
  split; [by eapply pod_seen_le|]. split; [exists u; by eapply role_ready_le|].
  split; [by eapply db_present_le|]. split; [by eapply executed_le|]. exists rows. by eapply answered_le.
Qed.

Lemma synced_le sts admin pwd b from upto req db s s' : pg_le s s' ->
  synced sts admin pwd b from upto req db s -> synced sts admin pwd b from upto req db s'.
Proof. intros Hle [H1 H2]. split; [eauto using synced_on_le|by eapply executed_le]. Qed.

(** Resolving a password does not touch the connection. *)
Lemma GetVarValue_live p ns c s : live c s -> okwp (GetVarValue p ns) (fun s' _ => live c s') s.
Proof.
  intros Hl. unfold GetVarValue, okwp. repeat case_match; cbn; try done.
  destruct (pvs_SecretKeyRef _); cbn; [|done]. by intros [sec|e]; cbn.
Qed.

(** An operation on a connection of its own keeps another one open, when the
    server does not hand out the handle twice: only what it records matters. *)
Lemma register_on_master_ok b db sts i s :
  okwp (let? masterClient := Build (WithDatabase b db) in
        let! r := AddWorkerNode masterClient (node_host sts i) PG_PORT in
        do! Close masterClient;
        Ret r)
    (fun s' _ => exists rows, answered (WithDatabase b db) add_node_sql (node_args (node_host sts i) PG_PORT) rows s') s.
Proof.
  apply build_run_close_ok. intros c s1 Hl Hb _. eapply okwp_mono; [|by apply AddWorkerNode_ok].
  intros s2 _ _ [_ [rows Ha]] s3 Hf. exists rows. unfold answered. rewrite Hf. by rewrite Hb in Ha.
Qed.

Lemma sync_db_on_node_ok sts admin pwd b req db i s :
  okwp (sync_db_on_node sts admin pwd b req db i)
    (fun s' _ => synced_on sts admin pwd b req db i s') s.
Proof.
  apply okwp_bind_ok. eapply okwp_mono; [|apply WaitForPodRunning_ok]. intros s1 ip _ Hpod.
  set (t := NewClientBuidler admin pwd ip PG_PORT).
  apply with_client_ok. intros c s2 Hl Hb Hle2.
  apply cwp_bind, cwp_lift. eapply okwp_mono; [|by apply GetVarValue_live].
  intros s3 userpwd Hle3 Hl3. apply cwp_bind.
  eapply cwp_mono; [|apply (cwp_lift_on _ t); [by split|by apply CreateOrUpdateUser_ok]].
  cbn beta. intros c4 _ s4 Hle4 [Hon4 Hrole]. apply cwp_bind.
  eapply cwp_mono; [|apply (cwp_lift_on _ t); [exact Hon4|apply CreateDatabaseIfNotExists_ok, Hon4]].
  cbn beta. intros c5 _ s5 Hle5 [Hon5 Hdb]. apply cwp_bind.
  eapply cwp_mono; [|apply SwitchDatabase_ok].
  cbn beta. intros c6 _ s6 Hle6 [Hl6 Hb6].
  assert (Hon6 : on (WithDatabase t (cdb_Name db)) c6 s6).
  { split; [done|]. destruct Hon5 as [_ Hb5]. by rewrite Hb6, Hb5. }
  apply cwp_bind.
  eapply cwp_mono; [|apply (cwp_lift_on _ (WithDatabase t (cdb_Name db))); [exact Hon6|apply ExecContext_ok, Hon6]].
  cbn beta. intros c7 _ s7 Hle7 [Hon7 Hcitus]. apply cwp_lift.
  eapply okwp_mono; [|apply register_on_master_ok].
  intros s8 _ Hle8 [rows Hadd] s9 Hf9. assert (Hle9 : pg_le s8 s9) by by intros f; rewrite Hf9.
  destruct Hon4 as [_ Hb4], Hon6 as [_ Hb6']. rewrite Hb in Hrole. rewrite Hb4 in Hdb. rewrite Hb6' in Hcitus.
  assert (Hle19 : forall s0, pg_le s0 s8 -> pg_le s0 s9) by by intros; etransitivity.
  exists ip. fold t. split; [|split; [|split; [|split]]].
  - eapply pod_seen_le; [|exact Hpod]. apply Hle19. do 6 (etransitivity; [eassumption|]). done.
  - exists userpwd. eapply role_ready_le; [|exact Hrole]. apply Hle19. do 3 (etransitivity; [eassumption|]). done.
  - eapply db_present_le; [|exact Hdb]. apply Hle19. do 2 (etransitivity; [eassumption|]). done.
  - eapply executed_le; [|exact Hcitus]. by apply Hle19.
  - exists rows. by eapply answered_le.
Qed.

Lemma sync_db_ok sts admin pwd b from upto req db s :
  okwp (sync_db sts admin pwd b from upto req db)
    (fun s' _ => IsDistributed db = true -> synced sts admin pwd b from upto req db s') s.
Proof.
  unfold sync_db. destruct (IsDistributed db); [|done].
  apply okwp_bind_ok. eapply okwp_mono; [|apply (okwp_for_each _ (fun i s' => synced_on sts admin pwd b req db i s'))].
  - cbn beta. intros s1 _ Hle Hall. apply build_run_close_ok. intros c s2 Hl Hb Hle2.
    eapply okwp_mono; [|by apply ExecContext_ok]. intros s3 _ Hle3 [_ He] s4 Hf _.
    assert (Hle4 : pg_le s3 s4) by by intros f; rewrite Hf. split.
    + intros i Hi. eapply synced_on_le; [|apply Hall; by apply elem_of_int_range].
      do 2 (etransitivity; [eassumption|]). done.
    + rewrite Hb in He. by eapply executed_le.
  - intros i s1 s2. apply synced_on_le.
  - intros i s1 _. apply sync_db_on_node_ok.
Qed.

(** What a successful [scale_up] has done with the requests of the lister. *)
Definition scaled (sts : StatefulSet) (cluster : PGCluster) (from : Z) (s : pgstate) : Prop :=
  exists pwd reqs,
    let b := NewClientBuidler (pgs_AdminUser (pgc_Spec cluster)) pwd (PG_MASTER_HOST +:+ "." +:+ sts_Namespace sts) PG_PORT in
    SawRequests (sts_Namespace sts) reqs ∈ facts s /\
    forall req db, req ∈ reqs -> ms_Middleware (mr_Spec req) = TypePostgreSQL -> db ∈ pg_dbs req ->
      IsDistributed db = true ->
      synced sts (pgs_AdminUser (pgc_Spec cluster)) pwd b from (pgs_Replicas (pgc_Spec cluster)) req db s.

Lemma ScalePGClusterNodes_ok ns replicas admin pwd s :
  okwp (ScalePGClusterNodes ns replicas admin pwd)
    (fun s' effected => exists k, SawScale ns PGClusterName k ∈ facts s' /\ effected = (replicas - k)%Z /\ (k <= replicas)%Z) s.
Proof.
  unfold ScalePGClusterNodes. intros [sc|e]; cbn [k8s_call call wp bind]; [|done].
  set (s1 := pg_step _ _). assert (H1 : SawScale ns PGClusterName (sc_Replicas sc) ∈ facts s1) by apply add_fact_in.
  clearbody s1. destruct (Z.eqb_spec (replicas - sc_Replicas sc) 0) as [E|E].
  { exists (sc_Replicas sc). split; [done|]. lia. }
  destruct (Z.ltb_spec (replicas - sc_Replicas sc) 0) as [E'|E']; [done|].
  fold (@bind_ok op resp Scale Z).
  apply (okwp_mono _ (fun _ effected => effected = (replicas - sc_Replicas sc)%Z)).
  { intros s2 eff Hle ->. exists (sc_Replicas sc). split; [by apply Hle|]. lia. }
  apply okwp_bind_ok. eapply okwp_mono; [|apply okwp_true]. intros s2 _ _ _.
  apply okwp_bind_ok. eapply okwp_mono; [|apply okwp_true]. by intros s3 _ _ _.
Qed.

Definition scale_outcome (sts : StatefulSet) (cluster : PGCluster) (from : Z) (s : pgstate) : Prop :=
  exists k, SawScale (sts_Namespace sts) PGClusterName k ∈ facts s /\
    (k = pgs_Replicas (pgc_Spec cluster) \/
     (k < pgs_Replicas (pgc_Spec cluster))%Z /\ scaled sts cluster from s).

Lemma scale_up_ok sts cluster from s :
  okwp (scale_up sts cluster from) (fun s' _ => scale_outcome sts cluster from s') s.
Proof.
  apply okwp_bind_ok. eapply okwp_mono; [|apply okwp_true]. intros s1 pwd _ _. cbv zeta.
  apply okwp_bind_ok. eapply okwp_mono; [|apply ScalePGClusterNodes_ok].
  intros s2 effected _ (k & Hk & -> & Hle). unfold scale_outcome.
  destruct (Z.ltb_spec 0 (pgs_Replicas (pgc_Spec cluster) - k)) as [Hlt|Hge].
  2: { exists k. split; [done|]. left. lia. }
  apply okwp_bind_ok. intros [reqs|e]; cbn [apr_call call wp]; [|done].
  set (s3 := pg_step _ _).
  assert (Hreqs : SawRequests (sts_Namespace sts) reqs ∈ facts s3) by apply add_fact_in.
  assert (Hk3 : SawScale (sts_Namespace sts) PGClusterName k ∈ facts s3) by by apply add_fact_le.
  clearbody s3.
  set (b := NewClientBuidler _ _ _ _).
  eapply okwp_mono; [|apply (okwp_for_each _ (fun req s' =>
    ms_Middleware (mr_Spec req) = TypePostgreSQL -> forall db, db ∈ pg_dbs req -> IsDistributed db = true ->
    synced sts (pgs_AdminUser (pgc_Spec cluster)) pwd b from (pgs_Replicas (pgc_Spec cluster)) req db s'))].
  - cbn beta. intros s4 _ Hle4 Hall. exists k. split; [by apply Hle4|]. right. split; [lia|].
    exists pwd, reqs. split; [by apply Hle4|]. intros req db Hin Hty. by apply Hall.
  - intros req s4 s5 Hle4 H Hty db Hdb Hd. eapply synced_le; eauto.
  - intros req s4 _. case_bool_decide as Hty; [|done].
    eapply okwp_mono; [|apply (okwp_for_each _ (fun db s' => IsDistributed db = true ->
      synced sts (pgs_AdminUser (pgc_Spec cluster)) pwd b from (pgs_Replicas (pgc_Spec cluster)) req db s'))].
    + cbn beta. intros s5 _ _ Hall _ db Hdb Hd. by apply Hall.
    + intros db s5 s6 Hle5 H Hd. eapply synced_le; eauto.
    + intros db s5 _. apply sync_db_ok.
Qed.

(** The name under which a request's database is provisioned is never the bare
    name under which scaling up prepares it on the new nodes. *)
Lemma scaled_name_differs req db : db_name req db <> cdb_Name db.
Proof.
  unfold db_name, GetDatabaseName. intros E. apply (f_equal String.length) in E.
  assert (Hlen : forall a b s, String.length (replace_char a b s) = String.length s).
  { intros a b s. induction s as [|x s IH]; cbn; [done|by rewrite IH]. }
  rewrite Hlen, !string_app_length in E. change (String.length "_") with 1 in E. lia.
Qed.

(** C15: A successful scale-up either found the set at the wanted size already,
    and then promises nothing, or found it smaller, and for every distributed
    database of every PostgreSQL request listed in the set's own namespace it
    has prepared, on every new node, the role, a database, citus in it and the
    node's registration with the master, and has started rebalancing.  All of
    this is done for the bare name the request gives the database, which is
    never the name under which the request's database was provisioned. *)
Theorem scale_up_reaches_new_nodes sts cluster from tr :
  runs (scale_up sts cluster from) tr (Returned (Ok tt)) ->
  scale_outcome sts cluster from (pg_watch tr) /\ forall req db, db_name req db <> cdb_Name db.
Proof.
  intros H. split; [exact (okwp_runs _ _ _ _ (scale_up_ok _ _ _ _) H)|apply scaled_name_differs].
Qed.

(** ** Connections *)

Lemma quiet_GetVarValue p ns : issues not_connect (GetVarValue p ns).
Proof. by apply issues_GetVarValue. Qed.
Lemma quiet_WaitFor {A} n (cond : io (res (option A))) : issues not_connect cond -> issues not_connect (WaitFor n cond).
Proof. intros H. induction n; cbn [WaitFor]; quiet. Qed.
Lemma quiet_WaitForPodRunning ns name : issues not_connect (WaitForPodRunning ns name).
Proof.
  unfold WaitForPodRunning, PollImmediate. apply issues_bind; [done|]. intros _.
  assert (H : issues not_connect (let? pod := k8s_call (GetPod ns name) in
     if pod_ready "postgres" pod then do! sys_call (Sleep 5); Ret (Ok (Some (pod_IP pod))) else Ret (Ok None)))
    by quiet.
  apply issues_bind_ok; [done|]. intros [a|]; [done|]. by apply quiet_WaitFor.
Qed.
Lemma quiet_value_from_secret ns src : issues not_connect (value_from_secret ns src).
Proof. unfold value_from_secret. quiet. Qed.
Lemma quiet_env_value ns e : issues not_connect (env_value ns e).
Proof. unfold env_value. destruct (String.eqb _ _); [apply quiet_value_from_secret|done]. Qed.
#[local] Hint Resolve quiet_GetVarValue quiet_WaitForPodRunning quiet_value_from_secret quiet_env_value : issues.

Ltac quieter := repeat first [ solve [auto with issues] | progress quiet ].

Lemma quiet_DefinedPassword ns cluster : issues not_connect (GetPGClusterDefinedPassword ns cluster).
Proof. apply quiet_GetVarValue. Qed.
#[local] Hint Resolve quiet_DefinedPassword : issues.

Lemma quiet_MustUpdate ns sts cluster : issues not_connect (MustUpdateClusterAdminUser ns sts cluster).
Proof. unfold MustUpdateClusterAdminUser, admin_changed, password_changed. quieter. Qed.

Lemma quiet_CreatePGCluster user cluster : issues not_connect (CreatePGClusterForUser user cluster).
Proof.
  unfold CreatePGClusterForUser, createSecretForPG, GetPGClusterDBUserSecretDefine, genPassword, createPGCluster,
    GetPGClusterDefineByUser, data_path, GetUserDBPVCName, createPGClusterService, found. quieter.
Qed.

Lemma quiet_default_admin ns cluster : issues not_connect (default_admin ns cluster).
Proof. unfold default_admin. quieter. Qed.

Lemma quiet_update_hba c ns pod : issues not_connect (update_hba c ns pod).
Proof.
  unfold update_hba. generalize (hba_lines ns). intros lines.
  apply issues_bind_ok; [done|]. intros _. apply issues_bind_ok; [done|]. intros rows.
  apply issues_bind_ok; [destruct (rows_data rows); [done|by apply issues_bind]|]. intros file.
  apply issues_bind_ok; [done|]. intros _. apply issues_bind_ok; [done|]. intros tx.
  apply issues_bind_ok.
  { apply issues_for_each. intros h _. apply issues_bind; [done|]. intros [u|e]; [done|]. by apply issues_bind. }
  intros _. apply issues_bind_ok; [|intros _; by apply issues_bind_ok].
  apply issues_bind; [done|]. intros [u|e]; [done|]. by apply issues_bind.
Qed.

Lemma closing_change_admin_on_node sts ou op nu np i : closing (change_admin_on_node sts ou op nu np i).
Proof.
  apply closing_bind_ok; [apply closing_quiet, quiet_WaitForPodRunning|]. intros ip.
  apply closing_Build. intros D c. apply keeps_then_Close. unfold ChangeAdminUser. quiet.
Qed.

Lemma closing_update_admin new sts cluster ou op : closing (update_admin new sts cluster ou op).
Proof.
  unfold update_admin. apply closing_bind_ok; [apply closing_quiet, quiet_GetVarValue|]. intros newpwd. cbv zeta.
  apply closing_bind_ok; [apply closing_quiet; quiet|]. intros _.
  apply closing_bind; [apply closing_quiet; unfold nodes; quiet|]. intros all.
  apply closing_bind_ok; [|intros; by apply closing_quiet].
  apply closing_for_each. intros i. apply closing_change_admin_on_node.
Qed.

Lemma closing_ScalePGClusterNodes ns replicas admin pwd : closing (ScalePGClusterNodes ns replicas admin pwd).
Proof.
  unfold ScalePGClusterNodes. apply closing_bind_ok; [by apply closing_quiet|]. intros sc. cbv zeta.
  destruct (_ =? 0)%Z; [by apply closing_quiet|]. destruct (_ <? 0)%Z; [by apply closing_quiet|].
  apply closing_bind_ok; [by apply closing_quiet|]. intros _.
  apply closing_bind_ok; [|intros; by apply closing_quiet]. apply closing_for_each. intros i.
  apply closing_bind_ok; [apply closing_quiet, quiet_WaitForPodRunning|]. intros ip.
  apply closing_Build. intros D c. apply keeps_defer_Close, quiet_update_hba.
Qed.

Lemma cclosing_lift_closing {A} (f : client -> io (res A)) : (forall c, closing (f c)) -> cclosing (lift f).
Proof. intros Hf D c. eapply keeps_open_bind; [apply Hf|]. by intros r s Hs. Qed.

Lemma closing_sync_db sts admin pwd b from upto req db : closing (sync_db sts admin pwd b from upto req db).
Proof.
  unfold sync_db. destruct (IsDistributed db); [|by apply closing_quiet].
  apply closing_bind_ok.
  - apply closing_for_each. intros i. apply closing_bind_ok; [apply closing_quiet, quiet_WaitForPodRunning|].
    intros ip. apply closing_with_client.
    apply cclosing_bind; [apply cclosing_lift; intros; apply quiet_GetVarValue|]. intros pw.
    apply cclosing_bind; [apply cclosing_lift; intros; apply quiet_CreateOrUpdateUser|]. intros _.
    apply cclosing_bind; [apply cclosing_lift; intros; apply quiet_CreateDatabaseIfNotExists|]. intros _.
    apply cclosing_bind; [apply cclosing_SwitchDatabase|]. intros _.
    apply cclosing_bind; [by apply cclosing_lift|]. intros _.
    apply cclosing_lift_closing. intros _. apply closing_Build. intros D c.
    apply keeps_then_Close. unfold AddWorkerNode. quiet.
  - intros _. apply closing_Build. intros D c. by apply keeps_then_Close.
Qed.

Lemma closing_scale_up sts cluster from : closing (scale_up sts cluster from).
Proof.
  unfold scale_up. apply closing_bind_ok; [apply closing_quiet, quiet_DefinedPassword|]. intros pwd. cbv zeta.
  apply closing_bind_ok; [apply closing_ScalePGClusterNodes|]. intros effected.
  destruct (0 <? effected)%Z; [|by apply closing_quiet].
  apply closing_bind_ok; [by apply closing_quiet|]. intros reqs. apply closing_for_each. intros req.
  destruct (bool_decide _); [|by apply closing_quiet]. apply closing_for_each. intros db. apply closing_sync_db.
Qed.

Lemma closing_PGClusterRecreated : closing PGClusterRecreated.
Proof.
  unfold PGClusterRecreated. apply closing_bind; [by apply closing_quiet|]. intros [reqs|e]; [|by apply closing_quiet].
  assert (H : forall u, closing (fold_all (fun (_ : unit) r => let! _ := createOrUpdatePGRequest r in Ret tt) reqs u)).
  { induction reqs as [|r reqs IH]; intros u; cbn [fold_all]; [by apply closing_quiet|].
    apply closing_bind; [|done]. apply closing_bind; [apply closing_createOrUpdate|]. intros _. by apply closing_quiet. }
  apply H.
Qed.

Lemma closing_reconcile new sts cluster : closing (reconcile new sts cluster).
Proof.
  unfold reconcile. apply closing_bind_ok; [apply closing_quiet, quiet_MustUpdate|]. intros must.
  apply closing_bind_ok; [destruct must as [[ou op]|]; [apply closing_update_admin|by apply closing_quiet]|].
  intros sts'. apply closing_bind; [destruct new; [apply closing_PGClusterRecreated|by apply closing_quiet]|].
  intros _. apply closing_bind; [apply closing_quiet, issues_deref|]. intros n.
  destruct (_ =? _)%Z; [by apply closing_quiet|apply closing_scale_up].
Qed.

(** No connection outlives the reconciliation of a cluster: whatever the
    services answer, when the handler returns, with success or an error, every
    connection it opened is closed. *)
Theorem pgcluster_handler_closes_connections obj tr r :
  runs (pgcluster_handler obj) tr (Returned r) -> conns (pg_watch tr) = ∅.
Proof.
  apply closing_runs. destruct obj as [cluster|]; [|by apply closing_quiet]. unfold pgcluster_handler, found.
  apply closing_bind_ok; [apply closing_quiet; quiet|]. intros cc.
  apply closing_bind_ok; [apply closing_quiet; quiet|]. intros sts.
  destruct cc as [cc|], sts as [sts|]; try (by apply closing_quiet).
  - apply closing_bind_ok; [apply closing_quiet, quiet_default_admin|]. intros cc'. apply closing_reconcile.
  - apply closing_bind_ok; [apply closing_quiet, quiet_CreatePGCluster|]. intros [sts cc'].
    apply closing_reconcile.
Qed.

(** ** Witnesses *)

(** The two-node set is being enlarged to three; its administrator comes from
    literals. *)
Definition demo_pod (name : string) : Pod := mkPod name "os-platform" "Running" [("postgres", true)] ("ip-" +:+ name) [].
Definition literal_sts : StatefulSet :=
  patch_sts (mkPGClusterSpec 3 "olares" "" (mkPwd "old" None) "system" "") demo_sts.
Definition scale_world (o : op) (next : nat) : resp o * nat :=
  match o return resp o * nat with
  | K8s (GetStatefulSet _ _) => (Ok literal_sts, next)
  | K8s (UpdateStatefulSet _ s) => (Ok s, next)
  | K8s (GetPod _ name) => (Ok (demo_pod name), next)
  | K8s (GetScale ns name) => (Ok (mkScale name ns 2), next)
  | K8s (UpdateScale _ _ s) => (Ok s, next)
  | Apr (GetPGCluster _ _) =>
      (Ok (mkPGCluster (mkMeta "citus" "os-platform" ∅ ∅)
             (mkPGClusterSpec 3 "olares" "" (mkPwd "secret" None) "system" "")), next)
  | Apr (LookupMiddlewareRequests _) => (Ok [demo_req], next)
  | Pg (PgBegin _) => (Ok next, S next)
  | Pg (PgNamedExec _ _ _) => (Ok tt, next)
  | Pg (PgCommit _) => (Ok tt, next)
  | o => demo_world o next
  end.
Definition scale_exec {A} (m : io A) : history * outcome A * nat := exec scale_world m 0.
Lemma scale_runs {A} (m : io A) : runs m (fst (fst (scale_exec m))) (snd (fst (scale_exec m))).
Proof. destruct (scale_exec m) as [[tr out] w] eqn:E. by eapply exec_runs. Qed.

Definition demo_cluster3 : PGCluster :=
  mkPGCluster (mkMeta "citus" "os-platform" ∅ ∅) (mkPGClusterSpec 3 "olares" "" (mkPwd "secret" None) "system" "").
Definition demo_update : io (res StatefulSet) := update_admin false literal_sts demo_cluster3 "olares" "old".

Lemma update_admin_everywhere_witness :
  exists sts', snd (fst (scale_exec demo_update)) = Returned (Ok sts') /\
  exists n newpwd, sts_Replicas sts' = Some n /\ sts_Replicas sts' = sts_Replicas literal_sts /\
    defined_password demo_cluster3 newpwd /\
    forall i, (0 <= i < n)%Z ->
      admin_changed_on sts' "olares" "old" "olares" newpwd i (pg_watch (fst (fst (scale_exec demo_update)))).
Proof.
  destruct (snd (fst (scale_exec demo_update))) as [[sts'|e]|w] eqn:E;
    [|exfalso; vm_compute in E; discriminate E..].
  exists sts'. split; [reflexivity|].
  apply (update_admin_everywhere false literal_sts demo_cluster3 "olares" "old" _ sts').
  pose proof (scale_runs demo_update) as H. rewrite E in H. exact H.
Defined.

Lemma scale_up_reaches_new_nodes_witness :
  snd (fst (scale_exec (scale_up literal_sts demo_cluster3 2))) = Returned (Ok tt) /\
  scale_outcome literal_sts demo_cluster3 2 (pg_watch (fst (fst (scale_exec (scale_up literal_sts demo_cluster3 2))))) /\
  forall req db, db_name req db <> cdb_Name db.
Proof.
  assert (E : snd (fst (scale_exec (scale_up literal_sts demo_cluster3 2))) = Returned (Ok tt)) by (vm_compute; reflexivity).
  split; [exact E|].
  apply (scale_up_reaches_new_nodes literal_sts demo_cluster3 2).
  pose proof (scale_runs (scale_up literal_sts demo_cluster3 2)) as H. rewrite E in H. exact H.
Defined.

Lemma pgcluster_handler_closes_connections_witness :
  snd (fst (scale_exec (pgcluster_handler (Some demo_cluster3)))) = Returned (Ok tt) /\
  conns (pg_watch (fst (fst (scale_exec (pgcluster_handler (Some demo_cluster3)))))) = ∅.
Proof.
  assert (E : snd (fst (scale_exec (pgcluster_handler (Some demo_cluster3)))) = Returned (Ok tt)) by (vm_compute; reflexivity).
  split; [exact E|].
  apply (pgcluster_handler_closes_connections (Some demo_cluster3) _ (Ok tt)).
  pose proof (scale_runs (pgcluster_handler (Some demo_cluster3))) as H. rewrite E in H. exact H.
Defined.
