(* ===== verification/RedisCluster.v ===== *)
(** * The redis-cluster proxy: [src/pkg/workload/redis-cluster/templates.go]
    and the part of [helper.go] a Redis request goes through

    Every Redis request of the system is an [Auth] block of predixy's
    configuration; the authority section is located by a regular expression
    between two banner lines and replaced as a whole. *)

From S2P Require Import Prelude Effects Apr World.

(** ** [templates.go] *)

Definition lf : string := String (Ascii.ascii_of_nat 10) "".
Definition tab : string := String (Ascii.ascii_of_nat 9) "".
Fixpoint hashes (n : nat) : string := match n with O => "" | S n' => "#" +:+ hashes n' end.

Definition AuthSectionBegin : string := lf +:+ tab +:+ "Authority {" +:+ lf.
Definition AuthUserBegin (pwd : string) : string := lf +:+ tab +:+ tab +:+ "Auth " +:+ pwd +:+ " {" +:+ lf.
Definition AuthUserModeWrite : string := lf +:+ tab +:+ tab +:+ tab +:+ "Mode write" +:+ lf.
Definition AuthUserNamespace (ns : string) : string := lf +:+ tab +:+ tab +:+ tab +:+ "Namespace " +:+ ns +:+ lf.
Definition AuthUserEnd : string := lf +:+ tab +:+ tab +:+ "}" +:+ lf.
Definition AuthSectionEnd : string := lf +:+ tab +:+ "}" +:+ tab +:+ lf.
Definition AuthSectionExprPrev : string := hashes 35 +:+ " AUTHORITY " +:+ hashes 34.
Definition AuthSectionExprNext : string := hashes 35 +:+ " SERVERS " +:+ hashes 36.

(** ** [helper.go] *)

Definition RedisDatabaseName (namespace db : string) : string := namespace +:+ "_" +:+ db.

(** A password, the application namespace and the redis namespace; the
    administrator's entry has the password only. *)
Inductive auth_entry : Set :=
  | AuthAdmin (pwd : string)
  | AuthUser (pwd appNamespace : string) (redisNamespace : string).   (* "" when not given *)

Definition user_block (e : auth_entry) : string :=
  match e with
  | AuthAdmin pwd => AuthUserBegin pwd +:+ AuthUserModeWrite +:+ AuthUserEnd
  | AuthUser pwd ns db =>
      AuthUserBegin pwd +:+ AuthUserModeWrite +:+
      (if String.eqb db "" then "" else AuthUserNamespace (RedisDatabaseName ns db)) +:+ AuthUserEnd
  end.
Definition GetUserAuthSections (passwords : list auth_entry) : string :=
  AuthSectionBegin +:+ join "" (map user_block passwords) +:+ AuthSectionEnd.

(** The longest run without a number sign, and what follows it. *)
Fixpoint span_no_hash (s : string) : string * string :=
  match s with
  | EmptyString => ("", "")
  | String c s' => if Ascii.eqb c "#"%char then ("", s)
                   else let '(a, b) := span_no_hash s' in (String c a, b)
  end.

(** A match of [AuthSectionExpr] at the start of the string: the banner, at
    least one character other than a number sign, the next banner.  The length
    of the match. *)
Definition auth_match (s : string) : option nat :=
  if has_prefix AuthSectionExprPrev s then
    let '(body, rest) := span_no_hash (drop_str (String.length AuthSectionExprPrev) s) in
    if negb (String.eqb body "") && has_prefix AuthSectionExprNext rest
    then Some (String.length AuthSectionExprPrev + String.length body + String.length AuthSectionExprNext)
    else None
  else None.

(** [ReplaceAllStringFunc]: leftmost matches, not overlapping. *)
Fixpoint replace_auth (new : string) (skip : nat) (s : string) : string :=
  match s with
  | EmptyString => EmptyString
  | String c s' =>
      match skip with
      | S k => replace_auth new k s'
      | O => match auth_match s with
             | Some n => new +:+ replace_auth new (n - 1) s'
             | None => String c (replace_auth new O s')
             end
      end
  end.

Definition new_section (passwords : list auth_entry) : string :=
  AuthSectionExprPrev +:+ lf +:+ GetUserAuthSections passwords +:+ lf +:+ AuthSectionExprNext.
Definition rewrite_config (passwords : list auth_entry) (config : string) : string :=
  replace_auth (new_section passwords) 0 config.

(** The Redis requests of the system, in order, with their passwords. *)
Definition redis_entry (mr : MiddlewareRequest) : io (res (list auth_entry)) :=
  if bool_decide (ms_Middleware (mr_Spec mr) = TypeRedis) then
    let? pwd := GetVarValue (redis_Password (ms_Redis (mr_Spec mr))) (mr_Namespace mr) in
    Ret (Ok [AuthUser pwd (ms_AppNamespace (mr_Spec mr)) (redis_Namespace (ms_Redis (mr_Spec mr)))])
  else Ret (Ok []).
Definition redis_entries (mrs : list MiddlewareRequest) : io (res (list auth_entry)) :=
  fold_each (fun acc mr => let? es := redis_entry mr in Ret (Ok (acc ++ es))) mrs [].

Definition FindRedisClusterPassword (namespace : string) : io (res string) :=
  let? secret := k8s_call (GetSecret namespace "redix-cluster-admin") in
  Ret (Ok (default "" (sec_Data secret !! "kvrocks_password"))).

Definition RedisclusterProxyConfig : string := "predixy-configs".
Definition RedisProxy : string := "redis-cluster-proxy".

(** [int(time.Now().Unix())] labels the proxy's pods so that they restart. *)
Definition restart_proxy (namespace : string) : io (res unit) :=
  let? labels := k8s_call (GetDeployment namespace RedisProxy) in
  let! now := sys_call Now in
  let! labels := set_key labels "timestamp" (itoa now) in
  k8s_call (UpdateDeployment namespace RedisProxy labels).

Definition UpdateProxyConfig : io (res unit) :=
  let? mreqs := apr_call (ListMiddlewareRequests "") in
  let? passwords := redis_entries mreqs in
  let? drcs := k8s_call (ListDistributedRedis "") in
  match drcs with
  | [] => Ret (Err (newErr "redis cluster not found"))
  | drc :: _ =>
      let namespace := om_Namespace (drc_meta drc) in
      let? pwd := FindRedisClusterPassword namespace in
      let passwords := passwords ++ [AuthAdmin pwd] in
      let? cm := k8s_call (GetConfigMap namespace RedisclusterProxyConfig) in
      let config := match cm with Some m => default "" (m !! "predixy.conf") | None => "" end in
      let! data := set_key cm "predixy.conf" (rewrite_config passwords config) in
      do? k8s_call (UpdateConfigMap namespace RedisclusterProxyConfig data);
      restart_proxy namespace
  end.
