(* ===== verification/PredixyConf.v ===== *)
(** * What predixy's authority section says

    A reader of the part of predixy's syntax that the section uses, and that it
    reads one [Auth] block for each entry published. *)

From S2P Require Import Prelude RedisCluster.

(** ** Words and lines *)

Inductive item : Set := Word (s : string) | Eol.
Definition is_lf (c : Ascii.ascii) : bool := Ascii.eqb c (Ascii.ascii_of_nat 10).
Definition is_blank (c : Ascii.ascii) : bool := Ascii.eqb c " " || Ascii.eqb c (Ascii.ascii_of_nat 9).
Definition flush (acc : string) : list item := if String.eqb acc "" then [] else [Word acc].
Fixpoint items (acc : string) (s : string) : string * list item :=
  match s with
  | EmptyString => (acc, [])
  | String c s' =>
      if is_lf c then let '(a, l) := items "" s' in (a, flush acc ++ Eol :: l)
      else if is_blank c then let '(a, l) := items "" s' in (a, flush acc ++ l)
      else items (acc +:+ String c "") s'
  end.

(** ** The section

    [Authority { ... }] with blocks [Auth password { Mode m, Namespace n }], one
    setting a line. *)

Record auth : Set := mkAuth { au_password : string; au_mode : option string; au_namespace : option string }.
Inductive place : Set := Before | InAuthority (l : list auth) | InAuth (l : list auth) (a : auth) | After (l : list auth).
Definition read_line (p : place) (words : list string) : option place :=
  match words, p with
  | [], _ => Some p
  | ["Authority"; "{"], Before => Some (InAuthority [])
  | ["Auth"; pwd; "{"], InAuthority l => Some (InAuth l (mkAuth pwd None None))
  | ["Mode"; m], InAuth l a => Some (InAuth l (mkAuth (au_password a) (Some m) (au_namespace a)))
  | ["Namespace"; n], InAuth l a => Some (InAuth l (mkAuth (au_password a) (au_mode a) (Some n)))
  | ["}"], InAuth l a => Some (InAuthority (l ++ [a]))
  | ["}"], InAuthority l => Some (After l)
  | _, _ => None
  end.
(** The line so far and where it is. *)
Fixpoint read_items (line : list string) (p : place) (l : list item) : option (list string * place) :=
  match l with
  | [] => Some (line, p)
  | Word w :: l => read_items (line ++ [w]) p l
  | Eol :: l => p ← read_line p line; read_items [] p l
  end.
Definition read_auths (text : string) : option (list auth) :=
  match items "" text with
  | ("", l) => match read_items [] Before l with Some ([], After l) => Some l | _ => None end
  | _ => None
  end.

(** ** What is to be read *)

Definition auth_of (e : auth_entry) : auth :=
  match e with
  | AuthAdmin pwd => mkAuth pwd (Some "write") None
  | AuthUser pwd ns db =>
      mkAuth pwd (Some "write") (if String.eqb db "" then None else Some (ns +:+ "_" +:+ db))
  end.
Definition word_char (c : Ascii.ascii) : bool := negb (is_lf c || is_blank c || Ascii.eqb c "#").
Definition one_word (s : string) : Prop := all_chars word_char s = true.
Definition plain_entry (e : auth_entry) : Prop :=
  match e with
  | AuthAdmin pwd => pwd <> "" /\ one_word pwd
  | AuthUser pwd ns db => (pwd <> "" /\ one_word pwd) /\ one_word ns /\ one_word db
  end.

(** ** Reading text in pieces *)

Lemma items_app acc a b : items acc (a +:+ b) = let '(m, l) := items acc a in let '(r, l') := items m b in (r, l ++ l').
Proof.
  revert acc. induction a as [|c a IH]; intros acc; [change ("" +:+ b) with b; cbn; by destruct (items acc b)|].
  change (String c a +:+ b) with (String c (a +:+ b)). cbn [items]. destruct (is_lf c); [|destruct (is_blank c)].
  1,2: rewrite IH; destruct (items "" a) as [m l]; destruct (items m b) as [r l']; by rewrite <- (app_assoc (flush acc)).
  apply IH.
Qed.
Definition spells (text : string) (l : list item) : Prop := items "" text = ("", l).
Lemma spells_app a b l l' : spells a l -> spells b l' -> spells (a +:+ b) (l ++ l').
Proof. unfold spells. intros Ha Hb. by rewrite items_app, Ha, Hb. Qed.
Lemma items_word acc s : one_word s -> items acc s = (acc +:+ s, []).
Proof.
  revert acc. induction s as [|c s IH]; intros acc H; [cbn; by rewrite string_app_nil_r|].
  unfold one_word in *. cbn [all_chars] in H. apply andb_true_iff in H as [Hc Hs].
  unfold word_char in Hc. rewrite !negb_orb, !andb_true_iff, !negb_true_iff in Hc. destruct Hc as [[H1 H2] _].
  cbn [items]. rewrite H1, H2, (IH _ Hs). by rewrite string_app_assoc.
Qed.
(** A word with what ends it. *)
Lemma spells_word s rest l :
  s <> "" -> one_word s -> (forall acc, items acc rest = ("", flush acc ++ l)) -> spells (s +:+ rest) (Word s :: l).
Proof.
  intros Hne Hs Hr. unfold spells. rewrite items_app, (items_word "" s Hs). change ("" +:+ s) with s. rewrite Hr.
  unfold flush. by destruct (String.eqb_spec s "").
Qed.
Lemma one_word_app a b : one_word a -> one_word b -> one_word (a +:+ b).
Proof.
  unfold one_word. induction a as [|c a IH]; [done|]. cbn [all_chars]. intros [Hc Ha]%andb_true_iff Hb.
  change (String c a +:+ b) with (String c (a +:+ b)). cbn [all_chars]. by rewrite Hc, IH.
Qed.

Definition block_items (e : auth_entry) : list item :=
  [Eol; Word "Auth"; Word (au_password (auth_of e)); Word "{"; Eol; Eol; Word "Mode"; Word "write"; Eol] ++
  match au_namespace (auth_of e) with Some n => [Eol; Word "Namespace"; Word n; Eol] | None => [] end ++
  [Eol; Word "}"; Eol].
Lemma spells_begin pwd : pwd <> "" -> one_word pwd -> spells (AuthUserBegin pwd) [Eol; Word "Auth"; Word pwd; Word "{"; Eol].
Proof.
  intros Hne Hw. unfold AuthUserBegin. change (spells ((lf +:+ tab +:+ tab +:+ "Auth ") +:+ pwd +:+ " {" +:+ lf) ([Eol; Word "Auth"] ++ [Word pwd; Word "{"; Eol])).
  apply spells_app; [done|]. by apply spells_word.
Qed.
Lemma spells_namespace n : n <> "" -> one_word n -> spells (AuthUserNamespace n) [Eol; Word "Namespace"; Word n; Eol].
Proof.
  intros Hne Hw. change (spells ((lf +:+ tab +:+ tab +:+ tab +:+ "Namespace ") +:+ n +:+ lf) ([Eol; Word "Namespace"] ++ [Word n; Eol])).
  apply spells_app; [done|]. by apply spells_word.
Qed.
Lemma spells_block e : plain_entry e -> spells (user_block e) (block_items e).
Proof.
  assert (Hm : spells AuthUserModeWrite [Eol; Word "Mode"; Word "write"; Eol]) by done.
  assert (He : spells AuthUserEnd [Eol; Word "}"; Eol]) by done.
  destruct e as [pwd|pwd ns db]; cbn [plain_entry user_block].
  - intros [Hne Hp]. exact (spells_app _ _ _ _ (spells_begin pwd Hne Hp) (spells_app _ _ _ _ Hm He)).
  - intros ((Hne & Hp) & Hns & Hdb). apply (spells_app _ _ [_; _; _; _; _] (_ :: _ :: _ :: _ :: _ ++ _)); [by apply spells_begin|].
    apply (spells_app _ _ [_; _; _; _]); [done|]. cbn [auth_of au_namespace]. destruct (String.eqb db ""); [done|].
    apply spells_app; [|done]. apply spells_namespace; [by destruct ns|]. apply one_word_app; [done|]. by apply one_word_app.
Qed.
Lemma spells_blocks es :
  Forall plain_entry es -> spells (join "" (map user_block es)) (concat (map block_items es)).
Proof.
  intros H. induction H as [|e es He Hes IH]; [done|]. destruct es as [|e' es].
  - cbn. rewrite app_nil_r. by apply spells_block.
  - cbn [map concat] in *. rewrite join_cons by done. apply spells_app; [by apply spells_block|]. exact IH.
Qed.

(** ** The blocks read *)

Lemma read_items_app line p a b :
  read_items line p (a ++ b) = (q ← read_items line p a; read_items q.1 q.2 b).
Proof.
  revert line p. induction a as [|[w|] a IH]; intros line p; [done|apply IH|].
  cbn. destruct (read_line p line); cbn; [apply IH|done].
Qed.
Lemma read_block acc e :
  read_items [] (InAuthority acc) (block_items e) = Some ([], InAuthority (acc ++ [auth_of e])).
Proof. destruct e as [pwd|pwd ns db]; [done|]. unfold block_items. cbn [auth_of au_namespace]. by destruct (String.eqb db ""). Qed.
Lemma read_blocks acc es :
  read_items [] (InAuthority acc) (concat (map block_items es)) = Some ([], InAuthority (acc ++ map auth_of es)).
Proof.
  revert acc. induction es as [|e es IH]; intros acc; cbn [map concat]; [by rewrite app_nil_r|].
  rewrite read_items_app, read_block. cbn. by rewrite IH, <- app_assoc.
Qed.

(** The section is read as one block for each entry, in their order. *)
Lemma read_section es :
  Forall plain_entry es -> read_auths (lf +:+ GetUserAuthSections es +:+ lf) = Some (map auth_of es).
Proof.
  intros H. assert (Hs : spells (lf +:+ GetUserAuthSections es +:+ lf)
    ([Eol; Eol; Word "Authority"; Word "{"; Eol] ++ concat (map block_items es) ++ [Eol; Word "}"; Eol; Eol])).
  { apply (spells_app _ _ [Eol]); [done|]. unfold GetUserAuthSections. rewrite !string_app_assoc.
    apply (spells_app _ _ [_; _; _; _]); [done|]. apply spells_app; [by apply spells_blocks|done]. }
  unfold read_auths. rewrite Hs, read_items_app. cbn. rewrite read_items_app, read_blocks. reflexivity.
Qed.
