(* ===== verification/RedisClusterSpec.v ===== *)
(** * What rewriting predixy's configuration achieves *)

From S2P Require Import Prelude Effects Apr World Demo RedisCluster PredixyConf.

(** ** Strings *)

Definition hash : Ascii.ascii := "#"%char.

#[local] Opaque AuthSectionExprPrev AuthSectionExprNext.

Lemma string_cons_app c (s t : string) : String c s +:+ t = String c (s +:+ t).
Proof. done. Qed.

Lemma has_prefix_app (p s t : string) :
  String.length p <= String.length s -> has_prefix p (s +:+ t) = has_prefix p s.
Proof.
  revert s. induction p as [|a p IH]; intros [|b s]; cbn; try done; try lia.
  intros H. f_equal. apply IH. lia.
Qed.


Lemma span_no_hash_app (a s : string) :
  str_contains hash a = false ->
  (s = "" \/ exists s', s = String hash s') -> span_no_hash (a +:+ s) = (a, s).
Proof.
  intros Ha Hs. induction a as [|c a IH]; cbn -[Ascii.eqb] in *.
  - destruct Hs as [-> |[s' ->]]; done.
  - apply orb_false_iff in Ha as [Hc Ha].
    change (span_no_hash (String c (a +:+ s)) = (String c a, s)). cbn -[Ascii.eqb].
    rewrite (IH Ha), Ascii.eqb_sym. unfold hash in Hc. by rewrite Hc.
Qed.

Lemma contains_join (c : Ascii.ascii) (l : list string) :
  str_contains c (join "" l) = existsb (str_contains c) l.
Proof.
  induction l as [|s [|s' l] IH]; [done|symmetry; apply orb_false_r|].
  change (str_contains c (s +:+ "" +:+ join "" (s' :: l)) = str_contains c s || existsb (str_contains c) (s' :: l)).
  by rewrite !str_contains_app, IH.
Qed.

(** ** Replacing the section *)

Lemma replace_auth_skip new (a s : string) n :
  n = String.length a -> replace_auth new n (a +:+ s) = replace_auth new 0 s.
Proof. intros ->. induction a; cbn; [by destruct s | done]. Qed.

(** No authority banner begins in [s] when [tail] follows it. *)
Fixpoint banner_free (tail s : string) : bool :=
  match s with
  | EmptyString => true
  | String _ s' => negb (has_prefix AuthSectionExprPrev (s +:+ tail)) && banner_free tail s'
  end.

Lemma replace_auth_free new (s t : string) :
  banner_free AuthSectionExprPrev s = true ->
  replace_auth new 0 (s +:+ AuthSectionExprPrev +:+ t) = s +:+ replace_auth new 0 (AuthSectionExprPrev +:+ t).
Proof.
  induction s as [|c s IH]; cbn [banner_free]; [done|].
  rewrite andb_true_iff, negb_true_iff. intros [Hp Hs].
  rewrite !string_cons_app. cbn [replace_auth]. unfold auth_match.
  rewrite <- string_cons_app, <- string_app_assoc, has_prefix_app by (rewrite string_app_length; lia).
  by rewrite Hp, (IH Hs).
Qed.

Lemma replace_auth_end new (s : string) : banner_free "" s = true -> replace_auth new 0 s = s.
Proof.
  induction s as [|c s IH]; cbn [banner_free]; [done|].
  rewrite andb_true_iff, negb_true_iff, string_app_nil_r. intros [Hp Hs].
  cbn [replace_auth]. unfold auth_match. by rewrite Hp, (IH Hs).
Qed.

Lemma auth_match_section (body post : string) :
  body <> "" -> str_contains hash body = false ->
  auth_match (AuthSectionExprPrev +:+ body +:+ AuthSectionExprNext +:+ post) =
  Some (String.length AuthSectionExprPrev + String.length body + String.length AuthSectionExprNext).
Proof.
  intros Hne Hb. unfold auth_match. rewrite has_prefix_self, drop_str_app.
  rewrite span_no_hash_app; [|done|right; by eexists].
  destruct (String.eqb_spec body ""); [done|]. cbn [negb andb].
  by rewrite has_prefix_self.
Qed.

Lemma replace_auth_match new (s s' : string) n :
  auth_match s = Some (String.length s') -> s' <> "" -> s = s' +:+ n ->
  replace_auth new 0 s = new +:+ replace_auth new 0 n.
Proof.
  intros Hm Hne ->. destruct s' as [|c s']; [done|].
  rewrite string_cons_app in *. cbn [replace_auth]. rewrite Hm.
  cbn [String.length]. by rewrite Nat.sub_succ, Nat.sub_0_r, replace_auth_skip.
Qed.

(** ** Entries *)

Definition clean (s : string) : bool := negb (str_contains hash s).
Definition clean_entry (e : auth_entry) : bool :=
  match e with
  | AuthAdmin pwd => clean pwd
  | AuthUser pwd ns db => clean pwd && clean ns && clean db
  end.
Definition section_body (es : list auth_entry) : string := lf +:+ GetUserAuthSections es +:+ lf.

Lemma new_section_body es : new_section es = AuthSectionExprPrev +:+ section_body es +:+ AuthSectionExprNext.
Proof. unfold new_section, section_body. by rewrite !string_app_assoc. Qed.

Lemma clean_user_block e : clean_entry e = true -> str_contains hash (user_block e) = false.
Proof.
  destruct e as [pwd|pwd ns db]; cbn -[str_contains AuthUserBegin AuthUserModeWrite AuthUserEnd AuthUserNamespace];
    unfold clean; rewrite ?andb_true_iff, ?negb_true_iff.
  - intros Hp. unfold AuthUserBegin. by rewrite !str_contains_app, Hp.
  - intros [[Hp Hn] Hd]. unfold AuthUserBegin. rewrite !str_contains_app, Hp.
    destruct (String.eqb db ""); [done|]. unfold AuthUserNamespace, RedisDatabaseName.
    by rewrite !str_contains_app, Hn, Hd.
Qed.

Lemma clean_section_body es :
  forallb clean_entry es = true -> str_contains hash (section_body es) = false.
Proof.
  intros H. unfold section_body, GetUserAuthSections. rewrite !str_contains_app, contains_join.
  replace (existsb _ _) with false; [done|]. symmetry.
  induction es as [|e es IH]; [done|]. cbn in *. apply andb_true_iff in H as [He Hes].
  by rewrite (clean_user_block _ He), IH.
Qed.

Lemma section_body_nonempty es : section_body es <> "".
Proof. done. Qed.

(** ** The rewritten configuration *)

Lemma rewrite_config_section es pre body post :
  banner_free AuthSectionExprPrev pre = true -> banner_free "" post = true ->
  body <> "" -> str_contains hash body = false ->
  rewrite_config es (pre +:+ AuthSectionExprPrev +:+ body +:+ AuthSectionExprNext +:+ post) =
  pre +:+ new_section es +:+ post.
Proof.
  intros Hpre Hpost Hne Hb. unfold rewrite_config. rewrite replace_auth_free by done.
  rewrite (replace_auth_match _ _ (AuthSectionExprPrev +:+ body +:+ AuthSectionExprNext) post).
  - by rewrite replace_auth_end.
  - rewrite auth_match_section by done. f_equal. rewrite !string_app_length. lia.
  - by destruct body.
  - by rewrite !string_app_assoc.
Qed.

(** Rewriting predixy's configuration replaces the authority section, and
    nothing else, by one block per entry in the order of the entries; the
    section that is replaced may be any text without a number sign. *)
Theorem rewrite_config_exact es pre body post :
  banner_free AuthSectionExprPrev pre = true -> banner_free "" post = true ->
  body <> "" -> str_contains hash body = false ->
  rewrite_config es (pre +:+ AuthSectionExprPrev +:+ body +:+ AuthSectionExprNext +:+ post) =
  pre +:+ (AuthSectionExprPrev +:+ lf +:+ GetUserAuthSections es +:+ lf +:+ AuthSectionExprNext) +:+ post.
Proof. apply rewrite_config_section. Qed.

(** As long as no password and no namespace holds a number sign, what was
    published before is forgotten: rewriting with the entries [es] and then
    with [es'] gives what rewriting with [es'] alone gives, so the file always
    shows the requests of the last event. *)
Theorem rewrite_config_last_wins es es' pre body post :
  forallb clean_entry es = true ->
  banner_free AuthSectionExprPrev pre = true -> banner_free "" post = true ->
  body <> "" -> str_contains hash body = false ->
  let config := pre +:+ AuthSectionExprPrev +:+ body +:+ AuthSectionExprNext +:+ post in
  rewrite_config es' (rewrite_config es config) = rewrite_config es' config.
Proof.
  intros He Hpre Hpost Hne Hb config. unfold config.
  rewrite (rewrite_config_section es), new_section_body, !string_app_assoc by done.
  rewrite !(rewrite_config_section es') by auto using section_body_nonempty, clean_section_body.
  done.
Qed.

(** The text from its first number sign on. *)
Definition from_hash (s : string) : string := snd (span_no_hash s).

Lemma replace_auth_stuck new (s t : string) :
  has_prefix AuthSectionExprNext (from_hash s) = false -> AuthSectionExprPrev +:+ s = String hash t ->
  banner_free "" t = true ->
  replace_auth new 0 (AuthSectionExprPrev +:+ s) = AuthSectionExprPrev +:+ s.
Proof.
  intros Hn Ht Hf.
  assert (Hm : auth_match (AuthSectionExprPrev +:+ s) = None).
  { unfold auth_match. rewrite has_prefix_self, drop_str_app. unfold from_hash in Hn.
    destruct (span_no_hash s) as [a b]. cbn in Hn. by rewrite Hn, andb_false_r. }
  rewrite Ht in *. cbn [replace_auth]. by rewrite Hm, (replace_auth_end new t Hf).
Qed.

(** A number sign in a password or a namespace freezes the configuration.
    When the text published for [es], read from its first number sign on, does
    not begin with the servers banner (it does only if the section holds no
    number sign), and no second authority banner follows, then rewriting again
    changes nothing, whatever the new entries are: later requests, changed
    passwords and deletions never reach the proxy. *)
Theorem hash_password_freezes es es' pre body post t :
  banner_free AuthSectionExprPrev pre = true -> banner_free "" post = true ->
  body <> "" -> str_contains hash body = false ->
  has_prefix AuthSectionExprNext (from_hash (section_body es +:+ AuthSectionExprNext +:+ post)) = false ->
  AuthSectionExprPrev +:+ section_body es +:+ AuthSectionExprNext +:+ post = String hash t ->
  banner_free "" t = true ->
  let config := pre +:+ AuthSectionExprPrev +:+ body +:+ AuthSectionExprNext +:+ post in
  rewrite_config es' (rewrite_config es config) = rewrite_config es config.
Proof.
  intros Hpre Hpost Hne Hb Hn Ht Hf config. unfold config.
  rewrite (rewrite_config_section es), new_section_body, !string_app_assoc by done.
  unfold rewrite_config. rewrite replace_auth_free by done. f_equal.
  by apply replace_auth_stuck with t.
Qed.

(** ** Publishing *)




(** *** The text published *)

(** An authority section: the banner, something without a number sign, the
    banner of the servers. *)
Definition sectioned (pre body post : string) : string :=
  pre +:+ AuthSectionExprPrev +:+ body +:+ AuthSectionExprNext +:+ post.
Definition fillable (body : string) : Prop := body <> "" /\ str_contains hash body = false.

(** [new] is [old] republished for the entries [es]: the text of its section,
    when it has exactly one, is read as one block for each entry, in their
    order, and nothing around it changes; a text without a section stays as it
    is. *)
Definition republished (es : list auth_entry) (old new : string) : Prop :=
  (forall pre body post, old = sectioned pre body post -> fillable body ->
    banner_free AuthSectionExprPrev pre = true -> banner_free "" post = true ->
    exists body', new = sectioned pre body' post /\
      (Forall plain_entry es -> read_auths body' = Some (map auth_of es))) /\
  ((forall pre body post, old = sectioned pre body post -> ~ fillable body) -> new = old).

Lemma has_prefix_split (p s : string) : has_prefix p s = true -> s = p +:+ drop_str (String.length p) s.
Proof.
  revert s. induction p as [|a p IH]; intros s H; [by destruct s|].
  destruct s as [|b s]; [done|]. cbn [has_prefix] in H. apply andb_true_iff in H as [->%Ascii.eqb_eq H].
  change (String b s = String b (p +:+ drop_str (String.length p) s)). by rewrite <- (IH s H).
Qed.
Lemma span_no_hash_split (s : string) : s = (span_no_hash s).1 +:+ (span_no_hash s).2 /\ str_contains hash (span_no_hash s).1 = false.
Proof.
  induction s as [|c s [IH1 IH2]]; [done|]. cbn -[Ascii.eqb]. destruct (Ascii.eqb c "#") eqn:E; [done|].
  destruct (span_no_hash s) as [a b]. cbn -[Ascii.eqb] in *. split; [by rewrite string_cons_app, <- IH1|].
  fold hash in E. cbn -[Ascii.eqb]. rewrite Ascii.eqb_sym. unfold hash in *. by rewrite E.
Qed.
Lemma auth_match_some (s : string) n :
  auth_match s = Some n -> exists body post, s = sectioned "" body post /\ fillable body.
Proof.
  unfold auth_match. destruct (has_prefix AuthSectionExprPrev s) eqn:Hp; [|done].
  apply has_prefix_split in Hp. destruct (span_no_hash_split (drop_str (String.length AuthSectionExprPrev) s)) as [H1 H2].
  destruct (span_no_hash _) as [a b]. cbn [fst snd] in *. destruct (String.eqb_spec a ""); [done|]. cbn [negb andb].
  destruct (has_prefix AuthSectionExprNext b) eqn:Hn; [|done]. apply has_prefix_split in Hn. intros _.
  exists a, (drop_str (String.length AuthSectionExprNext) b). split; [|done]. unfold sectioned.
  by rewrite <- Hn, <- H1.
Qed.
Lemma replace_auth_none new (s : string) :
  (forall pre body post, s = sectioned pre body post -> ~ fillable body) -> replace_auth new 0 s = s.
Proof.
  induction s as [|c s IH]; intros H; [done|]. cbn [replace_auth]. destruct (auth_match (String c s)) as [n|] eqn:E.
  - apply auth_match_some in E as (body & post & Hs & Hf). by destruct (H _ _ _ Hs).
  - rewrite IH; [done|]. intros pre body post ->. exact (H (String c pre) body post eq_refl).
Qed.
Lemma rewrite_republishes es old : republished es old (rewrite_config es old).
Proof.
  split; [|apply replace_auth_none]. intros pre body post -> [Hne Hb] Hpre Hpost. exists (section_body es). split.
  - unfold sectioned. rewrite rewrite_config_section by done. by rewrite new_section_body, !string_app_assoc.
  - apply read_section.
Qed.


(** ** The properties on a concrete configuration *)

Definition demo_pre : string := "Name predixy" +:+ lf +:+ "################# GENERAL ################" +:+ lf.
Definition demo_body : string := lf +:+ "Authority {" +:+ lf +:+ "}" +:+ lf.
Definition demo_post : string := lf +:+ "# the servers" +:+ lf +:+ "ClusterServerPool {" +:+ lf +:+ "}".
Definition demo_predixy : string :=
  demo_pre +:+ AuthSectionExprPrev +:+ demo_body +:+ AuthSectionExprNext +:+ demo_post.

Definition demo_entries : list auth_entry := [AuthUser "secret" "app" "cache"; AuthAdmin "root"].

Lemma rewrite_config_exact_witness :
  rewrite_config demo_entries demo_predixy =
  demo_pre +:+ (AuthSectionExprPrev +:+ lf +:+ GetUserAuthSections demo_entries +:+ lf +:+ AuthSectionExprNext)
    +:+ demo_post.
Proof. apply (rewrite_config_exact demo_entries demo_pre demo_body demo_post); [by vm_compute..|done|by vm_compute]. Defined.

Lemma rewrite_config_last_wins_witness :
  rewrite_config [AuthAdmin "root"] (rewrite_config demo_entries demo_predixy) =
  rewrite_config [AuthAdmin "root"] demo_predixy.
Proof.
  apply (rewrite_config_last_wins demo_entries [AuthAdmin "root"] demo_pre demo_body demo_post);
    [by vm_compute..|done|by vm_compute].
Defined.

Definition hash_entries : list auth_entry := [AuthUser "s#cret" "app" "cache"].
Definition hash_tail : string :=
  drop_str 1 (AuthSectionExprPrev +:+ section_body hash_entries +:+ AuthSectionExprNext +:+ demo_post).
Lemma hash_password_freezes_witness :
  rewrite_config [AuthAdmin "root"] (rewrite_config hash_entries demo_predixy) =
  rewrite_config hash_entries demo_predixy.
Proof.
  apply (hash_password_freezes hash_entries [AuthAdmin "root"] demo_pre demo_body demo_post hash_tail);
    [by vm_compute..|done|by vm_compute|by vm_compute|by vm_compute|by vm_compute].
Defined.



(** The section of the concrete configuration, written and read back. *)
Lemma demo_republished :
  exists body, rewrite_config demo_entries demo_predixy = sectioned demo_pre body demo_post /\
    read_auths body = Some [mkAuth "secret" (Some "write") (Some "app_cache"); mkAuth "root" (Some "write") None].
Proof.
  destruct (proj1 (rewrite_republishes demo_entries demo_predixy) demo_pre demo_body demo_post)
    as (body & -> & H); [done|by split|by vm_compute..|].
  exists body. split; [done|]. apply H. repeat constructor; done.
Qed.
