(* ===== verification/KVRocks.v ===== *)
(** * The kvrocks workload: [src/pkg/workload/kvrocks], its controller
    [src/cmd/middleware/operator/redixcluster/handler.go] and the Redis
    requests, [src/cmd/middleware/operator/middleware-request/handler_redis.go] *)

From S2P Require Import Prelude Effects Apr World Citus RedisCluster.

(** ** [templates.go] *)

Definition DefaultKVRocksImage : string := "beclab/kvrocks:0.1.1".
Definition KVRocksVolumeName : string := "kvrdata".
Definition KVRocksBackupVolumeName : string := "kvrbackup".
Definition KVRocksBackupDir : string := "/backup".
Definition KVRocksDataDir : string := "/var/lib/kvrocks-data".

Definition KVRocksStatefulSet : StatefulSet := {|
  sts_meta := mkMeta "kvrocks" "" {["managed-by" := "kvrocks-operator"]} ∅;
  sts_Replicas := Some 1%Z;
  sts_Template := {|
    pt_Labels := list_to_map [("app", "kvrocks"); ("app.kubernetes.io/name", "kvrocks");
                              ("app.bytetrade.io/middleware", "true"); ("pod-template-version", "v1.1")];
    pt_Containers := [ {|
      c_Name := "kvrocks";
      c_Image := DefaultKVRocksImage;
      c_ImagePullPolicy := "IfNotPresent";
      c_Command := ["kvrocks"; "-c"; KVRocksDataDir +:+ "/kvrocks.conf"; "--dir"; KVRocksDataDir;
                    "--backup-dir"; KVRocksBackupDir; "--pidfile"; "/var/run/kvrocks/kvrocks.pid";
                    "--bind"; "0.0.0.0"];
      c_Env := [ mkEnv "POD_NAME" "" (Some (FromField "metadata.name")) ];
      c_VolumeMounts := [ (KVRocksVolumeName, KVRocksDataDir, "");
                          (KVRocksBackupVolumeName, KVRocksBackupDir, "") ];
      c_Resources := None |} ];
    pt_Volumes := [ mkVolume KVRocksVolumeName (Some ""); mkVolume KVRocksBackupVolumeName (Some "") ];
    pt_PriorityClassName := "" |} |}.

Definition KVRocksService : Service :=
  mkService "" "" "" (list_to_map [("app", "kvrocks"); ("app.kubernetes.io/name", "kvrocks")]) [6379%Z].

(** ** Definition of the stateful set *)

Definition or_default (v d : string) : string := if String.eqb v "" then d else v.

Definition customise (kv : KVRocksSpec) (c : Container) : Container :=
  mkContainer (c_Name c) (or_default (kv_Image kv) (c_Image c))
    (or_default (kv_ImagePullPolicy kv) (c_ImagePullPolicy c)) (c_Command c) (c_Env c) (c_VolumeMounts c)
    (match kv_Resources kv with Some r => Some r | None => c_Resources c end).

(** The first container called [kvrocks]; the loop breaks after it. *)
Fixpoint customise_first (kv : KVRocksSpec) (cs : list Container) : list Container :=
  match cs with
  | [] => []
  | c :: cs' => if String.eqb (c_Name c) "kvrocks" then customise kv c :: cs'
                else c :: customise_first kv cs'
  end.

(** [Containers[0].Command = append(Containers[0].Command, args...)] *)
Definition append_command (args : list string) (cs : list Container) : list Container :=
  match cs with
  | [] => []
  | c :: cs' => mkContainer (c_Name c) (c_Image c) (c_ImagePullPolicy c) (c_Command c ++ args) (c_Env c)
                  (c_VolumeMounts c) (c_Resources c) :: cs'
  end.

Definition config_args (m : list (string * string)) : list string :=
  concat (map (fun '(k, v) => ["--" +:+ k; v]) m).

Definition GetKVRocksDefineByUser (user namespace : string) (def : RedixCluster) : io (res StatefulSet) :=
  if String.eqb user "" then Ret (Err (newErr "user name is empty"))
  else if negb (bool_decide (rxs_Type (rx_Spec def) = KVRocks))
  then Ret (Err (newErr "wrong redix cluster type"))
  else
    let? pvc := data_path user namespace "kvrocks-data-pvc" in
    let! kv := deref (rxs_KVRocks (rx_Spec def)) in
    let t := sts_Template KVRocksStatefulSet in
    let cs := customise_first kv (pt_Containers t) in
    let backup := match kv_BackupStorage kv with
                  | Some p => or_default p (pvc +:+ "/kvrbackup")
                  | None => pvc +:+ "/kvrbackup"
                  end in
    let vols := set_host_paths KVRocksVolumeName KVRocksBackupVolumeName (pvc +:+ "/kvrdata") backup (pt_Volumes t) in
    let! config := sys_call (RangeMap (kv_KVRocksConfig kv)) in
    let cs := append_command (config_args config) cs in
    let? password := GetVarValue (kv_Password kv) (om_Namespace (rx_meta def)) in
    let cs := if String.eqb password "" then cs else append_command ["--requirepass"; password] cs in
    Ret (Ok (mkSts (mkMeta (om_Name (rx_meta def)) namespace (om_Labels (sts_meta KVRocksStatefulSet))
                      (om_Annotations (sts_meta KVRocksStatefulSet)))
               (sts_Replicas KVRocksStatefulSet)
               (mkPodTemplate (pt_Labels t) cs vols (pt_PriorityClassName t)))).

(** ** Creating, updating, deleting *)

Definition rx_ns (def : RedixCluster) : string := om_Namespace (rx_meta def).
Definition rx_name (def : RedixCluster) : string := om_Name (rx_meta def).
Definition define_for_owner (def : RedixCluster) : io (res StatefulSet) :=
  let! kv := deref (rxs_KVRocks (rx_Spec def)) in
  GetKVRocksDefineByUser (kv_Owner kv) (rx_ns def) def.

Definition createKVRocks (def : RedixCluster) : io (res StatefulSet) :=
  let? sts := found (k8s_call (GetStatefulSet (rx_ns def) (rx_name def))) in
  match sts with
  | Some s => Ret (Ok s)
  | None =>
      let? s := define_for_owner def in
      k8s_call (CreateStatefulSet (rx_ns def) s)
  end.

(** Always the same service, whatever the cluster is called. *)
Definition getServiceName (clusterName : string) : string := "redis-cluster-proxy".

Definition createKVRocksService (clusterName namespace : string) : io (res unit) :=
  let svcName := getServiceName clusterName in
  let? svc := found (k8s_call (GetService namespace svcName)) in
  match svc with
  | Some _ => Ret (Ok tt)
  | None => k8s_call (CreateService namespace
              (mkService svcName namespace (svc_ClusterIP KVRocksService) (svc_Selector KVRocksService)
                 (svc_Ports KVRocksService)))
  end.

(** [wait.PollWithContext(ctx, time.Second, 10*time.Minute, ...)] *)
Definition KVWaitForPodRunning (namespace podname : string) : io (res string) :=
  do! sys_call (Sleep 2);
  Poll 600
    (let? pod := found (k8s_call (GetPod namespace podname)) in
     match pod with
     | None => Ret (Ok None)
     | Some p =>
         if pod_ready "kvrocks" p then
           do! sys_call (Sleep 5);
           Ret (Ok (Some (pod_IP p)))
         else Ret (Ok None)
     end).

Definition template_version (sts : StatefulSet) : string :=
  default "" (pt_Labels (sts_Template sts) !! "pod-template-version").

(** What [Get] gives besides the error when nothing is found: an empty object. *)
Definition empty_sts : StatefulSet := mkSts (mkMeta "" "" ∅ ∅) None (mkPodTemplate ∅ [] [] "").

(** [retry.RetryOnConflict(retry.DefaultRetry, ...)]: five attempts. *)
Definition update_template (def : RedixCluster) : io (res StatefulSet) :=
  RetryOnError 5 (isKind KConflict)
    (let? sts := k8s_call (GetStatefulSet (rx_ns def) (rx_name def)) in
     let? updateSts := define_for_owner def in
     k8s_call (UpdateStatefulSet (rx_ns def)
       (mkSts (sts_meta sts) (sts_Replicas sts) (sts_Template updateSts)))).

(** The typed client's [Get] never returns a nil pointer, so [oldSts != nil]
    holds also right after a creation: then the version of the empty object is
    compared. *)
Definition CreateOrUpdateKVRocks (def : RedixCluster) (isUpdated : bool) : io (res StatefulSet) :=
  let? oldSts := found (k8s_call (GetStatefulSet (rx_ns def) (rx_name def))) in
  do? (match oldSts with
       | Some s => Ret (Ok s)
       | None => createKVRocks def
       end);
  let retSts := default empty_sts oldSts in
  let? retSts :=
    (if isUpdated || negb (String.eqb (template_version retSts) (template_version KVRocksStatefulSet))
     then update_template def
     else Ret (Ok retSts)) in
  do? createKVRocksService (rx_name def) (rx_ns def);
  Ret (Ok retSts).

Definition ignore_not_found (r : res unit) : res unit :=
  match r with
  | Err e => if IsNotFound e then Ok tt else Err e
  | Ok u => Ok u
  end.

(** A missing service is tolerated, a missing stateful set is an error. *)
Definition DeleteKVRocks (def : RedixCluster) : io (res unit) :=
  let! r := k8s_call (DeleteService (rx_ns def) (getServiceName (rx_name def))) in
  do? Ret (ignore_not_found r);
  k8s_call (DeleteStatefulSet (rx_ns def) (rx_name def)).

(** ** The client *)

Record KVNamespace : Set := mkNamespace { ns_Name : string; ns_Token : string }.

Definition GetKVRocksClient (def : RedixCluster) : io (res string) :=
  let! kv := deref (rxs_KVRocks (rx_Spec def)) in
  let? password := GetVarValue (kv_Password kv) (rx_ns def) in
  let addr := getServiceName (rx_name def) +:+ ":" +:+ itoa (hd 0%Z (svc_Ports KVRocksService)) in
  let! r := rds_call (RdsPing addr password) in
  match r with
  | Ok _ => Ret (Ok addr)
  | Err e => do! rds_call (RdsClose addr); Ret (Err (newErr ("kvrocks connection error: " +:+ err_msg e)))
  end.

Definition NamespaceCmd (cli : string) (args : list string) : io (res RedisReply) :=
  rds_call (RdsDo cli ("namespace" :: args)).
(** A command that changes the namespaces, then [CONFIG REWRITE]. *)
Definition namespace_change (cli : string) (args : list string) : io (res unit) :=
  do? NamespaceCmd cli args;
  rds_call (RdsConfigRewrite cli).
Definition AddNamespace (cli namespace token : string) : io (res unit) :=
  namespace_change cli ["add"; namespace; token].
Definition UpdateNamespace (cli namespace token : string) : io (res unit) :=
  namespace_change cli ["set"; namespace; token].
Definition DeleteNamespace (cli namespace : string) : io (res unit) :=
  namespace_change cli ["del"; namespace].

(** [redis.Nil] is "not found". *)
Definition nil_is_none {A} (r : res A) : res (option A) :=
  match r with
  | Ok a => Ok (Some a)
  | Err e => if isKind KRedisNil e then Ok None else Err e
  end.

(** [cmd.String()] prints the command before its answer. *)
Definition cmd_String (args : list string) (r : RedisReply) : string :=
  join " " args +:+ ": " +:+
  match r with RStr s => s | RArr l => "[" +:+ join " " l +:+ "]" end.
Definition GetNamespace (cli namespace : string) : io (res (option KVNamespace)) :=
  let! r := NamespaceCmd cli ["get"; namespace] in
  let? v := Ret (nil_is_none r) in
  Ret (Ok (option_map (fun v => mkNamespace namespace (cmd_String ["namespace"; "get"; namespace] v)) v)).

(** Names and tokens alternate; [slice[i+1]] of an odd list panics. *)
Fixpoint pairs_of (l : list string) : io (res (list KVNamespace)) :=
  match l with
  | [] => Ret (Ok [])
  | [n] => if String.eqb n "__namespace" then Ret (Ok []) else Panic "index out of range"
  | n :: t :: l' =>
      let? rest := pairs_of l' in
      Ret (Ok (if String.eqb n "__namespace" then rest else mkNamespace n t :: rest))
  end.
Definition ListNamespace (cli : string) : io (res (list KVNamespace)) :=
  let! r := NamespaceCmd cli ["get"; "*"] in
  let? v := Ret (nil_is_none r) in
  match v with
  | None => Ret (Ok [])
  | Some (RStr _) => Ret (Err (newErr "redis: unexpected type=string for StringSlice"))
  | Some (RArr l) => pairs_of l
  end.

(** ** Backup and restore *)

Definition backupDir : string := KVRocksBackupDir +:+ "/backup".
Definition dbDir : string := KVRocksDataDir +:+ "/db".

(** [os.Stat], where a missing file is not an error. *)
Definition stat_if_exists (path : string) : io (res (option bool)) :=
  let! r := sys_call (Stat path) in
  match r with
  | Ok dir => Ret (Ok (Some dir))
  | Err e => if isKind KNotExist e then Ret (Ok None) else Ret (Err e)
  end.

(** The path of the backup, which the caller records in the status. *)
Definition BackupKVRocks (def : RedixCluster) (backup : KVRocksBackup) : io (res string) :=
  if negb (String.eqb (kvb_ClusterName backup) (rx_name def))
  then Ret (Err (newErr ("backup request is mismatch, " +:+ kvb_ClusterName backup +:+ " , " +:+ rx_name def)))
  else
    let? cli := GetKVRocksClient def in
    with_defer (rds_call (RdsClose cli))
      (let? fs := stat_if_exists backupDir in
       do? (match fs with
            | Some true => sys_call (RemoveAll backupDir)
            | Some false => sys_call (Remove backupDir)
            | None => Ret (Ok tt)
            end);
       let! r := rds_call (RdsBgSave cli) in
       match r with
       | Err e => Ret (Err (newErr ("kvrocks backup error: " +:+ err_msg e)))
       | Ok _ =>
           do? Poll 1800 (let? fs := stat_if_exists backupDir in
                          Ret (Ok (match fs with Some _ => Some tt | None => None end)));
           Ret (Ok backupDir)
       end).

(** Scaling the workload, and waiting for its pods to satisfy a condition; a
    failing list is retried. *)
Definition scale_kvrocks (def : RedixCluster) (replicas : Z) : io (res Scale) :=
  let? sts := k8s_call (GetScale (rx_ns def) (rx_name def)) in
  k8s_call (UpdateScale (sc_Namespace sts) (sc_Name sts) (mkScale (sc_Name sts) (sc_Namespace sts) replicas)).
Definition wait_pods (namespace : string) (done : list Pod -> bool) : io (res unit) :=
  Poll 300
    (let! pods := k8s_call (ListPods namespace "app=kvrocks") in
     match pods with
     | Err _ => Ret (Ok None)
     | Ok pods => Ret (Ok (if done pods then Some tt else None))
     end).
Definition no_pods (l : list Pod) : bool := match l with [] => true | _ => false end.

Definition RestoreKVRocks (def : RedixCluster) : io (res unit) :=
  let? isDir := sys_call (Stat backupDir) in
  if negb isDir then Ret (Err (newErr "invalid backup files"))
  else
    let? sts := scale_kvrocks def 0 in
    do? wait_pods (sc_Namespace sts) no_pods;
    do? (let? _ := sys_call (Stat dbDir) in Ret (Ok tt));
    do? sys_call (RemoveAll dbDir);
    do? sys_call (Rename backupDir dbDir);
    let? sts := scale_kvrocks def 1 in
    wait_pods (sc_Namespace sts) (fun l => negb (no_pods l)).

(** ** Backup and restore resources *)

Definition with_state (s : BackupStatus) (st : JobState) : BackupStatus :=
  mkBackupStatus st (bs_StartAt s) (bs_CompletedAt s) (bs_Error s) (bs_BackupPath s).
Definition with_rstate (s : RestoreStatus) (st : JobState) : RestoreStatus :=
  mkRestoreStatus st (rst_StartAt s) (rst_CompletedAt s) (rst_Error s).

(** The outcome of the wait for the deletion is not looked at. *)
Definition ForceCreateNewKVRocksBackup (backup : KVRocksBackup) : io (res unit) :=
  let ns := om_Namespace (kvb_meta backup) in
  let name := om_Name (kvb_meta backup) in
  let? currentBackup := found (apr_call (GetKVBackup ns name)) in
  do? (match currentBackup with
       | None => Ret (Ok tt)
       | Some b =>
           if bool_decide (bs_State (kvb_Status b) = StateRunning)
           then Ret (Err (newErr "duplicate kvrocks backup job"))
           else
             do? apr_call (DeleteKVBackup ns name);
             do! PollImmediate 3600 (gone (apr_call (GetKVBackup ns name)));
             Ret (Ok tt)
       end);
  apr_call (CreateKVBackup ns (mkKVRocksBackup (kvb_meta backup) (kvb_ClusterName backup)
              (with_state (kvb_Status backup) StateNew))).

(** A restore is created without waiting for the previous one to disappear. *)
Definition ForceCreateNewKVRocksRestore (restore : KVRocksRestore) : io (res unit) :=
  let ns := om_Namespace (kvr_meta restore) in
  let name := om_Name (kvr_meta restore) in
  let? currentRestore := found (apr_call (GetKVRestore ns name)) in
  do? (match currentRestore with
       | None => Ret (Ok tt)
       | Some r =>
           if bool_decide (rst_State (kvr_Status r) = StateRunning)
           then Ret (Err (newErr "duplicate restore job"))
           else apr_call (DeleteKVRestore ns name)
       end);
  apr_call (CreateKVRestore ns (mkKVRocksRestore (kvr_meta restore) (kvr_ClusterName restore)
              (kvr_BackupStorage restore) (with_rstate (kvr_Status restore) StateNew))).

(** [utilerrors.NewAggregate]: the distinct messages in brackets. *)
Fixpoint distinct (seen l : list string) : list string :=
  match l with
  | [] => []
  | m :: l' => if bool_decide (m ∈ seen) then distinct seen l' else m :: distinct (m :: seen) l'
  end.
Definition NewAggregate (msgs : list string) : gerr :=
  match distinct [] msgs with
  | [m] => newErr m
  | l => newErr ("[" +:+ join ", " l +:+ "]")
  end.

(** The condition of both waits: an error as soon as one job has failed, done
    when none is running or waiting. *)
Definition in_progress (s : JobState) : bool := bool_decide (s = StateRunning \/ s = StateWaiting).
Definition has_failed (s : JobState) : bool := bool_decide (s = StateRejected \/ s = StateError).
Definition all_complete {A} (state : A -> JobState) (failure : A -> string) (items : list A)
  : res (option unit) :=
  match map failure (base.filter (fun a => has_failed (state a) = true) items) with
  | [] => Ok (if existsb (fun a => in_progress (state a)) items then None else Some tt)
  | errs => Err (NewAggregate errs)
  end.
Definition backup_failure (b : KVRocksBackup) : string :=
  "backup kvrocks failed, " +:+ bs_Error (kvb_Status b) +:+ ", " +:+ om_Name (kvb_meta b) +:+ ", " +:+
  om_Namespace (kvb_meta b).
Definition restore_failure (r : KVRocksRestore) : string :=
  "restore kvrocks failed, " +:+ rst_Error (kvr_Status r) +:+ ", " +:+ om_Name (kvr_meta r) +:+ ", " +:+
  om_Namespace (kvr_meta r).

(** [5*time.Second, time.Hour]: at most 720 ticks; a list that is not found
    counts as not done. *)
Definition WaitForAllBackupComplete : io (res unit) :=
  Poll 720 (let? backups := found (apr_call ListKVBackups) in
            Ret (match backups with
                 | None => Ok None
                 | Some l => all_complete (fun b => bs_State (kvb_Status b)) backup_failure l
                 end)).
Definition WaitForAllRestoreComplete : io (res unit) :=
  Poll 720 (let? restores := found (apr_call ListKVRestores) in
            Ret (match restores with
                 | None => Ok None
                 | Some l => all_complete (fun r => rst_State (kvr_Status r)) restore_failure l
                 end)).

(** ** [redixcluster/handler.go] *)

Inductive Action : Set := UNKNOWN | ADD | UPDATE | DELETE.
#[export] Instance Action_eq_dec : EqDecision Action.
Proof. solve_decision. Defined.

Definition redix_handler (action : Action) (obj : option RedixCluster) : io (res unit) :=
  match obj with
  | None => Ret (Err (newErr "invalid object"))
  | Some cluster =>
      match rxs_Type (rx_Spec cluster) with
      | KVRocks =>
          match action with
          | ADD =>
              let? sts := CreateOrUpdateKVRocks cluster false in
              do? KVWaitForPodRunning (sts_Namespace sts) (sts_Name sts +:+ "-0");
              Ret (Ok tt)
          | UPDATE => let? _ := CreateOrUpdateKVRocks cluster true in Ret (Ok tt)
          | DELETE => DeleteKVRocks cluster
          | UNKNOWN => Ret (Ok tt)
          end
      | _ => Ret (Ok tt)
      end
  end.

(** ** [handler_redis.go] *)

Definition GetKVRocksNamespaceName (reqNamespace dbNamespace : string) : string :=
  reqNamespace +:+ "_" +:+ dbNamespace.
Definition request_namespace (req : MiddlewareRequest) : string :=
  GetKVRocksNamespaceName (mr_Namespace req) (redis_Namespace (ms_Redis (mr_Spec req))).

(** Every namespace holding the new token is deleted; failures are logged. *)
Definition delete_by_token (cli token : string) (allns : list KVNamespace) : io unit :=
  fold_all (fun _ n => if String.eqb (ns_Token n) token
                       then let! _ := DeleteNamespace cli (ns_Name n) in Ret tt
                       else Ret tt) allns tt.

Definition createOrUpdateKVRocksRequest (req : MiddlewareRequest) (cluster : RedixCluster) (isUpdate : bool)
  : io (res unit) :=
  let? cli := GetKVRocksClient cluster in
  with_defer (rds_call (RdsClose cli))
    (let? token := GetVarValue (redis_Password (ms_Redis (mr_Spec req))) (mr_Namespace req) in
     let? ns := GetNamespace cli (request_namespace req) in
     match ns with
     | None =>
         do? (if isUpdate then
                let? allns := ListNamespace cli in
                let! _ := delete_by_token cli token allns in
                Ret (Ok tt)
              else Ret (Ok tt));
         AddNamespace cli (request_namespace req) token
     | Some _ => UpdateNamespace cli (request_namespace req) token
     end).

Definition deleteKVRocksRequest (req : MiddlewareRequest) (cluster : RedixCluster) : io (res unit) :=
  let? cli := GetKVRocksClient cluster in
  with_defer (rds_call (RdsClose cli))
    (let? ns := GetNamespace cli (request_namespace req) in
     match ns with
     | None => Ret (Ok tt)
     | Some _ => DeleteNamespace cli (request_namespace req)
     end).

(** The first cluster of the platform namespace decides. *)
Definition for_redix_cluster (on_kvrocks : RedixCluster -> io (res unit)) : io (res unit) :=
  let? clusters := apr_call (ListRedixClusters "os-platform") in
  match clusters with
  | [] => Ret (Ok tt)
  | cluster :: _ =>
      match rxs_Type (rx_Spec cluster) with
      | RedisCluster => UpdateProxyConfig
      | KVRocks => on_kvrocks cluster
      | _ => Ret (Ok tt)
      end
  end.
Definition createOrUpdateRedixRequest (req : MiddlewareRequest) (isUpdate : bool) : io (res unit) :=
  for_redix_cluster (fun cluster => createOrUpdateKVRocksRequest req cluster isUpdate).
Definition deleteRedixRequest (req : MiddlewareRequest) : io (res unit) :=
  for_redix_cluster (deleteKVRocksRequest req).
