(* ===== verification/KVRocksSpec.v ===== *)
(** * What the kvrocks operations guarantee *)

From S2P Require Import Prelude Effects Apr World Demo Citus RedisCluster RedisClusterSpec KVRocks.

(** ** Restoring *)

Section Restore.
Context (def : RedixCluster).

(** Scaling the workload of [def] to [n]: its scale is read, and written back
    under the name that was read. *)
Definition scaling (n : Z) (read written : Scale) : history :=
  [ev (K8s (GetScale (rx_ns def) (rx_name def))) (Ok read);
   ev (K8s (UpdateScale (sc_Namespace read) (sc_Name read) (mkScale (sc_Name read) (sc_Namespace read) n))) (Ok written)].
(** A list of the pods that carry the label the workload gives its pods. *)
Definition pod_selector : string := "app=" +:+ default "" (pt_Labels (sts_Template KVRocksStatefulSet) !! "app").
Definition pods_seen (sc : Scale) (l : list Pod) : event resp :=
  ev (K8s (ListPods (sc_Namespace sc) pod_selector)) (Ok l).

Definition backup_checked (tr : history) : Prop := ev (Sys (Stat backupDir)) (Ok true) ∈ tr.
(** The workload was scaled to zero, and later none of its pods was there. *)
Definition stopped_and_gone (tr : history) : Prop :=
  exists tr1 read written tr2 tr3, tr = tr1 ++ scaling 0 read written ++ tr2 ++ pods_seen written [] :: tr3.
(** The backup was moved in place, then the workload scaled to one, and at last
    a pod of it was there. *)
Definition moved_and_started (tr : history) : Prop :=
  exists tr1 read written tr2 p l,
    tr = tr1 ++ ev (Sys (Rename backupDir dbDir)) (Ok tt) :: scaling 1 read written ++ tr2 ++ [pods_seen written (p :: l)].

(** What is asked of a call that removes something, after the calls [h]. *)
Definition harmless (o : op) : Prop := match o with Sys (RemoveAll _) => False | _ => True end.
Definition keeps_data (h : history) (e : event resp) : Prop :=
  forall p, projT1 e = Sys (RemoveAll p) -> p = dbDir /\ backup_checked h /\ stopped_and_gone h.
Lemma keeps_data_other h o r : harmless o -> keeps_data h (ev o r).
Proof. intros Ho p E. cbn in E. by subst o. Qed.
Lemma keeps_quiet {A} (m : io A) h :
  issues harmless m -> always keeps_data h -> wp trace_step m (fun h' _ => always keeps_data h') h.
Proof. apply wp_always_issues. intros h' o r. apply keeps_data_other. Qed.
(** A part that removes nothing, and what is known when it is done. *)
Lemma data_kept_after {A B} (m : io (res A)) (f : A -> io (res B)) h :
  issues harmless m -> always keeps_data h ->
  (forall tr a, runs m tr (Returned (Ok a)) -> always keeps_data (h ++ tr) ->
     wp trace_step (f a) (fun h' _ => always keeps_data h') (h ++ tr)) ->
  wp trace_step (bind_ok m f) (fun h' _ => always keeps_data h') h.
Proof.
  intros Hm Hh Hf. rewrite wp_bind_ok, wp_runs. intros tr out Hr.
  pose proof (proj1 (wp_runs _ _ _ _) (keeps_quiet m h Hm Hh) tr out Hr) as Ha.
  rewrite fold_trace_step in *. destruct out as [[a|e]|w]; auto.
Qed.

Lemma scale_kvrocks_returned n tr sc :
  runs (scale_kvrocks def n) tr (Returned (Ok sc)) -> exists read, tr = scaling n read sc.
Proof. intros (tr1 & tr2 & read & -> & H1 & H2)%runs_bind_ok_returned. call_inv H1. call_inv H2. by exists read. Qed.
Lemma wait_pods_returned sc done tr :
  runs (wait_pods (sc_Namespace sc) done) tr (Returned (Ok tt)) ->
  exists tr1 l, tr = tr1 ++ [pods_seen sc l] /\ done l = true.
Proof.
  intros (tr1 & tr2 & -> & H)%WaitFor_returned. exists tr1.
  apply runs_bind_returned in H as (tr3 & tr4 & r & -> & H1 & H2). call_inv H1.
  destruct r as [l|e]; ret_inv H2. exists l. split; [done|]. by destruct (done l).
Qed.
Lemma no_pods_nil l : no_pods l = true -> l = [].
Proof. by destruct l. Qed.

(** Every deletion, whatever is answered. *)
Lemma keeps_restore : wp trace_step (RestoreKVRocks def) (fun h _ => always keeps_data h) [].
Proof.
  unfold RestoreKVRocks. apply data_kept_after; [by issues_walk|apply always_nil|].
  intros tr1 isDir H1 Ha1. call_inv H1. cbn [app] in *.
  destruct isDir; [|by apply keeps_quiet]. cbn [negb].
  apply data_kept_after; [by issues_walk|done|]. intros tr2 sc H2 Ha2.
  apply scale_kvrocks_returned in H2 as (read & ->).
  apply data_kept_after; [by issues_walk|done|]. intros tr3 [] H3 Ha3.
  apply wait_pods_returned in H3 as (tr4 & l & -> & ->%no_pods_nil).
  apply data_kept_after; [by issues_walk|done|]. intros tr5 [] H5 Ha5.
  set (h := _ ++ tr5) in *.
  assert (Hh : backup_checked h /\ stopped_and_gone h).
  { subst h. split; [unfold backup_checked; set_solver|].
    exists [ev (Sys (Stat backupDir)) (Ok true)], read, sc, tr4, tr5. by rewrite <- !app_assoc. }
  clearbody h. rewrite wp_bind_ok. intros r.
  assert (Ha : always keeps_data (trace_step h (ev (Sys (RemoveAll dbDir)) r))).
  { apply always_snoc. split; [done|]. by intros p [= <-]. }
  destruct r as [u|e]; cbn [wp]; [|done]. apply keeps_quiet; [by issues_walk|done].
Qed.
Lemma restore_returned tr : runs (RestoreKVRocks def) tr (Returned (Ok tt)) -> moved_and_started tr.
Proof.
  intros (tr1 & tr2 & isDir & -> & _ & H)%runs_bind_ok_returned.
  destruct isDir; [|by apply runs_inv in H as [_ [=]]]. cbn [negb] in H.
  apply runs_bind_ok_returned in H as (ta & tb & sc0 & -> & _ & H).
  apply runs_bind_ok_returned in H as (tc & td & u & -> & _ & H).
  apply runs_bind_ok_returned in H as (te & tf & v & -> & _ & H).
  apply runs_bind_ok_returned in H as (tg & th & w & -> & _ & H).
  apply runs_bind_ok_returned in H as (tr3 & tr4 & [] & -> & H1 & H). call_inv H1.
  apply runs_bind_ok_returned in H as (tr5 & tr6 & sc & -> & (read & ->)%scale_kvrocks_returned & H).
  apply wait_pods_returned in H as (tr7 & l & -> & Hl). destruct l as [|p l]; [done|].
  exists (tr1 ++ ta ++ tc ++ te ++ tg), read, sc, tr7, p, l. by rewrite <- !app_assoc.
Qed.

(** C4: A kvrocks restore never deletes anything but the database directory,
    and that only when the backup was found to be a directory, the workload of
    the cluster was scaled to zero and afterwards no pod with the label of its
    pods was there; when the restore succeeds, the backup has been moved in place
    of the database, the same workload scaled to one after it, and a pod of it was
    there at last. *)
Theorem RestoreKVRocks_protects_data tr out :
  runs (RestoreKVRocks def) tr out ->
  (forall tr1 p r tr2, tr = tr1 ++ ev (Sys (RemoveAll p)) r :: tr2 ->
     p = dbDir /\ backup_checked tr1 /\ stopped_and_gone tr1) /\
  (out = Returned (Ok tt) -> moved_and_started tr).
Proof.
  intros Hr. split.
  - assert (Ha : always keeps_data tr); [|intros tr1 p r tr2 E; by apply (Ha _ _ _ E)].
    revert tr out Hr. apply (proj1 (wp_trace _ (fun h _ => always keeps_data h))). apply keeps_restore.
  - intros ->. by apply restore_returned.
Qed.
End Restore.

(** ** Starting a backup *)

Definition new_backup (b : KVRocksBackup) : KVRocksBackup :=
  mkKVRocksBackup (kvb_meta b) (kvb_ClusterName b) (with_state (kvb_Status b) StateNew).
Definition get_backup (b : KVRocksBackup) : op :=
  Apr (GetKVBackup (om_Namespace (kvb_meta b)) (om_Name (kvb_meta b))).
Definition waits_for (b : KVRocksBackup) (o : op) : Prop := o = Sys PollTick \/ o = get_backup b.

Lemma wait_gone_runs b tr out :
  runs (PollImmediate 3600 (gone (apr_call (GetKVBackup (om_Namespace (kvb_meta b)) (om_Name (kvb_meta b))))))
    tr out ->
  Forall (fun e => waits_for b (projT1 e)) tr /\ exists r, out = Returned r.
Proof.
  set (cond := gone _).
  assert (Hi : issues (waits_for b) cond).
  { split; [by right|]. intros [x|e]; cbn; [done|]. by destruct (IsNotFound e). }
  intros H. split.
  - apply (issues_runs (waits_for b) _) in H; [done|]. apply issues_PollImmediate; [by left|exact Hi].
  - destruct out as [r|w]; [by exists r|]. exfalso. revert H.
    apply survives_PollImmediate, survives_gone. exact (survives_call (Apr (GetKVBackup _ _))).
Qed.

(** Forcing a new backup first looks at the job of that name.  A running
    job is left alone and the call refused, without touching anything; any
    other job is deleted, its disappearance awaited (a wait that only looks, and
    whose outcome does not matter), and then the requested job created in
    state new; so does a job that was not there, and the answer of the creation
    is the answer of the call. *)
Theorem force_backup_exact b tr out :
  runs (ForceCreateNewKVRocksBackup b) tr out ->
  let ns := om_Namespace (kvb_meta b) in let name := om_Name (kvb_meta b) in
  exists current tr', tr = ev (Apr (GetKVBackup ns name)) current :: tr' /\
  match current with
  | Ok old =>
      if bool_decide (bs_State (kvb_Status old) = StateRunning)
      then tr' = [] /\ out = Returned (Err (newErr "duplicate kvrocks backup job"))
      else exists deleted rest, tr' = ev (Apr (DeleteKVBackup ns name)) deleted :: rest /\
        match deleted with
        | Err e => rest = [] /\ out = Returned (Err e)
        | Ok _ => exists waited created,
            rest = waited ++ [ev (Apr (CreateKVBackup ns (new_backup b))) created] /\
            Forall (fun e => waits_for b (projT1 e)) waited /\ out = Returned created
        end
  | Err e =>
      if IsNotFound e
      then exists created, tr' = [ev (Apr (CreateKVBackup ns (new_backup b))) created] /\ out = Returned created
      else tr' = [] /\ out = Returned (Err e)
  end.
Proof.
  intros H. apply runs_inv in H as (current & tr' & -> & H). exists current, tr'. split; [done|].
  destruct current as [old|e]; cbn -[PollImmediate] in H.
  - destruct (bool_decide _); cbn -[PollImmediate] in H; [by apply runs_inv in H as [-> ->]|].
    apply runs_inv in H as (deleted & rest & -> & H). exists deleted, rest. split; [done|].
    destruct deleted as [u|e]; cbn -[PollImmediate] in H; [|by apply runs_inv in H as [-> ->]].
    apply runs_bind_inv in H as [(tr1 & tr2 & a & -> & H1 & H2)|(w & -> & H)].
    + apply runs_bind_inv in H1 as [(tr3 & tr4 & a' & -> & H3 & H4)|(w & [=] & _)].
      apply runs_inv in H4 as [-> [= ->]]. rewrite app_nil_r.
      apply wait_gone_runs in H3 as [Hw _].
      apply runs_inv in H2 as (created & tr5 & -> & H2). apply runs_inv in H2 as [-> ->].
      exists tr3, created. done.
    + apply runs_bind_inv in H as [(tr3 & tr4 & a' & -> & H3 & H4)|(w' & [= <-] & H)].
      * by apply runs_inv in H4 as [_ [=]].
      * by apply wait_gone_runs in H as [_ [r [=]]].
  - destruct (IsNotFound e); cbn in H; [|by apply runs_inv in H as [-> ->]].
    apply runs_inv in H as (created & tr5 & -> & H2). apply runs_inv in H2 as [-> ->]. by exists created.
Qed.

(** ** Waiting for all of them *)

Definition failed_backup (b : KVRocksBackup) : Prop :=
  bs_State (kvb_Status b) = StateRejected \/ bs_State (kvb_Status b) = StateError.
Definition pending_backup (b : KVRocksBackup) : Prop :=
  bs_State (kvb_Status b) = StateRunning \/ bs_State (kvb_Status b) = StateWaiting.

Lemma all_complete_cases {A} (state : A -> JobState) failure (l : list A) :
  match all_complete state failure l with
  | Ok (Some _) => Forall (fun a => ~ (state a = StateRejected \/ state a = StateError) /\
                                  ~ (state a = StateRunning \/ state a = StateWaiting)) l
  | Ok None => Forall (fun a => ~ (state a = StateRejected \/ state a = StateError)) l /\
               Exists (fun a => state a = StateRunning \/ state a = StateWaiting) l
  | Err _ => Exists (fun a => state a = StateRejected \/ state a = StateError) l
  end.
Proof.
  unfold all_complete.
  set (bad := base.filter _ l). assert (Hb : forall a, a ∈ bad <-> (state a = StateRejected \/ state a = StateError) /\ a ∈ l).
  { intros a. subst bad. rewrite list_elem_of_filter. unfold has_failed. by rewrite bool_decide_eq_true. }
  destruct bad as [|a0 bad]; cbn [map].
  - assert (Hok : Forall (fun a => ~ (state a = StateRejected \/ state a = StateError)) l).
    { apply Forall_forall. intros a Ha Hf. by eapply elem_of_nil, Hb. }
    destruct (existsb _ l) eqn:E.
    + split; [done|]. apply existsb_exists in E as (a & Ha & Hs).
      apply Exists_exists. exists a. split; [by apply list_elem_of_In|]. by apply bool_decide_eq_true in Hs.
    + apply Forall_forall. intros a Ha. split; [by apply (proj1 (Forall_forall _ _) Hok)|].
      intros Hs. apply not_true_iff_false in E. apply E, existsb_exists.
      exists a. split; [by apply list_elem_of_In|]. by apply bool_decide_eq_true.
  - apply Exists_exists. exists a0. destruct (proj1 (Hb a0)) as [H1 H2]; [left|done].
Qed.

Definition list_answer (l : list KVRocksBackup) : event resp := ev (Apr ListKVBackups) (Ok l).
Definition answered_list (e : event resp) : option (list KVRocksBackup) :=
  match e with existT (Apr ListKVBackups) (Ok l) => Some l | _ => None end.
Lemma list_answer_inj l l' : list_answer l = list_answer l' -> l = l'.
Proof. intros H. by apply (f_equal answered_list) in H as [= ->]. Qed.
(** No list that was answered showed a failed backup. *)
Definition no_failure_seen (tr : history) : Prop :=
  forall l, list_answer l ∈ tr -> ~ Exists failed_backup l.

(** New, requested or ready: a backup that does not hold the wait up. *)
Definition unhindering (b : KVRocksBackup) : Prop :=
  bs_State (kvb_Status b) ∈ [StateNew; StateRequested; StateReady].
Lemma unhindering_spec b : unhindering b <-> ~ failed_backup b /\ ~ pending_backup b.
Proof.
  unfold unhindering, failed_backup, pending_backup. destruct (bs_State _); split; try set_solver.
  all: intros [H1 H2]; exfalso; auto.
Qed.
Lemma wait_backups_returned tr out :
  runs WaitForAllBackupComplete tr out ->
  match out with
  | Returned (Ok _) => exists tr' l, tr = tr' ++ [list_answer l] /\ no_failure_seen tr /\
      Forall (fun b => ~ failed_backup b /\ ~ pending_backup b) l
  | Returned (Err _) => no_failure_seen tr \/
      exists tr' l, tr = tr' ++ [list_answer l] /\ no_failure_seen tr' /\ Exists failed_backup l
  | Panicked _ => False
  end.
Proof.
  revert tr out. apply wp_trace. unfold WaitForAllBackupComplete.
  assert (Hsnoc : forall h (e : event resp), no_failure_seen h -> (forall l, e = list_answer l -> ~ Exists failed_backup l) ->
    no_failure_seen (h ++ [e])).
  { intros h e Hh He l. rewrite elem_of_app, list_elem_of_singleton. intros [Hl|Hl]; [by apply Hh|by apply He]. }
  apply (wp_WaitFor trace_step no_failure_seen); [| |by intros h e Hh; left|by intros l Hl%elem_of_nil].
  { intros h r Hh. apply Hsnoc; [done|]. intros l [=]. }
  intros h Hh. cbn -[all_complete]. unfold trace_step. intros [l|e]; cbn -[all_complete].
  - pose proof (all_complete_cases (fun b => bs_State (kvb_Status b)) backup_failure l) as Hc.
    destruct (all_complete _ _ _) as [[u|]|e]; cbn.
    + exists h, l. split_and!; [done| |exact Hc]. apply Hsnoc; [done|]. intros l' <-%list_answer_inj. intros He%Exists_exists. destruct He as (b & Hb & Hf).
      by destruct (proj1 (Forall_forall _ _) Hc b Hb) as [Hn _].
    + destruct Hc as [Hc _]. apply Hsnoc; [done|]. intros l' <-%list_answer_inj.
      intros (b & Hb & Hf)%Exists_exists. by apply (proj1 (Forall_forall _ _) Hc b Hb).
    + right. by exists h, l.
  - destruct (IsNotFound e); cbn; [|left]; apply Hsnoc; try done; by intros l Hl%(f_equal answered_list).
Qed.

(** C18: The wait for all backups succeeds only right after a list in which
    every backup is new, requested or ready, and no list seen on the way had a
    failed one; it fails only when a list had a failed backup, which is then the
    last thing it looked at, or when it gave up or a list could not be had; it
    never panics.  A backup that has not been started does not hold it up: the
    first such list ends it with success, whatever new or requested ones it has. *)
Theorem WaitForAllBackupComplete_exact :
  (forall tr out, runs WaitForAllBackupComplete tr out ->
    match out with
    | Returned (Ok _) => exists tr' l, tr = tr' ++ [list_answer l] /\ no_failure_seen tr /\ Forall unhindering l
    | Returned (Err _) => no_failure_seen tr \/
        exists tr' l, tr = tr' ++ [list_answer l] /\ no_failure_seen tr' /\ Exists failed_backup l
    | Panicked _ => False
    end) /\
  forall l, Forall unhindering l ->
    runs WaitForAllBackupComplete [ev (Sys PollTick) (Ok tt : res unit); list_answer l] (Returned (Ok tt)).
Proof.
  split.
  - intros tr out H%wait_backups_returned. destruct out as [[u|e]|w]; [|done..].
    destruct H as (tr' & l & -> & Hn & Hl). exists tr', l. split_and!; [done|done|].
    eapply Forall_impl; [exact Hl|]. intros b. apply unhindering_spec.
  - intros l Hl. apply WaitFor_at_once. apply runs_vis. cbn -[all_complete].
    pose proof (all_complete_cases (fun b => bs_State (kvb_Status b)) backup_failure l) as Hc.
    assert (Hu : forall b, b ∈ l -> ~ failed_backup b /\ ~ pending_backup b).
    { intros b Hb. apply unhindering_spec. by rewrite Forall_forall in Hl; apply Hl. }
    destruct (all_complete _ _ _) as [[[]|]|e]; [constructor| |].
    + destruct Hc as [_ (b & Hb & Hp)%Exists_exists]. by destruct (Hu b Hb).
    + apply Exists_exists in Hc as (b & Hb & Hf). by destruct (Hu b Hb).
Qed.

(** ** Redis requests on kvrocks *)

(** The commands a run sent to kvrocks, with the answers. *)
Definition command (e : event resp) : option (list string * res RedisReply) :=
  match e with existT (Rds (RdsDo _ args)) r => Some (args, r) | _ => None end.
Definition commands (tr : history) : list (list string * res RedisReply) := omap command tr.

Lemma commands_app tr1 tr2 : commands (tr1 ++ tr2) = commands tr1 ++ commands tr2.
Proof. apply omap_app. Qed.

Definition no_command (o : op) : Prop := match o with Rds (RdsDo _ _) => False | _ => True end.
Lemma commands_none {A} (m : io A) tr out : issues no_command m -> runs m tr out -> commands tr = [].
Proof.
  intros Hi Hr. apply (issues_runs _ _ Hi) in Hr. induction Hr as [|[o r] tr Ho _ IH]; [done|].
  unfold commands in *. cbn. by destruct o as [| | |[]| | | |].
Qed.

Lemma no_command_GetVarValue p ns : issues no_command (GetVarValue p ns).
Proof.
  unfold GetVarValue. destruct (negb _); [done|]. destruct (pv_ValueFrom p) as [src|]; [|done].
  destruct (pvs_SecretKeyRef src); [|done]. split; [done|]. by intros [sec|e].
Qed.
Lemma no_command_client def : issues no_command (GetKVRocksClient def).
Proof.
  unfold GetKVRocksClient. destruct (rxs_KVRocks (rx_Spec def)) as [kv|]; [|done]. cbn [deref bind].
  apply issues_bind_ok; [apply no_command_GetVarValue|]. intros pwd.
  split; [done|]. intros [u|e]; cbn; [done|]. split; [done|]. by intros [].
Qed.

Definition cmd_get (name : string) : list string := ["namespace"; "get"; name].
Definition cmd_add (name token : string) : list string := ["namespace"; "add"; name; token].
Definition cmd_set (name token : string) : list string := ["namespace"; "set"; name; token].
Definition cmd_del (name : string) : list string := ["namespace"; "del"; name].

Lemma namespace_change_returned cli args tr :
  runs (namespace_change cli args) tr (Returned (Ok tt)) ->
  exists v, tr = [ev (Rds (RdsDo cli ("namespace" :: args))) (Ok v); ev (Rds (RdsConfigRewrite cli)) (Ok tt)].
Proof.
  intros (tr1 & tr2 & v & -> & H1 & H2)%runs_bind_ok_returned. call_inv H1. call_inv H2. by exists v.
Qed.

(** Names and tokens alternate; the server's own namespace is left out. *)
Fixpoint namespaces_of (l : list string) : list KVNamespace :=
  match l with
  | n :: t :: l' => if String.eqb n "__namespace" then namespaces_of l' else mkNamespace n t :: namespaces_of l'
  | _ => []
  end.
Definition listing (r : res RedisReply) : list KVNamespace :=
  match r with Ok (RArr l) => namespaces_of l | _ => [] end.

Lemma pairs_of_returned n l tr xs :
  length l <= n -> runs (pairs_of l) tr (Returned (Ok xs)) -> tr = [] /\ xs = namespaces_of l.
Proof.
  revert l tr xs. induction n as [|n IH]; intros [|a [|t l]] tr xs Hn H; cbn in Hn; try lia; cbn in H.
  - by ret_inv H.
  - by ret_inv H.
  - destruct (String.eqb a _); by ret_inv H.
  - apply runs_bind_ok_returned in H as (tr1 & tr2 & ys & -> & H1 & H2).
    apply IH in H1 as [-> ->]; [|lia]. ret_inv H2. by cbn; destruct (String.eqb a _).
Qed.

Lemma ListNamespace_returned cli tr xs :
  runs (ListNamespace cli) tr (Returned (Ok xs)) ->
  exists r, tr = [ev (Rds (RdsDo cli (cmd_get "*"))) r] /\ xs = listing r.
Proof.
  intros (tr1 & tr2 & r & -> & H1 & H2)%runs_bind_returned. call_inv H1. exists r.
  destruct r as [[s|l]|e]; cbn in H2.
  - by ret_inv H2.
  - by apply (pairs_of_returned (length l)) in H2 as [-> ->].
  - destruct (isKind _ e); cbn in H2; by ret_inv H2.
Qed.

Lemma GetNamespace_returned cli name tr ns :
  runs (GetNamespace cli name) tr (Returned (Ok ns)) ->
  exists r, tr = [ev (Rds (RdsDo cli (cmd_get name))) r] /\
    match r with
    | Ok v => ns = Some (mkNamespace name (cmd_String (cmd_get name) v))
    | Err e => err_kind e = KRedisNil /\ ns = None
    end.
Proof.
  intros (tr1 & tr2 & r & -> & H1 & H2)%runs_bind_returned. call_inv H1. exists r.
  destruct r as [v|e]; cbn in H2; [by ret_inv H2|].
  unfold isKind in H2. case_bool_decide; cbn in H2; by ret_inv H2.
Qed.

(** Exactly the namespaces holding the token are deleted, in order, whoever
    they belong to, and whatever the answers. *)
Lemma delete_by_token_runs cli token l tr out :
  runs (delete_by_token cli token l) tr out ->
  out = Returned tt /\
  map fst (commands tr) = map (fun n => cmd_del (ns_Name n)) (base.filter (fun n => ns_Token n = token) l).
Proof.
  revert tr. induction l as [|n l IH]; intros tr H; [by apply runs_inv in H as [-> ->]|].
  unfold delete_by_token in H. cbn [fold_all] in H. fold (delete_by_token cli token l) in H.
  destruct (String.eqb_spec (ns_Token n) token) as [E|E]; cbn in H.
  - rewrite filter_cons_True by done. apply runs_inv in H as (r & tr1 & -> & H). cbn. destruct r as [v|e]; cbn in H.
    + apply runs_inv in H as (r & tr2 & -> & H). apply IH in H as [-> H]. split; [done|]. by f_equal.
    + apply IH in H as [-> H]. split; [done|]. by f_equal.
  - rewrite filter_cons_False by done. by apply IH.
Qed.

Definition closes_after_rewrite (cli : string) (tr : history) : Prop :=
  exists tr', tr = tr' ++ [ev (Rds (RdsConfigRewrite cli)) (Ok tt); ev (Rds (RdsClose cli)) tt].

Lemma change_closes cli args tr tr' u :
  runs (namespace_change cli args) tr (Returned (Ok tt)) -> runs (rds_call (RdsClose cli)) tr' (Returned u) ->
  closes_after_rewrite cli (tr ++ tr') /\ exists v, commands tr = [("namespace" :: args, Ok v)] /\ commands tr' = [].
Proof.
  intros (v & ->)%namespace_change_returned H. call_inv H. destruct u. split; [|by exists v].
  by exists [ev (Rds (RdsDo cli ("namespace" :: args))) (Ok v)].
Qed.

Lemma closes_app cli tr tr' : closes_after_rewrite cli tr' -> closes_after_rewrite cli (tr ++ tr').
Proof. intros [t ->]. exists (tr ++ t). by rewrite app_assoc. Qed.

(** C16: What a successful Redis request sends to kvrocks, command by command.
    An existing namespace gets the request's password as its token.  A missing
    one is added with it; before that, when the request is an update, every
    namespace of the server whose token equals the password is deleted (in the
    order of the listing, whichever request it belongs to, and whether or not
    the deletions succeed).  The change is then made persistent and the
    connection closed. *)
Theorem redis_request_exact req cluster isUpdate tr :
  runs (createOrUpdateKVRocksRequest req cluster isUpdate) tr (Returned (Ok tt)) ->
  let name := request_namespace req in
  exists cli token,
    resolved_in tr (mr_Namespace req) (redis_Password (ms_Redis (mr_Spec req))) token /\
    closes_after_rewrite cli tr /\
    ((exists v w, commands tr = [(cmd_get name, Ok v); (cmd_set name token, Ok w)]) \/
     (exists e w, isUpdate = false /\ err_kind e = KRedisNil /\
        commands tr = [(cmd_get name, Err e); (cmd_add name token, Ok w)]) \/
     (exists e all deletions w, isUpdate = true /\ err_kind e = KRedisNil /\
        commands tr = (cmd_get name, Err e) :: (cmd_get "*", all) :: deletions ++ [(cmd_add name token, Ok w)] /\
        map fst deletions =
          map (fun n => cmd_del (ns_Name n)) (base.filter (fun n => ns_Token n = token) (listing all)))).
Proof.
  intros (tr1 & tr2 & cli & -> & H1 & H)%runs_bind_ok_returned name.
  apply commands_none in H1; [|apply no_command_client].
  apply runs_defer_returned in H as (tr3 & tr4 & -> & H & Hc).
  apply runs_bind_ok_returned in H as (tr5 & tr6 & token & -> & Ht & H).
  exists cli, token. split.
  { apply GetVarValue_returned in Ht. eapply resolved_in_sub; [|exact Ht]. set_solver. }
  apply commands_none in Ht; [|apply no_command_GetVarValue].
  rewrite !commands_app, H1, Ht. cbn [app].
  apply runs_bind_ok_returned in H as (tr7 & tr8 & ns & -> & Hg & H).
  apply GetNamespace_returned in Hg as (r & -> & Hr).
  assert (Hlast : forall t args, runs (namespace_change cli args) t (Returned (Ok tt)) ->
    closes_after_rewrite cli (t ++ tr4) /\ exists v, commands t = [("namespace" :: args, Ok v)] /\ commands tr4 = []).
  { intros t args Hn. by eapply change_closes. }
  destruct r as [v|e].
  - subst ns. apply Hlast in H as (H & w & Hw & H4). rewrite <- !app_assoc. split; [by do 2 apply closes_app; apply (closes_app _ [_])|].
    left. exists v, w. rewrite commands_app, Hw, H4. done.
  - destruct Hr as [He ->]. apply runs_bind_ok_returned in H as (tr9 & tr10 & [] & -> & Hd & H).
    apply Hlast in H as (H & w & Hw & H4). rewrite <- !app_assoc.
    split; [by do 2 apply closes_app; apply (closes_app _ [_]), closes_app|]. right.
    rewrite !commands_app, Hw, H4, app_nil_r. destruct isUpdate.
    + right. apply runs_bind_ok_returned in Hd as (tr11 & tr12 & all & -> & Hl & Hd).
      apply ListNamespace_returned in Hl as (r & -> & ->).
      apply runs_bind_returned in Hd as (tr13 & tr14 & u & -> & Hd & Hu). ret_inv Hu. rewrite app_nil_r.
      apply delete_by_token_runs in Hd as [_ Hd]. exists e, r, (commands tr13), w. done.
    + left. ret_inv Hd. by exists e, w.
Qed.

(** A deleted Redis request takes its own namespace away and no other: it
    asks for it, deletes it when it is there, and sends nothing else. *)
Theorem redis_delete_exact req cluster tr :
  runs (deleteKVRocksRequest req cluster) tr (Returned (Ok tt)) ->
  let name := request_namespace req in
  (exists e, err_kind e = KRedisNil /\ commands tr = [(cmd_get name, Err e)]) \/
  (exists v w cli, commands tr = [(cmd_get name, Ok v); (cmd_del name, Ok w)] /\ closes_after_rewrite cli tr).
Proof.
  intros (tr1 & tr2 & cli & -> & H1 & H)%runs_bind_ok_returned name.
  apply commands_none in H1; [|apply no_command_client].
  apply runs_defer_returned in H as (tr3 & tr4 & -> & H & Hc).
  apply runs_bind_ok_returned in H as (tr5 & tr6 & ns & -> & Hg & H).
  apply GetNamespace_returned in Hg as (r & -> & Hr). rewrite !commands_app, H1. cbn [app].
  destruct r as [v|e].
  - subst ns. eapply change_closes in H as (H & w & Hw & H4); [|exact Hc]. right. exists v, w, cli.
    rewrite Hw, H4. split; [done|]. apply closes_app. by apply (closes_app _ [_]).
  - destruct Hr as [He ->]. ret_inv H. call_inv Hc. left. by exists e.
Qed.

(** ** The properties in concrete worlds *)

Definition demo_kvrocks : RedixCluster :=
  mkRedixCluster (plain_meta "os-platform" "kvrocks")
    (mkRedixClusterSpec KVRocks (Some (mkKVRocksSpec (mkPwd "root" None) "olares" None "" "" ∅ None))).

(** Pods are gone when asked with no replicas wanted: the state counts them. *)
Definition restore_world (o : op) (pods : Z) : resp o * Z :=
  match o return resp o * Z with
  | Sys (Stat _) => (Ok true, pods)
  | Sys (Rename _ _) => (Ok tt, pods)
  | Sys (RemoveAll _) => (Ok tt, pods)
  | Sys PollTick => (Ok tt, pods)
  | K8s (GetScale ns name) => (Ok (mkScale name ns pods), pods)
  | K8s (UpdateScale _ _ s) => (Ok s, sc_Replicas s)
  | K8s (ListPods ns _) =>
      (Ok (if (pods =? 0)%Z then [] else [mkPod "kvrocks-0" ns "Running" [] "" []]), pods)
  | o => (unavailable o, pods)
  end.
Definition restore_run : history * outcome (res unit) * Z := exec restore_world (RestoreKVRocks demo_kvrocks) 1%Z.

Lemma RestoreKVRocks_protects_data_witness :
  snd (fst restore_run) = Returned (Ok tt) /\
  (forall tr1 p r tr2, fst (fst restore_run) = tr1 ++ ev (Sys (RemoveAll p)) r :: tr2 ->
     p = dbDir /\ backup_checked tr1 /\ stopped_and_gone demo_kvrocks tr1) /\
  moved_and_started demo_kvrocks (fst (fst restore_run)).
Proof.
  assert (E : snd (fst restore_run) = Returned (Ok tt)) by (vm_compute; reflexivity).
  split; [exact E|].
  assert (Hr : runs (RestoreKVRocks demo_kvrocks) (fst (fst restore_run)) (snd (fst restore_run))).
  { unfold restore_run. destruct (exec _ _ _) as [[tr out] w] eqn:Ex. by eapply exec_runs. }
  destruct (RestoreKVRocks_protects_data demo_kvrocks _ _ Hr) as [H1 H2].
  split; [exact H1|]. apply H2, E.
Defined.

Definition demo_backup (st : JobState) : KVRocksBackup :=
  mkKVRocksBackup (plain_meta "os-platform" "nightly") "kvrocks" (mkBackupStatus st None None "" "").
Definition backup_world (st : JobState) (o : op) : resp o :=
  match o return resp o with
  | Apr (GetKVBackup _ _) => Ok (demo_backup st)
  | Apr ListKVBackups => Ok [demo_backup st; demo_backup StateReady]
  | Sys PollTick => Ok tt
  | o => unavailable o
  end.

Definition force_demo : io (res unit) := ForceCreateNewKVRocksBackup (demo_backup StateNew).

Lemma force_backup_exact_witness :
  out_in (backup_world StateRunning) force_demo = Returned (Err (newErr "duplicate kvrocks backup job")) /\
  exists current tr', trace_in (backup_world StateRunning) force_demo =
    ev (Apr (GetKVBackup "os-platform" "nightly")) current :: tr'.
Proof.
  split; [vm_compute; reflexivity|].
  destruct (force_backup_exact (demo_backup StateNew) _ _ (runs_in (backup_world StateRunning) force_demo))
    as (current & tr' & E & _).
  exists current, tr'. exact E.
Defined.

Lemma WaitForAllBackupComplete_exact_witness :
  out_in (backup_world StateReady) WaitForAllBackupComplete = Returned (Ok tt) /\
  (exists tr' l, trace_in (backup_world StateReady) WaitForAllBackupComplete = tr' ++ [list_answer l] /\
    no_failure_seen (trace_in (backup_world StateReady) WaitForAllBackupComplete) /\ Forall unhindering l) /\
  runs WaitForAllBackupComplete [ev (Sys PollTick) (Ok tt : res unit); list_answer [demo_backup StateNew]] (Returned (Ok tt)).
Proof.
  assert (E : out_in (backup_world StateReady) WaitForAllBackupComplete = Returned (Ok tt)) by (vm_compute; reflexivity).
  split_and!; [exact E|exact (proj1 WaitForAllBackupComplete_exact _ (Returned (Ok tt)) (runs_in_to _ _ _ E))|].
  apply (proj2 WaitForAllBackupComplete_exact). repeat constructor.
Defined.

Definition demo_redis (app pwd : string) : MiddlewareRequest :=
  mkMiddlewareRequest (plain_meta "user-space-bob" app)
    (with_redis (empty_spec app "user-space-bob" TypeRedis) (mkRedis (mkPwd pwd None) app)).

(** A server that holds alice's namespace, with the same password as bob's, and
    answers a single query with [found]. *)
Definition redis_world (found : bool) (o : op) : resp o :=
  match o return resp o with
  | Rds (RdsPing _ _) => Ok tt
  | Rds (RdsDo _ args) =>
      if bool_decide (args = cmd_get "*")
      then Ok (RArr ["__namespace"; "root"; "user-space-alice_notes"; "hunter2"; "user-space-bob_old"; "hunter3"])
      else if bool_decide (take 2 args = ["namespace"; "get"])
      then if found then Ok (RStr "hunter2") else Err (mkErr KRedisNil "redis: nil")
      else Ok (RStr "OK")
  | Rds (RdsConfigRewrite _) => Ok tt
  | o => unavailable o
  end.
Definition bob_update : io (res unit) := createOrUpdateKVRocksRequest (demo_redis "cache" "hunter2") demo_kvrocks true.

(** Bob's update deletes alice's namespace. *)
Lemma redis_request_exact_witness :
  cmd_del "user-space-alice_notes" ∈ map fst (commands (trace_in (redis_world false) bob_update)) /\
  exists cli token,
    resolved_in (trace_in (redis_world false) bob_update) "user-space-bob" (mkPwd "hunter2" None) token /\
    closes_after_rewrite cli (trace_in (redis_world false) bob_update).
Proof.
  split; [vm_compute; do 2 right; left|].
  destruct (redis_request_exact (demo_redis "cache" "hunter2") demo_kvrocks true
    (trace_in (redis_world false) bob_update)) as (cli & token & H1 & H2 & _).
  { apply (runs_in_to (redis_world false) bob_update (Ok tt)). vm_compute. reflexivity. }
  exists cli, token. split; assumption.
Defined.

Definition bob_delete : io (res unit) := deleteKVRocksRequest (demo_redis "cache" "hunter2") demo_kvrocks.
Lemma redis_delete_exact_witness :
  (exists e, err_kind e = KRedisNil /\
     commands (trace_in (redis_world true) bob_delete) = [(cmd_get "user-space-bob_cache", Err e)]) \/
  (exists v w cli, commands (trace_in (redis_world true) bob_delete) =
     [(cmd_get "user-space-bob_cache", Ok v); (cmd_del "user-space-bob_cache", Ok w)] /\
     closes_after_rewrite cli (trace_in (redis_world true) bob_delete)).
Proof.
  apply (redis_delete_exact (demo_redis "cache" "hunter2") demo_kvrocks (trace_in (redis_world true) bob_delete)).
  apply (runs_in_to (redis_world true) bob_delete (Ok tt)). vm_compute. reflexivity.
Defined.
