(* ===== verification/Mongo.v ===== *)
(** * MongoDB requests: [src/pkg/mongo/client.go] and
    [src/cmd/middleware/operator/middleware-request/handler_mdb.go] *)

From S2P Require Import Prelude Effects Apr World.

(** ** The client *)

Record MongoClient : Set := mkMongoClient {
  mc_User : string; mc_Password : string; mc_Database : string; mc_Addr : string;
  mc_client : nat }.

Definition mongo_dsn (user password addr database : string) : string :=
  "mongodb://" +:+ user +:+ ":" +:+ password +:+ "@" +:+ addr +:+ "/" +:+ database.

(** A failing [Ping] is reported, but the connection stays. *)
Definition Connect (user password addr : string) : io (res MongoClient) :=
  let? conn := mongo_call (MgConnect (mongo_dsn user password addr "")) in
  do? mongo_call (MgPing conn);
  Ret (Ok (mkMongoClient user password "" addr conn)).

Definition Close (m : MongoClient) : io unit := mongo_call (MgDisconnect (mc_client m)).

Definition quote : string := String (Ascii.ascii_of_nat 34) "".

(** [ExecuteScript]: every command is completed by a semicolon when it has
    none; [eval] hands the whole to mongosh between double quotes. *)
Definition mongo_command (databaseName dbUsername cmd : string) : string :=
  let cmd := replace_all cmd "$databasename" databaseName in
  let cmd := replace_all cmd "$dbusername" dbUsername in
  if has_suffix ";" cmd then cmd else cmd +:+ ";".
Definition mongo_script (databaseName dbUsername : string) (scripts : list string) : string :=
  join "" (map (mongo_command databaseName dbUsername) scripts).
Definition ExecuteScript (m : MongoClient) (scripts : list string) (databaseName dbUsername : string)
  : io (res unit) :=
  let! r := mongo_call (Mongosh ("mongodb://" +:+ mc_Addr m)
              (quote +:+ mongo_script databaseName dbUsername scripts +:+ quote) (mc_User m) (mc_Password m)) in
  match r with
  | Ok _ => Ret (Ok tt)
  | Err e => Ret (Err (newErr ("execute scripts failed with " +:+ err_msg e)))
  end.

(** The answer of a command: its error, the error of decoding it, then the
    field [ok]; the type assertions on [ok] and [errmsg] panic. *)
Definition check_reply (r : MongoReply) : io (res unit) :=
  match mr_Err r, mr_Decode r with
  | Some e, _ => Ret (Err e)
  | None, Some e => Ret (Err e)
  | None, None =>
      match mr_ok r with
      | Some (BsonNum true) => Ret (Ok tt)
      | None | Some (BsonNum false) =>
          match mr_errmsg r with
          | Some (BsonStr s) => Ret (Err (newErr s))
          | _ => Panic "interface conversion"
          end
      | Some _ => Panic "interface conversion"
      end
  end.

(** [readWrite] on every database of the request. *)
Definition getRoles (db : list MongoDatabase) : list (string * string) :=
  map (fun d => ("readWrite", mdb_Name d)) db.

(** One database: the user is created there, or updated when the server has
    it; then the database's scripts run. *)
Definition provision_db (m : MongoClient) (user pwd : string) (db : list MongoDatabase)
    (authDB : MongoDatabase) : io (res unit) :=
  let! existing := mongo_call (MgFindUser (mc_client m) user (Some (mdb_Name authDB))) in
  let? cmd := match existing with
              | Ok _ => Ret (Ok (CmdUpdateUser user pwd (getRoles db)))
              | Err e => if isKind KNoDocuments e then Ret (Ok (CmdCreateUser user pwd (getRoles db)))
                         else Ret (Err e)
              end in
  let! r := mongo_call (MgRunCommand (mc_client m) (mdb_Name authDB) cmd) in
  do? check_reply r;
  match mdb_Scripts authDB with
  | [] => Ret (Ok tt)
  | scripts => ExecuteScript m scripts (mdb_Name authDB) user
  end.

Definition CreateOrUpdateUserWithDatabase (m : MongoClient) (user pwd : string) (db : list MongoDatabase)
  : io (res unit) :=
  match db with
  | [] => Ret (Err (newErr "db not specified"))
  | _ => for_each (provision_db m user pwd db) db
  end.

(** Only the error of the command is looked at. *)
Definition drop_user_in (m : MongoClient) (user dbName : string) : io (res unit) :=
  let! r := mongo_call (MgRunCommand (mc_client m) dbName (CmdDropUser user)) in
  match mr_Err r with Some e => Ret (Err e) | None => Ret (Ok tt) end.

(** The user is looked for in any database, then dropped in each database of
    the request, in [admin] when it has none. *)
Definition drop_user (m : MongoClient) (user : string) (db : list MongoDatabase) : io (res unit) :=
  if String.eqb user "" then Ret (Ok tt)
  else
    let! existing := mongo_call (MgFindUser (mc_client m) user None) in
    match existing with
    | Err e => if isKind KNoDocuments e then Ret (Ok tt) else Ret (Err e)
    | Ok _ =>
        match db with
        | [] => drop_user_in m user "admin"
        | _ => for_each (fun authDB => drop_user_in m user (mdb_Name authDB)) db
        end
    end.

Definition DropUserAndDatabase (m : MongoClient) (user : string) (db : list MongoDatabase) : io (res unit) :=
  do? drop_user m user db;
  for_each (fun d => mongo_call (MgDropDatabase (mc_client m) (mdb_Name d))) db.

(** ** [handler_mdb.go] *)

Definition MongoNamespace : string := "mongodb-middleware".

Definition getMongoClusterHost : io (res string) :=
  let? cluster := mongo_call (GetKbCluster MongoNamespace "mongodb") in
  if String.eqb (kb_Phase cluster) "Running"
  then Ret (Ok (kb_Name cluster +:+ "-mongodb-headless." +:+ kb_Namespace cluster))
  else Ret (Err (newErr "cluster mongo is not running")).

Definition FindMongoAdminUser (namespace : string) : io (res (string * string)) :=
  let? secret := k8s_call (GetSecret namespace "mongodb-mongodb-account-root") in
  Ret (Ok (default "" (sec_Data secret !! "username"), default "" (sec_Data secret !! "password"))).

Definition connectToCluster : io (res MongoClient) :=
  let? host := getMongoClusterHost in
  let? (user, pwd) := FindMongoAdminUser MongoNamespace in
  Connect user pwd (host +:+ ":27017").

Definition MongoDatabaseName (namespace db : string) : string := namespace +:+ "_" +:+ db.
Definition dbRealNames (namespace : string) (dbs : list MongoDatabase) : list MongoDatabase :=
  map (fun db => mkMongoDatabase (MongoDatabaseName namespace (mdb_Name db)) (mdb_Scripts db)) dbs.

Definition mongo_user (req : MiddlewareRequest) : string := mongo_User (ms_MongoDB (mr_Spec req)).
Definition mongo_dbs (req : MiddlewareRequest) : list MongoDatabase :=
  dbRealNames (ms_AppNamespace (mr_Spec req)) (mongo_Databases (ms_MongoDB (mr_Spec req))).

Definition createOrUpdateMDBRequest (req : MiddlewareRequest) : io (res unit) :=
  let? pwd := GetVarValue (mongo_Password (ms_MongoDB (mr_Spec req))) (mr_Namespace req) in
  let? client := connectToCluster in
  with_defer (Close client)
    (CreateOrUpdateUserWithDatabase client (mongo_user req) pwd (mongo_dbs req)).

(** A cluster or a secret that is not there means there is nothing to delete. *)
Definition deleteMDBRequest (req : MiddlewareRequest) : io (res unit) :=
  let! client := connectToCluster in
  match client with
  | Err e => if IsNotFound e then Ret (Ok tt) else Ret (Err e)
  | Ok client => with_defer (Close client) (DropUserAndDatabase client (mongo_user req) (mongo_dbs req))
  end.
