(* ===== verification/MongoSpec.v ===== *)
(** * What a MongoDB request does *)

From S2P Require Import Prelude Effects Apr World Demo Mongo.

(** ** The calls of a request *)

Definition user_cmd (existing : res unit) (user pwd : string) (db : list MongoDatabase) : MongoCmd :=
  match existing with
  | Ok _ => CmdUpdateUser user pwd (getRoles db)
  | Err _ => CmdCreateUser user pwd (getRoles db)
  end.
Definition accepted (r : MongoReply) : Prop :=
  mr_Err r = None /\ mr_Decode r = None /\ mr_ok r = Some (BsonNum true).
Definition script_calls (m : MongoClient) (user : string) (d : MongoDatabase) : history :=
  match mdb_Scripts d with
  | [] => []
  | scripts => [ev (MongoOp (Mongosh ("mongodb://" +:+ mc_Addr m)
                  (quote +:+ mongo_script (mdb_Name d) user scripts +:+ quote) (mc_User m) (mc_Password m))) (Ok tt)]
  end.
(** The calls for one database: the user is asked for in this database, created
    there when the answer was that there is none and updated otherwise, the
    command is accepted, and the scripts run. *)
Definition db_calls (m : MongoClient) (user pwd : string) (db : list MongoDatabase) (d : MongoDatabase)
    (calls : history) : Prop :=
  exists existing reply,
    match existing with Ok _ => True | Err e => err_kind e = KNoDocuments end /\ accepted reply /\
    calls = [ev (MongoOp (MgFindUser (mc_client m) user (Some (mdb_Name d)))) existing;
             ev (MongoOp (MgRunCommand (mc_client m) (mdb_Name d) (user_cmd existing user pwd db))) reply]
            ++ script_calls m user d.

Lemma check_reply_returned r tr : runs (check_reply r) tr (Returned (Ok tt)) -> tr = [] /\ accepted r.
Proof.
  unfold check_reply, accepted. intros H.
  destruct (mr_Err r); [by apply runs_inv in H as [_ [=]]|].
  destruct (mr_Decode r); [by apply runs_inv in H as [_ [=]]|].
  destruct (mr_ok r) as [[[]|s|]|]; try (by apply runs_inv in H as [_ [=]]).
  - by ret_inv H.
  - destruct (mr_errmsg r) as [[]|]; by apply runs_inv in H as [_ [=]].
  - destruct (mr_errmsg r) as [[]|]; by apply runs_inv in H as [_ [=]].
Qed.

Lemma ExecuteScript_returned m scripts db user tr :
  runs (ExecuteScript m scripts db user) tr (Returned (Ok tt)) ->
  tr = [ev (MongoOp (Mongosh ("mongodb://" +:+ mc_Addr m) (quote +:+ mongo_script db user scripts +:+ quote)
              (mc_User m) (mc_Password m))) (Ok tt)].
Proof.
  intros (tr1 & tr2 & r & -> & H1 & H2)%runs_bind_returned. call_inv H1.
  destruct r as [[]|e]; [|by apply runs_inv in H2 as [_ [=]]]. by ret_inv H2.
Qed.

Lemma provision_db_returned m user pwd db d tr :
  runs (provision_db m user pwd db d) tr (Returned (Ok tt)) -> db_calls m user pwd db d tr.
Proof.
  intros (tr1 & tr2 & existing & -> & H1 & H)%runs_bind_returned. call_inv H1.
  apply runs_bind_ok_returned in H as (tr3 & tr4 & cmd & -> & H1 & H).
  assert (tr3 = [] /\ cmd = user_cmd existing user pwd db /\
    match existing with Ok _ => True | Err e => err_kind e = KNoDocuments end) as (-> & -> & Hk).
  { destruct existing as [u|e]; [by ret_inv H1|]. unfold isKind in H1.
    case_bool_decide; [by ret_inv H1|]. by apply runs_inv in H1 as [_ [=]]. }
  apply runs_bind_returned in H as (tr5 & tr6 & reply & -> & H1' & H). call_inv H1'.
  apply runs_bind_ok_returned in H as (tr7 & tr8 & [] & -> & H2 & H). apply check_reply_returned in H2 as [-> H2].
  exists existing, reply. split_and!; [done..|]. cbn [app]. do 2 f_equal. unfold script_calls.
  destruct (mdb_Scripts d) as [|s scripts]; [by ret_inv H|]. by apply ExecuteScript_returned in H.
Qed.

(** ** Connecting *)

Definition connected (m : MongoClient) (tr : history) : Prop :=
  exists tr0, tr = tr0 ++ [ev (MongoOp (MgConnect (mongo_dsn (mc_User m) (mc_Password m) (mc_Addr m) ""))) (Ok (mc_client m));
                           ev (MongoOp (MgPing (mc_client m))) (Ok tt)].

Lemma connectToCluster_returned tr m :
  runs connectToCluster tr (Returned (Ok m)) -> connected m tr.
Proof.
  intros (tr1 & tr2 & host & -> & _ & H)%runs_bind_ok_returned.
  apply runs_bind_ok_returned in H as (tr3 & tr4 & [user pwd] & -> & _ & H).
  apply runs_bind_ok_returned in H as (tr5 & tr6 & conn & -> & H1 & H). call_inv H1.
  apply runs_bind_ok_returned in H as (tr7 & tr8 & [] & -> & H1 & H). call_inv H1. ret_inv H.
  exists (tr1 ++ tr3). cbn. by rewrite <- app_assoc.
Qed.

(** What a successful MongoDB request has done: over one connection made as
    the administrator, for each database of the request in turn (and there is
    one at least), the user is created in it or updated, with the request's
    password and the role readWrite on every database of the request, the
    server accepts the command, and the scripts of the database succeed; the
    connection is closed last. *)
Theorem mongo_request_exact req tr :
  runs (createOrUpdateMDBRequest req) tr (Returned (Ok tt)) ->
  exists m pwd before calls,
    tr = before ++ concat calls ++ [ev (MongoOp (MgDisconnect (mc_client m))) tt] /\
    connected m before /\
    resolved_in tr (mr_Namespace req) (mongo_Password (ms_MongoDB (mr_Spec req))) pwd /\
    mongo_dbs req <> [] /\
    Forall2 (db_calls m (mongo_user req) pwd (mongo_dbs req)) (mongo_dbs req) calls.
Proof.
  intros (tr1 & tr2 & pwd & -> & H1 & H)%runs_bind_ok_returned.
  apply runs_bind_ok_returned in H as (tr3 & tr4 & m & -> & H2 & H).
  apply runs_defer_returned in H as (tr5 & tr6 & -> & H3 & H). call_inv H.
  apply connectToCluster_returned in H2.
  assert (mongo_dbs req <> [] /\ runs (for_each (provision_db m (mongo_user req) pwd (mongo_dbs req)) (mongo_dbs req))
            tr5 (Returned (Ok tt))) as [Hne H4].
  { unfold CreateOrUpdateUserWithDatabase in H3. destruct (mongo_dbs req) eqn:E; [by apply runs_inv in H3 as [_ [=]]|done]. }
  apply runs_for_each_returned in H4 as (calls & -> & Hf).
  exists m, pwd, (tr1 ++ tr3), calls. split_and!; [by rewrite !app_assoc| | |done|].
  - destruct H2 as [t ->]. exists (tr1 ++ t). by rewrite app_assoc.
  - apply GetVarValue_returned in H1. eapply resolved_in_sub; [|exact H1]. set_solver.
  - eapply Forall2_impl; [exact Hf|]. intros. by apply provision_db_returned.
Qed.

(** ** Deleting *)

Definition dropped_in (m : MongoClient) (user dbName : string) (e : event resp) : Prop :=
  exists reply, mr_Err reply = None /\
    e = ev (MongoOp (MgRunCommand (mc_client m) dbName (CmdDropUser user))) reply.
(** Removing the user: nothing for an empty name; otherwise it is looked for
    once, and when found dropped in every database given, in admin when none is. *)
Definition user_dropped (m : MongoClient) (user : string) (db : list MongoDatabase) (calls : history) : Prop :=
  (user = "" /\ calls = []) \/
  (user <> "" /\ exists existing rest,
     calls = ev (MongoOp (MgFindUser (mc_client m) user None)) existing :: rest /\
     match existing with
     | Err e => err_kind e = KNoDocuments /\ rest = []
     | Ok _ => Forall2 (dropped_in m user) (match db with [] => ["admin"] | _ => map mdb_Name db end) rest
     end).

Lemma drop_user_in_returned m user n tr :
  runs (drop_user_in m user n) tr (Returned (Ok tt)) -> exists e, tr = [e] /\ dropped_in m user n e.
Proof.
  intros (tr1 & tr2 & reply & -> & H1 & H)%runs_bind_returned. call_inv H1.
  destruct (mr_Err reply) eqn:E; ret_inv H. eexists. split; [done|]. by exists reply.
Qed.

Lemma drops_returned m user (db : list MongoDatabase) segs :
  Forall2 (fun d seg => runs (drop_user_in m user (mdb_Name d)) seg (Returned (Ok tt))) db segs ->
  Forall2 (dropped_in m user) (map mdb_Name db) (concat segs).
Proof.
  induction 1 as [|d seg db segs Hd _ IH]; [constructor|].
  apply drop_user_in_returned in Hd as (e & -> & He). by constructor.
Qed.

Lemma drop_user_returned m user db tr :
  runs (drop_user m user db) tr (Returned (Ok tt)) -> user_dropped m user db tr.
Proof.
  unfold drop_user, user_dropped. destruct (String.eqb_spec user "") as [->|Hne]; intros H.
  - left. by ret_inv H.
  - right. split; [done|]. apply runs_bind_returned in H as (tr1 & tr2 & existing & -> & H1 & H). call_inv H1.
    exists existing, tr2. split; [done|]. destruct existing as [u|e].
    + destruct db as [|d db].
      * apply drop_user_in_returned in H as (e & -> & He). by constructor.
      * apply runs_for_each_returned in H as (segs & -> & H). by apply drops_returned.
    + unfold isKind in H. case_bool_decide; ret_inv H; done.
Qed.

Lemma drop_databases_returned m (db : list MongoDatabase) tr :
  runs (for_each (fun d => mongo_call (MgDropDatabase (mc_client m) (mdb_Name d))) db) tr (Returned (Ok tt)) ->
  tr = map (fun d => ev (MongoOp (MgDropDatabase (mc_client m) (mdb_Name d))) (Ok tt)) db.
Proof.
  intros (segs & -> & H)%runs_for_each_returned.
  induction H as [|d seg db segs Hd _ IH]; [done|]. call_inv Hd. cbn. by rewrite IH.
Qed.


(** A deleted MongoDB request that succeeds over a connection has dropped
    its user wherever the request's databases put it and then every one of its
    databases, in order, whether or not the user was still there, and closed
    the connection.  The only other way to succeed is not to have reached the
    server, because the cluster or its secret is gone. *)
Theorem mongo_delete_exact req tr :
  runs (deleteMDBRequest req) tr (Returned (Ok tt)) ->
  (exists m before calls,
     tr = before ++ calls ++ map (fun d => ev (MongoOp (MgDropDatabase (mc_client m) (mdb_Name d))) (Ok tt)) (mongo_dbs req)
          ++ [ev (MongoOp (MgDisconnect (mc_client m))) tt] /\
     connected m before /\ user_dropped m (mongo_user req) (mongo_dbs req) calls) \/
  (exists e, IsNotFound e = true /\ runs connectToCluster tr (Returned (Err e))).
Proof.
  intros (tr1 & tr2 & [m|e] & -> & H1 & H)%runs_bind_returned.
  - apply connectToCluster_returned in H1. apply runs_defer_returned in H as (tr3 & tr4 & -> & H2 & H). call_inv H.
    apply runs_bind_ok_returned in H2 as (tr5 & tr6 & [] & -> & H2 & H).
    apply drop_user_returned in H2. apply drop_databases_returned in H as ->.
    left. exists m, tr1, tr5. split; [by rewrite <- !app_assoc|done].
  - right. exists e. destruct (IsNotFound e) eqn:E; ret_inv H. by rewrite app_nil_r.
Qed.

(** ** Connections *)

(** What is open, and whether the last call was a ping that failed. *)
Record mgstate : Set := mkMg { mg_open : list nat; mg_refused : option nat }.
Definition mg_observe (o : op) : resp o -> mgstate -> mgstate :=
  match o with
  | MongoOp (MgConnect _) => fun r s => match r with Ok c => mkMg (mg_open s ++ [c]) None | Err _ => mkMg (mg_open s) None end
  | MongoOp (MgPing c) => fun r s => mkMg (mg_open s) (match r with Ok _ => None | Err _ => Some c end)
  | MongoOp (MgDisconnect c) => fun _ s => mkMg (base.filter (fun x => x <> c) (mg_open s)) None
  | _ => fun _ s => mkMg (mg_open s) None
  end.
Definition mg_step (s : mgstate) (e : event resp) : mgstate := mg_observe (projT1 e) (projT2 e) s.
Definition mg_watch (tr : history) : mgstate := fold_left mg_step tr (mkMg [] None).

(** At most the connection whose first ping failed is left behind. *)
Definition mg_settled (s : mgstate) : Prop :=
  match mg_refused s with None => mg_open s = [] | Some c => mg_open s = [c] end.

Definition steady (o : op) : Prop :=
  match o with MongoOp (MgConnect _) | MongoOp (MgPing _) | MongoOp (MgDisconnect _) => False | _ => True end.

Lemma mg_step_steady s o r : steady o -> mg_step s (ev o r) = mkMg (mg_open s) None.
Proof. by destruct o as [| | | | | |[]|]. Qed.

Lemma steady_keeps {A} (m : io A) l s :
  issues steady m -> mg_open s = l -> wp mg_step m (fun s' _ => mg_open s' = l) s.
Proof.
  intros Hm Hs. apply (wp_issues mg_step (fun s' => mg_open s' = l) steady); [|done|done].
  intros s' o r Ho <-. by rewrite mg_step_steady.
Qed.

Lemma steady_settled {A} (m : io A) s :
  issues steady m -> mg_open s = [] -> mg_refused s = None -> wp mg_step m (fun s' _ => mg_open s' = [] /\ mg_refused s' = None) s.
Proof.
  intros Hm Hs Hr. apply (wp_issues mg_step (fun s' => mg_open s' = [] /\ mg_refused s' = None) steady); [|done|done].
  intros s' o r Ho [<- _]. by rewrite mg_step_steady.
Qed.

Lemma steady_GetVarValue p ns : issues steady (GetVarValue p ns).
Proof.
  unfold GetVarValue. destruct (negb _); [done|]. destruct (pv_ValueFrom p) as [src|]; [|done].
  destruct (pvs_SecretKeyRef src); [|done]. split; [done|]. by intros [sec|e].
Qed.

Ltac steadily :=
  repeat first
    [ exact I | apply issues_bind_ok; [|intros ?] | apply issues_bind; [|intros ?]
    | apply issues_for_each; intros ? _ | case_match | done | by apply issues_call ].

Lemma steady_create m user pwd db : issues steady (CreateOrUpdateUserWithDatabase m user pwd db).
Proof. unfold CreateOrUpdateUserWithDatabase, provision_db, check_reply, ExecuteScript. steadily. Qed.
Lemma steady_drop m user db : issues steady (DropUserAndDatabase m user db).
Proof. unfold DropUserAndDatabase, drop_user, drop_user_in. steadily. Qed.

Lemma connect_wp s (Q : mgstate -> outcome (res MongoClient) -> Prop) :
  mg_open s = [] ->
  (forall m s', mg_open s' = [mc_client m] -> Q s' (Returned (Ok m))) ->
  (forall e s', mg_settled s' -> Q s' (Returned (Err e))) ->
  wp mg_step connectToCluster Q s.
Proof.
  intros Ho HOk HErr. unfold connectToCluster, getMongoClusterHost. cbn.
  assert (Hs : mg_settled (mkMg (mg_open s) None)) by done.
  intros [cl|e]; cbn; [|by apply HErr].
  destruct (String.eqb (kb_Phase cl) "Running"); cbn; [|by apply HErr].
  intros [sec|e]; cbn; [|by apply HErr].
  intros [conn|e]; cbn; [|by apply HErr].
  intros [[]|e]; cbn; [apply HOk|apply HErr]; unfold mg_settled; cbn; by rewrite Ho.
Qed.

(** Whatever is done over the connection, closing it settles. *)
Lemma closed_settles (m : MongoClient) (body : io (res unit)) s :
  issues steady body -> mg_open s = [mc_client m] ->
  wp mg_step (with_defer (Close m) body) (fun s' _ => mg_settled s') s.
Proof.
  intros Hb Hs. rewrite wp_with_defer. eapply wp_mono; [|apply steady_keeps; [exact Hb|exact Hs]].
  intros s' x Ho []. cbn. unfold mg_settled. cbn. rewrite Ho.
  rewrite filter_cons_False by auto. by destruct x.
Qed.

(** MongoDB requests leave no connection behind, however they end: after a
    provisioning or a deletion nothing is open, except that a connection whose
    first ping failed is never closed; that ping is then the last call made. *)
Theorem mongo_connections_settled req tr out :
  runs (createOrUpdateMDBRequest req) tr out \/ runs (deleteMDBRequest req) tr out ->
  mg_settled (mg_watch tr).
Proof.
  intros [Hr|Hr]; revert tr out Hr; apply (proj1 (wp_runs mg_step _ (fun s _ => mg_settled s) (mkMg [] None))).
  - unfold createOrUpdateMDBRequest. rewrite wp_bind_ok.
    eapply wp_mono; [|apply (steady_settled _ _ (steady_GetVarValue _ _)); done].
    intros s1 [[pwd|e]|w] [Ho Hn]; try (unfold mg_settled; by rewrite Hn).
    rewrite wp_bind_ok. apply connect_wp; [done| |done].
    intros m s2 Ho2. by apply closed_settles, Ho2; apply steady_create.
  - unfold deleteMDBRequest. rewrite wp_bind. apply connect_wp; [done| |].
    + intros m s2 Ho2. apply closed_settles, Ho2. apply steady_drop.
    + intros e s2 Hs. by destruct (IsNotFound e).
Qed.

(** ** The properties in a concrete world *)

(** A server that knows the user in [ns_a] only; its pings fail when [up] is false. *)
Definition mongo_world (up : bool) (o : op) : resp o :=
  match o return resp o with
  | MongoOp (GetKbCluster ns name) => Ok (mkKbCluster name ns "Running")
  | K8s (GetSecret ns name) => Ok (mkSecret name ns {["username" := "root"; "password" := "pw"]})
  | MongoOp (MgConnect _) => Ok 5
  | MongoOp (MgPing _) => if up then Ok tt else Err (newErr "connection refused")
  | MongoOp (MgDisconnect _) => tt
  | MongoOp (MgFindUser _ _ (Some d)) =>
      if String.eqb d "ns_a" then Ok tt else Err (mkErr KNoDocuments "mongo: no documents in result")
  | MongoOp (MgFindUser _ _ None) => Ok tt
  | MongoOp (MgRunCommand _ _ _) => mkReply None None (Some (BsonNum true)) None
  | MongoOp (MgDropDatabase _ _) => Ok tt
  | MongoOp (Mongosh _ _ _ _) => Ok tt
  | o => unavailable o
  end.
Definition demo_mongo : MiddlewareRequest :=
  mkMiddlewareRequest (plain_meta "user-space-bob" "chat")
    (with_mongo (empty_spec "chat" "ns" TypeMongoDB)
       (mkMongoDB (mkPwd "secret" None)
          [mkMongoDatabase "a" []; mkMongoDatabase "b" ["db.createCollection('c')"]] "bob")).

Lemma mongo_request_exact_witness :
  out_in (mongo_world true) (createOrUpdateMDBRequest demo_mongo) = Returned (Ok tt) /\
  exists m pwd before calls,
    trace_in (mongo_world true) (createOrUpdateMDBRequest demo_mongo) =
      before ++ concat calls ++ [ev (MongoOp (MgDisconnect (mc_client m))) tt] /\
    connected m before /\
    resolved_in (trace_in (mongo_world true) (createOrUpdateMDBRequest demo_mongo)) "user-space-bob" (mkPwd "secret" None) pwd /\
    mongo_dbs demo_mongo <> [] /\
    Forall2 (db_calls m "bob" pwd (mongo_dbs demo_mongo)) (mongo_dbs demo_mongo) calls.
Proof.
  assert (E : out_in (mongo_world true) (createOrUpdateMDBRequest demo_mongo) = Returned (Ok tt)) by (vm_compute; reflexivity).
  split; [exact E|]. exact (mongo_request_exact demo_mongo _ (runs_in_to _ _ _ E)).
Defined.

Lemma mongo_delete_exact_witness :
  out_in (mongo_world true) (deleteMDBRequest demo_mongo) = Returned (Ok tt) /\
  ((exists m before calls,
     trace_in (mongo_world true) (deleteMDBRequest demo_mongo) =
       before ++ calls ++ map (fun d => ev (MongoOp (MgDropDatabase (mc_client m) (mdb_Name d))) (Ok tt)) (mongo_dbs demo_mongo)
          ++ [ev (MongoOp (MgDisconnect (mc_client m))) tt] /\
     connected m before /\ user_dropped m "bob" (mongo_dbs demo_mongo) calls) \/
   (exists e, IsNotFound e = true /\
      runs connectToCluster (trace_in (mongo_world true) (deleteMDBRequest demo_mongo)) (Returned (Err e)))).
Proof.
  assert (E : out_in (mongo_world true) (deleteMDBRequest demo_mongo) = Returned (Ok tt)) by (vm_compute; reflexivity).
  split; [exact E|]. exact (mongo_delete_exact demo_mongo _ (runs_in_to _ _ _ E)).
Defined.

Lemma mongo_connections_settled_witness :
  mg_open (mg_watch (trace_in (mongo_world true) (createOrUpdateMDBRequest demo_mongo))) = [] /\
  mg_open (mg_watch (trace_in (mongo_world false) (createOrUpdateMDBRequest demo_mongo))) = [5] /\
  mg_settled (mg_watch (trace_in (mongo_world false) (createOrUpdateMDBRequest demo_mongo))).
Proof.
  split; [vm_compute; reflexivity|]. split; [vm_compute; reflexivity|].
  apply (mongo_connections_settled demo_mongo _ _ (or_introl (runs_in (mongo_world false) (createOrUpdateMDBRequest demo_mongo)))).
Defined.
