(* ===== verification/Zinc.v ===== *)
(** * Zinc: src/pkg/workload/zinc/helper.go

    Indexes, users and the role of the search server zinc, over its HTTP
    interface.  The request controller has no case for the type zinc, so nothing
    calls these functions at present. *)

From S2P Require Import Prelude Effects Apr World.

Definition ZincServerService : string := "zinc-server-svc".
Definition zinc_endpoint (path : string) : string :=
  "http://" +:+ ZincServerService +:+ "." +:+ "os-platform" +:+ "/api/" +:+ path.
Definition ZincIndexName (namespace index : string) : string := namespace +:+ "_" +:+ index.
(** [time.Time{}] in JSON. *)
Definition zero_time : json := JStr "0001-01-01T00:00:00Z".

(** [RoleUser]. *)
Definition user_permissions : list string :=
  ["document.Bulk"; "document.Multi"; "document.Create"; "document.Get"; "document.Update"; "document.Delete";
   "search.SearchDSL"; "index.List"; "index.IndexNameList"; "index.Get"; "index.Exists"; "index.Refresh";
   "index.GetMapping"; "index.GetSettings"; "index.Analyze"; "search.MultipleSearch"; "search.DeleteByQuery";
   "index.ListTemplate"; "index.GetTemplate"; "elastic.PutDataStream"; "elastic.GetDataStream";
   "index.GetESMapping"; "index.GetESAliases"; "document.ESBulk"; "document.CreateUpdate"].
Definition RoleUser : json :=
  JObj [("_id", JStr "user"); ("name", JStr "user"); ("role", JStr "");
        ("permission", JList (map JStr user_permissions)); ("created_at", zero_time); ("updated_at", zero_time)].

(** A map without the key answers the empty text, without an error. *)
Definition FindIndexConfig (namespace config key : string) : io (res string) :=
  let? configMap := k8s_call (GetConfigMap namespace config) in
  Ret (Ok (match configMap with Some m => default "" (m !! key) | None => "" end)).

(** What all five functions make of an answer: a refused request returns [err],
    which is nil there. *)
Definition zinc_outcome (r : res HttpReply) : res unit :=
  match r with
  | Err e => Err e
  | Ok resp => if (400 <=? hr_Status resp)%Z then Ok tt else Ok tt
  end.
Definition zinc_send (method url admin pwd : string) (body : option json) : io (res unit) :=
  let! resp := un_call (ZincHttp method url admin pwd body) in Ret (zinc_outcome resp).

Section Index.
(* encoding/json, into a map *)
Context (parse_object : string -> res (list (string * json))).

Definition index_body (name : string) (mapping : list (string * json)) : json :=
  JObj ([("name", JStr name); ("storage_type", JStr "disk"); ("shard_num", JInt 0)] ++
        match mapping with [] => [] | _ => [("mappings", JObj mapping)] end).
Definition CreateOrUpdateIndex (admin pwd namespace index schema : string) : io (res unit) :=
  match parse_object schema with
  | Err e => Ret (Err e)
  | Ok mapping =>
      zinc_send "PUT" (zinc_endpoint "index") admin pwd (Some (index_body (ZincIndexName namespace index) mapping))
  end.
End Index.

Definition DeleteIndex (admin pwd namespace index : string) : io (res unit) :=
  if (String.eqb namespace "" || String.eqb index "")%bool then Ret (Err (newErr "namespace or index is empty"))
  else zinc_send "DELETE" (zinc_endpoint ("index/" +:+ ZincIndexName namespace index)) admin pwd None.

Definition zinc_user (user pwd : string) : json :=
  JObj ([("_id", JStr user); ("name", JStr user); ("role", JStr "user")] ++
        (if String.eqb pwd "" then [] else [("password", JStr pwd)]) ++
        [("created_at", zero_time); ("updated_at", zero_time)]).
Definition CreateOrUpdateZincUser (admin adminPwd user pwd : string) : io (res unit) :=
  zinc_send "POST" (zinc_endpoint "user") admin adminPwd (Some (zinc_user user pwd)).
Definition DeleteZincUser (admin adminPwd user : string) : io (res unit) :=
  if String.eqb user "" then Ret (Err (newErr "user is empty"))
  else zinc_send "DELETE" (zinc_endpoint ("user/" +:+ user)) admin adminPwd None.

(** Tried until the server answers; [None] when it has not within [rounds]. *)
Fixpoint InitRole (rounds : nat) (admin adminPwd : string) : io (option (res unit)) :=
  match rounds with
  | O => Ret None
  | S n =>
      let! resp := un_call (ZincHttp "POST" (zinc_endpoint "role") admin adminPwd (Some RoleUser)) in
      match resp with
      | Err _ => do! sys_call (Sleep 2); InitRole n admin adminPwd
      | Ok _ => Ret (Some (zinc_outcome resp))
      end
  end.

(** ** Results *)

(** A request that zinc refuses is reported as done: an error is a connection
    that failed, a schema that does not parse, or an empty name. *)
Theorem zinc_reports_only_transport method url admin pwd body tr out :
  runs (zinc_send method url admin pwd body) tr out ->
  exists r, tr = [ev (Ext (Un (ZincHttp method url admin pwd body))) r] /\
    out = Returned (match r with Ok _ => Ok tt | Err e => Err e end).
Proof.
  intros H. cbn in H. apply runs_inv in H as (r & tr' & -> & H). apply runs_inv in H as [-> ->].
  exists r. split; [done|]. destruct r as [resp|e]; cbn; [|done]. by destruct (400 <=? _)%Z.
Qed.

(** As long as zinc does not answer, the role is tried again; the first answer
    ends it, with success, whatever it is. *)
Theorem InitRole_exact rounds admin adminPwd tr out :
  runs (InitRole rounds admin adminPwd) tr out ->
  out = Returned (Some (Ok tt)) \/
  (out = Returned None /\ length tr = 2 * rounds).
Proof.
  revert tr. induction rounds as [|n IH]; intros tr H; cbn in H; [by apply runs_inv in H as [-> ->]; right|].
  apply runs_inv in H as ([resp|e] & tr' & -> & H); cbn in H.
  - apply runs_inv in H as [-> ->]. left. by case_match.
  - apply runs_inv in H as (r & tr2 & -> & H). apply IH in H as [->|[-> Hl]]; [by left|]. right.
    split; [done|]. cbn. lia.
Qed.
