(* ===== verification/Minio.v ===== *)
(** * MinIO requests:
    [src/cmd/middleware/operator/middleware-request/handler_minio.go] and
    [src/pkg/workload/minio/helper.go]

    A request becomes a user, its buckets, and a policy that grants it these
    buckets; the JSON text of the policy is the policy here. *)

From S2P Require Import Prelude Effects Apr World Provision.

(** ** [helper.go] *)

Definition FindMinioAdminUser (namespace : string) : io (res (string * string)) :=
  find_account namespace "minio-minio-account-root".
Definition GetBucketName (namespace db : string) : string := namespace +:+ "-" +:+ db.

(** ** [handler_minio.go] *)

Definition findMinioAdminCredentials : io (res (string * string)) := FindMinioAdminUser "minio-middleware".
Definition getMinioEndpoint : string := "minio-minio." +:+ "minio-middleware" +:+ ".svc.cluster.local:9000".

Definition minio_clients (admin : string * string) : io (res (nat * nat)) :=
  let '(adminUser, adminPassword) := admin in
  let? minioClient := on_err (mw_call (MinioNew getMinioEndpoint adminUser adminPassword))
                        (wrap_w "failed to create minio client: ") in
  let? madminClient := on_err (mw_call (MadminNew getMinioEndpoint adminUser adminPassword))
                         (wrap_v "failed to create minio admin client: ") in
  Ret (Ok (minioClient, madminClient)).

Definition createOrUpdateMinioUser (madminClient : nat) (username password : string) : io (res unit) :=
  on_err (mw_call (AddUser madminClient username password)) (wrap_v "failed to add/update user: ").

Definition arn (resource : string) : string := "arn:aws:s3:::" +:+ resource.
Definition bucket_resources (buckets : list string) : list string :=
  concat (map (fun b => [arn b; arn (b +:+ "/*")]) buckets).
Definition bucket_statements (buckets : list string) (mr : MiddlewareRequest) : list S3Statement :=
  [mkStatement "Allow" (Actions ["s3:ListAllMyBuckets"; "s3:HeadBucket"; "s3:GetBucketLocation"]) [arn "*"];
   mkStatement "Allow" (OneAction "s3:*") (bucket_resources buckets)] ++
  (if minio_AllowNamespaceBuckets (ms_Minio (mr_Spec mr)) then
     let prefix := ms_AppNamespace (mr_Spec mr) in
     [mkStatement "Allow" (Actions ["s3:*"]) [arn (prefix +:+ "-*")];
      mkStatement "Allow" (OneAction "s3:*") [arn (prefix +:+ "-*/*")]]
   else []).
Definition bucket_policy (buckets : list string) (mr : MiddlewareRequest) : S3Policy :=
  mkPolicy "2012-10-17" (bucket_statements buckets mr).
Definition minio_policy_name (mr : MiddlewareRequest) : string := minio_User (ms_Minio (mr_Spec mr)) +:+ "-policy".
Definition setBucketPolicyForUser (madminClient : nat) (buckets : list string) (mr : MiddlewareRequest) : io (res unit) :=
  let user := minio_User (ms_Minio (mr_Spec mr)) in
  do? on_err (mw_call (AddCannedPolicy madminClient (minio_policy_name mr) (bucket_policy buckets mr)))
        (wrap_w "failed to add canned policy: ");
  on_err (mw_call (SetPolicy madminClient (minio_policy_name mr) user))
    (wrap_v ("failed to set policy: " +:+ minio_policy_name mr +:+ " for user: " +:+ user +:+ ", err ")).

(** A bucket that cannot be made must exist. *)
Definition ensure_bucket (minioClient : nat) (bucketName : string) : io (res unit) :=
  let! r := mw_call (MakeBucket minioClient bucketName) in
  match r with
  | Ok _ => Ret (Ok tt)
  | Err err =>
      let? exists_ := on_err (mw_call (BucketExists minioClient bucketName))
                        (wrap_w ("failed to check bucket name: " +:+ bucketName +:+ ", existence: ")) in
      if exists_ : bool then Ret (Ok tt)
      else Ret (Err (wrap_w ("failed to create bucket " +:+ bucketName +:+ ": ") err))
  end.
Definition request_buckets (req : MiddlewareRequest) : list string :=
  map (GetBucketName (ms_AppNamespace (mr_Spec req))) (minio_Buckets (ms_Minio (mr_Spec req))).

Definition createOrUpdateMinioRequest (req : MiddlewareRequest) : io (res unit) :=
  let minio := ms_Minio (mr_Spec req) in
  let? admin := on_err findMinioAdminCredentials (wrap_w "failed to find minio admin credentials: ") in
  let? (minioClient, madminClient) := minio_clients admin in
  let? userPassword := on_err (GetVarValue (minio_Password minio) (mr_Namespace req))
                         (wrap_w "failed to get user password: ") in
  do? on_err (createOrUpdateMinioUser madminClient (minio_User minio) userPassword)
        (wrap_w "failed to create or update minio user: ");
  do? for_each (ensure_bucket minioClient) (request_buckets req);
  on_err (setBucketPolicyForUser madminClient (request_buckets req) req) (wrap_w "failed to set bucket policy: ").

(** The channel is read until an item is an error; an object that cannot be
    removed is logged. *)
Definition removeAllObjectsInBucket (client : nat) (bucketName : string) : io (res unit) :=
  let! objects := mw_call (ListObjects client bucketName) in
  for_each (fun object => match object with
                          | Err e => Ret (Err e)
                          | Ok key => let! _ := mw_call (RemoveObject client bucketName key) in Ret (Ok tt)
                          end) objects.
Definition drop_bucket (client : nat) (bucketName : string) : io unit :=
  do! removeAllObjectsInBucket client bucketName;
  do! mw_call (RemoveBucket client bucketName);
  Ret tt.
Definition deleteMinioUser (madminClient : nat) (username : string) : io (res unit) :=
  let? users := on_err (mw_call (ListMinioUsers madminClient)) (wrap_v "failed to list users: ") in
  if bool_decide (username ∈ users)
  then on_err (mw_call (RemoveUser madminClient username)) (wrap_v ("failed to remove user " +:+ username +:+ ": "))
  else Ret (Ok tt).

(** Without the administrator's secret there is nothing to delete. *)
Definition deleteMinioRequest (req : MiddlewareRequest) : io (res unit) :=
  let minio := ms_Minio (mr_Spec req) in
  let! admin := findMinioAdminCredentials in
  match admin with
  | Err e => if IsNotFound e then Ret (Ok tt)
             else Ret (Err (wrap_w "failed to find minio admin credentials: " e))
  | Ok admin =>
      let? (minioClient, madminClient) := minio_clients admin in
      do! fold_all (fun _ b => drop_bucket minioClient b) (request_buckets req) tt;
      do! (if minio_AllowNamespaceBuckets minio then
             let! buckets := mw_call (ListBuckets minioClient) in
             match buckets with
             | Err _ => Ret tt
             | Ok buckets =>
                 fold_all (fun _ b => if has_prefix (ms_AppNamespace (mr_Spec req) +:+ "-") b
                                      then drop_bucket minioClient b else Ret tt) buckets tt
             end
           else Ret tt);
      do? on_err (deleteMinioUser madminClient (minio_User minio)) (wrap_w "failed to delete minio user: ");
      do! mw_call (RemoveCannedPolicy madminClient (minio_policy_name req));
      Ret (Ok tt)
  end.
