(* ===== verification/MinioSpec.v ===== *)
(** * What a MinIO request grants, and what its deletion removes *)

From S2P Require Import Prelude Effects Apr World Demo Wildcard Provision Minio.

(** ** The meaning of a policy

    A statement that allows an action on a resource grants it (MinIO's documented
    matching). *)

Definition action_list (a : S3Action) : list string := match a with OneAction x => [x] | Actions l => l end.
Definition grants (p : S3Policy) (action resource : string) : bool :=
  existsb (fun st => String.eqb (st_Effect st) "Allow" &&
                     existsb (fun a => wild a action) (action_list (st_Action st)) &&
                     existsb (fun r => wild r resource) (st_Resource st)) (po_Statement p).

(** ** What the user of a request may do *)

(** An S3 action that the policy does not already allow on every bucket. *)
Definition s3_action (a : string) : Prop :=
  has_prefix "s3:" a = true /\ a ∉ ["s3:ListAllMyBuckets"; "s3:HeadBucket"; "s3:GetBucketLocation"].
(** A name as S3 accepts it, as far as the policies are concerned. *)
Definition bucket_name (s : string) : Prop := literal s /\ str_contains "/"%char s = false.
Definition object_arn (bucket key : string) : string := arn (bucket +:+ String "/" key).

Lemma wild_s3 a : wild "s3:*" a = has_prefix "s3:" a.
Proof.
  change "s3:*" with ("s3:" +:+ "*"). rewrite wild_prefix by done. by rewrite wild_star, andb_true_r.
Qed.
Lemma wild_bucket b' b key : bucket_name b' -> bucket_name b ->
  wild (arn b') (object_arn b key) || wild (arn (b' +:+ "/*")) (object_arn b key) = String.eqb b' b.
Proof.
  intros [Hl Hs] [_ Hs2]. unfold object_arn, arn. set (h := "arn:aws:s3:::").
  rewrite wild_literal by (apply literal_app; done).
  replace (String.eqb (h +:+ b +:+ String "/" key) (h +:+ b')) with false; cbn [orb].
  - change "/*" with ("/" +:+ "*"). rewrite <- !string_app_assoc. rewrite wild_prefix by (repeat apply literal_app; done).
    rewrite wild_star, andb_true_r, !string_app_assoc. apply (has_prefix_whole "/"%char); done.
  - symmetry. apply String.eqb_neq. intros E%string_app_inj_l. subst b'.
    rewrite str_contains_app, orb_false_iff in Hs. by destruct Hs as [_ Hs].
Qed.

Lemma wild_namespace ns b key : bucket_name ns -> 
  wild (arn (ns +:+ "-*")) (object_arn b key) = has_prefix (ns +:+ "-") b.
Proof.
  intros [Hl Hs]. unfold object_arn, arn. set (h := "arn:aws:s3:::").
  change "-*" with ("-" +:+ "*"). rewrite <- !string_app_assoc. rewrite wild_prefix by (repeat apply literal_app; done).
  rewrite wild_star, andb_true_r, !string_app_assoc, has_prefix_app_l. apply has_prefix_sep.
  by rewrite str_contains_app, Hs.
Qed.

(** The pattern of a namespace's objects grants nothing its bucket pattern does
    not. *)
Lemma wild_namespace_objects ns b key : bucket_name ns ->
  wild (arn (ns +:+ "-*/*")) (object_arn b key) = true -> has_prefix (ns +:+ "-") b = true.
Proof.
  intros Hn. rewrite <- (wild_namespace ns b key Hn). destruct Hn as [Hl Hs]. unfold arn.
  change "-*/*" with ("-" +:+ "*/*"). change "-*" with ("-" +:+ "*"). rewrite <- !string_app_assoc.
  rewrite !wild_prefix by (repeat apply literal_app; done). rewrite wild_star, andb_true_r. by intros [H _]%andb_true_iff.
Qed.

Lemma existsb_buckets bs b key : Forall bucket_name bs -> bucket_name b ->
  existsb (fun r => wild r (object_arn b key)) (bucket_resources bs) = true <-> b ∈ bs.
Proof.
  intros Hbs Hb. induction Hbs as [|b' bs Hb' _ IH]; cbn; [by split; [|intros H%elem_of_nil]|].
  rewrite orb_assoc, wild_bucket, orb_true_iff, IH, String.eqb_eq, elem_of_cons by done. intuition congruence.
Qed.

(** C25: The policy of a MinIO request allows its user, on objects, exactly the
    buckets of the request and, when it asks for its whole namespace, every
    bucket whose name starts with the namespace and a dash. *)
Theorem minio_access_exact req buckets b key action :
  s3_action action -> Forall bucket_name buckets -> bucket_name (ms_AppNamespace (mr_Spec req)) -> bucket_name b ->
  grants (bucket_policy buckets req) action (object_arn b key) = true <->
  b ∈ buckets \/
  (minio_AllowNamespaceBuckets (ms_Minio (mr_Spec req)) = true /\
   has_prefix (ms_AppNamespace (mr_Spec req) +:+ "-") b = true).
Proof.
  intros [Ha Hn] Hbs Hns Hb. set (ns := ms_AppNamespace (mr_Spec req)) in *.
  unfold grants, bucket_policy, bucket_statements. cbn [po_Statement]. rewrite existsb_app. cbn [existsb st_Effect st_Action st_Resource action_list].
  rewrite !wild_literal by done.
  assert (Hf : String.eqb action "s3:ListAllMyBuckets" || (String.eqb action "s3:HeadBucket" || (String.eqb action "s3:GetBucketLocation" || false)) = false).
  { rewrite !orb_false_iff, !String.eqb_neq. set_solver. }
  rewrite Hf, wild_s3, Ha, orb_false_r. cbn [String.eqb Ascii.eqb Bool.eqb andb orb].
  rewrite orb_false_r, orb_true_iff, existsb_buckets by done.
  destruct (minio_AllowNamespaceBuckets _); [|cbn; intuition done].
  cbn [existsb st_Effect st_Action st_Resource action_list].
  rewrite wild_s3, Ha. cbn [String.eqb Ascii.eqb Bool.eqb andb orb]. rewrite !orb_false_r, wild_namespace by done.
  rewrite orb_true_iff. pose proof (wild_namespace_objects ns b key Hns) as Hw. fold ns. intuition.
Qed.

(** ** Creating the request *)

Definition mw_done (o : mw) (r : resp_mw o) (tr : history) : Prop := ev (Ext (Mw o)) r ∈ tr.

(** A MinIO request that succeeds has set its user to the password its
    password variable stands for, made or found every one of its buckets, and
    given the user the policy of these buckets, last. *)
Theorem minio_request_provisions req tr :
  runs (createOrUpdateMinioRequest req) tr (Returned (Ok tt)) ->
  let minio := ms_Minio (mr_Spec req) in
  exists mc ma pwd tr',
    resolved_in tr (mr_Namespace req) (minio_Password minio) pwd /\
    mw_done (AddUser ma (minio_User minio) pwd) (Ok tt) tr /\
    (forall b, b ∈ request_buckets req -> mw_done (MakeBucket mc b) (Ok tt) tr \/ mw_done (BucketExists mc b) (Ok true) tr) /\
    tr = tr' ++ [ev (Ext (Mw (AddCannedPolicy ma (minio_policy_name req) (bucket_policy (request_buckets req) req)))) (Ok tt);
                 ev (Ext (Mw (SetPolicy ma (minio_policy_name req) (minio_User minio)))) (Ok tt)].
Proof.
  intros H minio. unfold createOrUpdateMinioRequest in H.
  apply runs_bind_ok_returned in H as (tr1 & tr2 & admin & -> & _ & H).
  apply runs_bind_ok_returned in H as (tr3 & tr4 & [mc ma] & -> & _ & H).
  apply runs_bind_ok_returned in H as (tr5 & tr6 & pwd & -> & Hp & H).
  apply on_err_ok, GetVarValue_returned in Hp.
  apply runs_bind_ok_returned in H as (tr7 & tr8 & [] & -> & Hu & H). apply on_err_ok, on_err_ok in Hu. call_inv Hu.
  apply runs_bind_ok_returned in H as (tr9 & tr10 & [] & -> & Hb & H).
  apply on_err_ok in H. apply runs_bind_ok_returned in H as (tr11 & tr12 & [] & -> & H1 & H2).
  apply on_err_ok in H1, H2. call_inv H1. call_inv H2.
  eexists mc, ma, pwd, (tr1 ++ tr3 ++ tr5 ++ _ :: tr9). split_and!.
  - eapply resolved_in_sub; [|exact Hp]. set_solver.
  - unfold mw_done. set_solver.
  - intros b [i Hi]%list_elem_of_lookup. apply runs_for_each_returned in Hb as (segs & -> & Hs).
    destruct (Forall2_lookup_l _ _ _ _ _ Hs Hi) as (seg & Hseg & Hr).
    assert (Hsub : forall e, e ∈ seg -> e ∈ concat segs).
    { intros e He. apply list_elem_of_In, in_concat. exists seg. split; apply list_elem_of_In; [by eapply list_elem_of_lookup_2|done]. }
    apply runs_bind_returned in Hr as (s1 & s2 & r & -> & Hr1 & Hr2). call_inv Hr1. destruct r as [[]|e].
    + left. unfold mw_done. set_solver.
    + right. apply runs_bind_ok_returned in Hr2 as (s3 & s4 & ex & -> & Hr3 & Hr4). apply on_err_ok in Hr3. call_inv Hr3.
      destruct ex; [|ret_inv Hr4]. unfold mw_done. set_solver.
  - cbn. by rewrite <- !app_assoc.
Qed.

(** ** The controller's interface *)

#[export] Instance minio_provisioner : Provisioner createOrUpdateMinioRequest deleteMinioRequest.
Proof. refine {| prov_namespace := "minio-middleware"; prov_secret := "minio-minio-account-root" |}; solve_provisioner. Defined.

(** ** Deleting it *)

(** The buckets a run removed, whatever the answers. *)
Definition removed_bucket (e : event resp) : option string :=
  match projT1 e with Ext (Mw (RemoveBucket _ b)) => Some b | _ => None end.
Definition removed (tr : history) : list string := omap removed_bucket tr.
Lemma removed_app tr1 tr2 : removed (tr1 ++ tr2) = removed tr1 ++ removed tr2.
Proof. apply omap_app. Qed.
Definition keeps_buckets (o : op) : Prop := match o with Ext (Mw (RemoveBucket _ _)) => False | _ => True end.
Lemma removed_none {A} (m : io A) tr out : issues keeps_buckets m -> runs m tr out -> removed tr = [].
Proof.
  intros Hi Hr. apply (issues_runs _ _ Hi) in Hr. induction Hr as [|[o r] tr Ho _ IH]; [done|].
  unfold removed in *. cbn. destruct o as [| | | | | | |[|[]| | | |]]; done.
Qed.

Lemma drop_bucket_removed c b tr : runs (drop_bucket c b) tr (Returned tt) -> removed tr = [b].
Proof.
  intros (tr1 & tr2 & r & -> & H1 & H)%runs_bind_returned. apply removed_none in H1; [|issues_walk].
  apply runs_bind_returned in H as (tr3 & tr4 & r2 & -> & H2 & H3). call_inv H2. ret_inv H3.
  by rewrite removed_app, H1.
Qed.
Lemma drop_buckets_removed c (pick : string -> bool) l tr :
  runs (fold_all (fun _ b => if pick b then drop_bucket c b else Ret tt) l tt) tr (Returned tt) ->
  removed tr = base.filter (fun b => pick b = true) l.
Proof.
  revert tr. induction l as [|b l IH]; intros tr H; [by apply runs_inv in H as [-> _]|].
  apply runs_fold_all_cons in H as (tr1 & tr2 & [] & -> & H1 & H2). apply IH in H2. rewrite removed_app, H2.
  destruct (pick b) eqn:E.
  - rewrite filter_cons_True by done. by rewrite (drop_bucket_removed _ _ _ H1).
  - rewrite filter_cons_False by congruence. by ret_inv H1.
Qed.

Lemma drop_all_removed c l tr : runs (fold_all (fun _ b => drop_bucket c b) l tt) tr (Returned tt) -> removed tr = l.
Proof.
  intros H. apply (drop_buckets_removed c (fun _ => true)) in H. rewrite H.
  clear. induction l as [|b l IH]; [done|]. rewrite filter_cons_True by done. by rewrite IH.
Qed.

(** Deleting a MinIO request does nothing when the administrator's secret is
    gone; otherwise, when it succeeds, it has removed the buckets of the request
    and, when it had its whole namespace, every bucket that was listed and whose
    name starts with the namespace and a dash, no others; and its user is
    removed, unless it was not listed. *)
Theorem minio_delete_exact req tr :
  runs (deleteMinioRequest req) tr (Returned (Ok tt)) ->
  let minio := ms_Minio (mr_Spec req) in
  (exists e, tr = [ev (K8s (GetSecret "minio-middleware" "minio-minio-account-root")) (Err e)] /\ IsNotFound e = true) \/
  exists mc ma listed users,
    removed tr = request_buckets req ++
      (if minio_AllowNamespaceBuckets minio
       then match listed with
            | Ok l => base.filter (fun b => has_prefix (ms_AppNamespace (mr_Spec req) +:+ "-") b = true) l
            | Err _ => []
            end
       else []) /\
    (minio_AllowNamespaceBuckets minio = true -> mw_done (ListBuckets mc) listed tr) /\
    mw_done (ListMinioUsers ma) (Ok users) tr /\
    (minio_User minio ∈ users -> mw_done (RemoveUser ma (minio_User minio)) (Ok tt) tr).
Proof.
  intros H minio. unfold deleteMinioRequest in H.
  apply runs_bind_returned in H as (tr1 & tr2 & admin & -> & Hadm & H).
  destruct admin as [admin|e]; cycle 1.
  { left. destruct (IsNotFound e) eqn:E; ret_inv H. exists e. split; [|done]. rewrite app_nil_r.
    apply runs_bind_returned in Hadm as (tr3 & tr4 & r & -> & H3 & H4). call_inv H3.
    destruct r as [s|e']; ret_inv H4. done. }
  right. apply runs_bind_ok_returned in H as (tr3 & tr4 & [mc ma] & -> & Hc & H).
  apply runs_bind_returned in H as (tr5 & tr6 & [] & -> & Hb & H).
  apply runs_bind_returned in H as (tr7 & tr8 & [] & -> & Hl & H).
  apply runs_bind_ok_returned in H as (tr9 & tr10 & [] & -> & Hu & H).
  assert (H0 : removed tr10 = []) by (eapply removed_none; [|exact H]; issues_walk).
  apply removed_none in Hadm; [|issues_walk]. apply removed_none in Hc; [|issues_walk].
  apply drop_all_removed in Hb.
  assert (Hlist : exists listed,
    (minio_AllowNamespaceBuckets minio = true -> mw_done (ListBuckets mc) listed tr7) /\
    removed tr7 = if minio_AllowNamespaceBuckets minio
       then match listed with
            | Ok l => base.filter (fun b => has_prefix (ms_AppNamespace (mr_Spec req) +:+ "-") b = true) l
            | Err _ => [] end
       else []).
  { fold minio in Hl. destruct (minio_AllowNamespaceBuckets minio); [|ret_inv Hl; by exists (Ok [])].
    apply runs_bind_returned in Hl as (s1 & s2 & l & -> & H1 & H2). call_inv H1. exists l.
    split; [intros _; unfold mw_done; set_solver|]. destruct l as [l|e]; [|by ret_inv H2].
    apply drop_buckets_removed in H2. by rewrite removed_app, H2. }
  destruct Hlist as (listed & Hin & Hrm). apply on_err_ok in Hu.
  apply runs_bind_ok_returned in Hu as (s1 & s2 & users & -> & H1 & H2). apply on_err_ok in H1. call_inv H1.
  assert (H3 : removed s2 = []).
  { revert H2. case_bool_decide; intros H2; eapply removed_none; try exact H2; issues_walk. }
  exists mc, ma, listed, users. split_and!.
  - rewrite !removed_app, Hadm, Hc, Hb, Hrm, H3, H0. cbn. by rewrite app_nil_r.
  - intros Ha. specialize (Hin Ha). unfold mw_done in *. set_solver.
  - unfold mw_done. set_solver.
  - intros Hu. rewrite bool_decide_true in H2 by done. apply on_err_ok in H2. call_inv H2. unfold mw_done. set_solver.
Qed.

(** ** The properties in a concrete world *)

Definition demo_minio : MiddlewareRequest :=
  mkMiddlewareRequest (plain_meta "user-space-bob" "photos")
    (with_minio (empty_spec "photos" "ns" TypeMinio)
       {| minio_User := "bob"; minio_Password := mkPwd "secret" None; minio_Buckets := ["raw"; "thumbs"];
          minio_AllowNamespaceBuckets := true |}).
(** The bucket of another namespace, [ns-two], is there too. *)
Definition minio_world (o : op) : resp o :=
  match o return resp o with
  | K8s (GetSecret ns name) => Ok (mkSecret name ns {["username" := "root"; "password" := "pw"]})
  | Ext (Mw (MinioNew _ _ _)) => Ok 1
  | Ext (Mw (MadminNew _ _ _)) => Ok 2
  | Ext (Mw (AddUser _ _ _)) => Ok tt
  | Ext (Mw (MakeBucket _ b)) => if String.eqb b "ns-raw" then Ok tt else Err (newErr "exists")
  | Ext (Mw (BucketExists _ _)) => Ok true
  | Ext (Mw (AddCannedPolicy _ _ _)) => Ok tt
  | Ext (Mw (SetPolicy _ _ _)) => Ok tt
  | Ext (Mw (ListBuckets _)) => Ok ["ns-old"; "other-raw"; "ns-two-raw"]
  | Ext (Mw (ListObjects _ _)) => [Ok "k"; Err (newErr "listing interrupted")]
  | Ext (Mw (RemoveBucket _ _)) => Err (newErr "not empty")
  | Ext (Mw (ListMinioUsers _)) => Ok ["alice"; "bob"]
  | Ext (Mw (RemoveUser _ _)) => Ok tt
  | o => unavailable o
  end.

Lemma minio_access_exact_witness :
  grants (bucket_policy (request_buckets demo_minio) demo_minio) "s3:PutObject" (object_arn "ns-two-raw" "k") = true <->
  "ns-two-raw" ∈ request_buckets demo_minio \/ (true = true /\ has_prefix ("ns" +:+ "-") "ns-two-raw" = true).
Proof.
  apply (minio_access_exact demo_minio (request_buckets demo_minio) "ns-two-raw" "k" "s3:PutObject").
  - split; [reflexivity|]. by apply (bool_decide_unpack _).
  - repeat constructor.
  - repeat constructor.
  - repeat constructor.
Defined.

Lemma minio_request_provisions_witness :
  out_in minio_world (createOrUpdateMinioRequest demo_minio) = Returned (Ok tt) /\
  exists mc ma pwd tr',
    resolved_in (trace_in minio_world (createOrUpdateMinioRequest demo_minio)) "user-space-bob" (mkPwd "secret" None) pwd /\
    mw_done (AddUser ma "bob" pwd) (Ok tt) (trace_in minio_world (createOrUpdateMinioRequest demo_minio)) /\
    (forall b, b ∈ request_buckets demo_minio ->
       mw_done (MakeBucket mc b) (Ok tt) (trace_in minio_world (createOrUpdateMinioRequest demo_minio)) \/
       mw_done (BucketExists mc b) (Ok true) (trace_in minio_world (createOrUpdateMinioRequest demo_minio))) /\
    trace_in minio_world (createOrUpdateMinioRequest demo_minio) =
      tr' ++ [ev (Ext (Mw (AddCannedPolicy ma (minio_policy_name demo_minio)
                             (bucket_policy (request_buckets demo_minio) demo_minio)))) (Ok tt);
              ev (Ext (Mw (SetPolicy ma (minio_policy_name demo_minio) "bob"))) (Ok tt)].
Proof.
  assert (E : out_in minio_world (createOrUpdateMinioRequest demo_minio) = Returned (Ok tt)) by (vm_compute; reflexivity).
  split; [exact E|]. exact (minio_request_provisions demo_minio _ (runs_in_to _ _ _ E)).
Defined.

Lemma minio_delete_exact_witness :
  let tr := trace_in minio_world (deleteMinioRequest demo_minio) in
  removed tr = ["ns-raw"; "ns-thumbs"; "ns-old"; "ns-two-raw"] /\
  ((exists e, tr = [ev (K8s (GetSecret "minio-middleware" "minio-minio-account-root")) (Err e)] /\ IsNotFound e = true) \/
   exists mc ma listed users,
    removed tr = request_buckets demo_minio ++
      (match listed with
       | Ok l => base.filter (fun b => has_prefix ("ns" +:+ "-") b = true) l
       | Err _ => []
       end) /\
    (true = true -> mw_done (ListBuckets mc) listed tr) /\
    mw_done (ListMinioUsers ma) (Ok users) tr /\
    ("bob" ∈ users -> mw_done (RemoveUser ma "bob") (Ok tt) tr)).
Proof.
  split; [vm_compute; reflexivity|].
  assert (E : out_in minio_world (deleteMinioRequest demo_minio) = Returned (Ok tt)) by (vm_compute; reflexivity).
  exact (minio_delete_exact demo_minio _ (runs_in_to _ _ _ E)).
Defined.
