(* ===== verification/Rabbit.v ===== *)
(** * RabbitMQ requests:
    [src/cmd/middleware/operator/middleware-request/handler_rabbitmq.go] and
    [src/pkg/workload/rabbitmq/helper.go]

    A request becomes a user with full permissions on its virtual hosts, through
    the management interface; what an answer means is its status code. *)

From S2P Require Import Prelude Effects Apr World Demo Provision.

(** ** [helper.go] *)

Definition FindRabbitMQAdminUser (namespace : string) : io (res (string * string)) :=
  find_account namespace "rabbitmq-rabbitmq-account-root".
Definition GetVhostName (appNamespace vhost : string) : string := appNamespace +:+ "-" +:+ vhost.

(** ** [handler_rabbitmq.go] *)

Definition rabbitMQNs : string := "rabbitmq-middleware".
Definition getRabbitMqEndpoint : string := "http://rabbitmq-rabbitmq." +:+ rabbitMQNs +:+ ":15672".
Definition newRabbitMQClient : io (res nat) :=
  let? (adminUser, adminPassword) := FindRabbitMQAdminUser rabbitMQNs in
  mw_call (RabbitNew getRabbitMqEndpoint adminUser adminPassword).

Definition StatusOK : Z := 200.
Definition StatusCreated : Z := 201.
Definition StatusNoContent : Z := 204.
Definition StatusNotFound : Z := 404.

(** What the three functions that put something make of an answer, and the
    three that delete. *)
Definition put_outcome (failure : string) (r : HttpReply) : io (res unit) :=
  if negb (Z.eqb (hr_Status r) StatusCreated) && negb (Z.eqb (hr_Status r) StatusNoContent)
  then Ret (Err (newErr (failure +:+ hr_Body r)))
  else Ret (Ok tt).
Definition delete_outcome (failure : string) (r : HttpReply) : io (res unit) :=
  if Z.eqb (hr_Status r) StatusNotFound then Ret (Ok tt)
  else if negb (Z.eqb (hr_Status r) StatusNoContent) then Ret (Err (newErr (failure +:+ hr_Body r)))
  else Ret (Ok tt).

Definition ensureRabbitVhost (client : nat) (vhost : string) : io (res unit) :=
  let? resp := on_err (mw_call (PutVhost client vhost)) (wrap_v ("failed to put vhost " +:+ vhost +:+ ", ")) in
  put_outcome "create vhost failed " resp.
Definition createOrUpdateRabbitUser (client : nat) (username password : string) : io (res unit) :=
  let? resp := mw_call (PutUser client username password) in
  put_outcome "create user failed " resp.
Definition setRabbitPermissions (client : nat) (username vhost : string) : io (res unit) :=
  let? resp := on_err (mw_call (UpdatePermissionsIn client vhost username ".*" ".*" ".*"))
                 (wrap_v ("failed to update vhost " +:+ vhost +:+ " user " +:+ username +:+ " ")) in
  put_outcome "set permission failed " resp.
Definition deleteRabbitPermissions (client : nat) (username vhost : string) : io (res unit) :=
  let? resp := on_err (mw_call (ClearPermissionsIn client vhost username))
                 (wrap_v ("failed to clear permission user " +:+ username +:+ " vhost " +:+ vhost +:+ " ")) in
  delete_outcome "delete permission failed " resp.
Definition deleteRabbitUser (client : nat) (username : string) : io (res unit) :=
  let? resp := on_err (mw_call (DeleteRabbitUser client username)) (wrap_v ("failed to delete user " +:+ username +:+ " ")) in
  delete_outcome ("delete user " +:+ username +:+ " failed ") resp.
Definition deleteRabbitVhost (client : nat) (vhost : string) : io (res unit) :=
  let? resp := on_err (mw_call (DeleteVhost client vhost)) (wrap_v ("failed to delete vhost " +:+ vhost +:+ " ")) in
  delete_outcome ("delete vhost " +:+ vhost +:+ " failed ") resp.

Definition request_vhosts (req : MiddlewareRequest) : list string :=
  map (GetVhostName (ms_AppNamespace (mr_Spec req))) (rabbit_Vhosts (ms_RabbitMQ (mr_Spec req))).

Definition createOrUpdateRabbitMQRequest (req : MiddlewareRequest) : io (res unit) :=
  let rabbit := ms_RabbitMQ (mr_Spec req) in
  let? rmqc := newRabbitMQClient in
  let? userPassword := GetVarValue (rabbit_Password rabbit) (mr_Namespace req) in
  do? createOrUpdateRabbitUser rmqc (rabbit_User rabbit) userPassword;
  for_each (fun vhost =>
              do? ensureRabbitVhost rmqc vhost;
              setRabbitPermissions rmqc (rabbit_User rabbit) vhost) (request_vhosts req).

Definition deleteRabbitMQRequest (req : MiddlewareRequest) : io (res unit) :=
  let user := rabbit_User (ms_RabbitMQ (mr_Spec req)) in
  let! client := newRabbitMQClient in
  match client with
  | Err e => if IsNotFound e then Ret (Ok tt) else Ret (Err e)
  | Ok rmqc =>
      do? for_each (fun vhost =>
                      do? deleteRabbitPermissions rmqc user vhost;
                      on_err (deleteRabbitVhost rmqc vhost) (wrap_v ("failed to delete vhost " +:+ vhost +:+ " ")))
            (request_vhosts req);
      on_err (deleteRabbitUser rmqc user) (wrap_v ("failed to delete rabbitmq user " +:+ user +:+ " "))
  end.

(** ** What the functions have done when they succeed *)

Definition mw_ev (o : mw) (r : resp_mw o) : event resp := ev (Ext (Mw o)) r.
Definition accepted (r : HttpReply) : Prop := hr_Status r = StatusCreated \/ hr_Status r = StatusNoContent.
Definition deleted (r : HttpReply) : Prop := hr_Status r = StatusNotFound \/ hr_Status r = StatusNoContent.

Lemma put_outcome_ok failure r tr : runs (put_outcome failure r) tr (Returned (Ok tt)) -> tr = [] /\ accepted r.
Proof.
  unfold put_outcome, accepted. destruct (Z.eqb_spec (hr_Status r) StatusCreated), (Z.eqb_spec (hr_Status r) StatusNoContent);
    cbn; intros H; ret_inv H; auto.
Qed.
Lemma delete_outcome_ok failure r tr : runs (delete_outcome failure r) tr (Returned (Ok tt)) -> tr = [] /\ deleted r.
Proof.
  unfold delete_outcome, deleted. destruct (Z.eqb_spec (hr_Status r) StatusNotFound), (Z.eqb_spec (hr_Status r) StatusNoContent);
    cbn; intros H; ret_inv H; auto.
Qed.

(** The segment of a run for one virtual host. *)
Definition vhost_put (c : nat) (user vhost : string) (seg : history) : Prop :=
  exists r1 r2, seg = [mw_ev (PutVhost c vhost) (Ok r1); mw_ev (UpdatePermissionsIn c vhost user ".*" ".*" ".*") (Ok r2)] /\
    accepted r1 /\ accepted r2.
Definition vhost_deleted (c : nat) (user vhost : string) (seg : history) : Prop :=
  exists r1 r2, seg = [mw_ev (ClearPermissionsIn c vhost user) (Ok r1); mw_ev (DeleteVhost c vhost) (Ok r2)] /\
    deleted r1 /\ deleted r2.

Ltac reply_inv H lem :=
  let tr1 := fresh "tr" in let tr2 := fresh "tr" in let r := fresh "r" in let H1 := fresh "H" in let H2 := fresh "H" in
  apply runs_bind_ok_returned in H; destruct H as (tr1 & tr2 & r & -> & H1 & H2);
  try apply on_err_ok in H1; call_inv H1; apply lem in H2; destruct H2 as [-> H2].

Lemma vhost_put_ok c user vhost seg :
  runs (do? ensureRabbitVhost c vhost; setRabbitPermissions c user vhost) seg (Returned (Ok tt)) ->
  vhost_put c user vhost seg.
Proof.
  intros (tr1 & tr2 & [] & -> & H1 & H2)%runs_bind_ok_returned. unfold vhost_put.
  reply_inv H1 put_outcome_ok. reply_inv H2 put_outcome_ok. cbn. eauto 6.
Qed.
Lemma vhost_deleted_ok c user vhost f seg :
  runs (do? deleteRabbitPermissions c user vhost; on_err (deleteRabbitVhost c vhost) f) seg (Returned (Ok tt)) ->
  vhost_deleted c user vhost seg.
Proof.
  intros (tr1 & tr2 & [] & -> & H1 & H2%on_err_ok)%runs_bind_ok_returned. unfold vhost_deleted.
  reply_inv H1 delete_outcome_ok. reply_inv H2 delete_outcome_ok. cbn. eauto 6.
Qed.

(** A RabbitMQ request that succeeds has put its user, with the password its
    password variable stands for, then each virtual host and the user's full
    permissions on it, in this order; every answer was 201 or 204, and nothing
    else was called after the user was put. *)
Theorem rabbit_request_exact req tr :
  runs (createOrUpdateRabbitMQRequest req) tr (Returned (Ok tt)) ->
  let rabbit := ms_RabbitMQ (mr_Spec req) in
  exists c before pwd r segs,
    tr = before ++ mw_ev (PutUser c (rabbit_User rabbit) pwd) (Ok r) :: concat segs /\
    resolved_in before (mr_Namespace req) (rabbit_Password rabbit) pwd /\ accepted r /\
    Forall2 (vhost_put c (rabbit_User rabbit)) (request_vhosts req) segs.
Proof.
  intros H rabbit. unfold createOrUpdateRabbitMQRequest in H.
  apply runs_bind_ok_returned in H as (tr1 & tr2 & c & -> & _ & H).
  apply runs_bind_ok_returned in H as (tr3 & tr4 & pwd & -> & Hp%GetVarValue_returned & H).
  apply runs_bind_ok_returned in H as (tr5 & tr6 & [] & -> & Hu & H). reply_inv Hu put_outcome_ok.
  apply runs_for_each_returned in H as (segs & -> & Hs).
  exists c, (tr1 ++ tr3), pwd, r, segs. split_and!; [by rewrite <- !app_assoc| |done|].
  - eapply resolved_in_sub; [|exact Hp]. set_solver.
  - eapply Forall2_impl; [exact Hs|]. intros vhost seg. apply vhost_put_ok.
Qed.

(** Deleting a RabbitMQ request does nothing when the administrator's secret
    is gone; otherwise, when it succeeds, it has cleared the user's permissions
    on each virtual host of the request and deleted the virtual host, then
    deleted the user; every answer was 204, or 404, and nothing else was called
    after the client was made. *)
Theorem rabbit_delete_exact req tr :
  runs (deleteRabbitMQRequest req) tr (Returned (Ok tt)) ->
  let user := rabbit_User (ms_RabbitMQ (mr_Spec req)) in
  (exists e, runs newRabbitMQClient tr (Returned (Err e)) /\ IsNotFound e = true) \/
  exists before c segs r,
    tr = before ++ concat segs ++ [mw_ev (DeleteRabbitUser c user) (Ok r)] /\
    runs newRabbitMQClient before (Returned (Ok c)) /\ deleted r /\
    Forall2 (vhost_deleted c user) (request_vhosts req) segs.
Proof.
  intros H user. apply runs_bind_returned in H as (tr1 & tr2 & [c|e] & -> & Hc & H); cycle 1.
  { left. destruct (IsNotFound e) eqn:E; ret_inv H. exists e. by rewrite app_nil_r. }
  right. apply runs_bind_ok_returned in H as (tr3 & tr4 & [] & -> & Hs & H%on_err_ok).
  reply_inv H delete_outcome_ok. apply runs_for_each_returned in Hs as (segs & -> & Hs).
  exists tr1, c, segs, r. split_and!; [done..|].
  eapply Forall2_impl; [exact Hs|]. intros vhost seg. apply vhost_deleted_ok.
Qed.

(** ** The controller's interface *)

#[export] Instance rabbit_provisioner : Provisioner createOrUpdateRabbitMQRequest deleteRabbitMQRequest.
Proof. refine {| prov_namespace := rabbitMQNs; prov_secret := "rabbitmq-rabbitmq-account-root" |}; solve_provisioner. Defined.

(** ** The properties in a concrete world *)

Definition demo_rabbit : MiddlewareRequest :=
  mkMiddlewareRequest (plain_meta "user-space-bob" "bus")
    (with_rabbit (empty_spec "bus" "ns" TypeRabbitMQ)
       {| rabbit_User := "bob"; rabbit_Password := mkPwd "secret" None; rabbit_Vhosts := ["jobs"; "mail"] |}).
Definition rabbit_world (o : op) : resp o :=
  match o return resp o with
  | K8s (GetSecret ns name) => Ok (mkSecret name ns {["username" := "root"; "password" := "pw"]})
  | Ext (Mw (RabbitNew _ _ _)) => Ok 3
  | Ext (Mw (PutUser _ _ _)) => Ok (mkHttp 204 "")
  | Ext (Mw (PutVhost _ _)) => Ok (mkHttp 201 "")
  | Ext (Mw (UpdatePermissionsIn _ _ _ _ _ _)) => Ok (mkHttp 201 "")
  | Ext (Mw (ClearPermissionsIn _ _ _)) => Ok (mkHttp 404 "Not Found")
  | Ext (Mw (DeleteVhost _ _)) => Ok (mkHttp 204 "")
  | Ext (Mw (DeleteRabbitUser _ _)) => Ok (mkHttp 204 "")
  | o => unavailable o
  end.

Lemma rabbit_request_exact_witness :
  let tr := trace_in rabbit_world (createOrUpdateRabbitMQRequest demo_rabbit) in
  out_in rabbit_world (createOrUpdateRabbitMQRequest demo_rabbit) = Returned (Ok tt) /\
  exists c before pwd r segs,
    tr = before ++ mw_ev (PutUser c "bob" pwd) (Ok r) :: concat segs /\
    resolved_in before "user-space-bob" (mkPwd "secret" None) pwd /\ accepted r /\
    Forall2 (vhost_put c "bob") ["ns-jobs"; "ns-mail"] segs.
Proof.
  assert (E : out_in rabbit_world (createOrUpdateRabbitMQRequest demo_rabbit) = Returned (Ok tt)) by (vm_compute; reflexivity).
  split; [exact E|]. exact (rabbit_request_exact demo_rabbit _ (runs_in_to _ _ _ E)).
Defined.

Lemma rabbit_delete_exact_witness :
  let tr := trace_in rabbit_world (deleteRabbitMQRequest demo_rabbit) in
  out_in rabbit_world (deleteRabbitMQRequest demo_rabbit) = Returned (Ok tt) /\
  ((exists e, runs newRabbitMQClient tr (Returned (Err e)) /\ IsNotFound e = true) \/
   exists before c segs r,
     tr = before ++ concat segs ++ [mw_ev (DeleteRabbitUser c "bob") (Ok r)] /\
     runs newRabbitMQClient before (Returned (Ok c)) /\ deleted r /\
     Forall2 (vhost_deleted c "bob") ["ns-jobs"; "ns-mail"] segs).
Proof.
  assert (E : out_in rabbit_world (deleteRabbitMQRequest demo_rabbit) = Returned (Ok tt)) by (vm_compute; reflexivity).
  split; [exact E|]. exact (rabbit_delete_exact demo_rabbit _ (runs_in_to _ _ _ E)).
Defined.
