(* ===== verification/Sql.v ===== *)
(** * MariaDB and MySQL requests:
    [src/cmd/middleware/operator/middleware-request/handler_mariadb.go],
    [handler_mysql.go], [src/pkg/workload/mariadb/helper.go] and
    [src/pkg/workload/mysql/helper.go]

    The two handlers are the same text up to the account, the host and the part
    of the request they read; the model has this as a record. *)

From S2P Require Import Prelude Effects Apr World Provision.

Record sql_service : Type := mkSqlService {
  sql_admin : io (res (string * string));
  sql_host : string;
  sql_user : MiddlewareSpec -> string;
  sql_password : MiddlewareSpec -> PasswordVar;
  sql_databases : MiddlewareSpec -> list string }.

(** ** The statements *)

Definition GetDatabaseName (appNamespace name : string) : string := appNamespace +:+ "_" +:+ name.
Definition create_user_sql (user password : string) : string :=
  "CREATE USER IF NOT EXISTS `" +:+ user +:+ "` IDENTIFIED BY '" +:+ password +:+ "'".
Definition create_db_stmt (db : string) : string := "CREATE DATABASE IF NOT EXISTS `" +:+ db +:+ "`".
Definition grant_sql (db user : string) : string := "GRANT ALL PRIVILEGES ON `" +:+ db +:+ "`.* TO `" +:+ user +:+ "`".
Definition flush_sql : string := "FLUSH PRIVILEGES".
Definition drop_user_sql (user : string) : string := "DROP USER IF EXISTS `" +:+ user +:+ "`".
Definition drop_db_stmt (db : string) : string := "DROP DATABASE IF EXISTS `" +:+ db +:+ "`".

(** ** The handlers *)

Section Handlers.
Context (c : sql_service).

Definition sql_dsn (admin : string * string) : string :=
  admin.1 +:+ ":" +:+ admin.2 +:+ "@tcp(" +:+ sql_host c +:+ ")/".
Definition sql_dbs (req : MiddlewareRequest) : list string :=
  map (GetDatabaseName (ms_AppNamespace (mr_Spec req))) (sql_databases c (mr_Spec req)).

Definition sql_create (req : MiddlewareRequest) : io (res unit) :=
  let user := sql_user c (mr_Spec req) in
  let? admin := sql_admin c in
  let? userPassword := GetVarValue (sql_password c (mr_Spec req)) (mr_Namespace req) in
  let? db := mw_call (SqlOpen (sql_dsn admin)) in
  with_defer (mw_call (SqlClose db))
    (do? mw_call (SqlExec db (create_user_sql user userPassword));
     do? for_each (fun dbName =>
                     do? mw_call (SqlExec db (create_db_stmt dbName));
                     mw_call (SqlExec db (grant_sql dbName user))) (sql_dbs req);
     mw_call (SqlExec db flush_sql)).

Definition sql_delete (req : MiddlewareRequest) : io (res unit) :=
  let! admin := sql_admin c in
  match admin with
  | Err e => if IsNotFound e then Ret (Ok tt) else Ret (Err e)
  | Ok admin =>
      let? db := mw_call (SqlOpen (sql_dsn admin)) in
      with_defer (mw_call (SqlClose db))
        (do? mw_call (SqlExec db (drop_user_sql (sql_user c (mr_Spec req))));
         for_each (fun dbName => mw_call (SqlExec db (drop_db_stmt dbName))) (sql_dbs req))
  end.
End Handlers.

(** ** MariaDB *)

Definition mariadbNamespace : string := "mariadb-middleware".
Definition FindMariaDBAdminUser (namespace : string) : io (res (string * string)) :=
  find_account namespace "mariadb-mariadb-account-root".
Definition getMariaDBHost : string := "mariadb-mariadb-headless." +:+ "mariadb-middleware" +:+ ".svc.cluster.local:3306".
Definition mariadb : sql_service :=
  mkSqlService (FindMariaDBAdminUser mariadbNamespace) getMariaDBHost
    (fun s => maria_User (ms_MariaDB s)) (fun s => maria_Password (ms_MariaDB s)) (fun s => maria_Databases (ms_MariaDB s)).
Definition createOrUpdateMariaDBRequest : MiddlewareRequest -> io (res unit) := sql_create mariadb.
Definition deleteMariaDBRequest : MiddlewareRequest -> io (res unit) := sql_delete mariadb.

(** ** MySQL *)

Definition mysqlNamespace : string := "mysql-middleware".
Definition FindMysqlAdminUser (namespace : string) : io (res (string * string)) :=
  find_account namespace "mysql-mysql-account-root".
Definition getMysqlHost : string := "mysql-mysql-headless." +:+ "mysql-middleware" +:+ ".svc.cluster.local:3306".
Definition mysql : sql_service :=
  mkSqlService (FindMysqlAdminUser mysqlNamespace) getMysqlHost
    (fun s => mysql_User (ms_Mysql s)) (fun s => mysql_Password (ms_Mysql s)) (fun s => mysql_Databases (ms_Mysql s)).
Definition createOrUpdateMysqlRequest : MiddlewareRequest -> io (res unit) := sql_create mysql.
Definition deleteMysqlRequest : MiddlewareRequest -> io (res unit) := sql_delete mysql.
