(* ===== verification/SqlSpec.v ===== *)
(** * What MariaDB and MySQL requests do to the server *)

From S2P Require Import Prelude Effects Apr World Demo Provision Sql.

(** ** The server, as its documentation describes these statements

    Accounts with their passwords, databases, and the grants: a database name in
    a grant is a pattern, in which an underscore stands for any character and a
    percent sign for any text, between backticks too. *)

Record sql_view : Set := mkView {
  sv_users : gmap string string;
  sv_dbs : gset string;
  sv_grants : gset (string * string) }.                 (* pattern, user *)

Definition add_user (u p : string) (v : sql_view) : sql_view :=
  mkView (match sv_users v !! u with Some _ => sv_users v | None => <[u := p]> (sv_users v) end) (sv_dbs v) (sv_grants v).
Definition add_db (d : string) (v : sql_view) : sql_view := mkView (sv_users v) ({[d]} ∪ sv_dbs v) (sv_grants v).
Definition add_grant (d u : string) (v : sql_view) : sql_view := mkView (sv_users v) (sv_dbs v) ({[(d, u)]} ∪ sv_grants v).
Definition remove_user (u : string) (v : sql_view) : sql_view :=
  mkView (delete u (sv_users v)) (sv_dbs v) (base.filter (fun g => g.2 <> u) (sv_grants v)).
Definition drop_db (d : string) (v : sql_view) : sql_view := mkView (sv_users v) (sv_dbs v ∖ {[d]}) (sv_grants v).

(** Names and passwords that end where the quotes of the statements end. *)
Definition ident (s : string) : Prop := str_contains "`"%char s = false.
Definition quotable (s : string) : Prop := str_contains "'"%char s = false /\ str_contains "\"%char s = false.

Class SqlServer (S : Type) : Type := {
  sql_exec : string -> S -> S;
  sql_state : S -> sql_view;
  exec_create_user : forall u p s, ident u -> quotable p ->
    sql_state (sql_exec (create_user_sql u p) s) = add_user u p (sql_state s);
  exec_create_db : forall d s, ident d -> sql_state (sql_exec (create_db_stmt d) s) = add_db d (sql_state s);
  exec_grant : forall d u s, ident d -> ident u -> is_Some (sv_users (sql_state s) !! u) ->
    sql_state (sql_exec (grant_sql d u) s) = add_grant d u (sql_state s);
  exec_flush : forall s, sql_state (sql_exec flush_sql s) = sql_state s;
  exec_drop_user : forall u s, ident u -> sql_state (sql_exec (drop_user_sql u) s) = remove_user u (sql_state s);
  exec_drop_db : forall d s, ident d -> sql_state (sql_exec (drop_db_stmt d) s) = drop_db d (sql_state s) }.

(** MySQL's [LIKE], without its escapes. *)
Fixpoint like (p : string) : string -> bool :=
  match p with
  | EmptyString => fun s => String.eqb s ""
  | String c p' =>
      if Ascii.eqb "%"%char c then
        fix any (s : string) : bool :=
          like p' s || match s with EmptyString => false | String _ s' => any s' end
      else fun s => match s with
                    | EmptyString => false
                    | String d s' => (Ascii.eqb "_"%char c || Ascii.eqb c d) && like p' s'
                    end
  end.
Definition may_use (v : sql_view) (user db : string) : Prop :=
  exists p, (p, user) ∈ sv_grants v /\ like p db = true.

(** ** The statements a run executed *)

Definition executed (e : event resp) : option string :=
  match e with existT (Ext (Mw (SqlExec _ s))) (Ok _) => Some s | _ => None end.
Definition statements (tr : history) : list string := omap executed tr.
Definition server_after {S} `{SqlServer S} (tr : history) (s : S) : S :=
  fold_left (fun s q => sql_exec q s) (statements tr) s.

Lemma statements_app tr1 tr2 : statements (tr1 ++ tr2) = statements tr1 ++ statements tr2.
Proof. apply omap_app. Qed.
Definition no_statement (o : op) : Prop := match o with Ext (Mw (SqlExec _ _)) => False | _ => True end.
Lemma statements_none {A} (m : io A) tr out : issues no_statement m -> runs m tr out -> statements tr = [].
Proof.
  intros Hi Hr. apply (issues_runs _ _ Hi) in Hr. induction Hr as [|[o r] tr Ho _ IH]; [done|].
  unfold statements in *. cbn. destruct o as [| | | | | | |[|[]| | | |]]; done.
Qed.
Lemma statements_exec db s tr : runs (mw_call (SqlExec db s)) tr (Returned (Ok tt)) -> statements tr = [s].
Proof. intros H. by call_inv H. Qed.
Lemma statements_for_each {A} (body : A -> io (res unit)) (f : A -> list string) l tr :
  (forall x seg, runs (body x) seg (Returned (Ok tt)) -> statements seg = f x) ->
  runs (for_each body l) tr (Returned (Ok tt)) -> statements tr = concat (map f l).
Proof.
  intros Hb H. apply runs_for_each_returned in H as (segs & -> & H).
  induction H as [|x seg l segs Hx _ IH]; [done|]. cbn. by rewrite statements_app, (Hb _ _ Hx), IH.
Qed.

(** An account lookup runs no statement. *)
Definition plain_admin (c : sql_service) : Prop := issues no_statement (sql_admin c).

Definition provision_statements (user pwd : string) (dbs : list string) : list string :=
  create_user_sql user pwd :: concat (map (fun d => [create_db_stmt d; grant_sql d user]) dbs) ++ [flush_sql].

Lemma sql_create_statements c req tr : plain_admin c ->
  runs (sql_create c req) tr (Returned (Ok tt)) ->
  exists pwd, resolved_in tr (mr_Namespace req) (sql_password c (mr_Spec req)) pwd /\
    statements tr = provision_statements (sql_user c (mr_Spec req)) pwd (sql_dbs c req).
Proof.
  intros Hc H. unfold sql_create in H. cbv zeta in H.
  apply runs_bind_ok_returned in H as (tr1 & tr2 & admin & -> & H0 & H). apply (statements_none _ _ _ Hc) in H0.
  apply runs_bind_ok_returned in H as (tr3 & tr4 & pwd & -> & Hp & H).
  assert (H1 : statements tr3 = []) by (eapply statements_none; [|exact Hp]; issues_walk). apply GetVarValue_returned in Hp.
  apply runs_bind_ok_returned in H as (tr5 & tr6 & db & -> & Ho & H). call_inv Ho.
  apply runs_defer_returned in H as (tr7 & tr8 & -> & H & Hd). call_inv Hd.
  apply runs_bind_ok_returned in H as (tr9 & tr10 & [] & -> & Hu%statements_exec & H).
  apply runs_bind_ok_returned in H as (tr11 & tr12 & [] & -> & Hf & Hl%statements_exec).
  apply (statements_for_each _ (fun d => [create_db_stmt d; grant_sql d (sql_user c (mr_Spec req))])) in Hf; cycle 1.
  { intros d seg (s1 & s2 & [] & -> & H2%statements_exec & H3%statements_exec)%runs_bind_ok_returned.
    by rewrite statements_app, H2, H3. }
  exists pwd. split; [eapply resolved_in_sub; [|exact Hp]; set_solver|].
  rewrite !statements_app, H0, H1, Hu, Hf, Hl. cbn. by rewrite app_nil_r.
Qed.

Definition removal_statements (user : string) (dbs : list string) : list string :=
  drop_user_sql user :: map drop_db_stmt dbs.
Lemma concat_singletons {A B} (f : A -> B) l : concat (map (fun x => [f x]) l) = map f l.
Proof. induction l as [|x l IH]; [done|]. cbn. by rewrite IH. Qed.
Lemma sql_delete_statements c req tr : plain_admin c ->
  runs (sql_delete c req) tr (Returned (Ok tt)) ->
  (exists e, IsNotFound e = true /\ runs (sql_admin c) tr (Returned (Err e))) \/
  statements tr = removal_statements (sql_user c (mr_Spec req)) (sql_dbs c req).
Proof.
  intros Hc H. apply runs_bind_returned in H as (tr1 & tr2 & [admin|e] & -> & H0 & H); cycle 1.
  { left. destruct (IsNotFound e) eqn:E; ret_inv H. exists e. by rewrite app_nil_r. }
  right. apply (statements_none _ _ _ Hc) in H0.
  apply runs_bind_ok_returned in H as (tr5 & tr6 & db & -> & Ho & H). call_inv Ho.
  apply runs_defer_returned in H as (tr7 & tr8 & -> & H & Hd). call_inv Hd.
  apply runs_bind_ok_returned in H as (tr9 & tr10 & [] & -> & Hu%statements_exec & H).
  apply (statements_for_each _ (fun d => [drop_db_stmt d])) in H; [|intros d seg; apply statements_exec].
  rewrite concat_singletons in H. rewrite !statements_app, H0, Hu, H. cbn. by rewrite app_nil_r.
Qed.

(** ** Their effect on the server *)

Definition granted (user : string) (dbs : list string) (v : sql_view) : sql_view :=
  mkView (sv_users v) (list_to_set dbs ∪ sv_dbs v) (list_to_set (map (fun d => (d, user)) dbs) ∪ sv_grants v).
Definition without_dbs (dbs : list string) (v : sql_view) : sql_view :=
  mkView (sv_users v) (sv_dbs v ∖ list_to_set dbs) (sv_grants v).

Section Server.
Context {S : Type} {srv : SqlServer S}.
Implicit Types s : S.

Definition run_statements (l : list string) s : S := fold_left (fun s q => sql_exec q s) l s.

Lemma grants_effect user dbs s : ident user -> Forall ident dbs -> is_Some (sv_users (sql_state s) !! user) ->
  sql_state (run_statements (concat (map (fun d => [create_db_stmt d; grant_sql d user]) dbs)) s) =
  granted user dbs (sql_state s).
Proof.
  intros Hu Hd. revert s. induction Hd as [|d dbs Hd _ IH]; intros s Hs; cbn.
  - unfold granted. cbn. destruct (sql_state s). cbn. f_equal; set_solver.
  - unfold run_statements in IH.
    assert (Hc : is_Some (sv_users (sql_state (sql_exec (create_db_stmt d) s)) !! user)) by by rewrite exec_create_db.
    rewrite IH by by rewrite exec_grant. rewrite exec_grant, exec_create_db by done.
    unfold granted, add_grant, add_db. cbn. f_equal; set_solver.
Qed.
Lemma provision_effect user pwd dbs s : ident user -> quotable pwd -> Forall ident dbs ->
  sql_state (run_statements (provision_statements user pwd dbs) s) = granted user dbs (add_user user pwd (sql_state s)).
Proof.
  intros Hu Hp Hd. unfold run_statements, provision_statements. cbn. rewrite fold_left_app. cbn.
  assert (Hc : is_Some (sv_users (sql_state (sql_exec (create_user_sql user pwd) s)) !! user)).
  { rewrite exec_create_user by done. unfold add_user. cbn. destruct (sv_users _ !! user) eqn:E; [by rewrite E|].
    by rewrite lookup_insert_eq. }
  rewrite exec_flush. unfold run_statements in *. by rewrite (grants_effect user dbs), exec_create_user.
Qed.
Lemma removal_effect user dbs s : ident user -> Forall ident dbs ->
  sql_state (run_statements (removal_statements user dbs) s) = without_dbs dbs (remove_user user (sql_state s)).
Proof.
  intros Hu Hd. unfold run_statements, removal_statements. cbn. rewrite <- exec_drop_user by done.
  generalize (sql_exec (drop_user_sql user) s). clear s. induction Hd as [|d dbs Hd _ IH]; intros s; cbn.
  - unfold without_dbs. destruct (sql_state s). cbn. f_equal; set_solver.
  - rewrite IH, exec_drop_db by done. unfold without_dbs, drop_db. cbn. f_equal; set_solver.
Qed.
End Server.

(** ** The theorems *)

Definition sql_handler (c : sql_service) : Prop := c = mariadb \/ c = mysql.
Lemma sql_handler_plain c : sql_handler c -> plain_admin c.
Proof.
  unfold plain_admin. intros [-> | ->].
  - change (issues no_statement (FindMariaDBAdminUser mariadbNamespace)). issues_walk.
  - change (issues no_statement (FindMysqlAdminUser mysqlNamespace)). issues_walk.
Qed.

(** A request whose names and password keep within the quotes of the
    statements. *)
Definition well_quoted (c : sql_service) (req : MiddlewareRequest) (tr : history) : Prop :=
  ident (sql_user c (mr_Spec req)) /\ Forall ident (sql_dbs c req) /\
  forall pwd, resolved_in tr (mr_Namespace req) (sql_password c (mr_Spec req)) pwd -> quotable pwd.

Section Theorems.
Context {S : Type} {srv : SqlServer S}.
Implicit Types s : S.

Lemma sql_request_view c req tr s :
  sql_handler c -> well_quoted c req tr -> runs (sql_create c req) tr (Returned (Ok tt)) ->
  exists pwd, resolved_in tr (mr_Namespace req) (sql_password c (mr_Spec req)) pwd /\
    sql_state (server_after tr s) =
      granted (sql_user c (mr_Spec req)) (sql_dbs c req) (add_user (sql_user c (mr_Spec req)) pwd (sql_state s)).
Proof.
  intros Hc%sql_handler_plain (Hu & Hd & Hp) (pwd & Hr & Hs)%sql_create_statements; [|done].
  exists pwd. split; [done|]. unfold server_after. rewrite Hs. apply provision_effect; auto.
Qed.
Lemma sql_delete_view c req tr s :
  sql_handler c -> ident (sql_user c (mr_Spec req)) -> Forall ident (sql_dbs c req) ->
  runs (sql_delete c req) tr (Returned (Ok tt)) ->
  (exists e, IsNotFound e = true /\ runs (sql_admin c) tr (Returned (Err e))) \/
  sql_state (server_after tr s) = without_dbs (sql_dbs c req) (remove_user (sql_user c (mr_Spec req)) (sql_state s)).
Proof.
  intros Hc%sql_handler_plain Hu Hd [H|Hs]%sql_delete_statements; [by left| |done].
  right. unfold server_after. rewrite Hs. by apply removal_effect.
Qed.


(** Serving a request again changes nothing on the server, whatever password
    the password variable stands for the second time. *)
Theorem sql_request_idempotent c req tr1 tr2 s :
  sql_handler c -> well_quoted c req tr1 -> well_quoted c req tr2 ->
  runs (sql_create c req) tr1 (Returned (Ok tt)) -> runs (sql_create c req) tr2 (Returned (Ok tt)) ->
  sql_state (server_after tr2 (server_after tr1 s)) = sql_state (server_after tr1 s).
Proof.
  intros Hc Hq1 Hq2 H1 H2. destruct (sql_request_view c req tr1 s Hc Hq1 H1) as (p1 & _ & E1).
  destruct (sql_request_view c req tr2 (server_after tr1 s) Hc Hq2 H2) as (p2 & _ & ->). rewrite E1.
  set (user := sql_user c (mr_Spec req)). set (v := sql_state s).
  unfold granted, add_user. cbn. f_equal; [|set_solver..].
  destruct (sv_users v !! user) as [q|] eqn:E; [by rewrite E|]. by rewrite lookup_insert_eq.
Qed.

(** C28: When the server knew neither the request's user (which no grant
    mentioned) nor its databases, all names are well quoted, and the deletion
    gets hold of the administrator's account, then serving the request and
    deleting it bring the server back to what it was before. *)
Theorem sql_create_delete_roundtrip c req tr1 tr2 s :
  sql_handler c -> well_quoted c req tr1 ->
  runs (sql_create c req) tr1 (Returned (Ok tt)) ->
  runs (sql_delete c req) tr2 (Returned (Ok tt)) ->
  (forall e, ~ runs (sql_admin c) tr2 (Returned (Err e))) ->
  sv_users (sql_state s) !! sql_user c (mr_Spec req) = None ->
  (forall d, d ∈ sql_dbs c req -> d ∉ sv_dbs (sql_state s)) ->
  (forall p, (p, sql_user c (mr_Spec req)) ∉ sv_grants (sql_state s)) ->
  sql_state (server_after tr2 (server_after tr1 s)) = sql_state s.
Proof.
  intros Hc Hq H1 H2 Hadm Hu Hd Hg. destruct (sql_request_view c req tr1 s Hc Hq H1) as (pwd & _ & E1).
  destruct Hq as (Hu' & Hd' & _).
  destruct (sql_delete_view c req tr2 (server_after tr1 s) Hc Hu' Hd' H2) as [(e & _ & He)| ->]; [by destruct (Hadm e)|].
  rewrite E1. revert Hu Hd Hg. generalize (sql_dbs c req) (sql_user c (mr_Spec req)). intros dbs user.
  destruct (sql_state s) as [us ds gs]. unfold without_dbs, remove_user, granted, add_user. cbn. intros Hu Hd Hg. f_equal.
  - rewrite Hu. by rewrite delete_insert_id.
  - set_solver.
  - apply set_eq. intros [p u]. rewrite elem_of_filter, elem_of_union, elem_of_list_to_set, list_elem_of_fmap. cbn.
    split; [naive_solver|]. intros H. split; [|by right]. intros ->. by apply (Hg p).
Qed.

Lemma like_same_prefix p q t : like q t = true -> like (p +:+ q) (p +:+ t) = true.
Proof.
  intros H. induction p as [|c p IH]; [done|]. change (String c p +:+ q) with (String c (p +:+ q)).
  change (String c p +:+ t) with (String c (p +:+ t)). cbn -[String.append Ascii.eqb].
  destruct (Ascii.eqb "%"%char c) eqn:E; [|by rewrite Ascii.eqb_refl, orb_true_r].
  apply orb_true_iff. right. revert IH. generalize (p +:+ t). intros [|d r] ->; reflexivity.
Qed.
Lemma like_refl p : like p p = true.
Proof. rewrite <- (string_app_nil_r p). by apply like_same_prefix. Qed.

(** The underscore of a database's name is a wild card where it is granted:
    a request with a database [a_x] in the namespace [ns] lets its user use the
    database [x] of the namespace [ns-a]. *)
Theorem sql_grant_reaches_other_namespace c req tr s a x :
  sql_handler c -> well_quoted c req tr -> runs (sql_create c req) tr (Returned (Ok tt)) ->
  let ns := ms_AppNamespace (mr_Spec req) in
  (a +:+ "_" +:+ x) ∈ sql_databases c (mr_Spec req) ->
  may_use (sql_state (server_after tr s)) (sql_user c (mr_Spec req)) (GetDatabaseName (ns +:+ "-" +:+ a) x).
Proof.
  intros Hc Hq Hr ns Hin. destruct (sql_request_view c req tr s Hc Hq Hr) as (pwd & _ & ->).
  exists (GetDatabaseName ns (a +:+ "_" +:+ x)). split.
  - unfold granted. cbn. apply elem_of_union_l, elem_of_list_to_set, list_elem_of_fmap.
    exists (GetDatabaseName ns (a +:+ "_" +:+ x)). split; [done|]. by apply list_elem_of_fmap_2.
  - unfold GetDatabaseName. rewrite !string_app_assoc. apply like_same_prefix.
    exact (like_refl (a +:+ "_" +:+ x)).
Qed.
End Theorems.

(** ** A server that reads the statements

    It shows that the laws can hold, and serves the examples. *)

Fixpoint until (c : Ascii.ascii) (s : string) : string :=
  match s with
  | EmptyString => EmptyString
  | String d s' => if Ascii.eqb d c then EmptyString else String d (until c s')
  end.
Lemma until_app c s t : str_contains c s = false -> until c (s +:+ String c t) = s.
Proof.
  induction s as [|d s IH]; intros H.
  - change (until c (String c t) = ""). cbn. by rewrite Ascii.eqb_refl.
  - change (until c (String d (s +:+ String c t)) = String d s). cbn in H |- *.
    apply orb_false_iff in H as [Hd Hs]. rewrite Ascii.eqb_sym, Hd. f_equal. by apply IH.
Qed.
(** The text after a prefix, up to a character. *)
Definition part (prefix : string) (c : Ascii.ascii) (s : string) : option string :=
  if has_prefix prefix s then Some (until c (drop_str (String.length prefix) s)) else None.
Lemma part_app prefix c u t : str_contains c u = false -> part prefix c (prefix +:+ u +:+ String c t) = Some u.
Proof. intros H. unfold part. by rewrite has_prefix_self, drop_str_app, until_app. Qed.

Definition interpret (q : string) (v : sql_view) : sql_view :=
  match part "CREATE USER IF NOT EXISTS `" "`"%char q with
  | Some u => match part ("CREATE USER IF NOT EXISTS `" +:+ u +:+ "` IDENTIFIED BY '") "'"%char q with
              | Some p => add_user u p v
              | None => v
              end
  | None =>
  match part "CREATE DATABASE IF NOT EXISTS `" "`"%char q with Some d => add_db d v | None =>
  match part "GRANT ALL PRIVILEGES ON `" "`"%char q with
  | Some d => match part ("GRANT ALL PRIVILEGES ON `" +:+ d +:+ "`.* TO `") "`"%char q with
              | Some u => if sv_users v !! u then add_grant d u v else v
              | None => v
              end
  | None =>
  match part "DROP USER IF EXISTS `" "`"%char q with Some u => remove_user u v | None =>
  match part "DROP DATABASE IF EXISTS `" "`"%char q with Some d => drop_db d v | None => v end end end end end.

#[export] Instance reading_server : SqlServer sql_view.
Proof.
  refine {| sql_exec := interpret; sql_state := fun v => v |}; unfold ident, quotable, interpret.
  - intros u p v Hu [Hp _]. unfold create_user_sql.
    change ("` IDENTIFIED BY '" +:+ p +:+ "'") with (String "`" (" IDENTIFIED BY '" +:+ p +:+ "'")) at 1.
    rewrite part_app by done. cbv beta iota.
    replace ("CREATE USER IF NOT EXISTS `" +:+ u +:+ "` IDENTIFIED BY '" +:+ p +:+ "'")
      with (("CREATE USER IF NOT EXISTS `" +:+ u +:+ "` IDENTIFIED BY '") +:+ p +:+ String "'" "")
      by (by rewrite !string_app_assoc).
    by rewrite part_app.
  - intros d v Hd. unfold create_db_stmt. rewrite (part_app "CREATE DATABASE IF NOT EXISTS `" "`" d "") by done. reflexivity.
  - intros d u v Hd Hu [p Hp]. set (q := grant_sql d u).
    assert (E1 : part "GRANT ALL PRIVILEGES ON `" "`"%char q = Some d)
      by (apply (part_app _ "`" d (".* TO `" +:+ u +:+ "`")); done).
    assert (E2 : part ("GRANT ALL PRIVILEGES ON `" +:+ d +:+ "`.* TO `") "`"%char q = Some u).
    { rewrite <- (part_app ("GRANT ALL PRIVILEGES ON `" +:+ d +:+ "`.* TO `") "`" u "" Hu). f_equal.
      unfold q, grant_sql. by rewrite !string_app_assoc. }
    transitivity (match part "GRANT ALL PRIVILEGES ON `" "`"%char q with
                  | Some d => match part ("GRANT ALL PRIVILEGES ON `" +:+ d +:+ "`.* TO `") "`"%char q with
                              | Some u => if sv_users v !! u then add_grant d u v else v
                              | None => v
                              end
                  | None => v
                  end); [reflexivity|]. by rewrite E1, E2, Hp.
  - reflexivity.
  - intros u v Hu. unfold drop_user_sql. rewrite (part_app "DROP USER IF EXISTS `" _ u "") by done. reflexivity.
  - intros d v Hd. unfold drop_db_stmt. rewrite (part_app "DROP DATABASE IF EXISTS `" _ d "") by done. reflexivity.
Defined.

(** ** The properties in a concrete world *)

Definition demo_maria : MiddlewareRequest :=
  mkMiddlewareRequest (plain_meta "user-space-bob" "shop")
    (with_maria (empty_spec "shop" "ns" TypeMariaDB)
       {| maria_User := "bob"; maria_Password := mkPwd "secret" None; maria_Databases := ["a_x"; "b"] |}).
Definition sql_world (o : op) : resp o :=
  match o return resp o with
  | K8s (GetSecret ns name) => Ok (mkSecret name ns {["username" := "root"; "password" := "pw"]})
  | Ext (Mw (SqlOpen _)) => Ok 4
  | Ext (Mw (SqlExec _ _)) => Ok tt
  | o => unavailable o
  end.
Definition maria_created : history := trace_in sql_world (createOrUpdateMariaDBRequest demo_maria).
Definition maria_deleted : history := trace_in sql_world (deleteMariaDBRequest demo_maria).
Definition demo_server : sql_view := mkView {["alice" := "pw"]} {["ns-a_x"]} {[("ns-a_x", "alice")]}.

Lemma maria_created_runs : runs (sql_create mariadb demo_maria) maria_created (Returned (Ok tt)).
Proof. apply runs_in_to. vm_compute. reflexivity. Qed.
Lemma maria_deleted_runs : runs (sql_delete mariadb demo_maria) maria_deleted (Returned (Ok tt)).
Proof. apply runs_in_to. vm_compute. reflexivity. Qed.
Lemma maria_well_quoted : well_quoted mariadb demo_maria maria_created.
Proof.
  split; [done|]. split; [by repeat constructor|]. intros pwd [[_ ->]|[[=] _]]. done.
Qed.


Lemma sql_request_idempotent_witness :
  server_after maria_created (server_after maria_created demo_server) = server_after maria_created demo_server.
Proof.
  exact (sql_request_idempotent mariadb demo_maria maria_created maria_created demo_server (or_introl eq_refl)
           maria_well_quoted maria_well_quoted maria_created_runs maria_created_runs).
Defined.

Lemma sql_create_delete_roundtrip_witness :
  server_after maria_deleted (server_after maria_created demo_server) = demo_server.
Proof.
  change (sql_state (server_after maria_deleted (server_after maria_created demo_server)) = sql_state demo_server).
  apply (sql_create_delete_roundtrip mariadb demo_maria maria_created maria_deleted demo_server (or_introl eq_refl)
           maria_well_quoted maria_created_runs maria_deleted_runs).
  - intros e H%find_account_one_call. vm_compute in H. discriminate H.
  - reflexivity.
  - apply Forall_forall, (bool_decide_unpack _). vm_compute. exact I.
  - intros p H. change ((p, "bob") ∈ ({[("ns-a_x", "alice")]} : gset (string * string))) in H. set_solver.
Defined.

(** Database [x] of the namespace [ns-a] is not the request's. *)
Lemma sql_grant_reaches_other_namespace_witness :
  may_use (server_after maria_created demo_server) "bob" "ns-a_x".
Proof.
  change (may_use (sql_state (server_after maria_created demo_server)) (sql_user mariadb (mr_Spec demo_maria))
            (GetDatabaseName (ms_AppNamespace (mr_Spec demo_maria) +:+ "-" +:+ "a") "x")).
  apply (sql_grant_reaches_other_namespace mariadb demo_maria maria_created demo_server "a" "x" (or_introl eq_refl)
           maria_well_quoted maria_created_runs).
  apply elem_of_cons. by left.
Defined.

(** ** The controller's interface *)

#[export] Instance mariadb_provisioner : Provisioner createOrUpdateMariaDBRequest deleteMariaDBRequest.
Proof. refine {| prov_namespace := mariadbNamespace; prov_secret := "mariadb-mariadb-account-root" |}; solve_provisioner. Defined.
#[export] Instance mysql_provisioner : Provisioner createOrUpdateMysqlRequest deleteMysqlRequest.
Proof. refine {| prov_namespace := mysqlNamespace; prov_secret := "mysql-mysql-account-root" |}; solve_provisioner. Defined.
