(* ===== verification/Elastic.v ===== *)
(** * Elasticsearch requests:
    [src/cmd/middleware/operator/middleware-request/handler_elasticsearch.go]
    and [src/pkg/workload/elasticsearch/helper.go] *)

From S2P Require Import Prelude Effects Apr World Demo Wildcard Provision.

(** ** [helper.go] *)

Definition FindElasticsearchAdminUser (namespace : string) : io (res (string * string)) :=
  find_account namespace "elasticsearch-mdit-account-elastic".
Definition GetIndexName (appNamespace name : string) : string := appNamespace +:+ "-" +:+ name.

(** ** Text in JSON and in Go's quotes

    [encoding/json] and [%q] on the bytes of valid text: bytes from 128 on are
    parts of characters and stay (the two line separators of Unicode, which JSON
    would escape, are left out). *)

Definition byte_of (c : Ascii.ascii) : Z := Z.of_N (Ascii.N_of_ascii c).
Definition hex2 (z : Z) : string := String (hex_digit (z / 16)) (String (hex_digit (z mod 16)) "").
Definition json_char (c : Ascii.ascii) : string :=
  let z := byte_of c in
  if Z.eqb z 34 then "\" +:+ dquote
  else if Z.eqb z 92 then "\\"
  else if Z.eqb z 8 then "\b"
  else if Z.eqb z 12 then "\f"
  else if Z.eqb z 10 then "\n"
  else if Z.eqb z 13 then "\r"
  else if Z.eqb z 9 then "\t"
  else if Z.ltb z 32 || Z.eqb z 60 || Z.eqb z 62 || Z.eqb z 38 then "\u00" +:+ hex2 z
  else String c "".
Fixpoint escape (f : Ascii.ascii -> string) (s : string) : string :=
  match s with EmptyString => "" | String c s' => f c +:+ escape f s' end.
Definition json_string (s : string) : string := dquote +:+ escape json_char s +:+ dquote.
(** [json.Marshal] of a slice that is nil when it is empty. *)
Definition json_strings (l : list string) : string :=
  match l with [] => "null" | _ => "[" +:+ join "," (map json_string l) +:+ "]" end.
Definition go_char (c : Ascii.ascii) : string :=
  let z := byte_of c in
  if Z.eqb z 34 then "\" +:+ dquote
  else if Z.eqb z 92 then "\\"
  else if Z.eqb z 7 then "\a"
  else if Z.eqb z 8 then "\b"
  else if Z.eqb z 12 then "\f"
  else if Z.eqb z 10 then "\n"
  else if Z.eqb z 13 then "\r"
  else if Z.eqb z 9 then "\t"
  else if Z.eqb z 11 then "\v"
  else if Z.ltb z 32 || Z.eqb z 127 then "\x" +:+ hex2 z
  else String c "".
Definition go_quote (s : string) : string := dquote +:+ escape go_char s +:+ dquote.

(** ** [handler_elasticsearch.go] *)

Definition elasticNamespace : string := "elasticsearch-middleware".
Definition getElasticsearchEndpoint : string := "https://elasticsearch-mdit-http." +:+ elasticNamespace +:+ ":9200".
Definition newESClient (endpoint username password : string) : io (res nat) :=
  mw_call (ElasticNew endpoint username password).

Definition checkIndexIfExists (es : nat) (index : string) : io (res bool) :=
  let? reply := mw_call (IndicesExists es index) in
  if Z.eqb (er_StatusCode reply) 200 then Ret (Ok true)
  else if er_IsError reply && negb (Z.eqb (er_StatusCode reply) 404)
  then Ret (Err (newErr ("check index " +:+ index +:+ " exists failed: " +:+ er_String reply)))
  else Ret (Ok false).
(** What the requests that put something make of an answer, and those that
    delete. *)
Definition es_put_outcome (failure : string) (reply : EsReply) : io (res unit) :=
  if er_IsError reply then Ret (Err (newErr (failure +:+ er_String reply))) else Ret (Ok tt).
Definition es_delete_outcome (failure : string) (reply : EsReply) : io (res unit) :=
  if Z.eqb (er_StatusCode reply) 404 then Ret (Ok tt) else es_put_outcome failure reply.

Definition esCreateOrUpdateIndex (es : nat) (index : string) : io (res unit) :=
  let? exists_ := checkIndexIfExists es index in
  if exists_ : bool then Ret (Ok tt)
  else let? reply := mw_call (IndicesCreate es index) in es_put_outcome ("create index " +:+ index +:+ " failed: ") reply.
Definition esDeleteIndex (es : nat) (index : string) : io (res unit) :=
  let? reply := mw_call (IndicesDelete es index) in es_delete_outcome ("delete index " +:+ index +:+ " failed: ") reply.

(** The answer's body is only decoded when it is no error; nameless entries are
    left out. *)
Definition esListIndices (es : nat) (pattern : string) : io (res (list string)) :=
  let? (reply, payload) := mw_call (CatIndices es pattern) in
  if Z.eqb (er_StatusCode reply) 404 then Ret (Ok [])
  else if er_IsError reply then Ret (Err (newErr ("cat indices failed: " +:+ er_String reply)))
  else match payload with
       | Err e => Ret (Err e)
       | Ok names => Ret (Ok (base.filter (fun n => n <> "") names))
       end.

Definition role_body (indices : list string) : string :=
  join dquote ["{"; "cluster"; ":["; "monitor"; "],"; "indices"; ":[{"; "names"; ":"] +:+ json_strings indices +:+
  join dquote [","; "privileges"; ":["; "all"; "]}]}"].
Definition esPutRole (es : nat) (role : string) (indices : list string) : io (res unit) :=
  let? reply := mw_call (SecurityPutRole es role (role_body indices)) in es_put_outcome "put role failed: " reply.
Definition esDeleteRole (es : nat) (role : string) : io (res unit) :=
  let? reply := mw_call (SecurityDeleteRole es role) in es_delete_outcome ("delete role " +:+ role +:+ " failed: ") reply.
Definition user_body (password : string) : string :=
  join dquote ["{"; "password"; ":"; password; ","; "roles"; ":[]}"].
Definition esPutUser (es : nat) (user password : string) : io (res unit) :=
  let? reply := mw_call (SecurityPutUser es user (user_body password)) in es_put_outcome "put user failed: " reply.
Definition esDeleteUser (es : nat) (user : string) : io (res unit) :=
  let? reply := on_err (mw_call (SecurityDeleteUser es user)) (wrap_v "failed to send delete uer req ") in
  es_delete_outcome "delete user failed: " reply.
Definition user_role_body (role : string) : string := join dquote ["{"; "roles"; ":["] +:+ go_quote role +:+ "]}".
Definition esPutUserRole (es : nat) (user role : string) : io (res unit) :=
  let? reply := mw_call (SecurityPutUser es user (user_role_body role)) in es_put_outcome "assign role failed: " reply.

Definition request_indexes (req : MiddlewareRequest) : list string :=
  map (GetIndexName (ms_AppNamespace (mr_Spec req))) (es_Indexes (ms_Elasticsearch (mr_Spec req))).
Definition namespace_pattern (req : MiddlewareRequest) : string := ms_AppNamespace (mr_Spec req) +:+ "_*".
Definition role_indexes (req : MiddlewareRequest) : list string :=
  request_indexes req ++
  (if es_AllowNamespaceIndexes (ms_Elasticsearch (mr_Spec req)) then [namespace_pattern req] else []).
Definition role_name (req : MiddlewareRequest) : string := "role-" +:+ es_User (ms_Elasticsearch (mr_Spec req)).

Definition createOrUpdateElasticsearchRequest (req : MiddlewareRequest) : io (res unit) :=
  let user := es_User (ms_Elasticsearch (mr_Spec req)) in
  let? (adminUser, adminPassword) := FindElasticsearchAdminUser elasticNamespace in
  let? userPassword := on_err (GetVarValue (es_Password (ms_Elasticsearch (mr_Spec req))) (mr_Namespace req))
                         (wrap_v "failed to get user password ") in
  let? es := on_err (newESClient getElasticsearchEndpoint adminUser adminPassword) (wrap_v "failed to new esclient ") in
  do? on_err (esPutUser es user userPassword) (wrap_v ("failed to put user " +:+ user +:+ " "));
  do? for_each (fun name => on_err (esCreateOrUpdateIndex es name) (wrap_v ("failed to create index " +:+ name +:+ " ")))
        (request_indexes req);
  do? esPutRole es (role_name req) (role_indexes req);
  esPutUserRole es user (role_name req).

(** Each name of a listing once; an index that cannot be deleted is logged. *)
Definition drop_listed (es : nat) (seen : gset string) (name : string) : io (gset string) :=
  if bool_decide (name ∈ seen) then Ret seen
  else do! esDeleteIndex es name; Ret ({[name]} ∪ seen).
Definition deleteElasticsearchRequest (req : MiddlewareRequest) : io (res unit) :=
  let user := es_User (ms_Elasticsearch (mr_Spec req)) in
  let! admin := FindElasticsearchAdminUser elasticNamespace in
  match admin with
  | Err e => if IsNotFound e then Ret (Ok tt) else Ret (Err e)
  | Ok (adminUser, adminPassword) =>
      let? es := on_err (newESClient getElasticsearchEndpoint adminUser adminPassword) (wrap_v "failed to new esclient ") in
      do? on_err (esDeleteUser es user) (wrap_v ("failed to delete user " +:+ user +:+ " "));
      do? on_err (esDeleteRole es (role_name req)) (wrap_v ("failed to delete role " +:+ role_name req +:+ " "));
      do? for_each (fun name => on_err (esDeleteIndex es name) (wrap_v "failed to delete index ")) (request_indexes req);
      if es_AllowNamespaceIndexes (ms_Elasticsearch (mr_Spec req)) then
        let! names := esListIndices es (namespace_pattern req) in
        match names with
        | Err _ => Ret (Ok tt)
        | Ok names => do! fold_all (drop_listed es) names ∅; Ret (Ok tt)
        end
      else Ret (Ok tt)
  end.
