(* ===== verification/ElasticSpec.v ===== *)
(** * What an Elasticsearch request provides, and what its deletion removes *)

From S2P Require Import Prelude Effects Apr World Demo Wildcard Provision Elastic.

(** An index that the names of a role reach; a name may have wild cards. *)
Definition reaches (names : list string) (index : string) : bool := existsb (fun n => wild n index) names.

Lemma reaches_app l1 l2 i : reaches (l1 ++ l2) i = reaches l1 i || reaches l2 i.
Proof. apply existsb_app. Qed.
Lemma reaches_literal l i : Forall literal l -> reaches l i = true <-> i ∈ l.
Proof.
  induction 1 as [|n l Hn _ IH]; cbn; [by split; [|intros H%elem_of_nil]|].
  rewrite orb_true_iff, IH, wild_literal, String.eqb_eq, elem_of_cons by done. done.
Qed.
Lemma namespace_pattern_reaches req i :
  literal (ms_AppNamespace (mr_Spec req)) ->
  wild (namespace_pattern req) i = has_prefix (ms_AppNamespace (mr_Spec req) +:+ "_") i.
Proof.
  intros Hl. unfold namespace_pattern. change "_*" with ("_" +:+ "*"). rewrite <- string_app_assoc.
  rewrite wild_prefix by (apply literal_app; done). by rewrite wild_star, andb_true_r.
Qed.

(** C26: The names of a request's role reach, of the indexes named as the program
    names them (the namespace, a dash, a name), exactly those that the request
    lists: asking for all indexes of the namespace adds none. *)
Theorem es_own_indexes_exact req name :
  literal (ms_AppNamespace (mr_Spec req)) -> Forall literal (request_indexes req) ->
  reaches (role_indexes req) (GetIndexName (ms_AppNamespace (mr_Spec req)) name) = true <->
  name ∈ es_Indexes (ms_Elasticsearch (mr_Spec req)).
Proof.
  intros Hns Hl. unfold role_indexes. rewrite reaches_app, orb_true_iff, reaches_literal by done.
  assert (Hno : reaches (if es_AllowNamespaceIndexes (ms_Elasticsearch (mr_Spec req)) then [namespace_pattern req] else [])
                  (GetIndexName (ms_AppNamespace (mr_Spec req)) name) = false).
  { destruct (es_AllowNamespaceIndexes _); [|done]. unfold reaches. cbn [existsb].
    rewrite namespace_pattern_reaches by done. unfold GetIndexName. by rewrite (has_prefix_app_l _ "_" ("-" +:+ name)). }
  rewrite Hno. unfold request_indexes. rewrite list_elem_of_fmap. split.
  - intros [(x & E & Hx)|[=]]. 
    apply string_app_inj_l, (string_app_inj_l "-") in E. by subst.
  - intros Hin. left. eauto.
Qed.

(** ** Creating the request *)

Definition mw_ev (o : mw) (r : resp_mw o) : event resp := ev (Ext (Mw o)) r.
Definition es_accepted (r : EsReply) : Prop := er_IsError r = false.
Definition es_deleted (r : EsReply) : Prop := er_StatusCode r = 404%Z \/ er_IsError r = false.

Lemma es_put_outcome_ok failure r tr : runs (es_put_outcome failure r) tr (Returned (Ok tt)) -> tr = [] /\ es_accepted r.
Proof. unfold es_put_outcome, es_accepted. destruct (er_IsError r); intros H; by ret_inv H. Qed.
Lemma es_delete_outcome_ok failure r tr :
  runs (es_delete_outcome failure r) tr (Returned (Ok tt)) -> tr = [] /\ es_deleted r.
Proof.
  unfold es_delete_outcome, es_deleted. destruct (Z.eqb_spec (er_StatusCode r) 404); [intros H; ret_inv H; auto|].
  intros [-> ?]%es_put_outcome_ok. auto.
Qed.

(** One index made sure of: it was there, or it was created. *)
Definition index_ensured (c : nat) (name : string) (seg : history) : Prop :=
  (exists r, seg = [mw_ev (IndicesExists c name) (Ok r)] /\ er_StatusCode r = 200%Z) \/
  (exists r r', seg = [mw_ev (IndicesExists c name) (Ok r); mw_ev (IndicesCreate c name) (Ok r')] /\ es_accepted r').
Lemma index_ensured_ok c name seg :
  runs (esCreateOrUpdateIndex c name) seg (Returned (Ok tt)) -> index_ensured c name seg.
Proof.
  unfold esCreateOrUpdateIndex, checkIndexIfExists, index_ensured.
  intros (tr1 & tr2 & ex & -> & H1 & H2)%runs_bind_ok_returned.
  apply runs_bind_ok_returned in H1 as (tr3 & tr4 & r & -> & H1 & H3). call_inv H1.
  destruct (Z.eqb_spec (er_StatusCode r) 200).
  { ret_inv H3. ret_inv H2. left. eauto. }
  destruct (er_IsError r && negb (er_StatusCode r =? 404)%Z); ret_inv H3.
  apply runs_bind_ok_returned in H2 as (tr5 & tr6 & r' & -> & H2 & H4). call_inv H2.
  apply es_put_outcome_ok in H4 as [-> H4]. right. exists r, r'. done.
Qed.

(** An Elasticsearch request that succeeds has put its user, with the
    password its password variable stands for, then made sure of each of its
    indexes, then put the user's role on these indexes (and the pattern of the
    namespace) and given it to the user, and has called nothing else after the
    user was put. *)
Theorem es_request_exact req tr :
  runs (createOrUpdateElasticsearchRequest req) tr (Returned (Ok tt)) ->
  let user := es_User (ms_Elasticsearch (mr_Spec req)) in
  exists c before pwd r segs r1 r2,
    tr = before ++ mw_ev (SecurityPutUser c user (user_body pwd)) (Ok r) :: concat segs ++
         [mw_ev (SecurityPutRole c (role_name req) (role_body (role_indexes req))) (Ok r1);
          mw_ev (SecurityPutUser c user (user_role_body (role_name req))) (Ok r2)] /\
    resolved_in before (mr_Namespace req) (es_Password (ms_Elasticsearch (mr_Spec req))) pwd /\
    Forall2 (index_ensured c) (request_indexes req) segs /\
    Forall es_accepted [r; r1; r2].
Proof.
  intros H user. unfold createOrUpdateElasticsearchRequest in H. cbv zeta in H.
  apply runs_bind_ok_returned in H as (tr1 & tr2 & [au ap] & -> & _ & H).
  apply runs_bind_ok_returned in H as (tr3 & tr4 & pwd & -> & Hp%on_err_ok%GetVarValue_returned & H).
  apply runs_bind_ok_returned in H as (tr5 & tr6 & c & -> & Hc%on_err_ok & H).
  apply runs_bind_ok_returned in H as (tr7 & tr8 & [] & -> & Hu%on_err_ok & H).
  apply runs_bind_ok_returned in Hu as (u1 & u2 & r & -> & Hu1 & Hu2). call_inv Hu1. apply es_put_outcome_ok in Hu2 as [-> Hr].
  apply runs_bind_ok_returned in H as (tr9 & tr10 & [] & -> & Hi & H).
  apply runs_for_each_returned in Hi as (segs & -> & Hi).
  apply runs_bind_ok_returned in H as (tr11 & tr12 & [] & -> & Hro & H).
  apply runs_bind_ok_returned in Hro as (v1 & v2 & r1 & -> & Hv1 & Hv2). call_inv Hv1. apply es_put_outcome_ok in Hv2 as [-> Hr1].
  apply runs_bind_ok_returned in H as (w1 & w2 & r2 & -> & Hw1 & Hw2). call_inv Hw1. apply es_put_outcome_ok in Hw2 as [-> Hr2].
  exists c, (tr1 ++ tr3 ++ tr5), pwd, r, segs, r1, r2. split_and!.
  - by rewrite <- !app_assoc.
  - eapply resolved_in_sub; [|exact Hp]. set_solver.
  - eapply Forall2_impl; [exact Hi|]. intros name seg Hs%on_err_ok. by apply index_ensured_ok.
  - by repeat constructor.
Qed.

(** ** Deleting it *)

Definition deleted_index (e : event resp) : option string :=
  match projT1 e with Ext (Mw (IndicesDelete _ i)) => Some i | _ => None end.
Definition deleted_indexes (tr : history) : list string := omap deleted_index tr.
Definition keeps_indexes (o : op) : Prop := match o with Ext (Mw (IndicesDelete _ _)) => False | _ => True end.
Lemma deleted_indexes_app tr1 tr2 : deleted_indexes (tr1 ++ tr2) = deleted_indexes tr1 ++ deleted_indexes tr2.
Proof. apply omap_app. Qed.
Lemma deleted_indexes_none {A} (m : io A) tr out : issues keeps_indexes m -> runs m tr out -> deleted_indexes tr = [].
Proof.
  intros Hi Hr. apply (issues_runs _ _ Hi) in Hr. induction Hr as [|[o r] tr Ho _ IH]; [done|].
  unfold deleted_indexes in *. cbn. destruct o as [| | | | | | |[|[]| | | |]]; done.
Qed.
Lemma esDeleteIndex_deletes c name tr out : runs (esDeleteIndex c name) tr (Returned out) -> deleted_indexes tr = [name].
Proof.
  intros (tr1 & tr2 & r & -> & H1 & H2)%runs_bind_returned. call_inv H1.
  assert (H : deleted_indexes tr2 = []) by (eapply deleted_indexes_none; [|exact H2]; issues_walk).
  by rewrite deleted_indexes_app, H.
Qed.

Lemma drop_listed_once c names seen tr seen' :
  runs (fold_all (drop_listed c) names seen) tr (Returned seen') ->
  NoDup (deleted_indexes tr) /\ forall i, i ∈ deleted_indexes tr <-> i ∈ names /\ i ∉ seen.
Proof.
  revert seen tr. induction names as [|n names IH]; intros seen tr H.
  { ret_inv H. split; [constructor|]. set_solver. }
  apply runs_fold_all_cons in H as (tr1 & tr2 & s1 & -> & H1 & H2). apply IH in H2 as [Hn Hi].
  unfold drop_listed in H1. rewrite deleted_indexes_app. case_bool_decide as E.
  - ret_inv H1. split; [done|]. intros i. cbn. rewrite Hi. set_solver.
  - apply runs_bind_returned in H1 as (u1 & u2 & o & -> & Hd%esDeleteIndex_deletes & H1). ret_inv H1.
    rewrite app_nil_r, Hd. cbn. split.
    + constructor; [|done]. rewrite Hi. set_solver.
    + intros i. rewrite elem_of_cons, Hi. destruct (decide (i = n)); set_solver.
Qed.

(** Dropping the indexes of the namespace: nothing, or what a listing names. *)
Definition namespace_dropped (c : nat) (req : MiddlewareRequest) (tr : history) : Prop :=
  NoDup (deleted_indexes tr) /\
  (deleted_indexes tr = [] \/
   es_AllowNamespaceIndexes (ms_Elasticsearch (mr_Spec req)) = true /\
   exists reply names, mw_ev (CatIndices c (namespace_pattern req)) (Ok (reply, Ok names)) ∈ tr /\
     er_IsError reply = false /\ forall i, i ∈ deleted_indexes tr <-> i ∈ names /\ i <> "").
Lemma esListIndices_ok c pattern tr names :
  runs (esListIndices c pattern) tr (Returned (Ok names)) ->
  deleted_indexes tr = [] /\
  (names = [] \/ exists reply l, mw_ev (CatIndices c pattern) (Ok (reply, Ok l)) ∈ tr /\ er_IsError reply = false /\
     names = base.filter (fun n => n <> "") l).
Proof.
  intros (tr1 & tr2 & [reply payload] & -> & H1 & H)%runs_bind_ok_returned. call_inv H1.
  destruct (Z.eqb (er_StatusCode reply) 404); [ret_inv H; auto|].
  destruct (er_IsError reply) eqn:Er; [ret_inv H|]. destruct payload as [l|e]; ret_inv H.
  split; [done|]. right. exists reply, l. split; [left|done].
Qed.
Lemma drop_namespace_ok c req tr :
  runs (let! names := esListIndices c (namespace_pattern req) in
        match names with
        | Err _ => Ret (Ok tt)
        | Ok names => do! fold_all (drop_listed c) names ∅; Ret (Ok tt)
        end) tr (Returned (Ok tt)) ->
  es_AllowNamespaceIndexes (ms_Elasticsearch (mr_Spec req)) = true -> namespace_dropped c req tr.
Proof.
  unfold namespace_dropped. intros (tr1 & tr2 & names & -> & H1 & H)%runs_bind_returned Ha.
  assert (Hno : deleted_indexes tr1 = []) by (eapply deleted_indexes_none; [|exact H1]; issues_walk).
  rewrite deleted_indexes_app, Hno. destruct names as [names|e]; [|ret_inv H; split; [constructor|by left]].
  apply runs_bind_returned in H as (tr3 & tr4 & s & -> & Hd%drop_listed_once & H). ret_inv H.
  destruct Hd as [Hn Hd]. rewrite app_nil_r. split; [done|].
  apply esListIndices_ok in H1 as [_ [->|(reply & l & Hl & Hr & ->)]].
  - left. destruct (deleted_indexes tr3) as [|i l]; [done|]. destruct (Hd i) as [Hi _]. set_solver.
  - right. split; [done|]. exists reply, l. split; [set_solver|]. split; [done|].
    intros i. cbn. rewrite Hd, list_elem_of_filter. set_solver.
Qed.

(** Deleting an Elasticsearch request does nothing when the administrator's
    secret is gone; otherwise, when it succeeds, its user and role are deleted or
    were not there, then its indexes are deleted, and, when it had its whole
    namespace, every index of the listing of the namespace's pattern, once each;
    no other index is. *)
Theorem es_delete_exact req tr :
  runs (deleteElasticsearchRequest req) tr (Returned (Ok tt)) ->
  let es := ms_Elasticsearch (mr_Spec req) in
  (exists e, tr = [ev (K8s (GetSecret elasticNamespace "elasticsearch-mdit-account-elastic")) (Err e)] /\ IsNotFound e = true) \/
  exists c ru rr extra,
    mw_ev (SecurityDeleteUser c (es_User es)) (Ok ru) ∈ tr /\ es_deleted ru /\
    mw_ev (SecurityDeleteRole c (role_name req)) (Ok rr) ∈ tr /\ es_deleted rr /\
    deleted_indexes tr = request_indexes req ++ extra /\ NoDup extra /\
    (extra = [] \/ es_AllowNamespaceIndexes es = true /\
       exists reply names, mw_ev (CatIndices c (namespace_pattern req)) (Ok (reply, Ok names)) ∈ tr /\
         er_IsError reply = false /\ forall i, i ∈ extra <-> i ∈ names /\ i <> "").
Proof.
  intros H es. apply runs_bind_returned in H as (tr1 & tr2 & [[au ap]|e] & -> & Ha & H); cycle 1.
  { left. destruct (IsNotFound e) eqn:E; ret_inv H. exists e. split; [|done]. rewrite app_nil_r.
    apply runs_bind_returned in Ha as (u1 & u2 & r & -> & Hu & Ha). call_inv Hu. by destruct r; ret_inv Ha. }
  right. cbv zeta in H. apply deleted_indexes_none in Ha; [|issues_walk].
  apply runs_bind_ok_returned in H as (tr3 & tr4 & c & -> & Hc & H). apply deleted_indexes_none in Hc; [|issues_walk].
  apply runs_bind_ok_returned in H as (tr5 & tr6 & [] & -> & Hu%on_err_ok & H).
  apply runs_bind_ok_returned in Hu as (u1 & u2 & ru & -> & Hu1%on_err_ok & Hu2). call_inv Hu1. apply es_delete_outcome_ok in Hu2 as [-> Hru].
  apply runs_bind_ok_returned in H as (tr7 & tr8 & [] & -> & Hr%on_err_ok & H).
  apply runs_bind_ok_returned in Hr as (v1 & v2 & rr & -> & Hv1 & Hv2). call_inv Hv1. apply es_delete_outcome_ok in Hv2 as [-> Hrr].
  apply runs_bind_ok_returned in H as (tr9 & tr10 & [] & -> & Hi & H).
  assert (Hd : deleted_indexes tr9 = request_indexes req).
  { apply runs_for_each_returned in Hi as (segs & -> & Hi). induction Hi as [|n seg l segs Hs _ IH]; [done|]. cbn.
    apply on_err_ok, esDeleteIndex_deletes in Hs. by rewrite deleted_indexes_app, Hs, IH. }
  exists c, ru, rr, (deleted_indexes tr10). rewrite !deleted_indexes_app, Ha, Hc, Hd.
  assert (Hx : namespace_dropped c req tr10).
  { destruct (es_AllowNamespaceIndexes _) eqn:Ea; [by apply drop_namespace_ok|]. ret_inv H. split; [constructor|by left]. }
  destruct Hx as [Hn Hx]. split_and!; try done; [unfold mw_ev; set_solver..|].
  destruct Hx as [?|(? & reply & names & ? & ?)]; [by left|]. right. split; [done|].
  exists reply, names. split; [unfold mw_ev in *; set_solver|done].
Qed.

(** ** The controller's interface *)

#[export] Instance elastic_provisioner :
  Provisioner createOrUpdateElasticsearchRequest deleteElasticsearchRequest.
Proof. refine {| prov_namespace := elasticNamespace; prov_secret := "elasticsearch-mdit-account-elastic" |}; solve_provisioner. Defined.

(** ** The properties in a concrete world *)

Definition demo_elastic : MiddlewareRequest :=
  mkMiddlewareRequest (plain_meta "user-space-bob" "search")
    (with_elastic (empty_spec "search" "ns" TypeElasticsearch)
       {| es_User := "bob"; es_Password := mkPwd "secret" None; es_Indexes := ["docs"; "mail"];
          es_AllowNamespaceIndexes := true |}).
Definition fine : EsReply := mkEsReply 200 false "[200 OK]".
Definition elastic_world (o : op) : resp o :=
  match o return resp o with
  | K8s (GetSecret ns name) => Ok (mkSecret name ns {["username" := "root"; "password" := "pw"]})
  | Ext (Mw (ElasticNew _ _ _)) => Ok 6
  | Ext (Mw (SecurityPutUser _ _ _)) => Ok fine
  | Ext (Mw (SecurityPutRole _ _ _)) => Ok fine
  | Ext (Mw (IndicesExists _ i)) => if String.eqb i "ns-docs" then Ok fine else Ok (mkEsReply 404 true "[404 Not Found]")
  | Ext (Mw (IndicesCreate _ _)) => Ok fine
  | Ext (Mw (IndicesDelete _ _)) => Ok (mkEsReply 404 true "[404 Not Found]")
  | Ext (Mw (SecurityDeleteUser _ _)) => Ok fine
  | Ext (Mw (SecurityDeleteRole _ _)) => Ok fine
  | Ext (Mw (CatIndices _ _)) => Ok (fine, Ok ["ns_old"; ""; "ns_old"])
  | o => unavailable o
  end.

Lemma es_own_indexes_exact_witness :
  reaches (role_indexes demo_elastic) (GetIndexName "ns" "drafts") = true <-> "drafts" ∈ ["docs"; "mail"].
Proof. apply (es_own_indexes_exact demo_elastic "drafts"); repeat constructor. Defined.

Lemma es_request_exact_witness :
  let tr := trace_in elastic_world (createOrUpdateElasticsearchRequest demo_elastic) in
  out_in elastic_world (createOrUpdateElasticsearchRequest demo_elastic) = Returned (Ok tt) /\
  exists c before pwd r segs r1 r2,
    tr = before ++ mw_ev (SecurityPutUser c "bob" (user_body pwd)) (Ok r) :: concat segs ++
         [mw_ev (SecurityPutRole c "role-bob" (role_body ["ns-docs"; "ns-mail"; "ns_*"])) (Ok r1);
          mw_ev (SecurityPutUser c "bob" (user_role_body "role-bob")) (Ok r2)] /\
    resolved_in before "user-space-bob" (mkPwd "secret" None) pwd /\
    Forall2 (index_ensured c) ["ns-docs"; "ns-mail"] segs /\
    Forall es_accepted [r; r1; r2].
Proof.
  assert (E : out_in elastic_world (createOrUpdateElasticsearchRequest demo_elastic) = Returned (Ok tt)) by (vm_compute; reflexivity).
  split; [exact E|]. exact (es_request_exact demo_elastic _ (runs_in_to _ _ _ E)).
Defined.

Lemma es_delete_exact_witness :
  let tr := trace_in elastic_world (deleteElasticsearchRequest demo_elastic) in
  deleted_indexes tr = ["ns-docs"; "ns-mail"; "ns_old"] /\
  ((exists e, tr = [ev (K8s (GetSecret elasticNamespace "elasticsearch-mdit-account-elastic")) (Err e)] /\ IsNotFound e = true) \/
   exists c ru rr extra,
     mw_ev (SecurityDeleteUser c "bob") (Ok ru) ∈ tr /\ es_deleted ru /\
     mw_ev (SecurityDeleteRole c "role-bob") (Ok rr) ∈ tr /\ es_deleted rr /\
     deleted_indexes tr = ["ns-docs"; "ns-mail"] ++ extra /\ NoDup extra /\
     (extra = [] \/ true = true /\
        exists reply names, mw_ev (CatIndices c "ns_*") (Ok (reply, Ok names)) ∈ tr /\
          er_IsError reply = false /\ forall i, i ∈ extra <-> i ∈ names /\ i <> "")).
Proof.
  split; [vm_compute; reflexivity|].
  assert (E : out_in elastic_world (deleteElasticsearchRequest demo_elastic) = Returned (Ok tt)) by (vm_compute; reflexivity).
  exact (es_delete_exact demo_elastic _ (runs_in_to _ _ _ E)).
Defined.
