(* ===== verification/Dispatch.v ===== *)
(** * The middleware-request controller:
    [src/cmd/middleware/operator/middleware-request/handler.go] and
    [controller.go]

    Notifications of the informer go into a work queue, and its worker calls the
    handler of the request's type. *)

From S2P Require Import Prelude Effects Apr World WorkQueue PgRequest KVRocks Nats Mongo Minio Rabbit Elastic Sql.

(** ** [handler.go] *)

(** [None] is an object that is not a middleware request. *)
Definition mr_handler (action : Action) (obj : option MiddlewareRequest) : io (res unit) :=
  match obj with
  | None => Ret (Err (newErr "invalid object"))
  | Some request =>
      match ms_Middleware (mr_Spec request) with
      | TypePostgreSQL =>
          match action with
          | ADD => createOrUpdatePGRequest request
          | UPDATE =>
              do? createOrUpdatePGRequest request;
              deleteDatabaseIfNotExists request
          | DELETE => deletePGAll request
          | UNKNOWN => Ret (Ok tt)
          end
      | TypeMongoDB =>
          match action with
          | ADD | UPDATE => createOrUpdateMDBRequest request
          | DELETE => deleteMDBRequest request
          | UNKNOWN => Ret (Ok tt)
          end
      | TypeRedis =>
          match action with
          | ADD | UPDATE => createOrUpdateRedixRequest request (bool_decide (action = UPDATE))
          | DELETE => deleteRedixRequest request
          | UNKNOWN => Ret (Ok tt)
          end
      | TypeNats =>
          match action with
          | ADD | UPDATE => createOrUpdateNatsUser request
          | DELETE => deleteNatsUserAndStream request
          | UNKNOWN => Ret (Ok tt)
          end
      | TypeMinio =>
          match action with
          | ADD | UPDATE => createOrUpdateMinioRequest request
          | DELETE => deleteMinioRequest request
          | UNKNOWN => Ret (Ok tt)
          end
      | TypeRabbitMQ =>
          match action with
          | ADD | UPDATE => createOrUpdateRabbitMQRequest request
          | DELETE => deleteRabbitMQRequest request
          | UNKNOWN => Ret (Ok tt)
          end
      | TypeElasticsearch =>
          match action with
          | ADD | UPDATE => createOrUpdateElasticsearchRequest request
          | DELETE => deleteElasticsearchRequest request
          | UNKNOWN => Ret (Ok tt)
          end
      | TypeMariaDB =>
          match action with
          | ADD | UPDATE => createOrUpdateMariaDBRequest request
          | DELETE => deleteMariaDBRequest request
          | UNKNOWN => Ret (Ok tt)
          end
      | TypeMysql =>
          match action with
          | ADD | UPDATE => createOrUpdateMysqlRequest request
          | DELETE => deleteMysqlRequest request
          | UNKNOWN => Ret (Ok tt)
          end
      | TypeZinc | TypeOther _ => Ret (Ok tt)
      end
  end.

(** ** [controller.go]

    The queue of [WorkQueue]; the worker holds on to a deletion that fails. *)

Definition mr_job : Type := Action * option MiddlewareRequest.
Definition mr_process : mr_job -> io (mr_job * res unit) := reading (fun j => mr_handler j.1 j.2).
Definition mr_holds (j : mr_job) : bool := bool_decide (j.1 = DELETE).
Definition dispatcher : Type := queue_state mr_job.
Definition dispatch_step : dispatcher -> dispatcher -> Prop := queue_step mr_process mr_holds.
Definition dispatches : dispatcher -> dispatcher -> Prop := queue_runs mr_process mr_holds.
Definition dispatched : dispatcher -> Prop := queue_reaches mr_process mr_holds.
