(* ===== verification/DispatchSpec.v ===== *)
(** * What the request controller guarantees, and what it does not *)

From S2P Require Import Prelude Effects Apr World WorkQueue WorkQueueSpec Demo Provision KVRocks Mongo MongoSpec MinioSpec Rabbit SqlSpec Elastic ElasticSpec Dispatch.

(** ** The handler, as the queue calls it *)

Lemma mr_process_runs a o tr r :
  runs (mr_handler a o) tr (Returned r) <-> runs (mr_process (a, o)) tr (Returned ((a, o), r)).
Proof.
  unfold mr_process, reading. cbn. split.
  - intros H. rewrite <- (app_nil_r tr). eapply runs_bind_intro; [exact H|constructor].
  - intros (tr1 & tr2 & x & -> & H1 & H2)%runs_bind_returned. ret_inv H2. by rewrite app_nil_r.
Qed.

(** ** Requests of the middlewares behind an account *)

Definition account_secret (ty : MiddlewareType) : option (string * string) :=
  match ty with
  | TypeMinio => Some ("minio-middleware", "minio-minio-account-root")
  | TypeRabbitMQ => Some ("rabbitmq-middleware", "rabbitmq-rabbitmq-account-root")
  | TypeElasticsearch => Some ("elasticsearch-middleware", "elasticsearch-mdit-account-elastic")
  | TypeMariaDB => Some ("mariadb-middleware", "mariadb-mariadb-account-root")
  | TypeMysql => Some ("mysql-middleware", "mysql-mysql-account-root")
  | _ => None
  end.

(** The controller serves such a type through the interface. *)
Lemma served_by_provisioner req ns name :
  account_secret (ms_Middleware (mr_Spec req)) = Some (ns, name) ->
  exists create delete (P : Provisioner create delete),
    prov_namespace = ns /\ prov_secret = name /\
    mr_handler ADD (Some req) = create req /\ mr_handler UPDATE (Some req) = create req /\
    mr_handler DELETE (Some req) = delete req.
Proof.
  unfold mr_handler, account_secret. destruct (ms_Middleware (mr_Spec req)); intros [= <- <-];
    [exists _, _, minio_provisioner|exists _, _, rabbit_provisioner|exists _, _, elastic_provisioner
    |exists _, _, mariadb_provisioner|exists _, _, mysql_provisioner]; done.
Qed.

(** A request of MinIO, RabbitMQ, Elasticsearch, MariaDB or MySQL is handled
    with the middleware's account, which is read first.  Without it nothing else
    is called: an addition or an update fails (and is tried again), and so does a
    deletion, unless the account's secret does not exist: then the middleware is
    gone and the deletion is done. *)
Theorem account_is_needed req ns name action tr out :
  account_secret (ms_Middleware (mr_Spec req)) = Some (ns, name) -> action <> UNKNOWN ->
  runs (mr_handler action (Some req)) tr out ->
  exists r tr', tr = ev (K8s (GetSecret ns name)) r :: tr' /\
    forall e, r = Err e -> tr' = [] /\
      if bool_decide (action = DELETE) && IsNotFound e then out = Returned (Ok tt)
      else exists e', out = Returned (Err e').
Proof.
  intros (create & delete & P & <- & <- & Ha & Hu & Hd)%served_by_provisioner Hact Hr.
  destruct action; [done|rewrite Ha in Hr|rewrite Hu in Hr|rewrite Hd in Hr].
  3: rewrite bool_decide_true by done; exact (delete_reads_account create delete req tr out Hr).
  all: destruct (create_reads_account create delete req tr out Hr) as (r & tr' & -> & H);
    exists r, tr'; split; [done|]; intros e He; destruct (H e He) as (-> & e' & -> & _); rewrite bool_decide_false by done; (split; [done|by exists e']).
Qed.

(** ** Deletions hold the worker *)

(** A deletion is never put back: after a failed call for a deletion, the
    next call of the handler is for the same deletion, whatever else arrives or
    becomes ready in the meantime. *)
Theorem deletion_is_repeated d :
  dispatched d ->
  forall l1 e next b l2, q_log d = l1 ++ (e, false) :: (next, b) :: l2 -> (en_job e).1 = DELETE ->
  en_ptr next = en_ptr e.
Proof.
  intros Hd l1 e next b l2 Hl Ha. eapply (holding_is_repeated mr_process mr_holds d Hd); [exact Hl|].
  by apply bool_decide_eq_true.
Qed.

(** C21: A deletion that arrives as a tombstone (an object that is not a request,
    as the informer gives when it missed the deletion itself) can never
    succeed: once the worker has taken it, the worker holds it for ever, and no
    other request of any type is handled again. *)
Theorem tombstone_blocks_controller e d d' :
  en_job e = (DELETE, None) -> q_running d = Some e -> dispatches d d' ->
  (exists e', q_running d' = Some e' /\ en_ptr e' = en_ptr e /\ en_job e' = (DELETE, None)) /\
  exists es, q_log d' = q_log d ++ map (fun e => (e, false)) es /\ Forall (fun x => en_ptr x = en_ptr e) es.
Proof.
  intros Hj Hc Hd.
  apply (stuck_forever mr_process mr_holds (fun j => j = (DELETE, None)) (en_ptr e) d d'); [| |by eauto|done].
  - intros j -> tr j' r H. apply runs_inv in H as [-> [= -> ->]]. by eauto.
  - by intros j ->.
Qed.

(** ** A retry can overtake a deletion *)

Definition add_of (r : MiddlewareRequest) : entry mr_job := mkEntry 0 (ADD, Some r).
Definition delete_of (r : MiddlewareRequest) : entry mr_job := mkEntry 1 (DELETE, Some r).

(** C20: The order of a request's notifications is not kept across failures.  If
    the addition of a request can fail and can succeed, and its deletion can
    succeed, then this run exists: the addition fails and waits; the request is
    deleted, successfully; the five seconds end and the addition succeeds.  The
    controller is then idle, with nothing left to do, and the last thing it did
    was to provision a request that no longer exists. *)
Theorem stale_retry_resurrects r tr1 tr2 tr3 err :
  runs (mr_handler ADD (Some r)) tr1 (Returned (Err err)) ->
  runs (mr_handler DELETE (Some r)) tr2 (Returned (Ok tt)) ->
  runs (mr_handler ADD (Some r)) tr3 (Returned (Ok tt)) ->
  dispatched (mkQueue [] [] None [add_of r; delete_of r]
    [(add_of r, false); (delete_of r, true); (add_of r, true)] false).
Proof.
  intros H1%mr_process_runs H2%mr_process_runs H3%mr_process_runs.
  exact (retry_overtakes mr_process mr_holds (add_of r) (delete_of r) (ADD, Some r) tr1 tr2 tr3 err _ _
           ltac:(done) ltac:(done) H1 H2 H3).
Qed.

(** ** The properties on concrete runs *)

(** MongoDB is not up yet when the request arrives. *)
Lemma stale_retry_resurrects_witness :
  dispatched (mkQueue [] [] None [add_of demo_mongo; delete_of demo_mongo]
    [(add_of demo_mongo, false); (delete_of demo_mongo, true); (add_of demo_mongo, true)] false).
Proof.
  apply (stale_retry_resurrects demo_mongo
    (trace_in (mongo_world false) (createOrUpdateMDBRequest demo_mongo))
    (trace_in (mongo_world true) (deleteMDBRequest demo_mongo))
    (trace_in (mongo_world true) (createOrUpdateMDBRequest demo_mongo)) (newErr "connection refused"));
    apply runs_in_to; vm_compute; reflexivity.
Defined.

Definition unrelated : MiddlewareRequest := mkMiddlewareRequest (plain_meta "ns" "z") (empty_spec "z" "ns" TypeZinc).
Definition idle : entry mr_job := mkEntry 7 (UPDATE, Some unrelated).
Definition tombstone : entry mr_job := mkEntry 8 (DELETE, None).

(** A notification handled, and a tombstone that failed twice. *)
Definition demo_dispatcher : dispatcher :=
  mkQueue [] [] (Some tombstone) [idle; tombstone] [(idle, true); (tombstone, false); (tombstone, false)] false.
Lemma demo_dispatched : dispatched demo_dispatcher.
Proof.
  unfold dispatched, queue_reaches, queue_runs, demo_dispatcher.
  eapply rtc_l; [apply (step_enqueue _ _ [] [] None [] [] idle), not_elem_of_nil|].
  eapply rtc_l; [apply step_get|].
  eapply rtc_l; [eapply (step_success _ _ [] [] _ [] idle _ []); constructor|].
  eapply rtc_l; [apply (step_enqueue _ _ [] [] None _ _ tombstone); cbn; by rewrite list_elem_of_singleton|].
  eapply rtc_l; [apply step_get|].
  eapply rtc_l; [eapply (step_retry _ _ [] [] _ _ tombstone _ []); [constructor|done]|].
  eapply rtc_l; [eapply (step_retry _ _ [] [] _ _ tombstone _ []); [constructor|done]|].
  apply rtc_refl.
Qed.

Lemma deletion_is_repeated_witness :
  exists next b l2, q_log demo_dispatcher = [(idle, true)] ++ (tombstone, false) :: (next, b) :: l2 /\
    en_ptr next = en_ptr tombstone.
Proof.
  eexists _, _, _. split; [reflexivity|].
  eapply (deletion_is_repeated demo_dispatcher demo_dispatched [(idle, true)] tombstone); reflexivity.
Defined.

Lemma tombstone_blocks_controller_witness :
  (exists e', q_running demo_dispatcher = Some e' /\ en_ptr e' = 8 /\ en_job e' = (DELETE, None)) /\
  exists es, q_log demo_dispatcher = q_log demo_dispatcher ++ map (fun e => (e, false)) es /\ Forall (fun x => en_ptr x = 8) es.
Proof.
  apply (tombstone_blocks_controller tombstone demo_dispatcher demo_dispatcher); [reflexivity|reflexivity|apply rtc_refl].
Defined.

(** The queue's own properties, of this controller. *)
Lemma queue_conserves_witness :
  NoDup (map en_ptr (q_arrived demo_dispatcher)) /\
  map en_ptr (q_arrived demo_dispatcher) ≡ₚ
    map en_ptr (q_ready demo_dispatcher ++ q_waiting demo_dispatcher ++ held demo_dispatcher ++ succeeded demo_dispatcher).
Proof. apply (queue_conserves mr_process mr_holds demo_dispatcher), demo_dispatched. Defined.

Lemma hopeless_is_never_dropped_witness :
  (exists e', e' ∈ q_ready demo_dispatcher ++ q_waiting demo_dispatcher ++ held demo_dispatcher /\ en_ptr e' = 8) /\
  forall e', e' ∈ succeeded demo_dispatcher -> en_ptr e' <> 8.
Proof.
  apply (hopeless_is_never_dropped mr_process mr_holds (fun j => j = (DELETE, None)) tombstone demo_dispatcher).
  - intros j -> tr j' r H. apply runs_inv in H as [-> [= -> ->]]. by eauto.
  - exact demo_dispatched.
  - apply elem_of_cons. right. by apply list_elem_of_singleton.
  - reflexivity.
Defined.

Lemma queue_fifo_witness :
  let s := mkQueue [] [] None [idle] [(idle, true)] false : dispatcher in
  q_arrived s = map fst (q_log s) ++ held s ++ q_ready s.
Proof.
  apply (queue_fifo mr_process mr_holds).
  - eapply rtc_l; [apply (step_enqueue _ _ [] [] None [] [] idle), not_elem_of_nil|].
    eapply rtc_l; [apply step_get|].
    eapply rtc_l; [eapply (step_success _ _ [] [] _ [] idle _ []); constructor|apply rtc_refl].
  - by repeat constructor.
Defined.

(** Nothing answers: the addition fails. *)
Lemma account_is_needed_witness :
  exists r tr', trace_in unavailable (mr_handler ADD (Some demo_rabbit)) =
      ev (K8s (GetSecret "rabbitmq-middleware" "rabbitmq-rabbitmq-account-root")) r :: tr' /\
    forall e, r = Err e -> tr' = [] /\
      if bool_decide (ADD = DELETE) && IsNotFound e
      then out_in unavailable (mr_handler ADD (Some demo_rabbit)) = Returned (Ok tt)
      else exists e', out_in unavailable (mr_handler ADD (Some demo_rabbit)) = Returned (Err e').
Proof.
  apply (account_is_needed demo_rabbit "rabbitmq-middleware" "rabbitmq-rabbitmq-account-root" ADD); [reflexivity|discriminate|].
  apply runs_in.
Defined.
