(* ===== verification/SystemBackup.v ===== *)
(** * The system backup

    [src/cmd/middleware/operator/backup]: the watcher that backs up and restores
    the middlewares when the system does, the flows of each middleware, and the
    helpers they use in [src/pkg/workload/citus/helper.go] and
    [src/pkg/workload/redis-cluster/helper.go].  The flows of one backup run as
    goroutines of a wait group: a step relation with the slice they share. *)

From S2P Require Import Prelude Effects Apr World Citus RedisCluster KVRocks.

(** ** [citus/helper.go]: backup and restore resources *)

Definition ForceCreateNewPGClusterBackup (backup : PGClusterBackup) : io (res unit) :=
  let ns := om_Namespace (pgb_meta backup) in
  let name := om_Name (pgb_meta backup) in
  let? currentBackup := found (apr_call (GetPGBackup ns name)) in
  do? (match currentBackup with
       | None => Ret (Ok tt)
       | Some b =>
           if bool_decide (bs_State (pgb_Status b) = StateRunning)
           then Ret (Err (newErr "duplicate pg backup job"))
           else
             do? apr_call (DeletePGBackup ns name);
             do! PollImmediate 3600 (gone (apr_call (GetPGBackup ns name)));
             Ret (Ok tt)
       end);
  apr_call (CreatePGBackup ns (mkPGClusterBackup (pgb_meta backup) (pgb_ClusterName backup)
              (pgb_VolumeSpec backup) (with_state (pgb_Status backup) StateNew))).

Definition ForceCreateNewPGClusterRestore (restore : PGClusterRestore) : io (res unit) :=
  let ns := om_Namespace (pgr_meta restore) in
  let name := om_Name (pgr_meta restore) in
  let? currentRestore := found (apr_call (GetPGRestore ns name)) in
  do? (match currentRestore with
       | None => Ret (Ok tt)
       | Some r =>
           if bool_decide (rst_State (pgr_Status r) = StateRunning)
           then Ret (Err (newErr "duplicate restore job"))
           else apr_call (DeletePGRestore ns name)
       end);
  apr_call (CreatePGRestore ns (mkPGClusterRestore (pgr_meta restore) (pgr_ClusterName restore)
              (pgr_BackupName restore) (with_rstate (pgr_Status restore) StateNew))).

Definition pg_backup_failure (b : PGClusterBackup) : string :=
  "backup pg failed, " +:+ bs_Error (pgb_Status b) +:+ ", " +:+ om_Name (pgb_meta b) +:+ ", " +:+
  om_Namespace (pgb_meta b).
Definition pg_restore_failure (r : PGClusterRestore) : string :=
  "restore pg failed, " +:+ rst_Error (pgr_Status r) +:+ ", " +:+ om_Name (pgr_meta r) +:+ ", " +:+
  om_Namespace (pgr_meta r).
Definition WaitForAllPGBackupComplete : io (res unit) :=
  Poll 720 (let? backups := found (apr_call ListPGBackups) in
            Ret (match backups with
                 | None => Ok None
                 | Some l => all_complete (fun b => bs_State (pgb_Status b)) pg_backup_failure l
                 end)).
Definition WaitForAllPGRestoreComplete : io (res unit) :=
  Poll 720 (let? restores := found (apr_call ListPGRestores) in
            Ret (match restores with
                 | None => Ok None
                 | Some l => all_complete (fun r => rst_State (pgr_Status r)) pg_restore_failure l
                 end)).

(** ** [redis-cluster/helper.go]: the operator's resources *)

Definition REDISCLUSTER_NAMESPACE : string := "os-platform".
Definition REDISCLUSTER_NAME : string := "redis-cluster".
Definition ClusterStatusOK : string := "Healthy".

(** An object that cannot be converted, and a failing list, are waited for. *)
Definition WaitForInitializeComplete : io (res unit) :=
  Poll 720
    (let! redisCluster := rc_call (GetDRC REDISCLUSTER_NAMESPACE REDISCLUSTER_NAME) in
     match redisCluster with
     | Err e => if IsNotFound e then Ret (Ok None) else Ret (Err e)
     | Ok (Err _) => Ret (Ok None)
     | Ok (Ok redisCluster) =>
         match drc_Nodes redisCluster with
         | [] => Ret (Ok None)
         | _ =>
             if negb (String.eqb (drc_Status redisCluster) ClusterStatusOK) &&
                negb (String.eqb (drc_Reason redisCluster) "OK")
             then Ret (Ok None)
             else
               let! l := k8s_call (ListStatefulSets REDISCLUSTER_NAMESPACE "managed-by=redis-cluster-operator") in
               match l with
               | Err _ | Ok [] => Ret (Ok None)
               | Ok _ => Ret (Ok (Some tt))
               end
         end
     end).

Definition UpdateRedisClusterDeployment : io (res unit) := restart_proxy REDISCLUSTER_NAMESPACE.

Definition set_master_size (c : DistributedRedisCluster) (nodes : Z) : DistributedRedisCluster :=
  mkDRC (drc_meta c) nodes (drc_Init c) (drc_Status c) (drc_Reason c) (drc_Nodes c) (drc_RestorePhase c)
    (drc_RestoreBackup c) (drc_rest c).
Definition ScaleRedisClusterNodes (name namespace : string) (nodes : Z) : io (res unit) :=
  let? cluster := rc_call (GetDRC namespace name) in
  match cluster with
  | Err e => Ret (Err e)
  | Ok drc => let? _ := rc_call (UpdateDRC namespace (set_master_size drc nodes)) in Ret (Ok tt)
  end.

(** The directory of the previous backup is emptied; what fails is logged. *)
Definition empty_backup_dir (backupPath : string) : io unit :=
  let! dir := sys_call (Stat backupPath) in
  match dir with
  | Ok true =>
      let! r := sys_call (RemoveAll backupPath) in
      match r with
      | Ok _ => let! _ := sys_call (Mkdir backupPath) in Ret tt
      | Err _ => Ret tt
      end
  | _ => Ret tt
  end.
Definition ForceCreateNewRedisClusterBackup (backup : RedisClusterBackup) : io (res unit) :=
  let ns := om_Namespace (rcb_meta backup) in
  let name := om_Name (rcb_meta backup) in
  let? currentBackup := found (rc_call (GetRCBackup ns name)) in
  do? (match currentBackup with
       | None => Ret (Ok tt)
       | Some b =>
           if String.eqb (rcb_Phase b) "Running"
           then Ret (Err (newErr "duplicate redis backup job"))
           else
             do? rc_call (DeleteRCBackup ns name);
             do? Poll 60 (gone (rc_call (GetRCBackup ns name)));
             do! empty_backup_dir (rcb_HostPath backup);
             Ret (Ok tt)
       end);
  rc_call (CreateRCBackup ns backup).

Definition rc_failure (b : RedisClusterBackup) : string :=
  "backup failed, " +:+ rcb_Reason b +:+ ", " +:+ om_Name (rcb_meta b) +:+ ", " +:+ om_Namespace (rcb_meta b).
Definition rc_all_complete (items : list RedisClusterBackup) : res (option unit) :=
  match map rc_failure (base.filter (fun b => rcb_Phase b = "Failed") items) with
  | [] => Ok (if existsb (fun b => String.eqb (rcb_Phase b) "Running") items then None else Some tt)
  | errs => Err (NewAggregate errs)
  end.
Definition WaitForAllRCBackupComplete : io (res unit) :=
  Poll 720 (let? backups := found (rc_call ListRCBackups) in
            Ret (match backups with None => Ok None | Some l => rc_all_complete l end)).

Definition UpdataCluster (c : DistributedRedisCluster) : io (res DistributedRedisCluster) :=
  rc_call (UpdateDRC (om_Namespace (drc_meta c)) c).
Definition UpdataClusterStatus (c : DistributedRedisCluster) : io (res DistributedRedisCluster) :=
  rc_call (UpdateDRCStatus (om_Namespace (drc_meta c)) c).

(** [templates.go]: [ClusterBackup]. *)
Definition RCClusterBackup : RedisClusterBackup := {|
  rcb_meta := mkMeta "rediscluster-backup" "" ∅ {[ "redis.kun/scope" := "cluster-scoped" ]};
  rcb_RedisClusterName := "redis-cluster";
  rcb_HostPath := ""; rcb_Phase := ""; rcb_Reason := "" |}.

(** ** [backup_pg.go] *)

Definition pg_backup_path (cluster : PGCluster) : io (res string) :=
  if negb (String.eqb (pgs_BackupStorage (pgc_Spec cluster)) "")
  then Ret (Ok (pgs_BackupStorage (pgc_Spec cluster)))
  else
    let? pvc := data_path (pgs_Owner (pgc_Spec cluster)) (om_Namespace (pgc_meta cluster)) "citus-data-pvc" in
    Ret (Ok (pvc +:+ "/pg_backup")).
Definition pg_backup_of (cluster : PGCluster) (path : string) : PGClusterBackup :=
  mkPGClusterBackup (with_namespace (pgb_meta ClusterBackup) (om_Namespace (pgc_meta cluster)))
    (pgb_ClusterName ClusterBackup) (Some path) (pgb_Status ClusterBackup).
Definition backupPostgres : io (res unit) :=
  let? clusters := apr_call (ListPGClusters "") in
  do? for_each (fun cluster =>
    let? path := pg_backup_path cluster in
    ForceCreateNewPGClusterBackup (pg_backup_of cluster path)) clusters;
  WaitForAllPGBackupComplete.

Definition pg_restore_of (cluster : PGCluster) : PGClusterRestore :=
  mkPGClusterRestore (with_namespace (pgr_meta ClusterRestore) (om_Namespace (pgc_meta cluster)))
    (pgr_ClusterName ClusterRestore) (pgr_BackupName ClusterRestore) (pgr_Status ClusterRestore).
Definition restorePostgres : io (res unit) :=
  let? clusters := apr_call (ListPGClusters "") in
  do? for_each (fun cluster => ForceCreateNewPGClusterRestore (pg_restore_of cluster)) clusters;
  WaitForAllPGRestoreComplete.

(** ** [backup_redis.go] *)

Definition getMiddlewareBackupPath : string := "/olares/rootfs/" +:+ "middleware-backup".
Definition rc_backup_of (cluster : DistributedRedisCluster) : RedisClusterBackup :=
  mkRCBackup (with_namespace (rcb_meta RCClusterBackup) (om_Namespace (drc_meta cluster)))
    (rcb_RedisClusterName RCClusterBackup) (getMiddlewareBackupPath +:+ "/redis-backup")
    (rcb_Phase RCClusterBackup) (rcb_Reason RCClusterBackup).
Definition backupRedis : io (res unit) :=
  let? clusters := k8s_call (ListDistributedRedis "") in
  do? for_each (fun cluster =>
    if negb (String.eqb (drc_Status cluster) "Healthy") then Ret (Err (newErr "redis cluster not healthy"))
    else ForceCreateNewRedisClusterBackup (rc_backup_of cluster)) clusters;
  WaitForAllRCBackupComplete.

Definition drop_restore_backup (c : DistributedRedisCluster) : DistributedRedisCluster :=
  mkDRC (drc_meta c) (drc_MasterSize c) (drc_Init c) (drc_Status c) (drc_Reason c) (drc_Nodes c)
    (drc_RestorePhase c) None (drc_rest c).
Definition init_from_backup (c : DistributedRedisCluster) (namespace : string) : DistributedRedisCluster :=
  mkDRC (drc_meta c) (drc_MasterSize c) (Some (Some (om_Name (rcb_meta RCClusterBackup), namespace)))
    (drc_Status c) (drc_Reason c) (drc_Nodes c) "Running" (drc_RestoreBackup c) (drc_rest c).
Definition restoreRedis : io (res unit) :=
  do? WaitForInitializeComplete;
  let? clusters := k8s_call (ListDistributedRedis "") in
  for_each (fun cluster =>
    let? updateCluster :=
      match drc_RestoreBackup cluster with
      | Some _ => UpdataClusterStatus (drop_restore_backup cluster)
      | None => Ret (Ok cluster)
      end in
    match drc_Init updateCluster with
    | Some _ => Ret (Ok tt)
    | None =>
        let? _ := UpdataCluster (init_from_backup updateCluster (om_Namespace (drc_meta cluster))) in
        Ret (Ok tt)
    end) clusters.

(** ** [backup_kvrocks.go] *)

(** [kvrocks/templates.go] *)
Definition KVRocksBackupTemplate : KVRocksBackup :=
  mkKVRocksBackup (mkMeta "kvrocks-backup" "" ∅ ∅) "" (mkBackupStatus StateNew None None "" "").
Definition KVRocksRestoreTemplate : KVRocksRestore :=
  mkKVRocksRestore (mkMeta "kvrocks-restore" "" ∅ ∅) "" "" (mkRestoreStatus StateNew None None "").

(** [err] is the function's variable: what the last cluster left in it is
    returned, an iteration that waits in vain is only logged. *)
Definition backupRedix : io (res unit) :=
  let? clusters := apr_call (ListRedixClusters "") in
  let? err := fold_each (fun (err : res unit) cluster =>
    match rxs_Type (rx_Spec cluster) with
    | KVRocks =>
        do? ForceCreateNewKVRocksBackup
              (mkKVRocksBackup (with_namespace (kvb_meta KVRocksBackupTemplate) (om_Namespace (rx_meta cluster)))
                 (om_Name (rx_meta cluster)) (kvb_Status KVRocksBackupTemplate));
        let! err := WaitForAllBackupComplete in Ret (Ok err)
    | RedisCluster => let! err := backupRedis in Ret (Ok err)
    | _ => Ret (Ok err)
    end) clusters (Ok tt) in
  Ret err.

Definition wait_deployed (namespace name : string) : io (res unit) :=
  Poll 1800 (let? sts := found (k8s_call (GetStatefulSet namespace name)) in
             Ret (Ok (match sts with None => None | Some _ => Some tt end))).
Definition restoreRedix : io (res unit) :=
  let? clusters := apr_call (ListRedixClusters "") in
  let? err := fold_each (fun (err : res unit) cluster =>
    match rxs_Type (rx_Spec cluster) with
    | KVRocks =>
        do? wait_deployed (om_Namespace (rx_meta cluster)) (om_Name (rx_meta cluster));
        do? ForceCreateNewKVRocksRestore
              (mkKVRocksRestore (with_namespace (kvr_meta KVRocksRestoreTemplate) (om_Namespace (rx_meta cluster)))
                 (om_Name (rx_meta cluster)) "" (kvr_Status KVRocksRestoreTemplate));
        let! err := WaitForAllRestoreComplete in Ret (Ok err)
    | RedisCluster => let! err := restoreRedis in Ret (Ok err)
    | _ => Ret (Ok err)
    end) clusters (Ok tt) in
  Ret err.

(** ** [watcher.go]: the goroutines of one backup *)

(** A goroutine runs a flow and then, when it failed, appends its error to the
    shared slice [errs] without a lock: it loads the slice, then stores it with
    its error behind. *)
Inductive goroutine : Type :=
  | Running (m : io (res unit))
  | Appending (e : gerr) (seen : list gerr)
  | Finished (r : res unit).
Record group : Type := mkGroup { gr_errs : list gerr; gr_threads : list goroutine }.
(** [runBackup] for each flow. *)
Definition start_group (flows : list (io (res unit))) : group := mkGroup [] (map Running flows).

Inductive group_step : group -> history -> group -> Prop :=
  | group_call errs ts i o k r :
      ts !! i = Some (Running (Vis o k)) ->
      group_step (mkGroup errs ts) [ev o r] (mkGroup errs (<[i := Running (k r)]> ts))
  | group_ok errs ts i u :
      ts !! i = Some (Running (Ret (Ok u))) ->
      group_step (mkGroup errs ts) [] (mkGroup errs (<[i := Finished (Ok u)]> ts))
  | group_load errs ts i e :
      ts !! i = Some (Running (Ret (Err e))) ->
      group_step (mkGroup errs ts) [] (mkGroup errs (<[i := Appending e errs]> ts))
  | group_store errs ts i e seen :
      ts !! i = Some (Appending e seen) ->
      group_step (mkGroup errs ts) [] (mkGroup (seen ++ [e]) (<[i := Finished (Err e)]> ts)).
Inductive group_runs : group -> history -> group -> Prop :=
  | group_refl g : group_runs g [] g
  | group_more g1 tr1 g2 tr2 g3 :
      group_step g1 tr1 g2 -> group_runs g2 tr2 g3 -> group_runs g1 (tr1 ++ tr2) g3.

(** [wg.Wait()] returns when every goroutine is done; one that panics takes the
    process with it. *)
Definition finished_thread (t : goroutine) : Prop := exists r, t = Finished r.
Definition group_done (g : group) : Prop := Forall finished_thread (gr_threads g).
Definition group_crashed (g : group) : Prop := exists w, Running (Panic w) ∈ gr_threads g.
Definition group_result (g : group) : res unit :=
  match gr_errs g with [] => Ok tt | errs => Err (NewAggregate (map err_msg errs)) end.

Definition backup_flows : list (io (res unit)) := [backupRedix; backupPostgres].
Definition restore_flows : list (io (res unit)) := [restorePostgres; restoreRedix].

(** ** [watcher.go]: events *)

Inductive WatchType : Set := WatchAdded | WatchModified | WatchDeleted | WatchOther.
Definition BackupStart : string := "Started".

(** A backup that has not started is logged with its phase, which may be nil. *)
Definition should_backup (b : SysBackup) : io bool :=
  if bool_decide (sb_Phase b = Some BackupStart) then
    Ret (match sb_MiddleWarePhase b with
         | Some s => negb (bool_decide (s = "Failed" \/ s = "Success" \/ s = "Running"))
         | None => true
         end)
  else let! _ := deref (sb_Phase b) in Ret false.

Definition PerconaMongoClusterBackup : string := "mongocluster-backup".
Definition PerconaMongoClusterLastBackupPBMName : string := "percona/psmdb-last-backup-pbmname".
Definition with_middleware_phase (b : SysBackup) (state : string) (errMsg : option string) (pbm : string) : SysBackup :=
  let m := sb_meta b in
  mkSysBackup (mkMeta (om_Name m) (om_Namespace m) (om_Labels m)
                 (<[PerconaMongoClusterLastBackupPBMName := pbm]> (om_Annotations m)))
    (sb_Phase b) (Some state) errMsg (sb_rest b).
(** [retry.DefaultRetry]: five attempts. *)
Definition updateBackupState (b : SysBackup) (state : string) (errMsg : option string) : io (res unit) :=
  let ns := om_Namespace (sb_meta b) in
  RetryOnError 5 (isKind KConflict)
    (let? updateBackup := rc_call (GetSysBackup ns (om_Name (sb_meta b))) in
     let? pbm := rc_call (GetMongoBackup ns PerconaMongoClusterBackup) in
     rc_call (UpdateSysBackup ns (with_middleware_phase updateBackup state errMsg pbm))).

(** What is written when the goroutines are done. *)
Definition final_state (r : res unit) : string := match r with Ok _ => "Success" | Err _ => "Failed" end.
Definition final_message (r : res unit) : option string := option_map err_msg (res_err r).

(** One event of the backup watcher; an object that is not a backup or cannot
    be converted is [None]. *)
Inductive handles_backup : WatchType -> option SysBackup -> history -> outcome unit -> Prop :=
  | hb_ignored t o :
      (t <> WatchAdded /\ t <> WatchModified) \/ o = None -> handles_backup t o [] (Returned tt)
  | hb_skipped t b tr : t = WatchAdded \/ t = WatchModified ->
      runs (should_backup b) tr (Returned false) -> handles_backup t (Some b) tr (Returned tt)
  | hb_panic t b tr w : t = WatchAdded \/ t = WatchModified ->
      runs (should_backup b) tr (Panicked w) -> handles_backup t (Some b) tr (Panicked w)
  | hb_done t b tr1 r1 tr2 g tr3 r3 : t = WatchAdded \/ t = WatchModified ->
      runs (should_backup b) [] (Returned true) ->
      runs (updateBackupState b "Running" None) tr1 (Returned r1) ->
      group_runs (start_group backup_flows) tr2 g -> group_done g ->
      runs (updateBackupState b (final_state (group_result g)) (final_message (group_result g))) tr3 (Returned r3) ->
      handles_backup t (Some b) (tr1 ++ tr2 ++ tr3) (Returned tt)
  | hb_crash t b tr1 r1 tr2 g w : t = WatchAdded \/ t = WatchModified ->
      runs (should_backup b) [] (Returned true) ->
      runs (updateBackupState b "Running" None) tr1 (Returned r1) ->
      group_runs (start_group backup_flows) tr2 g -> Running (Panic w) ∈ gr_threads g ->
      handles_backup t (Some b) (tr1 ++ tr2) (Panicked w).

(** One event of the restore watcher; only an addition starts a restore, and its
    outcome is only logged. *)
Inductive handles_restore : WatchType -> bool -> history -> outcome (res unit) -> Prop :=
  | hr_ignored t isRestore : t <> WatchAdded \/ isRestore = false ->
      handles_restore t isRestore [] (Returned (Ok tt))
  | hr_done tr g : group_runs (start_group restore_flows) tr g -> group_done g ->
      handles_restore WatchAdded true tr (Returned (group_result g))
  | hr_crash tr g w : group_runs (start_group restore_flows) tr g -> Running (Panic w) ∈ gr_threads g ->
      handles_restore WatchAdded true tr (Panicked w).

(** ** [watcher.go]: [Start]

    The loop's variables: each watch, or that it is to be created (again). *)
Record watches : Set := mkWatches { ws_backup : option nat; ws_restore : option nat }.
Definition watches0 : watches := mkWatches None None.

(** One round of the loop, with the calls it makes; a round that panics is the
    last.  The restores' watch is only created when the backups' is there, and
    what is received is only asked for when both are. *)
Inductive watcher_step : watches -> history -> outcome watches -> Prop :=
  | wt_no_backups r e p : watcher_step (mkWatches None r)
      [ev (Ext (Rc WatchSysBackups)) (Err e); ev (Sys (Sleep 1)) p] (Returned (mkWatches None r))
  | wt_backups w r : watcher_step (mkWatches None r)
      [ev (Ext (Rc WatchSysBackups)) (Ok w)] (Returned (mkWatches (Some w) r))
  | wt_no_restores w e p : watcher_step (mkWatches (Some w) None)
      [ev (Ext (Rc WatchVeleroRestores)) (Err e); ev (Sys (Sleep 1)) p] (Returned (mkWatches (Some w) None))
  | wt_restores w w' : watcher_step (mkWatches (Some w) None)
      [ev (Ext (Rc WatchVeleroRestores)) (Ok w')] (Returned (mkWatches (Some w) (Some w')))
  (* the context is done: both are stopped, and the loop goes on *)
  | wt_cancelled w w' : watcher_step (mkWatches (Some w) (Some w'))
      [ev (Ext (Rc (StopSysWatch w))) tt; ev (Ext (Rc (StopSysWatch w'))) tt]
      (Returned (mkWatches (Some w) (Some w')))
  | wt_backups_broken w w' : watcher_step (mkWatches (Some w) (Some w'))
      [ev (Ext (Rc (StopSysWatch w))) tt] (Returned (mkWatches None (Some w')))
  | wt_restores_broken w w' : watcher_step (mkWatches (Some w) (Some w'))
      [ev (Ext (Rc (StopSysWatch w'))) tt] (Returned (mkWatches (Some w) None))
  | wt_backup w w' t o tr : handles_backup t o tr (Returned tt) ->
      watcher_step (mkWatches (Some w) (Some w')) tr (Returned (mkWatches (Some w) (Some w')))
  | wt_restore w w' t o tr r : handles_restore t o tr (Returned r) ->
      watcher_step (mkWatches (Some w) (Some w')) tr (Returned (mkWatches (Some w) (Some w')))
  | wt_backup_panics w w' t o tr why : handles_backup t o tr (Panicked why) ->
      watcher_step (mkWatches (Some w) (Some w')) tr (Panicked why)
  | wt_restore_panics w w' t o tr why : handles_restore t o tr (Panicked why) ->
      watcher_step (mkWatches (Some w) (Some w')) tr (Panicked why).

(** [Start]: rounds, for as long as none panics. *)
Inductive watcher_runs : watches -> history -> outcome watches -> Prop :=
  | wr_started s : watcher_runs s [] (Returned s)
  | wr_round s tr s' tr' out :
      watcher_step s tr (Returned s') -> watcher_runs s' tr' out -> watcher_runs s (tr ++ tr') out
  | wr_panics s tr why : watcher_step s tr (Panicked why) -> watcher_runs s tr (Panicked why).
Definition watcher_started : history -> outcome watches -> Prop := watcher_runs watches0.
