(* ===== verification/SystemBackupSpec.v ===== *)
(** * What the system backup guarantees *)

From S2P Require Import Prelude Effects Apr World Demo Citus KVRocks KVRocksSpec SystemBackup.

(** ** The goroutines of one backup *)

(** [shuffle trs tr]: [tr] is an interleaving of the traces [trs]. *)
Inductive shuffle : list history -> history -> Prop :=
  | shuffle_nil trs : Forall (fun l => l = []) trs -> shuffle trs []
  | shuffle_cons trs i e l tr :
      trs !! i = Some l -> shuffle trs tr -> shuffle (<[i := e :: l]> trs) (e :: tr).

Lemma shuffle_sublist trs tr i l : shuffle trs tr -> trs !! i = Some l -> sublist l tr.
Proof.
  intros H. revert i l. induction H as [trs Hn|trs j e l' tr Hj Hs IH]; intros i l Hi.
  - rewrite Forall_lookup in Hn. by rewrite (Hn i l Hi).
  - destruct (decide (i = j)) as [->|Hij].
    + rewrite list_lookup_insert_eq in Hi by (by eapply lookup_lt_Some). injection Hi as <-.
      constructor. by apply (IH j).
    + rewrite list_lookup_insert_ne in Hi by done. constructor. by apply (IH i).
Qed.

(** What is left to do for a goroutine, and how it ends. *)
Definition completes (t : goroutine) (tr : history) (r : res unit) : Prop :=
  match t with
  | Running m => runs m tr (Returned r)
  | Appending e _ => tr = [] /\ r = Err e
  | Finished r' => tr = [] /\ r = r'
  end.

Definition ends_as (ts : list goroutine) (trs : list history) (ts' : list goroutine) : Prop :=
  length trs = length ts /\
  forall i t, ts !! i = Some t ->
    exists l r, trs !! i = Some l /\ completes t l r /\ ts' !! i = Some (Finished r).

(** Undoing the step of goroutine [i], which made the calls [es]. *)
Lemma ends_as_step ts i t t' es trs l ts' :
  ts !! i = Some t -> trs !! i = Some l ->
  (forall l r, completes t' l r -> completes t (es ++ l) r) ->
  ends_as (<[i := t']> ts) trs ts' -> ends_as ts (<[i := es ++ l]> trs) ts'.
Proof.
  intros Ht Hl Hc [Hlen He]. rewrite length_insert in Hlen. split; [by rewrite length_insert|].
  intros j u Hu. destruct (decide (i = j)) as [<-|Hij].
  - simplify_eq. destruct (He i t') as (l' & r & Hl' & Hr & Hf).
    { rewrite list_lookup_insert_eq; [done|]. by eapply lookup_lt_Some. }
    simplify_eq. exists (es ++ l), r. rewrite list_lookup_insert_eq by (by eapply lookup_lt_Some).
    split_and!; [done|by apply Hc|done].
  - destruct (He j u) as (l' & r & Hl' & Hr & Hf); [by rewrite list_lookup_insert_ne|].
    exists l', r. by rewrite list_lookup_insert_ne.
Qed.

(** A run to the end takes every goroutine to its end, with calls that
    interleave to those of the run. *)
Lemma group_completes g tr g' :
  group_runs g tr g' -> group_done g' ->
  exists trs, shuffle trs tr /\ ends_as (gr_threads g) trs (gr_threads g').
Proof.
  intros Hr Hd. induction Hr as [g|g1 tr1 g2 tr2 g3 Hs Hr IH].
  - exists (replicate (length (gr_threads g)) []). split; [constructor; by apply Forall_replicate|].
    split; [by rewrite length_replicate|]. intros i t Ht.
    destruct (proj1 (Forall_lookup _ _) Hd i t Ht) as [r ->]. exists [], r.
    split; [|done]. apply lookup_replicate. split; [done|by eapply lookup_lt_Some].
  - destruct (IH Hd) as (trs & Hsh & He).
    assert (Hl : forall i t, gr_threads g1 !! i = Some t -> length (gr_threads g2) = length (gr_threads g1) ->
      exists l, trs !! i = Some l).
    { intros i t Ht Hlen. apply lookup_lt_is_Some. destruct He as [-> _]. rewrite Hlen. by eapply lookup_lt_Some. }
    destruct Hs as [errs ts i o k r Hi|errs ts i u Hi|errs ts i e Hi|errs ts i e seen Hi];
      cbn [gr_threads gr_errs] in *; destruct (Hl i _ Hi) as [l Hli]; [by rewrite length_insert| |by rewrite length_insert| |by rewrite length_insert| |by rewrite length_insert|].
    + exists (<[i := [ev o r] ++ l]> trs). split; [by constructor|].
      eapply ends_as_step; [done|done| |exact He]. intros l' r' H. by constructor.
    + exists (<[i := [] ++ l]> trs). split; [by rewrite list_insert_id|].
      eapply ends_as_step; [done|done| |exact He]. intros l' r' [-> ->]. constructor.
    + exists (<[i := [] ++ l]> trs). split; [by rewrite list_insert_id|].
      eapply ends_as_step; [done|done| |exact He]. intros l' r' [-> ->]. constructor.
    + exists (<[i := [] ++ l]> trs). split; [by rewrite list_insert_id|].
      eapply ends_as_step; [done|done| |exact He]. by intros l' r' [-> ->].
Qed.

(** The slice never loses all errors: whatever the order of the loads and
    stores, it only holds errors of failed flows and is empty only when none
    has failed. *)
Definition failed (ts : list goroutine) (e : gerr) : Prop := Finished (Err e) ∈ ts.
Definition errors_sound (g : group) : Prop :=
  (forall e, failed (gr_threads g) e -> gr_errs g <> []) /\
  (forall e, e ∈ gr_errs g -> failed (gr_threads g) e) /\
  (forall e seen e', Appending e seen ∈ gr_threads g -> e' ∈ seen -> failed (gr_threads g) e').

Lemma elem_of_insert_inv {A} (ts : list A) i x y : y ∈ <[i := x]> ts -> y = x \/ y ∈ ts.
Proof.
  intros [j Hj]%list_elem_of_lookup. destruct (decide (i = j)) as [<-|Hij].
  - left. assert (i < length ts) by (apply lookup_lt_Some in Hj; by rewrite length_insert in Hj).
    rewrite list_lookup_insert_eq in Hj by done. congruence.
  - right. rewrite list_lookup_insert_ne in Hj by done. apply list_elem_of_lookup. eauto.
Qed.
Lemma failed_insert ts i t t' e :
  ts !! i = Some t -> (forall r, t <> Finished r) -> failed ts e -> failed (<[i := t']> ts) e.
Proof.
  intros Hi Ht [j Hj]%list_elem_of_lookup. apply list_elem_of_lookup. exists j.
  rewrite list_lookup_insert_ne; [done|]. intros ->. simplify_eq. by eapply Ht.
Qed.

Lemma errors_sound_step g1 tr g2 : group_step g1 tr g2 -> errors_sound g1 -> errors_sound g2.
Proof.
  intros Hs (H1 & H2 & H3).
  destruct Hs as [errs ts i o k r Hi|errs ts i u Hi|errs ts i e Hi|errs ts i e seen Hi]; cbn in *;
    pose proof (fun t' e' => failed_insert ts i _ t' e' Hi) as Hf; unfold errors_sound, failed in *; cbn.
  - split_and!; [by intros e [[=]|He]%elem_of_insert_inv; eauto|by eauto|].
    by intros e seen e' [[=]|He]%elem_of_insert_inv; eauto.
  - split_and!; [by intros e [[=]|He]%elem_of_insert_inv; eauto|by eauto|].
    by intros e seen e' [[=]|He]%elem_of_insert_inv; eauto.
  - split_and!; [by intros e' [[=]|He]%elem_of_insert_inv; eauto|by eauto|].
    intros e1 seen e' [[= -> ->]|He]%elem_of_insert_inv; eauto.
  - assert (Hi' : Appending e seen ∈ ts) by (apply list_elem_of_lookup; eauto).
    split_and!.
    + intros _ _. by destruct seen.
    + intros e' [He| ->%list_elem_of_singleton]%elem_of_app; [by eauto|].
      apply list_elem_of_lookup. exists i. apply list_lookup_insert_eq. by eapply lookup_lt_Some.
    + intros e1 seen1 e' [[=]|He]%elem_of_insert_inv; eauto.
Qed.

Lemma errors_sound_runs g1 tr g2 : group_runs g1 tr g2 -> errors_sound g1 -> errors_sound g2.
Proof. induction 1; [done|]. eauto using errors_sound_step. Qed.
Lemma errors_sound_start flows : errors_sound (start_group flows).
Proof.
  split_and!; unfold failed; cbn.
  - by intros e (m & [=] & _)%list_elem_of_fmap.
  - by intros e He%elem_of_nil.
  - by intros e seen e' (m & [=] & _)%list_elem_of_fmap.
Qed.

Lemma group_length g tr g' : group_runs g tr g' -> length (gr_threads g') = length (gr_threads g).
Proof. induction 1 as [|g1 tr1 g2 tr2 g3 [] _ IH]; [done|..]; rewrite IH; cbn; by rewrite length_insert. Qed.

(** The contract of the wait group: every flow has run to its end, the calls
    interleaved in some order, and the outcome is an error exactly when one of
    them failed. *)
Lemma group_contract flows tr g :
  group_runs (start_group flows) tr g -> group_done g ->
  exists trs, shuffle trs tr /\
    (forall i m, flows !! i = Some m -> exists l r,
       trs !! i = Some l /\ runs m l (Returned r) /\ gr_threads g !! i = Some (Finished r)) /\
    (is_ok (group_result g) = true <-> forall e, ~ failed (gr_threads g) e).
Proof.
  intros Hr Hd. destruct (group_completes _ _ _ Hr Hd) as (trs & Hsh & Hlen & He).
  exists trs. split; [done|]. split.
  - intros i m Hm. apply (He i (Running m)). cbn. by rewrite list_lookup_fmap, Hm.
  - destruct (errors_sound_runs _ _ _ Hr (errors_sound_start flows)) as (H1 & H2 & _).
    unfold group_result. destruct (gr_errs g) as [|e errs] eqn:Ee; cbn.
    + split; [|done]. intros _ e Hf. by apply (H1 e Hf).
    + split; [done|]. intros Hn. destruct (Hn e). apply H2. by left.
Qed.

(** ** What is reported of a system backup *)

(** Calls that do not write the system's backup. *)
Definition no_report (o : op) : Prop := match o with Ext (Rc (UpdateSysBackup _ _)) => False | _ => True end.

Lemma no_report_flows : Forall (issues no_report) backup_flows.
Proof. apply Forall_cons; split; [issues_walk|]. apply Forall_cons; split; [issues_walk|]. done. Qed.

(** A group only makes the calls of its flows. *)
Definition thread_issues (P : op -> Prop) (t : goroutine) : Prop :=
  match t with Running m => issues P m | _ => True end.
Lemma group_issues P g tr g' :
  group_runs g tr g' -> Forall (thread_issues P) (gr_threads g) -> Forall (fun e => P (projT1 e)) tr.
Proof.
  intros Hr. induction Hr as [g|g1 tr1 g2 tr2 g3 Hs Hr IH]; [constructor|]. intros Hg. apply Forall_app.
  destruct Hs as [errs ts i o k r Hi|errs ts i u Hi|errs ts i e Hi|errs ts i e seen Hi]; cbn in *;
    (split; [|apply IH; apply Forall_insert; [done|]]);
    try (by constructor); pose proof (proj1 (Forall_lookup _ _) Hg _ _ Hi) as Ht; cbn in Ht; try done.
  - destruct Ht as [Ht _]. by repeat constructor.
  - destruct Ht as [_ Ht]. by apply Ht.
Qed.

(** Every report of [updateBackupState] has the given phase. *)
Definition reports (st : string) (o : op) : Prop :=
  match o with Ext (Rc (UpdateSysBackup _ b)) => sb_MiddleWarePhase b = Some st | _ => True end.
Lemma updateBackupState_reports b st msg : issues (reports st) (updateBackupState b st msg).
Proof. issues_walk. Qed.

(** The two flows of a backup. *)
Lemma flows_done tr g :
  group_runs (start_group backup_flows) tr g -> group_done g ->
  exists trx rx trp rp,
    runs backupRedix trx (Returned rx) /\ runs backupPostgres trp (Returned rp) /\
    sublist trx tr /\ sublist trp tr /\ is_ok (group_result g) = is_ok rx && is_ok rp.
Proof.
  intros HG Hd. destruct (group_contract _ _ _ HG Hd) as (trs & Hsh & Hf & Hok).
  destruct (Hf 0 backupRedix eq_refl) as (trx & rx & Hx & Hrx & Hgx).
  destruct (Hf 1 backupPostgres eq_refl) as (trp & rp & Hp & Hrp & Hgp).
  exists trx, rx, trp, rp. split_and!; [done|done|by eapply shuffle_sublist..|].
  pose proof (group_length _ _ _ HG) as Hlen.
  destruct (gr_threads g) as [|t1 [|t2 [|]]] eqn:Eg; try discriminate Hlen. cbn in Hgx, Hgp. simplify_eq.
  destruct rx as [[]|e]; [|apply not_true_iff_false; intros Hc; apply (proj1 Hok Hc e); left].
  destruct rp as [[]|e]; [|apply not_true_iff_false; intros Hc; apply (proj1 Hok Hc e); right; left].
  apply Hok. intros e [[=]|[[=]|He%elem_of_nil]%elem_of_cons]%elem_of_cons. done.
Qed.

(** One event: what is reported while it is handled. *)
Lemma handled_phase_truthful t b tr out tr1 ns b' r tr2 :
  handles_backup t b tr out -> tr = tr1 ++ ev (Ext (Rc (UpdateSysBackup ns b'))) r :: tr2 ->
  sb_MiddleWarePhase b' = Some "Running" \/
  exists trx rx trp rp,
    runs backupRedix trx (Returned rx) /\ runs backupPostgres trp (Returned rp) /\
    sublist trx tr1 /\ sublist trp tr1 /\
    sb_MiddleWarePhase b' = Some (if is_ok rx && is_ok rp then "Success" else "Failed").
Proof.
  intros Hh Ht.
  assert (Hrep : forall st tr x, (exists (m : io (res unit)), issues (reports st) m /\ runs m tr x) ->
     forall ns b r, ev (Ext (Rc (UpdateSysBackup ns b))) r ∈ tr -> sb_MiddleWarePhase b = Some st).
  { intros st tr' x (m & Hi & Hr) ns0 b0 r0 He. apply (issues_runs _ _ Hi) in Hr.
    exact (proj1 (Forall_forall _ _) Hr _ He). }
  assert (Hno : forall g tr, group_runs (start_group backup_flows) tr g ->
     forall ns b r, ev (Ext (Rc (UpdateSysBackup ns b))) r ∉ tr).
  { intros g tr' Hg ns0 b0 r0 He. apply (group_issues no_report) in Hg; [|by apply Forall_fmap, no_report_flows].
    exact (proj1 (Forall_forall _ _) Hg _ He). }
  assert (Hsk : forall x b, runs (should_backup b) tr x -> tr = []).
  { intros x b0. unfold should_backup. case_bool_decide; [by intros [-> _]%runs_inv|].
    destruct (sb_Phase b0); cbn; by intros [-> _]%runs_inv. }
  destruct Hh as [t [b0|] _|t b0 tr Hty Hr|t b0 tr w Hty Hr|t b0 trA r1 trG g trC r3 Hty Hs HA HG Hd HC|t b0 trA r1 trG g w Hty Hs HA HG Hp].
  - by destruct tr1.
  - by destruct tr1.
  - apply Hsk in Hr as ->. by destruct tr1.
  - apply Hsk in Hr as ->. by destruct tr1.
  - apply app_cons_inv in Ht as [He|(k & -> & Ht)].
    { left. eapply (Hrep "Running"); [|exact He]. exists (updateBackupState b0 "Running" None).
      split; [apply updateBackupState_reports|exact HA]. }
    apply app_cons_inv in Ht as [He|(k2 & -> & ->)]; [by apply (Hno _ _ HG) in He|]. right.
    destruct (flows_done _ _ HG Hd) as (trx & rx & trp & rp & H1 & H2 & H3 & H4 & H5).
    exists trx, rx, trp, rp. split_and!; [done|done|by apply sublist_inserts_l, sublist_inserts_r..|].
    assert (Hfs : final_state (group_result g) = if is_ok rx && is_ok rp then "Success" else "Failed")
      by (rewrite <- H5; by destruct (group_result g)).
    rewrite <- Hfs. eapply Hrep; [|apply elem_of_app; right; left]. eexists. split; [apply updateBackupState_reports|exact HC].
  - assert (He : ev (Ext (Rc (UpdateSysBackup ns b'))) r ∈ trA ++ trG) by (rewrite Ht; set_solver).
    apply elem_of_app in He as [He|He]; [|by apply (Hno _ _ HG) in He]. left.
    eapply (Hrep "Running"); [|exact He]. exists (updateBackupState b0 "Running" None). split; [apply updateBackupState_reports|exact HA].
Qed.

Lemma no_report_restore_flows : Forall (issues no_report) restore_flows.
Proof. apply Forall_cons; split; [issues_walk|]. apply Forall_cons; split; [issues_walk|]. done. Qed.

Definition is_report (e : event resp) : Prop := ~ no_report (projT1 e).

(** A round of the watcher that reports is the handling of one backup. *)
Lemma round_reports s tr out e :
  watcher_step s tr out -> is_report e -> e ∈ tr -> exists t b out0, handles_backup t b tr out0.
Proof.
  intros Hs He Hin.
  assert (Hr : forall t o x, handles_restore t o tr x -> False).
  { intros t o x Hr. apply He. destruct Hr as [|tr g Hg _|tr g w Hg _]; [by apply elem_of_nil in Hin|..];
      apply (group_issues no_report) in Hg; try (by apply Forall_fmap, no_report_restore_flows);
      exact (proj1 (Forall_forall _ _) Hg _ Hin). }
  destruct Hs; try (by eauto); try (by edestruct Hr; eauto);
    exfalso; repeat (apply elem_of_cons in Hin as [->|Hin]; [by apply He|]); by apply elem_of_nil in Hin.
Qed.

(** Every report of a run is made while one backup is handled. *)
Lemma watcher_reports s tr out tr1 e tr2 :
  watcher_runs s tr out -> is_report e -> tr = tr1 ++ e :: tr2 ->
  exists before here t b rest out0, tr1 = before ++ here /\ handles_backup t b (here ++ e :: rest) out0.
Proof.
  intros H He. revert tr1. induction H as [s|s tr s' tr' out Hs Hr IH|s tr why Hs]; intros tr1 E.
  - by destruct tr1.
  - apply app_eq_inv in E as [(k & -> & E)|(k & -> & E)]; [|].
    + destruct k as [|e' k]; cbn in E.
      * destruct (IH [] (eq_sym E)) as (before & here & t & b & rest & o & Eb & Hh).
        exists (tr1 ++ before), here, t, b, rest, o. split; [|done]. by rewrite <- app_assoc, <- Eb, app_nil_r.
      * injection E as <- ->. destruct (round_reports _ _ _ e Hs He) as (t & b & o & Hh); [set_solver|].
        by exists [], tr1, t, b, k, o.
    + destruct (IH k E) as (before & here & t & b & rest & o & -> & Hh).
      exists (tr ++ before), here, t, b, rest, o. split; [by rewrite app_assoc|done].
  - subst tr. destruct (round_reports _ _ _ e Hs He) as (t & b & o & Hh); [set_solver|].
    by exists [], tr1, t, b, tr2, o.
Qed.

(** C24: Whatever the watcher of system backups has been through (watches broken
    and created again, other backups, restores), everything it reports belongs to
    the handling of one backup, from whose beginning on ([here]) it has reported
    that the middlewares are running, until both flows, the one of the kvrocks
    and redis clusters and the one of PostgreSQL, have run to their end; from then
    on it reports success when both have returned without an error and failure
    when one has not, whatever the order of their calls and of their accesses to
    the list of errors. *)
Theorem backup_phase_truthful tr out tr1 ns b' r tr2 :
  watcher_started tr out -> tr = tr1 ++ ev (Ext (Rc (UpdateSysBackup ns b'))) r :: tr2 ->
  exists before here t b rest out0, tr1 = before ++ here /\
  handles_backup t b (here ++ ev (Ext (Rc (UpdateSysBackup ns b'))) r :: rest) out0 /\
  (sb_MiddleWarePhase b' = Some "Running" \/
   exists trx rx trp rp,
     runs backupRedix trx (Returned rx) /\ runs backupPostgres trp (Returned rp) /\
     sublist trx here /\ sublist trp here /\
     sb_MiddleWarePhase b' = Some (if is_ok rx && is_ok rp then "Success" else "Failed")).
Proof.
  intros H E. assert (He : is_report (ev (Ext (Rc (UpdateSysBackup ns b'))) r)) by (intros n; exact n).
  destruct (watcher_reports _ _ _ _ _ _ H He E) as (before & here & t & b & rest & o & E1 & Hh).
  exists before, here, t, b, rest, o. split_and!; [done|done|]. by eapply handled_phase_truthful.
Qed.

(** ** The PostgreSQL flow *)

Lemma force_pg_created b tr :
  runs (ForceCreateNewPGClusterBackup b) tr (Returned (Ok tt)) ->
  ev (Apr (CreatePGBackup (om_Namespace (pgb_meta b))
       (mkPGClusterBackup (pgb_meta b) (pgb_ClusterName b) (pgb_VolumeSpec b) (with_state (pgb_Status b) StateNew)))) (Ok tt) ∈ tr.
Proof.
  intros (tr1 & tr2 & cur & -> & _ & H)%runs_bind_ok_returned.
  apply runs_bind_ok_returned in H as (tr3 & tr4 & [] & -> & _ & H). call_inv H. set_solver.
Qed.

Definition backup_path_of (c : PGCluster) (path : string) : Prop :=
  (pgs_BackupStorage (pgc_Spec c) <> "" /\ path = pgs_BackupStorage (pgc_Spec c)) \/
  (pgs_BackupStorage (pgc_Spec c) = "" /\ exists data, path = data +:+ "/pg_backup").
Lemma pg_backup_path_returned c tr path :
  runs (pg_backup_path c) tr (Returned (Ok path)) -> backup_path_of c path.
Proof.
  unfold pg_backup_path. destruct (String.eqb_spec (pgs_BackupStorage (pgc_Spec c)) "") as [E|E]; cbn [negb].
  - intros (tr1 & tr2 & data & _ & _ & H)%runs_bind_ok_returned. ret_inv H. right. eauto.
  - intros H. ret_inv H. by left.
Qed.

Definition clean_list (l : list PGClusterBackup) : Prop :=
  Forall (fun b => let s := bs_State (pgb_Status b) in
    ~ (s = StateRejected \/ s = StateError) /\ ~ (s = StateRunning \/ s = StateWaiting)) l.
Lemma wait_pg_returned tr :
  runs WaitForAllPGBackupComplete tr (Returned (Ok tt)) ->
  exists tr' l, tr = tr' ++ [ev (Apr ListPGBackups) (Ok l)] /\ clean_list l.
Proof.
  intros Hr. enough (Hw : wp trace_step WaitForAllPGBackupComplete
    (fun h x => x = Returned (Ok tt) -> exists tr' l, h = tr' ++ [ev (Apr ListPGBackups) (Ok l)] /\ clean_list l) []).
  { by apply (proj1 (wp_trace _ _) Hw tr (Returned (Ok tt)) Hr). }
  apply (wp_WaitFor trace_step (fun _ => True)); [done| |done..].
  intros h _. cbn -[all_complete]. unfold trace_step. intros [l|e]; cbn -[all_complete].
  - pose proof (all_complete_cases (fun b => bs_State (pgb_Status b)) pg_backup_failure l) as Hc.
    destruct (all_complete _ _ _) as [[u|]|e]; cbn; [|done..]. intros _. by exists h, l.
  - by destruct (IsNotFound e).
Qed.

(** When the backup of PostgreSQL succeeds, a new backup was created for
    every cluster that was listed, in its namespace and on its backup storage
    (or below the data directory of its owner), and the last thing looked at is
    a list of the backups in which none has failed, is running or is waiting. *)
Theorem backupPostgres_complete tr :
  runs backupPostgres tr (Returned (Ok tt)) ->
  exists clusters, ev (Apr (ListPGClusters "")) (Ok clusters) ∈ tr /\
    (forall c, c ∈ clusters -> exists path, backup_path_of c path /\
       ev (Apr (CreatePGBackup (om_Namespace (pgc_meta c)) (pg_backup_of c path))) (Ok tt) ∈ tr) /\
    exists tr' l, tr = tr' ++ [ev (Apr ListPGBackups) (Ok l)] /\ clean_list l.
Proof.
  intros (tr1 & tr2 & clusters & -> & H1 & H)%runs_bind_ok_returned. call_inv H1.
  apply runs_bind_ok_returned in H as (tr3 & tr4 & [] & -> & H3 & H4).
  exists clusters. split; [left|]. split.
  - intros c Hc. apply runs_for_each_returned in H3 as (segs & -> & Hs).
    apply list_elem_of_lookup in Hc as [i Hi]. destruct (Forall2_lookup_l _ _ _ _ _ Hs Hi) as (seg & Hseg & Hr).
    apply runs_bind_ok_returned in Hr as (tr5 & tr6 & path & -> & H5 & H6).
    exists path. split; [by eapply pg_backup_path_returned|]. apply force_pg_created in H6.
    right. apply elem_of_app. left. apply list_elem_of_In, in_concat.
    exists (tr5 ++ tr6). split; apply list_elem_of_In; [by eapply list_elem_of_lookup_2|set_solver].
  - destruct (wait_pg_returned _ H4) as (tr' & l & -> & Hl).
    exists (ev (Apr (ListPGClusters "")) (Ok clusters) :: tr3 ++ tr'), l. split; [|done]. cbn. by rewrite <- !app_assoc.
Qed.

(** ** Concrete runs *)

Definition sdemo_meta (name : string) : ObjectMeta := mkMeta name "os-platform" ∅ ∅.
Definition sdemo_pg : PGCluster :=
  mkPGCluster (sdemo_meta "citus") (mkPGClusterSpec 1 "olares" "" (mkPwd "secret" None) "system" "").
Definition sdemo_rx (name : string) : RedixCluster := mkRedixCluster (sdemo_meta name) (mkRedixClusterSpec KVRocks None).
Definition sdemo_failed : KVRocksBackup :=
  mkKVRocksBackup (sdemo_meta "kvrocks-backup") "a" (mkBackupStatus StateError None None "disk full" "").
Definition sdemo_sys : SysBackup := mkSysBackup (sdemo_meta "backup") (Some BackupStart) None None "".
(** Two kvrocks clusters; the backup of the first is seen to fail, and is gone
    when the second is backed up. *)
Definition sdemo_world (o : op) (waits : nat) : resp o * nat :=
  match o return resp o * nat with
  | Apr (ListRedixClusters _) => (Ok [sdemo_rx "a"; sdemo_rx "b"], waits)
  | Apr (GetKVBackup _ _) => (Err (mkErr KNotFound "gone"), waits)
  | Apr (CreateKVBackup _ _) => (Ok tt, waits)
  | Apr ListKVBackups => (Ok match waits with O => [sdemo_failed] | _ => [] end, S waits)
  | Apr (ListPGClusters _) => (Ok [sdemo_pg], waits)
  | Apr (GetPGBackup _ _) => (Err (mkErr KNotFound "gone"), waits)
  | Apr (CreatePGBackup _ _) => (Ok tt, waits)
  | Apr ListPGBackups => (Ok [], waits)
  | K8s (GetPVC _ _) => (Ok "pv", waits)
  | K8s (GetPV _) => (Ok (Some "/olares/data"), waits)
  | Ext (Rc (GetSysBackup _ _)) => (Ok sdemo_sys, waits)
  | Ext (Rc (GetMongoBackup _ _)) => (Ok "2024-01-01", waits)
  | Ext (Rc (UpdateSysBackup _ _)) => (Ok tt, waits)
  | Sys PollTick => (Ok tt, waits)
  | o => (unavailable o, waits)
  end.
Definition sdemo_exec {A} (m : io A) : history * outcome A * nat := exec sdemo_world m 0.
Lemma sdemo_runs {A} (m : io A) : runs m (fst (fst (sdemo_exec m))) (snd (fst (sdemo_exec m))).
Proof. destruct (sdemo_exec m) as [[tr out] w] eqn:E. by eapply exec_runs. Qed.

(** ** The kvrocks flow *)

(** The flow of the kvrocks clusters returns what its last cluster left: a
    backup seen to have failed is not reported when the wait of a later cluster
    succeeds. *)
Theorem backupRedix_masks_failure :
  exists tr l, runs backupRedix tr (Returned (Ok tt)) /\ list_answer l ∈ tr /\ Exists failed_backup l.
Proof.
  exists (fst (fst (sdemo_exec backupRedix))), [sdemo_failed]. split_and!.
  - pose proof (sdemo_runs backupRedix) as H.
    assert (E : snd (fst (sdemo_exec backupRedix)) = Returned (Ok tt)) by (vm_compute; reflexivity).
    by rewrite E in H.
  - vm_compute. do 4 right. left.
  - constructor. by right.
Qed.


(** One goroutine after the other. *)
Lemma group_trans g1 tr1 g2 tr2 g3 : group_runs g1 tr1 g2 -> group_runs g2 tr2 g3 -> group_runs g1 (tr1 ++ tr2) g3.
Proof.
  intros H1 H2. induction H1 as [g|g1 t1 g2 t2 g3' Hs _ IH]; [done|]. rewrite <- app_assoc.
  eapply group_more; [exact Hs|by apply IH].
Qed.
Lemma group_run_thread errs ts i m tr r :
  ts !! i = Some (Running m) -> runs m tr (Returned r) ->
  group_runs (mkGroup errs ts) tr (mkGroup (errs ++ option_list (res_err r)) (<[i := Finished r]> ts)).
Proof.
  intros Hi Hr. remember (Returned r) as out eqn:Ho. revert ts Hi.
  induction Hr as [[u|e]|w|o k a tr out Hr IH]; intros ts Hi; simplify_eq.
  - destruct u. cbn. rewrite app_nil_r. eapply (group_more _ [] _ []); [by constructor|constructor].
  - eapply (group_more _ [] _ []); [by constructor|].
    eapply (group_more _ [] _ []); [|constructor].
    rewrite <- (list_insert_insert_eq ts i (Finished (Err e)) (Appending e errs)).
    apply group_store. apply list_lookup_insert_eq. by eapply lookup_lt_Some.
  - assert (Hi' : <[i := Running (k a)]> ts !! i = Some (Running (k a)))
      by (apply list_lookup_insert_eq; by eapply lookup_lt_Some).
    pose proof (IH eq_refl _ Hi') as H. rewrite list_insert_insert_eq in H. change (ev o a :: tr) with ([ev o a] ++ tr).
    eapply group_more; [|exact H]. by apply group_call.
Qed.

Definition sdemo_pg_run := sdemo_exec backupPostgres.
Lemma backupPostgres_complete_witness :
  snd (fst sdemo_pg_run) = Returned (Ok tt) /\
  exists clusters, ev (Apr (ListPGClusters "")) (Ok clusters) ∈ fst (fst sdemo_pg_run) /\
    (forall c, c ∈ clusters -> exists path, backup_path_of c path /\
       ev (Apr (CreatePGBackup (om_Namespace (pgc_meta c)) (pg_backup_of c path))) (Ok tt) ∈ fst (fst sdemo_pg_run)) /\
    exists tr' l, fst (fst sdemo_pg_run) = tr' ++ [ev (Apr ListPGBackups) (Ok l)] /\ clean_list l.
Proof.
  assert (E : snd (fst sdemo_pg_run) = Returned (Ok tt)) by (vm_compute; reflexivity).
  split; [exact E|]. apply (backupPostgres_complete (fst (fst sdemo_pg_run))).
  pose proof (sdemo_runs backupPostgres) as H. fold sdemo_pg_run in H. rewrite E in H. exact H.
Defined.

Definition sdemo_report (state : string) := sdemo_exec (updateBackupState sdemo_sys state None).
Definition sdemo_flows : history := fst (fst (sdemo_exec backupRedix)) ++ fst (fst sdemo_pg_run).
Lemma sdemo_handled :
  handles_backup WatchAdded (Some sdemo_sys)
    (fst (fst (sdemo_report "Running")) ++ sdemo_flows ++ fst (fst (sdemo_report "Success"))) (Returned tt).
Proof.
  apply (hb_done _ _ _ (Ok tt) _ (mkGroup [] [Finished (Ok tt); Finished (Ok tt)]) _ (Ok tt)); [by left|constructor|..].
  - exact (sdemo_runs (updateBackupState sdemo_sys "Running" None)).
  - apply (group_trans _ _ (mkGroup [] [Finished (Ok tt); Running backupPostgres])).
    + apply (group_run_thread [] [Running backupRedix; Running backupPostgres] 0 backupRedix _ (Ok tt)); [done|].
      exact (sdemo_runs backupRedix).
    + apply (group_run_thread [] [Finished (Ok tt); Running backupPostgres] 1 backupPostgres _ (Ok tt)); [done|].
      exact (sdemo_runs backupPostgres).
  - repeat constructor; by eexists.
  - exact (sdemo_runs (updateBackupState sdemo_sys "Success" None)).
Qed.

Definition sdemo_handling : history :=
  fst (fst (sdemo_report "Running")) ++ sdemo_flows ++ fst (fst (sdemo_report "Success")).
Definition sdemo_opened : history :=
  [ev (Ext (Rc WatchSysBackups)) (Ok 1); ev (Ext (Rc WatchVeleroRestores)) (Ok 2)].
Lemma sdemo_started : watcher_started (sdemo_opened ++ sdemo_handling) (Returned (mkWatches (Some 1) (Some 2))).
Proof.
  apply (wr_round _ [_] _ (_ :: _)) with (1 := wt_backups 1 None).
  apply (wr_round _ [_] _ _) with (1 := wt_restores 1 2).
  rewrite <- (app_nil_r sdemo_handling).
  apply (wr_round _ _ _ _) with (1 := wt_backup 1 2 _ _ _ sdemo_handled). constructor.
Qed.

Lemma backup_phase_truthful_witness :
  exists b' before here t b rest out0,
  sb_MiddleWarePhase b' = Some "Success" /\
  handles_backup t b (here ++ ev (Ext (Rc (UpdateSysBackup "os-platform" b'))) (Ok tt) :: rest) out0 /\
  sdemo_opened ++ fst (fst (sdemo_report "Running")) ++ sdemo_flows ++ take 2 (fst (fst (sdemo_report "Success"))) = before ++ here.
Proof.
  destruct (backup_phase_truthful _ _
    (sdemo_opened ++ fst (fst (sdemo_report "Running")) ++ sdemo_flows ++ take 2 (fst (fst (sdemo_report "Success"))))
    "os-platform" (with_middleware_phase sdemo_sys "Success" None "2024-01-01") (Ok tt) [] sdemo_started)
    as (before & here & t & b & rest & o & E & Hh & _).
  - unfold sdemo_handling. rewrite <- !app_assoc. reflexivity.
  - exists (with_middleware_phase sdemo_sys "Success" None "2024-01-01"), before, here, t, b, rest, o.
    split; [reflexivity|]. split; [exact Hh|exact E].
Defined.
