(* ===== verification/MongoCluster.v ===== *)
(** * Percona's MongoDB cluster: src/pkg/workload/mongodb/helper.go

    The waits and the forced backup and restore of the operator's resources,
    next to those of PostgreSQL, kvrocks and redis clusters.  Nothing in the
    repository calls them at present (restoring moved to a script), and scaling,
    which the HTTP server calls, is in [MwServer]. *)

From S2P Require Import Prelude Effects Apr World KVRocks SystemBackup.

#[export] Instance PsmdbState_eq_dec : EqDecision PsmdbState.
Proof. solve_decision. Defined.

Definition PSMDB_NAME : string := "mongo-cluster".
Definition PSMDB_NAMESPACE : string := "os-platform".
Definition PSMDB_RESTORE_NAME : string := "mongocluster-restore".

(** An object got in two stages, the object and its conversion, of which the
    failure of either is returned. *)
Definition converted_or_err {A} (o : io (res (res A))) : io (res A) :=
  let? r := o in Ret r.

Definition CheckMongoRestoreStatus : io (res bool) :=
  let? _ := converted_or_err (un_call (GetPsmdbStatus PSMDB_NAMESPACE PSMDB_NAME)) in
  let? _ := converted_or_err (un_call (GetPsmdbRestore PSMDB_NAMESPACE PSMDB_RESTORE_NAME)) in
  Ret (Ok true).

(** The routers are ready and every replica set has a member. *)
Definition mongo_initialized (c : PsmdbStatus) : bool :=
  bool_decide (pt_MongosReady c = Some true) && forallb (fun rs => (1 <=? snd rs)%Z) (pt_Replsets c).
Definition WaitForMongoInitialize : io (res unit) :=
  Poll 720
    (let? cluster := found (un_call (GetPsmdbStatus PSMDB_NAMESPACE PSMDB_NAME)) in
     Ret (Ok (match cluster with
              | Some (Ok c) => if mongo_initialized c then Some tt else None
              | _ => None
              end))).

Definition ForceCreateNewMongoClusterBackup (backup : PsmdbJob) : io (res unit) :=
  let ns := om_Namespace (pj_meta backup) in
  let name := om_Name (pj_meta backup) in
  let? currentBackup := found (un_call (GetPsmdbBackup ns name)) in
  do? (match currentBackup with
       | None => Ret (Ok tt)
       | Some (Err e) => Ret (Err e)
       | Some (Ok b) =>
           if bool_decide (pj_State b = PsRunning)
           then Ret (Err (newErr "duplicate mongo backup job"))
           else
             do? un_call (DeletePsmdbBackup ns name);
             do! PollImmediate 3600 (gone (un_call (GetPsmdbBackup ns name)));
             Ret (Ok tt)
       end);
  un_call (CreatePsmdbBackup ns backup).

(** A restore is created without waiting for the previous one to disappear. *)
Definition ForceCreateNewMongoClusterRestore (restore : PsmdbJob) : io (res unit) :=
  let ns := om_Namespace (pj_meta restore) in
  let name := om_Name (pj_meta restore) in
  let? currentRestore := found (un_call (GetPsmdbRestore ns name)) in
  do? (match currentRestore with
       | None => Ret (Ok tt)
       | Some (Err e) => Ret (Err e)
       | Some (Ok r) =>
           if bool_decide (pj_State r = PsRunning)
           then Ret (Err (newErr "duplicate mongo restore job"))
           else un_call (DeletePsmdbRestore ns name)
       end);
  un_call (CreatePsmdbRestore ns restore).

(** The condition of both waits: unlike those of the other resources, new and
    requested jobs are waited for too. *)
Definition psmdb_pending (j : PsmdbJob) : Prop :=
  pj_State j ∈ [PsRunning; PsWaiting; PsNew; PsRequested].
Definition psmdb_failed (j : PsmdbJob) : Prop := pj_State j ∈ [PsRejected; PsError].
#[export] Instance psmdb_pending_dec j : Decision (psmdb_pending j).
Proof. unfold psmdb_pending. apply _. Defined.
#[export] Instance psmdb_failed_dec j : Decision (psmdb_failed j).
Proof. unfold psmdb_failed. apply _. Defined.

Fixpoint all_converted {A} (items : list (res A)) : res (list A) :=
  match items with
  | [] => Ok []
  | Err e :: _ => Err e
  | Ok a :: items => match all_converted items with Ok l => Ok (a :: l) | Err e => Err e end
  end.
Definition psmdb_complete (failure : PsmdbJob -> string) (items : list (res PsmdbJob)) : res (option unit) :=
  match all_converted items with
  | Err e => Err e
  | Ok jobs =>
      match map failure (base.filter psmdb_failed jobs) with
      | [] => Ok (if decide (Exists psmdb_pending jobs) then None else Some tt)
      | errs => Err (NewAggregate errs)
      end
  end.
Section Waits.
(* the text of the operator's constants *)
Context (state_text : PsmdbState -> string).

Definition mongo_backup_failure (b : PsmdbJob) : string :=
  "mongo backup failed, " +:+ pj_Error b +:+ ", " +:+ state_text (pj_State b) +:+ ", " +:+ om_Name (pj_meta b) +:+ ", " +:+
  om_Namespace (pj_meta b).
Definition mongo_restore_failure (r : PsmdbJob) : string :=
  "restore mongo failed, " +:+ pj_Error r +:+ ", " +:+ om_Name (pj_meta r) +:+ ", " +:+ om_Namespace (pj_meta r).

(** A list that is not found is waited for with backups, and enough with
    restores. *)
Definition WaitForAllMongoBackupComplete : io (res unit) :=
  Poll 720 (let? backups := found (un_call ListPsmdbBackups) in
            Ret (match backups with
                 | None => Ok None
                 | Some l => psmdb_complete mongo_backup_failure l
                 end)).
Definition WaitForAllMongoRestoreComplete : io (res unit) :=
  Poll 720 (let? restores := found (un_call ListPsmdbRestores) in
            Ret (match restores with
                 | None => Ok (Some tt)
                 | Some l => psmdb_complete mongo_restore_failure l
                 end)).
End Waits.

(** ** Results *)

Lemma all_converted_ok {A} (items : list (res A)) l : all_converted items = Ok l <-> items = map Ok l.
Proof.
  revert l. induction items as [|[a|e] items IH]; intros l; cbn.
  - split; [by intros [= <-]|]. by destruct l.
  - destruct (all_converted items) as [l'|e] eqn:E.
    + split; [intros [= <-]; cbn; f_equal; by apply IH|].
      destruct l as [|a' l]; [done|]. intros [= <- Hl]. apply IH in Hl as [= ->]. done.
    + split; [done|]. destruct l as [|a' l]; [done|]. intros [= <- Hl]. by apply IH in Hl.
  - split; [done|]. by destruct l.
Qed.

(** What a list makes of the wait: done when all converted, none has failed and
    none is pending; an error when one does not convert or has failed. *)
Lemma psmdb_complete_cases failure items :
  match psmdb_complete failure items with
  | Ok (Some _) => exists l, items = map Ok l /\ Forall (fun j => ~ psmdb_failed j /\ ~ psmdb_pending j) l
  | Ok None => exists l, items = map Ok l /\ Forall (fun j => ~ psmdb_failed j) l /\ Exists psmdb_pending l
  | Err _ => (exists e, Err e ∈ items) \/ exists l, items = map Ok l /\ Exists psmdb_failed l
  end.
Proof.
  unfold psmdb_complete. destruct (all_converted items) as [l|e] eqn:E.
  - apply all_converted_ok in E as ->. destruct (base.filter psmdb_failed l) as [|j0 bad] eqn:F; cbn [map].
    + assert (Hok : Forall (fun j => ~ psmdb_failed j) l).
      { apply Forall_forall. intros j Hj Hf. eapply elem_of_nil. rewrite <- F. apply list_elem_of_filter. split; [exact Hf|exact Hj]. }
      destruct (decide _) as [Hp|Hp]; exists l; split_and!; try done.
      apply Forall_forall. intros j Hj. split; [by apply (proj1 (Forall_forall _ _) Hok)|].
      intros Hpj. apply Hp, Exists_exists. eauto.
    + right. exists l. split; [done|]. apply Exists_exists. exists j0.
      assert (Hj : j0 ∈ base.filter psmdb_failed l) by (rewrite F; by left).
      apply list_elem_of_filter in Hj as [H1 H2]. by split.
  - left. exists e. induction items as [|[a|e'] items IH]; cbn in E; [done| |injection E as ->; by left].
    right. apply IH. by destruct (all_converted items).
Qed.

(** What forcing a backup does on every branch: the previous one is looked up
    first; a running one is left alone, another is deleted and waited for, and
    the new one is created last, or not at all. *)
Theorem mongo_force_backup_exact b tr out :
  runs (ForceCreateNewMongoClusterBackup b) tr out ->
  let ns := om_Namespace (pj_meta b) in let name := om_Name (pj_meta b) in
  let created r := ev (Ext (Un (CreatePsmdbBackup ns b))) r in
  exists current tr', tr = ev (Ext (Un (GetPsmdbBackup ns name))) current :: tr' /\
  match current with
  | Err e =>
      if IsNotFound e then exists r, tr' = [created r] /\ out = Returned r
      else tr' = [] /\ out = Returned (Err e)
  | Ok (Err e) => tr' = [] /\ out = Returned (Err e)
  | Ok (Ok old) =>
      if bool_decide (pj_State old = PsRunning)
      then tr' = [] /\ out = Returned (Err (newErr "duplicate mongo backup job"))
      else exists deleted rest, tr' = ev (Ext (Un (DeletePsmdbBackup ns name))) deleted :: rest /\
        match deleted with
        | Err e => rest = [] /\ out = Returned (Err e)
        | Ok _ => (exists waited r, rest = waited ++ [created r] /\ out = Returned r)
        end
  end.
Proof.
  intros H. apply runs_inv in H as (current & tr' & -> & H). exists current, tr'. split; [done|].
  destruct current as [[old|e]|e]; cbn -[PollImmediate gone] in H.
  - destruct (bool_decide _); cbn -[PollImmediate gone] in H; [by apply runs_inv in H as [-> ->]|].
    apply runs_inv in H as (deleted & rest & -> & H). exists deleted, rest. split; [done|].
    destruct deleted as [u|e]; cbn -[PollImmediate gone] in H; [|by apply runs_inv in H as [-> ->]].
    apply runs_bind_inv in H as [(tr1 & tr2 & a & -> & H1 & H2)|(w & _ & H)].
    + apply runs_bind_inv in H1 as [(tr3 & tr4 & a' & -> & H3 & H4)|(w & [=] & _)].
      apply runs_inv in H4 as [-> [= ->]]. rewrite app_nil_r.
      apply runs_inv in H2 as (r & tr5 & -> & H2). apply runs_inv in H2 as [-> ->]. by exists tr3, r.
    + exfalso. revert H. apply survives_bind; [|intros r; apply survives_ret].
      apply survives_PollImmediate, survives_gone. exact (survives_call (Ext (Un (GetPsmdbBackup _ _)))).
  - by apply runs_inv in H as [-> ->].
  - destruct (IsNotFound e); cbn in H; [|by apply runs_inv in H as [-> ->]].
    apply runs_inv in H as (created & tr5 & -> & H2). apply runs_inv in H2 as [-> ->]. by exists created.
Qed.
