(* ===== verification/Backup.v ===== *)
(** * Backup and restore jobs

    The controllers of the four job resources:
    [src/cmd/middleware/operator/pgcluster-backup], [pgcluster-restore],
    [kvrocks-bakcup] and [kvrocks-restore].

    A handler works on the informer's object through a pointer, and a failed
    item is queued again with the same pointer: a handler here returns, besides
    its answer, what that object holds afterwards. *)

From S2P Require Import Prelude Effects Apr World Citus KVRocks.

(** ** The status of a job *)

Definition finished (s : JobState) : bool :=
  bool_decide (s = StateError \/ s = StateRejected \/ s = StateReady).

(** What the four resources share. *)
Class JobResource (O : Set) : Type := {
  jr_meta : O -> ObjectMeta;
  jr_State : O -> JobState;
  (* the assignments of updateStatus, at a given time *)
  jr_set : JobState -> option string -> Z -> O -> O;
  (* UpdateStatus of the clientset *)
  jr_UpdateStatus : O -> io (res O) }.

(** [updateStatus]: the object passed is changed in place, then sent; the
    server's copy comes back. *)
Definition updateStatus {O} `{JobResource O} (o : O) (state : JobState) (errMsg : option gerr) : io (O * res O) :=
  let! now := sys_call Now in
  let o := jr_set state (option_map err_msg errMsg) now o in
  let! r := jr_UpdateStatus o in
  Ret (o, r).

Definition set_backup_status (state : JobState) (msg : option string) (now : Z) (s : BackupStatus) : BackupStatus :=
  mkBackupStatus state (if bool_decide (state = StateRunning) then Some now else bs_StartAt s)
    (if finished state then Some now else bs_CompletedAt s) (default (bs_Error s) msg) (bs_BackupPath s).
Definition set_restore_status (state : JobState) (msg : option string) (now : Z) (s : RestoreStatus) : RestoreStatus :=
  mkRestoreStatus state (if bool_decide (state = StateRunning) then Some now else rst_StartAt s)
    (if finished state then Some now else rst_CompletedAt s) (default (rst_Error s) msg).

#[export] Instance PGClusterBackup_job : JobResource PGClusterBackup := {|
  jr_meta := pgb_meta;
  jr_State b := bs_State (pgb_Status b);
  jr_set st msg now b := mkPGClusterBackup (pgb_meta b) (pgb_ClusterName b) (pgb_VolumeSpec b)
                           (set_backup_status st msg now (pgb_Status b));
  jr_UpdateStatus b := apr_call (UpdatePGBackupStatus (om_Namespace (pgb_meta b)) b) |}.
#[export] Instance PGClusterRestore_job : JobResource PGClusterRestore := {|
  jr_meta := pgr_meta;
  jr_State r := rst_State (pgr_Status r);
  jr_set st msg now r := mkPGClusterRestore (pgr_meta r) (pgr_ClusterName r) (pgr_BackupName r)
                           (set_restore_status st msg now (pgr_Status r));
  jr_UpdateStatus r := apr_call (UpdatePGRestoreStatus (om_Namespace (pgr_meta r)) r) |}.
#[export] Instance KVRocksBackup_job : JobResource KVRocksBackup := {|
  jr_meta := kvb_meta;
  jr_State b := bs_State (kvb_Status b);
  jr_set st msg now b := mkKVRocksBackup (kvb_meta b) (kvb_ClusterName b) (set_backup_status st msg now (kvb_Status b));
  jr_UpdateStatus b := apr_call (UpdateKVBackupStatus (om_Namespace (kvb_meta b)) b) |}.
#[export] Instance KVRocksRestore_job : JobResource KVRocksRestore := {|
  jr_meta := kvr_meta;
  jr_State r := rst_State (kvr_Status r);
  jr_set st msg now r := mkKVRocksRestore (kvr_meta r) (kvr_ClusterName r) (kvr_BackupStorage r)
                           (set_restore_status st msg now (kvr_Status r));
  jr_UpdateStatus r := apr_call (UpdateKVRestoreStatus (om_Namespace (kvr_meta r)) r) |}.

(** ** kvrocks *)

Definition with_path (path : string) (b : KVRocksBackup) : KVRocksBackup :=
  let s := kvb_Status b in
  mkKVRocksBackup (kvb_meta b) (kvb_ClusterName b)
    (mkBackupStatus (bs_State s) (bs_StartAt s) (bs_CompletedAt s) (bs_Error s) path).

(** From the status set to running on, where only the work differs. *)
Definition run_job {O} `{JobResource O} (o : O) (work : O -> io (res O)) : io (O * res unit) :=
  let! (o, r) := updateStatus o StateRunning None in
  match r with
  | Err e => Ret (o, Err e)
  | Ok running =>
      let! done := work running in
      match done with
      | Err e => let! _ := updateStatus running StateError None in Ret (o, Err e)
      | Ok running => let! _ := updateStatus running StateReady None in Ret (o, Ok tt)
      end
  end.

Definition kv_backup_add (backup : KVRocksBackup) : io (KVRocksBackup * res unit) :=
  if finished (jr_State backup) then Ret (backup, Ok tt)
  else if String.eqb (kvb_ClusterName backup) "" then
    let err := newErr "kvrocks backup cluster name is empty" in
    let! (backup, _) := updateStatus backup StateError (Some err) in
    Ret (backup, Err err)
  else
    let! cluster := apr_call (GetRedixCluster (om_Namespace (kvb_meta backup)) (kvb_ClusterName backup)) in
    match cluster with
    | Err e => Ret (backup, Err e)
    | Ok cluster =>
        match rxs_Type (rx_Spec cluster) with
        | KVRocks => run_job backup (fun running =>
            let? path := BackupKVRocks cluster running in Ret (Ok (with_path path running)))
        | _ => Ret (backup, Ok tt)
        end
    end.

(** The files of a deleted backup go too; a failure is logged. *)
Definition kv_backup_handler (action : Action) (backup : KVRocksBackup) : io (KVRocksBackup * res unit) :=
  match action with
  | ADD => kv_backup_add backup
  | DELETE =>
      if String.eqb (bs_BackupPath (kvb_Status backup)) "" then Ret (backup, Ok tt)
      else let! _ := sys_call (RemoveAll (bs_BackupPath (kvb_Status backup))) in Ret (backup, Ok tt)
  | _ => Ret (backup, Ok tt)
  end.

(** A restore without a cluster is marked on a copy of the object. *)
Definition kv_restore_handler (action : Action) (restore : KVRocksRestore) : io (KVRocksRestore * res unit) :=
  match action with
  | ADD =>
      if finished (jr_State restore) then Ret (restore, Ok tt)
      else if String.eqb (kvr_ClusterName restore) "" then
        let err := newErr "kvrocks restore cluster name is empty" in
        let! _ := updateStatus restore StateError (Some err) in
        Ret (restore, Err err)
      else
        let! cluster := apr_call (GetRedixCluster (om_Namespace (kvr_meta restore)) (kvr_ClusterName restore)) in
        match cluster with
        | Err e => Ret (restore, Err e)
        | Ok cluster =>
            match rxs_Type (rx_Spec cluster) with
            | KVRocks => run_job restore (fun running =>
                do? RestoreKVRocks cluster; Ret (Ok running))
            | _ => Ret (restore, Ok tt)
            end
        end
  | _ => Ret (restore, Ok tt)
  end.

(** ** PostgreSQL *)

(** The cluster's administrator and password. *)
Definition cluster_admin (namespace clusterName : string) : io (res (string * string)) :=
  let? cluster := apr_call (GetPGCluster namespace clusterName) in
  let? cluster := default_admin (om_Namespace (pgc_meta cluster)) cluster in
  let? password := GetVarValue (pgs_Password (pgc_Spec cluster)) namespace in
  Ret (Ok (pgs_AdminUser (pgc_Spec cluster), password)).

(** Whether a job of that name is still active; a finished one is deleted. *)
Definition previous_job (wait_deleted : bool) (namespace name : string) : io (res bool) :=
  let? currentJob := found (k8s_call (GetJob namespace name)) in
  match currentJob with
  | None => Ret (Ok false)
  | Some j =>
      if (0 <? job_Active j)%Z then Ret (Ok true)
      else if (0 <? job_Succeeded j)%Z || (0 <? job_Failed j)%Z then
        do? k8s_call (DeleteJob (job_Namespace j) (job_Name j));
        do? (if wait_deleted then Poll 60 (gone (k8s_call (GetJob namespace (job_Name j)))) else Ret (Ok tt));
        Ret (Ok false)
      else Ret (Ok false)
  end.

(** [waitForJobComplete]: every five seconds for an hour. *)
Definition waitForJobComplete {O} `{JobResource O} (o : O) (failed : string) (job : Job) : io (res unit) :=
  Poll 720
    (let? j := k8s_call (GetJob (job_Namespace job) (job_Name job)) in
     if (0 <? job_Active j)%Z then Ret (Ok None)
     else if ((job_Active j =? 0) && (0 <? job_Succeeded j))%Z then
       let! (_, r) := updateStatus o StateReady None in
       Ret (match r with Ok _ => Ok (Some tt) | Err e => Err e end)
     else if ((job_Active j =? 0) && (0 <? job_Failed j))%Z then
       let! (_, r) := updateStatus o StateError (Some (newErr failed)) in
       Ret (match r with Ok _ => Ok (Some tt) | Err e => Err e end)
     else Ret (Ok None)).

(** Creating the job and waiting for it; when it cannot be created the resource
    is marked failed. *)
Definition start_job {O} `{JobResource O} (o : O) (failed : string) (job : Job) : io (O * res unit) :=
  let! created := k8s_call (CreateJob (job_Namespace job) job) in
  match created with
  | Err e => let! (o, _) := updateStatus o StateError (Some e) in Ret (o, Err e)
  | Ok _ =>
      let! (o, r) := updateStatus o StateRunning None in
      match r with
      | Err e => Ret (o, Err e)
      | Ok running =>
          let! done := waitForJobComplete running failed job in
          Ret (o, done)
      end
  end.

(** A request while another job is active. *)
Definition reject {O} `{JobResource O} (o : O) (why : string) : io (O * res unit) :=
  let! (o, r) := updateStatus o StateRejected (Some (newErr why)) in
  Ret (o, match r with Ok _ => Ok tt | Err e => Err e end).

Definition job_env (admin password : string) : list EnvVar :=
  [mkEnv "PG_HOST" "citus-0.citus-headless" None; mkEnv "PG_PORT" "5432" None;
   mkEnv "PGUSER" admin None; mkEnv "PGPASSWORD" password None].
Definition define_job (template : Job) (namespace : string) (vols : list Volume)
    (mounts : list (string * string * string)) (env : list EnvVar) : Job :=
  let c := job_Container template in
  mkJob (job_Name template) namespace (job_UID template) (job_Active template) (job_Succeeded template)
    (job_Failed template) vols
    (mkContainer (c_Name c) (c_Image c) (c_ImagePullPolicy c) (c_Command c) env mounts (c_Resources c)).

Section PostgreSQL.
  (* time.Format("2006-01-02_15-04-05") of the current time *)
  Context (format_time : Z -> string).

Definition backup_sub_path (t : Z) : string := "backup/" +:+ format_time t.
Definition pg_backup_file (t : Z) : string := ("/" +:+ backup_sub_path t) +:+ "/all.sql".
Definition pg_backup_job (namespace admin password : string) (volume : option (string * Z)) : Job :=
  match volume with
  | None => define_job BackupJob namespace (job_Volumes BackupJob) (c_VolumeMounts (job_Container BackupJob))
              (job_env admin password)
  | Some (hostPath, t) =>
      define_job BackupJob namespace [mkVolume "backup-data" (Some hostPath)]
        [("backup-data", "/" +:+ backup_sub_path t, backup_sub_path t)]
        (job_env admin password ++ [mkEnv "BACKUP_FILENAME" (pg_backup_file t) None])
  end.
Definition pg_with_path (path : string) (b : PGClusterBackup) : PGClusterBackup :=
  let s := pgb_Status b in
  mkPGClusterBackup (pgb_meta b) (pgb_ClusterName b) (pgb_VolumeSpec b)
    (mkBackupStatus (bs_State s) (bs_StartAt s) (bs_CompletedAt s) (bs_Error s) path).

(** What is left out is only the goroutine started at the end; see
    [clean_job_pods]. *)
Definition pg_backup_add (backup : PGClusterBackup) : io (PGClusterBackup * res unit) :=
  let ns := om_Namespace (pgb_meta backup) in
  if finished (jr_State backup) then Ret (backup, Ok tt)
  else if String.eqb (pgb_ClusterName backup) "" then
    let err := newErr "pg backup cluster name is empty" in
    let! (backup, _) := updateStatus backup StateError (Some err) in
    Ret (backup, Err err)
  else
    let! admin := cluster_admin ns (pgb_ClusterName backup) in
    match admin with
    | Err e => Ret (backup, Err e)
    | Ok (admin, password) =>
        let! active := previous_job true ns (job_Name BackupJob) in
        match active with
        | Err e => Ret (backup, Err e)
        | Ok true => reject backup "duplicate backup request"
        | Ok false =>
            match pgb_VolumeSpec backup with
            | None => start_job backup "backup job failed" (pg_backup_job ns admin password None)
            | Some hostPath =>
                let! t := sys_call Now in
                start_job (pg_with_path (pg_backup_file t) backup) "backup job failed"
                  (pg_backup_job ns admin password (Some (hostPath, t)))
            end
        end
    end.

Definition pg_backup_handler (action : Action) (backup : PGClusterBackup) : io (PGClusterBackup * res unit) :=
  match action with
  | ADD => pg_backup_add backup
  | DELETE =>
      if String.eqb (bs_BackupPath (pgb_Status backup)) "" then Ret (backup, Ok tt)
      else let! r := sys_call (RemoveAll (bs_BackupPath (pgb_Status backup))) in Ret (backup, r)
  | _ => Ret (backup, Ok tt)
  end.

Definition pg_restore_job (namespace admin password : string) (backup : PGClusterBackup) : Job :=
  let env := job_env admin password ++
             [mkEnv "BACKUP_FILENAME" ("/restore" +:+ bs_BackupPath (pgb_Status backup)) None] in
  match pgb_VolumeSpec backup with
  | None => define_job RestoreJob namespace (job_Volumes RestoreJob) (c_VolumeMounts (job_Container RestoreJob)) env
  | Some hostPath =>
      define_job RestoreJob namespace [mkVolume "backup-data" (Some hostPath)] [("backup-data", "/restore", "")] env
  end.

(** A finished job is deleted without waiting for it to disappear. *)
Definition pg_restore_add (restore : PGClusterRestore) : io (PGClusterRestore * res unit) :=
  let ns := om_Namespace (pgr_meta restore) in
  if finished (jr_State restore) then Ret (restore, Ok tt)
  else if String.eqb (pgr_ClusterName restore) "" then
    let err := newErr "pg restore cluster name is empty" in
    let! _ := updateStatus restore StateError (Some err) in
    Ret (restore, Err err)
  else
    let! admin := cluster_admin ns (pgr_ClusterName restore) in
    match admin with
    | Err e => Ret (restore, Err e)
    | Ok (admin, password) =>
        let! backup := apr_call (GetPGBackup ns (pgr_BackupName restore)) in
        match backup with
        | Err e => Ret (restore, Err e)
        | Ok backup =>
            if negb (bool_decide (jr_State backup = StateReady))
            then Ret (restore, Err (newErr "cluster's backup is not ready for restore"))
            else if String.eqb (bs_BackupPath (pgb_Status backup)) "" then
              let err := newErr "cluster's backup file is empty" in
              let! (restore, _) := updateStatus restore StateRejected (Some err) in
              Ret (restore, Err err)
            else
              let! active := previous_job false ns (job_Name RestoreJob) in
              match active with
              | Err e => Ret (restore, Err e)
              | Ok true => reject restore "duplicate restore request"
              | Ok false => start_job restore "restore job failed" (pg_restore_job ns admin password backup)
              end
        end
    end.
Definition pg_restore_handler (action : Action) (restore : PGClusterRestore) : io (PGClusterRestore * res unit) :=
  match action with ADD => pg_restore_add restore | _ => Ret (restore, Ok tt) end.
End PostgreSQL.

(** The goroutine of [watchJobDelete], once the job's deletion was seen: the
    pods owned by [job.UID] are deleted, [job] being the object that was sent. *)
Definition clean_job_pods (job : Job) : io unit :=
  let! pods := k8s_call (ListPods (job_Namespace job) "") in
  match pods with
  | Err _ => Ret tt
  | Ok pods =>
      fold_all (fun _ p =>
        fold_all (fun _ uid =>
          if String.eqb uid (job_UID job)
          then let! _ := k8s_call (DeletePod (pod_Namespace p) (pod_Name p)) in Ret tt
          else Ret tt) (pod_OwnerUIDs p) tt) pods tt
  end.
