(* ===== verification/BackupSpec.v ===== *)
(** * What the backup and restore jobs guarantee *)

From S2P Require Import Prelude Effects Apr World Demo Citus KVRocks Backup.

(** ** Writing a status *)

(** The state a call writes into a job resource. *)
Definition status_of (o : op) : option JobState :=
  match o with
  | Apr (UpdatePGBackupStatus _ b) => Some (jr_State b)
  | Apr (UpdatePGRestoreStatus _ r) => Some (jr_State r)
  | Apr (UpdateKVBackupStatus _ b) => Some (jr_State b)
  | Apr (UpdateKVRestoreStatus _ r) => Some (jr_State r)
  | _ => None
  end.

(** What the controllers rely on: [jr_UpdateStatus] is one call, which writes
    the state of the object. *)
Class ReportsStatus (O : Set) `{JobResource O} : Prop := {
  jr_State_set st msg now (o : O) : jr_State (jr_set st msg now o) = st;
  jr_report {S} (step : S -> event resp -> S) Q s (o : O) :
    (forall a r x, status_of a = Some (jr_State o) -> Q (step s (ev a r)) (Returned x)) ->
    wp step (jr_UpdateStatus o) Q s;
  jr_only (P : op -> Prop) (o : O) :
    (forall a, status_of a = Some (jr_State o) -> P a) -> issues P (jr_UpdateStatus o) }.

#[export] Instance PGClusterBackup_reports : ReportsStatus PGClusterBackup.
Proof. split; [done|intros S step Q s o HQ r; by apply HQ|]. intros P o HP. split; [by apply HP|done]. Qed.
#[export] Instance PGClusterRestore_reports : ReportsStatus PGClusterRestore.
Proof. split; [done|intros S step Q s o HQ r; by apply HQ|]. intros P o HP. split; [by apply HP|done]. Qed.
#[export] Instance KVRocksBackup_reports : ReportsStatus KVRocksBackup.
Proof. split; [done|intros S step Q s o HQ r; by apply HQ|]. intros P o HP. split; [by apply HP|done]. Qed.
#[export] Instance KVRocksRestore_reports : ReportsStatus KVRocksRestore.
Proof. split; [done|intros S step Q s o HQ r; by apply HQ|]. intros P o HP. split; [by apply HP|done]. Qed.

Lemma wp_updateStatus {O S} `{ReportsStatus O} (step : S -> event resp -> S) (o : O) st err Q s :
  (forall now a r o' x, status_of a = Some st -> jr_State o' = st ->
     Q (step (step s (ev (Sys Now) now)) (ev a r)) (Returned (o', x))) ->
  wp step (updateStatus o st err) Q s.
Proof.
  intros HQ now. set (o1 := jr_set st (option_map err_msg err) now o).
  change (wp step (bind (jr_UpdateStatus o1) (fun r => Ret (o1, r))) Q (step s (ev (Sys Now) now))).
  rewrite wp_bind. apply jr_report. intros a r x Ha.
  assert (jr_State o1 = st) as Ho by apply jr_State_set. cbn. apply HQ; [by rewrite <- Ho|done].
Qed.

Lemma issues_updateStatus {O} `{ReportsStatus O} P (o : O) st err :
  P (Sys Now) -> (forall a, status_of a = Some st -> P a) -> issues P (updateStatus o st err).
Proof.
  intros Hn HP. split; [done|]. intros now. apply (issues_bind P (jr_UpdateStatus (jr_set st (option_map err_msg err) now o))).
  - apply jr_only. by rewrite jr_State_set.
  - done.
Qed.

(** ** Jobs *)

(** What a call says about a job. *)
Definition seen (ns name : string) (e : event resp) : option (res Job) :=
  match projT1 e as o return resp o -> option (res Job) with
  | K8s (GetJob ns' name') => fun r => if String.eqb ns' ns && String.eqb name' name then Some r else None
  | _ => fun _ => None
  end (projT2 e).
(** The last thing that was seen of it. *)
Definition last_seen (ns name : string) (h : history) : option (res Job) :=
  fold_left (fun acc e => match seen ns name e with Some r => Some r | None => acc end) h None.
Definition idle (r : res Job) : Prop :=
  match r with Ok j => (job_Active j <= 0)%Z | Err e => IsNotFound e = true end.
Definition seen_idle (ns name : string) (h : history) : Prop :=
  exists r, last_seen ns name h = Some r /\ idle r.

(** A job was created, and later, the last time it was looked at, had
    succeeded and was not active any more. *)
Definition job_succeeded (h : history) : Prop :=
  exists h1 ns job h2 j, h = h1 ++ ev (K8s (CreateJob ns job)) (Ok tt) :: h2 /\
    last_seen ns (job_Name job) h2 = Some (Ok j) /\ job_Active j = 0%Z /\ (0 < job_Succeeded j)%Z.

Definition truthful (h : history) (e : event resp) : Prop :=
  (status_of (projT1 e) = Some StateReady -> job_succeeded h) /\
  (forall ns job, projT1 e = K8s (CreateJob ns job) -> seen_idle ns (job_Name job) h).

Lemma last_seen_snoc ns name h e :
  last_seen ns name (h ++ [e]) = match seen ns name e with Some r => Some r | None => last_seen ns name h end.
Proof. unfold last_seen. by rewrite fold_left_app. Qed.

Definition quiet (o : op) : Prop :=
  status_of o <> Some StateReady /\ forall ns job, o <> K8s (CreateJob ns job).
Lemma truthful_quiet h o (r : resp o) : quiet o -> truthful h (ev o r).
Proof. intros [H1 H2]. split; cbn; [done|]. intros ns job E. by destruct (H2 ns job). Qed.
Lemma truthful_status h o (r : resp o) st :
  status_of o = Some st -> st <> StateReady -> truthful h (ev o r).
Proof. intros H1 H2. apply truthful_quiet. split; [congruence|]. by intros ns job ->. Qed.
Lemma truthful_ready h o (r : resp o) :
  status_of o = Some StateReady -> job_succeeded h -> truthful h (ev o r).
Proof. intros H1 H2. split; [done|]. intros ns job E. cbn in E. by subst o. Qed.

Lemma quiet_wp {A} (m : io A) h :
  issues quiet m -> always truthful h -> wp trace_step m (fun h' _ => always truthful h') h.
Proof. apply wp_always_issues. intros. by apply truthful_quiet. Qed.

(** A status other than ready can be written at any time. *)
Lemma status_wp {O} `{ReportsStatus O} (o : O) st err h :
  st <> StateReady -> always truthful h ->
  wp trace_step (updateStatus o st err) (fun h' _ => always truthful h') h.
Proof.
  intros Hst Hh. apply wp_updateStatus. intros now a r o' x Ha _. unfold trace_step. rewrite !always_snoc.
  split_and!; [done|by apply truthful_quiet|by eapply truthful_status].
Qed.

Lemma reject_wp {O} `{ReportsStatus O} (o : O) why h :
  always truthful h -> wp trace_step (reject o why) (fun h' _ => always truthful h') h.
Proof.
  intros Hh. unfold reject. rewrite wp_bind. eapply wp_mono; [|by apply status_wp].
  by intros h' [[o' r]|w].
Qed.

(** Looking for the previous job. *)
Lemma previous_job_wp wait ns name h :
  always truthful h ->
  wp trace_step (previous_job wait ns name)
    (fun h' x => always truthful h' /\ (x = Returned (Ok false) -> seen_idle ns name h')) h.
Proof.
  intros Hh. unfold previous_job, found. cbn -[Poll].
  assert (Hq : forall o (r : resp o) h', quiet o -> always truthful h' -> always truthful (h' ++ [ev o r])).
  { intros o r h' Ho Hh'. apply always_snoc. split; [done|by apply truthful_quiet]. }
  assert (Hl : forall h' r, last_seen ns name (h' ++ [ev (K8s (GetJob ns name)) r]) = Some r).
  { intros h' r. rewrite last_seen_snoc. cbn. by rewrite !String.eqb_refl. }
  intros [j|e]; cbn -[Poll]; [|destruct (IsNotFound e) eqn:E; cbn; (split; [by apply Hq|])].
  2: { intros _. eexists. unfold trace_step. by rewrite Hl. }
  2: done.
  destruct (Z.ltb_spec 0 (job_Active j)) as [|Hj]; cbn -[Poll]; [split; [by apply Hq|done]|].
  assert (Hi : seen_idle ns name (trace_step h (ev (K8s (GetJob ns name)) (Ok j)))) by (eexists; unfold trace_step; by rewrite Hl).
  destruct (_ || _); cbn -[Poll]; [|split; [by apply Hq|done]].
  set (h1 := trace_step h _) in *. assert (Hh1 : always truthful h1) by (by apply Hq).
  intros [u|e]; cbn -[Poll]; [|split; [by apply Hq|done]].
  set (h2 := trace_step h1 _). assert (Hh2 : always truthful h2) by (by apply Hq).
  assert (Hi2 : seen_idle ns name h2).
  { destruct Hi as (r & Hr & Hi). exists r. unfold h2, trace_step. by rewrite last_seen_snoc. }
  destruct wait; cbn -[Poll]; [|by auto].
  change (wp trace_step (bind_ok (Poll 60 (gone (k8s_call (GetJob ns (job_Name j))))) (fun _ => Ret (Ok false)))
    (fun h' x => always truthful h' /\ (x = Returned (Ok false) -> seen_idle ns name h')) h2).
  rewrite wp_bind_ok.
  apply (wp_WaitFor trace_step (fun h' => always truthful h' /\ (job_Name j <> name -> seen_idle ns name h'))); [| | |by auto].
  - intros h' r [H1 H2]. split; [by apply Hq|]. intros Hn. destruct (H2 Hn) as (x & Hx & Hi').
    exists x. unfold trace_step. by rewrite last_seen_snoc.
  - intros h' [H1 H2]. cbn.
    assert (Hs : forall r, job_Name j <> name -> seen_idle ns name (trace_step h' (ev (K8s (GetJob ns (job_Name j))) r))).
    { intros r Hn. destruct (H2 Hn) as (x & Hx & Hi'). exists x. unfold trace_step. rewrite last_seen_snoc. cbn.
      by rewrite (proj2 (String.eqb_neq _ _) Hn), andb_false_r. }
    intros [j'|e]; cbn; [split; [by apply Hq|by apply Hs]|].
    destruct (IsNotFound e) eqn:E; cbn; [|split; [by apply Hq|done]].
    split; [by apply Hq|]. intros _. destruct (decide (job_Name j = name)) as [Hn|Hn]; [|by apply Hs].
    rewrite Hn. eexists. unfold trace_step. by rewrite Hl.
  - intros h' e [H1 H2]. by split.
Qed.

(** Creating it, and waiting for it. *)
Lemma waitForJobComplete_wp {O} `{ReportsStatus O} (o : O) failed job h1 h2 :
  let h := h1 ++ ev (K8s (CreateJob (job_Namespace job) job)) (Ok tt) :: h2 in
  always truthful h ->
  wp trace_step (waitForJobComplete o failed job) (fun h' _ => always truthful h') h.
Proof.
  intros h Hh. unfold waitForJobComplete.
  apply (wp_WaitFor trace_step (fun h' => always truthful h' /\
     exists h2, h' = h1 ++ ev (K8s (CreateJob (job_Namespace job) job)) (Ok tt) :: h2)).
  - intros h' r (Ht & h3 & ->). split.
    + apply always_snoc. split; [done|]. by apply truthful_quiet.
    + eexists. unfold trace_step. by rewrite <- app_assoc.
  - intros h' (Ht & h3 & ->). cbn -[updateStatus].
    assert (Hg : forall r, always truthful (trace_step (h1 ++ ev (K8s (CreateJob (job_Namespace job) job)) (Ok tt) :: h3)
        (ev (K8s (GetJob (job_Namespace job) (job_Name job))) r))).
    { intros r. apply always_snoc. split; [done|]. by apply truthful_quiet. }
    assert (Hx : forall r, exists h4, trace_step (h1 ++ ev (K8s (CreateJob (job_Namespace job) job)) (Ok tt) :: h3)
        (ev (K8s (GetJob (job_Namespace job) (job_Name job))) r) =
        h1 ++ ev (K8s (CreateJob (job_Namespace job) job)) (Ok tt) :: h4).
    { intros r. eexists. unfold trace_step. by rewrite <- app_assoc. }
    intros [j|e]; [|apply Hg]. cbn -[updateStatus].
    destruct (0 <? job_Active j)%Z eqn:Ea; [by cbn|].
    destruct (Z.eqb_spec (job_Active j) 0) as [E|E]; cbn -[updateStatus]; [|by split].
    destruct (Z.ltb_spec 0 (job_Succeeded j)) as [Es|Es].
    + rewrite wp_bind. apply wp_updateStatus. intros now a r o' x Ha _.
      assert (Hd : always truthful (trace_step (trace_step (trace_step
         (h1 ++ ev (K8s (CreateJob (job_Namespace job) job)) (Ok tt) :: h3)
         (ev (K8s (GetJob (job_Namespace job) (job_Name job))) (Ok j))) (ev (Sys Now) now)) (ev a r))).
      { unfold trace_step at 1 2. rewrite !always_snoc. split_and!; [apply Hg|by apply truthful_quiet|].
        apply truthful_ready; [done|]. exists h1, (job_Namespace job), job, (h3 ++ [ev (K8s (GetJob (job_Namespace job) (job_Name job))) (Ok j); ev (Sys Now) now]), j.
        split_and!; [by unfold trace_step; rewrite <- !app_assoc| |done..].
        change [?a; ?b] with ([a] ++ [b]). rewrite app_assoc, !last_seen_snoc. cbn. by rewrite !String.eqb_refl. }
      destruct x; cbn; done.
    + destruct (0 <? job_Failed j)%Z; [|by split].
      rewrite wp_bind. eapply wp_mono; [|apply status_wp; [done|apply Hg]].
      intros h4 [[o' [x|e']]|w]; cbn; done.
  - intros h' e (Ht & _). done.
  - split; [done|]. by exists h2.
Qed.

Lemma start_job_wp {O} `{ReportsStatus O} (o : O) failed job h :
  always truthful h -> seen_idle (job_Namespace job) (job_Name job) h ->
  wp trace_step (start_job o failed job) (fun h' _ => always truthful h') h.
Proof.
  intros Hh Hi. unfold start_job. rewrite wp_bind. cbn -[updateStatus waitForJobComplete]. intros r.
  assert (Hc : always truthful (h ++ [ev (K8s (CreateJob (job_Namespace job) job)) r])).
  { apply always_snoc. split; [done|]. split; [done|]. by intros ns job' [= <- <-]. }
  destruct r as [[]|e].
  - rewrite wp_bind. apply wp_updateStatus. intros now a r o' x Ha _.
    assert (Hr : always truthful (trace_step (trace_step (trace_step h (ev (K8s (CreateJob (job_Namespace job) job)) (Ok tt)))
        (ev (Sys Now) now)) (ev a r))).
    { unfold trace_step. rewrite (always_snoc _ _ (ev a r)), always_snoc.
      split_and!; [done|by apply truthful_quiet|by eapply truthful_status]. }
    destruct x as [running|e]; [|done].
    revert Hr. unfold trace_step at 1 2 3. rewrite <- !app_assoc. cbn [app]. intros Hr.
    assert (Ht : trace_step (trace_step (trace_step h (ev (K8s (CreateJob (job_Namespace job) job)) (Ok tt)))
        (ev (Sys Now) now)) (ev a r) =
      h ++ ev (K8s (CreateJob (job_Namespace job) job)) (Ok tt) :: [ev (Sys Now) now; ev a r])
      by (unfold trace_step; by rewrite <- !app_assoc).
    rewrite Ht, wp_bind. eapply wp_mono; [|by apply waitForJobComplete_wp]. by intros h' [x|w].
  - rewrite wp_bind. eapply wp_mono; [|by apply status_wp]. by intros h' [[o' x]|w].
Qed.

Lemma GetVarValue_quiet p ns : issues quiet (GetVarValue p ns).
Proof.
  unfold GetVarValue. destruct (negb _); [done|]. destruct (pv_ValueFrom p) as [src|]; [|done].
  destruct (pvs_SecretKeyRef src); [|done]. split; [done|]. by intros [sec|e].
Qed.
Lemma quiet_cluster_admin ns name : issues quiet (cluster_admin ns name).
Proof.
  unfold cluster_admin. split; [done|]. intros [c|e]; [|done].
  apply issues_bind_ok.
  - unfold default_admin. destruct (String.eqb _ _); [|done]. split; [done|]. by intros [s|e].
  - intros c'. apply issues_bind_ok; [apply GetVarValue_quiet|done].
Qed.

(** Quiet parts, and statuses other than ready, before the rest. *)
Lemma after_quiet_wp {A B} (m : io A) (f : A -> io B) h :
  issues quiet m -> always truthful h ->
  (forall a h', always truthful h' -> wp trace_step (f a) (fun h' _ => always truthful h') h') ->
  wp trace_step (bind m f) (fun h' _ => always truthful h') h.
Proof. intros Hm Hh. apply wp_always_bind. by apply quiet_wp. Qed.
Lemma after_status_wp {O B} `{ReportsStatus O} (o : O) st err (f : O * res O -> io B) h :
  st <> StateReady -> always truthful h -> (forall x, issues quiet (f x)) ->
  wp trace_step (bind (updateStatus o st err) f) (fun h' _ => always truthful h') h.
Proof. intros Hst Hh Hf. apply wp_always_bind; [by apply status_wp|]. intros a h'. by apply quiet_wp. Qed.
Lemma after_previous_wp {B} wait ns name (f : res bool -> io B) h :
  always truthful h ->
  (forall r h', always truthful h' -> (r = Ok false -> seen_idle ns name h') ->
     wp trace_step (f r) (fun h' _ => always truthful h') h') ->
  wp trace_step (bind (previous_job wait ns name) f) (fun h' _ => always truthful h') h.
Proof.
  intros Hh Hf. rewrite wp_bind. eapply wp_mono; [|by apply previous_job_wp].
  intros h' [a|w] [H1 H2]; [|done]. apply Hf; [done|]. intros ->. by apply H2.
Qed.

Section Truthful.
Context (format_time : Z -> string).

Lemma pg_backup_wp action b :
  wp trace_step (pg_backup_handler format_time action b) (fun h _ => always truthful h) [].
Proof.
  destruct action; [apply always_nil| |apply always_nil|].
  2: { cbn. destruct (String.eqb _ _); [apply always_nil|]. intros r.
       apply always_snoc. split; [apply always_nil|by apply truthful_quiet]. }
  unfold pg_backup_handler, pg_backup_add. cbv zeta. destruct (finished _); [apply always_nil|].
  destruct (String.eqb _ _); [apply after_status_wp; [done|apply always_nil|by intros []]|].
  apply after_quiet_wp; [apply quiet_cluster_admin|apply always_nil|]. intros [[admin pwd]|e] h Hh; [|done].
  apply after_previous_wp; [done|]. intros [[|]|e] h2 Hh2 Hi; [apply reject_wp, Hh2| |done].
  destruct (pgb_VolumeSpec b) as [hp|]; [|by apply start_job_wp; [|apply Hi]].
  intros t. apply start_job_wp; [by apply always_snoc; split; [|apply truthful_quiet]|].
  destruct (Hi eq_refl) as (r & Hr & Hid). exists r. unfold trace_step. by rewrite last_seen_snoc.
Qed.
End Truthful.

Lemma restore_job_ns ns admin pwd b : job_Namespace (pg_restore_job ns admin pwd b) = ns.
Proof. unfold pg_restore_job. by destruct (pgb_VolumeSpec b). Qed.
Lemma restore_job_name ns admin pwd b : job_Name (pg_restore_job ns admin pwd b) = job_Name RestoreJob.
Proof. unfold pg_restore_job. by destruct (pgb_VolumeSpec b). Qed.

Lemma pg_restore_wp action r :
  wp trace_step (pg_restore_handler action r) (fun h _ => always truthful h) [].
Proof.
  destruct action; [apply always_nil| |apply always_nil..].
  unfold pg_restore_handler, pg_restore_add. cbv zeta. destruct (finished _); [apply always_nil|].
  destruct (String.eqb _ _); [apply after_status_wp; [done|apply always_nil|by intros []]|].
  apply after_quiet_wp; [apply quiet_cluster_admin|apply always_nil|]. intros [[admin pwd]|e] h Hh; [|done].
  apply after_quiet_wp; [done|done|]. intros [b|e] h2 Hh2; [|done].
  destruct (negb _); [done|]. destruct (String.eqb _ _).
  { apply after_status_wp; [done..|]. by intros []. }
  apply after_previous_wp; [done|]. intros [[|]|e] h3 Hh3 Hi; [apply reject_wp, Hh3| |done].
  apply start_job_wp; [done|]. rewrite restore_job_ns, restore_job_name. by apply Hi.
Qed.

(** C5: A PostgreSQL backup or restore is only reported ready when a job was
    created for it and, the last time this job was looked at, it had succeeded
    and was not active; and a job is only created when the last look at the job
    of that name found none, or one that is not active. *)
Theorem pg_jobs_truthful format_time action tr :
  (forall b out, runs (pg_backup_handler format_time action b) tr out -> always truthful tr) /\
  (forall r out, runs (pg_restore_handler action r) tr out -> always truthful tr).
Proof.
  split; intros x out Hr.
  - by apply (proj1 (wp_trace _ _) (pg_backup_wp format_time action x) tr out).
  - by apply (proj1 (wp_trace _ _) (pg_restore_wp action x) tr out).
Qed.

(** ** kvrocks: one attempt at a job *)

(** The states a run wrote. *)
Definition writes (tr : history) : list JobState := omap (fun e => status_of (projT1 e)) tr.
Definition silent (o : op) : Prop := status_of o = None.

Definition writes_step (s : list JobState) (e : event resp) : list JobState := s ++ option_list (status_of (projT1 e)).
Lemma fold_writes tr s : fold_left writes_step tr s = s ++ writes tr.
Proof.
  revert s. induction tr as [|e tr IH]; intros s; [by rewrite app_nil_r|]. cbn [fold_left].
  rewrite IH. unfold writes_step, writes. rewrite <- app_assoc. f_equal. cbn. by destruct (status_of _).
Qed.
Lemma wp_writes {A} (m : io A) (Q : list JobState -> outcome A -> Prop) tr out :
  wp writes_step m Q [] -> runs m tr out -> Q (writes tr) out.
Proof. intros Hw Hr. apply (proj1 (wp_runs _ _ _ _)) with (tr := tr) (out := out) in Hw; [|done]. by rewrite fold_writes in Hw. Qed.

Lemma silent_wp {A} (m : io A) s : issues silent m -> wp writes_step m (fun s' _ => s' = s) s.
Proof.
  intros Hm. apply (wp_issues writes_step (fun s' => s' = s) silent); [|done..].
  intros s' o r Ho ->. unfold writes_step. cbn. rewrite Ho. apply app_nil_r.
Qed.

Lemma silent_GetVarValue p ns : issues silent (GetVarValue p ns).
Proof.
  unfold GetVarValue. destruct (negb _); [done|]. destruct (pv_ValueFrom p) as [src|]; [|done].
  destruct (pvs_SecretKeyRef src); [|done]. split; [done|]. by intros [sec|e].
Qed.
Lemma silent_client def : issues silent (GetKVRocksClient def).
Proof.
  unfold GetKVRocksClient. destruct (rxs_KVRocks (rx_Spec def)) as [kv|]; [|done]. cbn [deref bind].
  apply issues_bind_ok; [apply silent_GetVarValue|]. intros pwd.
  split; [done|]. intros [u|e]; cbn; [done|]. split; [done|]. by intros [].
Qed.
Lemma silent_stat p : issues silent (stat_if_exists p).
Proof. split; [done|]. intros [d|e]; cbn; [done|]. by destruct (isKind _ e). Qed.

Lemma silent_BackupKVRocks def b : issues silent (BackupKVRocks def b).
Proof.
  unfold BackupKVRocks. destruct (negb _); [done|]. apply issues_bind_ok; [apply silent_client|]. intros cli.
  apply issues_with_defer; [done|]. apply issues_bind_ok; [apply silent_stat|]. intros fs.
  apply issues_bind_ok; [by destruct fs as [[|]|]|]. intros _. split; [done|]. intros [u|e]; [|done].
  apply issues_bind_ok; [|done]. apply issues_WaitFor; [done|]. apply issues_bind_ok; [apply silent_stat|done].
Qed.
Lemma silent_wait_pods ns d : issues silent (wait_pods ns d).
Proof. apply issues_WaitFor; [done|]. split; [done|]. by intros [l|e]. Qed.
Lemma silent_scale def n : issues silent (scale_kvrocks def n).
Proof. split; [done|]. intros [s|e]; [|done]. split; [done|]. done. Qed.
Lemma silent_RestoreKVRocks def : issues silent (RestoreKVRocks def).
Proof.
  split; [done|]. intros [[|]|e]; [|done..]. cbn [bind negb].
  apply issues_bind_ok; [apply silent_scale|]. intros sts.
  apply issues_bind_ok; [apply silent_wait_pods|]. intros _.
  apply issues_bind_ok; [split; [done|]; by intros [d|e]|]. intros _.
  apply issues_bind_ok; [done|]. intros _. apply issues_bind_ok; [done|]. intros _.
  apply issues_bind_ok; [apply silent_scale|]. intros sts'. apply silent_wait_pods.
Qed.

(** From running on: an attempt ends ready or in error, and leaves the object it
    was called with in state running. *)
Lemma run_job_wp {O} `{ReportsStatus O} (o : O) work :
  (forall o', issues silent (work o')) ->
  wp writes_step (run_job o work) (fun s x =>
    match x with
    | Returned (o', Ok _) => jr_State o' = StateRunning /\ s = [StateRunning; StateReady]
    | Returned (o', Err _) => jr_State o' = StateRunning /\ (s = [StateRunning] \/ s = [StateRunning; StateError])
    | Panicked _ => s = [StateRunning]
    end) [].
Proof.
  intros Hw. unfold run_job. rewrite wp_bind. apply wp_updateStatus. intros now a r o' x Ha Ho.
  assert (Hs : writes_step (writes_step [] (ev (Sys Now) now)) (ev a r) = [StateRunning])
    by (unfold writes_step; cbn; by rewrite Ha).
  rewrite Hs. destruct x as [running|e]; [|cbn; auto].
  rewrite wp_bind. eapply wp_mono; [|by apply silent_wp]. intros s' [[running'|e]|w] ->; [| |done];
    rewrite wp_bind; apply wp_updateStatus; intros now2 a2 r2 o2 x2 Ha2 _; cbn;
    unfold writes_step; cbn; rewrite Ha2; auto.
Qed.

(** What an attempt at an unfinished job comes to. *)
Definition attempt {O} `{JobResource O} (o : O) (cluster : string) (tr : history) (o' : O) (r : res unit) : Prop :=
  match r with
  | Ok _ => (writes tr = [StateRunning; StateReady]) \/
            (writes tr = [] /\ o' = o /\ exists c, ev (Apr (GetRedixCluster (om_Namespace (jr_meta o)) cluster)) (Ok c) ∈ tr /\
                                          rxs_Type (rx_Spec c) <> KVRocks)
  | Err _ => (cluster = "" /\ writes tr = [StateError]) \/
             (cluster <> "" /\ finished (jr_State o') = false /\
              (writes tr = [] \/ writes tr = [StateRunning] \/ writes tr = [StateRunning; StateError]))
  end.

Section Attempts.
Context {O : Set} `{ReportsStatus O}.
Implicit Types o : O.

(** A status error written on the way to an error. *)
Lemma error_written o err (f : O * res O -> io (O * res unit)) tr o' r :
  (forall x, exists o1 e, f x = Ret (o1, Err e)) ->
  runs (bind (updateStatus o StateError err) f) tr (Returned (o', r)) ->
  exists e, r = Err e /\ writes tr = [StateError].
Proof.
  intros Hf Hr.
  enough (wp writes_step (bind (updateStatus o StateError err) f)
    (fun s x => forall o' r, x = Returned (o', r) -> exists e, r = Err e /\ s = [StateError]) []) as Hw
    by exact (wp_writes _ _ _ _ Hw Hr _ _ eq_refl).
  rewrite wp_bind. apply wp_updateStatus. intros now a r1 o1 x Ha _.
  destruct (Hf (o1, x)) as (o2 & e & ->). intros o3 r3 [= <- <-]. exists e. split; [done|].
  unfold writes_step. cbn. by rewrite Ha.
Qed.

(** The part both handlers share: the cluster, its type, and the job. *)
Lemma attempt_on_cluster o cluster (work : RedixCluster -> O -> io (res O)) tr o' r :
  (forall c o', issues silent (work c o')) -> cluster <> "" -> finished (jr_State o) = false ->
  runs (let! c := apr_call (GetRedixCluster (om_Namespace (jr_meta o)) cluster) in
        match c with
        | Err e => Ret (o, Err e)
        | Ok c => match rxs_Type (rx_Spec c) with
                  | KVRocks => run_job o (work c)
                  | _ => Ret (o, Ok tt)
                  end
        end) tr (Returned (o', r)) ->
  attempt o cluster tr o' r.
Proof.
  intros Hw Hc Hf (c & tr2 & -> & Hr)%runs_inv. cbn in c, Hr. destruct c as [c|e]; [|ret_inv Hr; right; auto].
  destruct (rxs_Type (rx_Spec c)) eqn:Et.
  all: try (ret_inv Hr; right; repeat split; try done; exists c; split; [left|]; congruence).
  pose proof (wp_writes _ _ _ _ (run_job_wp o (work c) (Hw c)) Hr) as Hq.
  destruct r as [u|e]; [left; by destruct Hq|].
  destruct Hq as [Hs Hq]. right. split; [done|]. rewrite Hs. split; [done|]. tauto.
Qed.
End Attempts.

(** What one attempt at an unfinished kvrocks backup or restore writes:
    running and then ready when it succeeds (nothing, on a cluster of another
    type); an error only after running, or for a job without a cluster.  When it
    fails for a job with a cluster, the object that goes back into the queue is
    still unfinished, whatever was written to the server, so the job is started
    again. *)
Theorem kv_attempts tr result :
  (forall b b', runs (kv_backup_handler ADD b) tr (Returned (b', result)) ->
     finished (jr_State b) = false -> attempt b (kvb_ClusterName b) tr b' result) /\
  (forall r r', runs (kv_restore_handler ADD r) tr (Returned (r', result)) ->
     finished (jr_State r) = false -> attempt r (kvr_ClusterName r) tr r' result).
Proof.
  split; intros o o' Hr Hf.
  - cbn [kv_backup_handler] in Hr. unfold kv_backup_add in Hr. rewrite Hf in Hr.
    destruct (String.eqb_spec (kvb_ClusterName o) "") as [E|E].
    + cbv zeta in Hr. apply error_written in Hr as (e & -> & Hw); [|by intros [? ?]; eauto]. by left.
    + eapply (attempt_on_cluster o _ (fun c running => let? path := BackupKVRocks c running in Ret (Ok (with_path path running))));
        [|done..|exact Hr]. intros c b. apply issues_bind_ok; [apply silent_BackupKVRocks|done].
  - cbn [kv_restore_handler] in Hr. rewrite Hf in Hr.
    destruct (String.eqb_spec (kvr_ClusterName o) "") as [E|E].
    + cbv zeta in Hr. apply error_written in Hr as (e & -> & Hw); [|by intros [? ?]; eauto]. by left.
    + eapply (attempt_on_cluster o _ (fun c running => do? RestoreKVRocks c; Ret (Ok running)));
        [|done..|exact Hr]. intros c b. apply issues_bind_ok; [apply silent_RestoreKVRocks|done].
Qed.

(** ** The file a backup writes is the file a restore reads *)

(** Where a path of the container lies on the host: in the volume of the first
    mount that holds it, below the mount's sub path. *)
Fixpoint on_host (volumes : list Volume) (mounts : list (string * string * string)) (path : string) : option string :=
  match mounts with
  | [] => None
  | (name, mount, sub) :: mounts =>
      if has_prefix (mount +:+ "/") path
      then v ← List.find (fun v => String.eqb (vol_Name v) name) volumes;
           host ← vol_HostPath v;
           Some (host +:+ (if String.eqb sub "" then "" else "/" +:+ sub) +:+ drop_str (String.length mount) path)
      else on_host volumes mounts path
  end.
(** The file [pg_dumpall] writes, or [psql] reads. *)
Definition job_file (j : Job) : option string :=
  e ← List.find (fun e => String.eqb (env_Name e) "BACKUP_FILENAME") (c_Env (job_Container j));
  on_host (job_Volumes j) (c_VolumeMounts (job_Container j)) (env_Value e).


Section RoundTrip.
Context (format_time : Z -> string).

Definition dump_file (hostPath : string) (t : Z) : string :=
  hostPath +:+ "/" +:+ backup_sub_path format_time t +:+ "/all.sql".

Lemma backup_writes ns admin pwd hostPath t :
  job_file (pg_backup_job format_time ns admin pwd (Some (hostPath, t))) = Some (dump_file hostPath t).
Proof.
  unfold job_file, pg_backup_job, pg_backup_file, dump_file. cbn -[String.append String.length drop_str has_prefix backup_sub_path].
  set (m := "/" +:+ backup_sub_path format_time t).
  change "/all.sql" with ("/" +:+ "all.sql"). rewrite <- string_app_assoc, has_prefix_self.
  cbn -[String.append String.length drop_str backup_sub_path]. rewrite string_app_assoc, drop_str_app. by cbn.
Qed.
Lemma restore_reads ns admin pwd b hostPath t :
  pgb_VolumeSpec b = Some hostPath -> bs_BackupPath (pgb_Status b) = pg_backup_file format_time t ->
  job_file (pg_restore_job ns admin pwd b) = Some (dump_file hostPath t).
Proof.
  intros Hv Hp. unfold job_file, pg_restore_job, dump_file. rewrite Hv, Hp. by cbn.
Qed.
End RoundTrip.

(** Calls that do not report a job running. *)
Definition not_running (o : op) : Prop := status_of o <> Some StateRunning.

Lemma not_running_status {O} `{ReportsStatus O} (o : O) st err :
  st <> StateRunning -> issues not_running (updateStatus o st err).
Proof. intros Hst. apply issues_updateStatus; [done|]. intros a Ha. unfold not_running. congruence. Qed.
Lemma quiet_not_running {A} (m : io A) : issues silent m -> issues not_running m.
Proof. apply issues_mono. intros o Ho. unfold not_running. by rewrite Ho. Qed.

Lemma silent_cluster_admin ns name : issues silent (cluster_admin ns name).
Proof.
  unfold cluster_admin. split; [done|]. intros [c|e]; [|done].
  apply issues_bind_ok.
  - unfold default_admin. destruct (String.eqb _ _); [|done]. split; [done|]. by intros [s|e].
  - intros c'. apply issues_bind_ok; [apply silent_GetVarValue|done].
Qed.
Lemma silent_previous_job wait ns name : issues silent (previous_job wait ns name).
Proof.
  split; [done|]. intros [j|e]; cbn -[Poll]; [|by destruct (IsNotFound e)].
  destruct (0 <? job_Active j)%Z; [done|]. destruct (_ || _); [|done]. split; [done|]. intros [u|e]; [|done].
  cbn -[Poll]. apply (issues_bind_ok silent (if wait then Poll 60 (gone (k8s_call (GetJob ns (job_Name j)))) else Ret (Ok tt))); [|done].
  destruct wait; [|done]. apply issues_WaitFor; [done|]. split; [done|]. intros [j'|e]; cbn; [done|]. by destruct (IsNotFound e).
Qed.
Lemma not_running_wait {O} `{ReportsStatus O} (o : O) failed job : issues not_running (waitForJobComplete o failed job).
Proof.
  apply issues_WaitFor; [done|]. split; [done|]. intros [j|e]; [|done]. cbn -[updateStatus].
  destruct (0 <? job_Active j)%Z; [done|].
  destruct (_ && _); [apply (issues_bind not_running (updateStatus o StateReady None)); [by apply not_running_status|by intros [? [|]]]|].
  destruct (_ && _); [|done].
  apply (issues_bind not_running (updateStatus o StateError (Some (newErr failed)))); [by apply not_running_status|by intros [? [|]]].
Qed.

Section Recorded.
Context (format_time : Z -> string) (hostPath : string).

(** A backup is reported running right after its job was created, with a path
    from which any restore reads the file the job writes. *)
Definition recorded (h : history) (e : event resp) : Prop :=
  forall ns stored, projT1 e = Apr (UpdatePGBackupStatus ns stored) -> jr_State stored = StateRunning ->
  exists h1 jobns job now t,
    h = h1 ++ [ev (K8s (CreateJob jobns job)) (Ok tt); ev (Sys Now) now] /\
    job_file job = Some (dump_file format_time hostPath t) /\
    forall ns' admin pwd, job_file (pg_restore_job ns' admin pwd stored) = Some (dump_file format_time hostPath t).

Lemma recorded_not_running h o (r : resp o) : not_running o -> recorded h (ev o r).
Proof. intros Ho ns stored E Hs. cbn in E. subst o. destruct Ho. exact (f_equal Some Hs). Qed.
Lemma not_running_wp {A} (m : io A) h :
  issues not_running m -> always recorded h -> wp trace_step m (fun h' _ => always recorded h') h.
Proof. apply wp_always_issues, recorded_not_running. Qed.

Lemma start_recorded ns admin pwd b t h :
  pgb_VolumeSpec b = Some hostPath -> always recorded h ->
  wp trace_step (start_job (pg_with_path (pg_backup_file format_time t) b) "backup job failed"
      (pg_backup_job format_time ns admin pwd (Some (hostPath, t)))) (fun h' _ => always recorded h') h.
Proof.
  intros Hv Hh. set (job := pg_backup_job _ _ _ _ _). unfold start_job. intros r.
  assert (Hc : always recorded (h ++ [ev (K8s (CreateJob (job_Namespace job) job)) r])).
  { apply always_snoc. split; [done|]. by apply recorded_not_running. }
  destruct r as [[]|e].
  - change (wp trace_step (bind (updateStatus (pg_with_path (pg_backup_file format_time t) b) StateRunning None)
      (fun p => match p with (o, r) => match r with
                | Ok running => let! done := waitForJobComplete running "backup job failed" job in Ret (o, done)
                | Err e => Ret (o, Err e) end end))
      (fun h' _ => always recorded h') (trace_step h (ev (K8s (CreateJob (job_Namespace job) job)) (Ok tt)))).
    apply wp_always_bind.
    + intros now r. cbn. unfold trace_step. apply always_snoc. split.
      { apply always_snoc. split; [done|by apply recorded_not_running]. }
      intros ns1 stored [= <- <-] _. exists h, (job_Namespace job), job, now, t.
      split_and!; [by rewrite <- app_assoc|apply backup_writes|]. intros ns' admin' pwd'. by apply restore_reads.
    + intros [o [running|e]] h' Hh'; [|done]. apply wp_always_bind; [|by intros].
      apply not_running_wp; [apply not_running_wait|done].
  - change (wp trace_step (bind (updateStatus (pg_with_path (pg_backup_file format_time t) b) StateError (Some e))
      (fun p => match p with (o, _) => Ret (o, Err e : res unit) end)) (fun h' _ => always recorded h')
      (trace_step h (ev (K8s (CreateJob (job_Namespace job) job)) (Err e)))).
    apply wp_always_bind; [|by intros []]. apply not_running_wp; [by apply not_running_status|done].
Qed.

(** C9: A backup with a volume is reported running only right after its job was
    created, and the path then recorded in its status is such that every restore
    of this backup reads exactly the file, on the host, that the job writes. *)
Theorem backup_restore_same_file action b tr out :
  pgb_VolumeSpec b = Some hostPath ->
  runs (pg_backup_handler format_time action b) tr out -> always recorded tr.
Proof.
  intros Hv. revert tr out. apply wp_trace.
  destruct action; [apply always_nil| |apply always_nil|].
  2: { cbn. destruct (String.eqb _ _); [apply always_nil|]. intros r.
       apply always_snoc. split; [apply always_nil|by apply recorded_not_running]. }
  unfold pg_backup_handler, pg_backup_add. cbv zeta. destruct (finished _); [apply always_nil|].
  destruct (String.eqb _ _).
  { apply wp_always_bind; [|by intros []]. apply not_running_wp; [by apply not_running_status|apply always_nil]. }
  apply wp_always_bind.
  { apply not_running_wp; [apply quiet_not_running, silent_cluster_admin|apply always_nil]. }
  intros [[admin pwd]|e] h Hh; [|done]. apply wp_always_bind.
  { apply not_running_wp; [apply quiet_not_running, silent_previous_job|done]. }
  intros [[|]|e] h2 Hh2; [| |done].
  - apply wp_always_bind; [|by intros []]. apply not_running_wp; [by apply not_running_status|done].
  - rewrite Hv. intros t. apply start_recorded; [done|]. apply always_snoc. split; [done|by apply recorded_not_running].
Qed.
End Recorded.

(** ** Witnesses *)

(** A cluster whose jobs succeed as soon as they are created. *)
Definition bdemo_meta : ObjectMeta := mkMeta "backup" "os-platform" ∅ ∅.
Definition bdemo_cluster : PGCluster :=
  mkPGCluster (mkMeta "citus" "os-platform" ∅ ∅) (mkPGClusterSpec 1 "olares" "" (mkPwd "secret" None) "system" "").
Definition bdemo_backup : PGClusterBackup :=
  mkPGClusterBackup bdemo_meta "citus" (Some "/olares/pg") (mkBackupStatus StateNew None None "" "").
Definition bdemo_kv : KVRocksBackup := mkKVRocksBackup bdemo_meta "kvrocks" (mkBackupStatus StateNew None None "" "").
Definition bdemo_rx : RedixCluster :=
  mkRedixCluster (mkMeta "kvrocks" "os-platform" ∅ ∅)
    (mkRedixClusterSpec KVRocks (Some (mkKVRocksSpec (mkPwd "secret" None) "system" None "" "" ∅ None))).
Definition bdemo_job (succeeded : Z) : Job := mkJob "pgc-backup-job" "os-platform" "" 0 succeeded 0 []
  (mkContainer "backup" "" "" [] [] [] None).
Definition backup_world (o : op) (created : bool) : resp o * bool :=
  match o return resp o * bool with
  | Apr (GetPGCluster _ _) => (Ok bdemo_cluster, created)
  | Apr (GetRedixCluster _ _) => (Ok bdemo_rx, created)
  | Apr (UpdatePGBackupStatus _ b) => (Ok b, created)
  | Apr (UpdateKVBackupStatus _ b) => (Ok b, created)
  | K8s (GetJob _ _) => (if created then Ok (bdemo_job 1) else Err (mkErr KNotFound "job"), created)
  | K8s (CreateJob _ _) => (Ok tt, true)
  | Sys PollTick => (Ok tt, created)
  | o => (unavailable o, created)
  end.
Definition backup_exec {A} (m : io A) : history * outcome A * bool := exec backup_world m false.
Lemma backup_runs {A} (m : io A) : runs m (fst (fst (backup_exec m))) (snd (fst (backup_exec m))).
Proof. destruct (backup_exec m) as [[tr out] w] eqn:E. by eapply exec_runs. Qed.

Definition bdemo_time (_ : Z) : string := "2024-01-01_00-00-00".
Definition bdemo_run := backup_exec (pg_backup_handler bdemo_time ADD bdemo_backup).

Lemma pg_jobs_truthful_witness :
  writes (fst (fst bdemo_run)) = [StateRunning; StateReady] /\ always truthful (fst (fst bdemo_run)).
Proof.
  split; [vm_compute; reflexivity|].
  apply (proj1 (pg_jobs_truthful bdemo_time ADD _) bdemo_backup (snd (fst bdemo_run))). apply backup_runs.
Defined.

Lemma backup_restore_same_file_witness :
  writes (fst (fst bdemo_run)) = [StateRunning; StateReady] /\ always (recorded bdemo_time "/olares/pg") (fst (fst bdemo_run)).
Proof.
  split; [vm_compute; reflexivity|].
  apply (backup_restore_same_file bdemo_time "/olares/pg" ADD bdemo_backup _ (snd (fst bdemo_run)));
    [reflexivity|apply backup_runs].
Defined.

(** The kvrocks server cannot be reached: the attempt fails, the server shows an
    error, and the queued object says running. *)
Definition kvdemo_run := backup_exec (kv_backup_handler ADD bdemo_kv).
Lemma kv_attempts_witness :
  exists b' e, snd (fst kvdemo_run) = Returned (b', Err e) /\ jr_State b' = StateRunning /\
  writes (fst (fst kvdemo_run)) = [StateRunning; StateError] /\
  attempt bdemo_kv "kvrocks" (fst (fst kvdemo_run)) b' (Err e).
Proof.
  destruct (snd (fst kvdemo_run)) as [[b' [u|e]]|w] eqn:E; [exfalso; vm_compute in E; discriminate E| |exfalso; vm_compute in E; discriminate E].
  exists b', e. split; [reflexivity|]. split; [vm_compute in E; injection E as <- <-; reflexivity|].
  split; [vm_compute; reflexivity|].
  apply (proj1 (kv_attempts (fst (fst kvdemo_run)) (Err e)) bdemo_kv b'); [|reflexivity].
  pose proof (backup_runs (kv_backup_handler ADD bdemo_kv)) as H. fold kvdemo_run in H. rewrite E in H. exact H.
Defined.
