(* ===== verification/JobWatch.v ===== *)
(** * Waiting for a job's deletion

    [watchJobDelete] of the handlers of pgcluster-backup and pgcluster-restore
    under src/cmd/middleware/operator: a goroutine that watches the job and, once
    it is deleted, deletes its pods.  The two differ: that of backups reads a
    watch until it is closed, that of restores takes one event of each watch.  The
    loops have no bound of their own, so they are run for a number of rounds, and
    the theorems speak of every number. *)

From S2P Require Import Prelude Effects Apr World Backup.

Definition is_job (job : Job) (watched : option Job) : bool :=
  match watched with
  | Some w => String.eqb (job_Name w) (job_Name job) && String.eqb (job_Namespace w) (job_Namespace job)
  | None => false
  end.

(** ** Restores: one round of the loop, and whether there is another. *)
Definition watch_round (job : Job) : io bool :=
  let! watcher := k8s_call (WatchJob (job_Namespace job) (job_Name job)) in
  match watcher with
  | Err _ => Ret false
  | Ok w =>
      let! news := k8s_call (NextJobEvent w) in
      match news with
      | WatchCancelled => let! _ := k8s_call (StopWatch w) in Ret false
      | WatchClosed => Ret true
      | JobDeleted watched =>
          if is_job job watched then let! _ := clean_job_pods job in Ret false else Ret true
      | JobOther => Ret true
      end
  end.

(** Whether the goroutine has ended within [n] rounds. *)
Fixpoint watchJobDelete (job : Job) (n : nat) : io bool :=
  match n with
  | O => Ret false
  | S n => let! again := watch_round job in if again then watchJobDelete job n else Ret true
  end.

(** ** Backups: a round takes the next event of the watch that is open, or opens
    one. *)
Fixpoint watchBackupJobDelete (job : Job) (watching : option nat) (n : nat) : io bool :=
  match n with
  | O => Ret false
  | S n =>
      match watching with
      | None =>
          let! watcher := k8s_call (WatchJob (job_Namespace job) (job_Name job)) in
          match watcher with Err _ => Ret true | Ok w => watchBackupJobDelete job (Some w) n end
      | Some w =>
          let! news := k8s_call (NextJobEvent w) in
          match news with
          | WatchCancelled => let! _ := k8s_call (StopWatch w) in Ret true
          | WatchClosed => let! _ := k8s_call (StopWatch w) in watchBackupJobDelete job None n
          | JobDeleted watched =>
              if is_job job watched then let! _ := clean_job_pods job in Ret true
              else watchBackupJobDelete job (Some w) n
          | JobOther => watchBackupJobDelete job (Some w) n
          end
      end
  end.

(** ** What they leave open and when they clean up *)

Definition opens (e : event resp) : option nat :=
  match projT1 e as o return resp o -> option nat with
  | K8s (WatchJob _ _) => fun r => match r with Ok w => Some w | Err _ => None end
  | _ => fun _ => None
  end (projT2 e).
Definition stops (e : event resp) : option nat :=
  match projT1 e with K8s (StopWatch w) => Some w | _ => None end.
Definition deletes_pod (e : event resp) : Prop :=
  match projT1 e with K8s (DeletePod _ _) => True | _ => False end.
(** The first event of a watch is the job's deletion. *)
Definition first_is_deletion (e : event resp) : Prop :=
  exists w j, e = ev (K8s (NextJobEvent w)) (JobDeleted (Some j)).
(** The deletion of the job itself is seen. *)
Definition sees_deletion (job : Job) (e : event resp) : Prop :=
  match projT1 e as o return resp o -> Prop with
  | K8s (NextJobEvent _) => fun news => match news with JobDeleted j => is_job job j = true | _ => False end
  | _ => fun _ => False
  end (projT2 e).

Lemma cleaning_opens_nothing job tr out :
  runs (clean_job_pods job) tr out -> omap opens tr = [] /\ omap stops tr = [].
Proof.
  intros H. eapply (issues_runs (fun o => match o with K8s (ListPods _ _) | K8s (DeletePod _ _) => True | _ => False end)) in H.
  - induction H as [|[[[]| | | | | | | ] r] tr He _ IH]; try done; exact IH.
  - unfold clean_job_pods. issues_walk.
Qed.

Ltac no_pods := rewrite ?Exists_cons, ?Exists_nil; cbn; tauto.

Lemma watch_round_inv job tr again :
  runs (watch_round job) tr (Returned again) ->
  (again = true -> length (omap opens tr) = 1 /\ omap stops tr = []) /\
  length (omap stops tr) <= 1 /\
  (Exists deletes_pod tr -> Exists first_is_deletion tr).
Proof.
  intros H. cbn -[clean_job_pods] in H. apply runs_inv in H as ([w|e] & tr' & -> & H).
  2:{ ret_inv H. split_and!; [done|cbn; lia|]. no_pods. }
  cbn -[clean_job_pods] in H. apply runs_inv in H as ([| |[j|]|] & tr2 & -> & H).
  - cbn in H. apply runs_inv in H as (r & tr3 & -> & H). ret_inv H. split_and!; [done|cbn; lia|].
    no_pods.
  - ret_inv H. split_and!; [done|cbn; lia|]. no_pods.
  - destruct (is_job job (Some j)).
    + apply runs_bind_returned in H as (tr1 & tr3 & u & -> & Hc & H). ret_inv H. rewrite app_nil_r.
      apply cleaning_opens_nothing in Hc as [_ Hs]. split_and!; [done|cbn; rewrite Hs; cbn; lia|].
      intros _. right. left. by eexists _, _.
    + ret_inv H. split_and!; [done|cbn; lia|]. no_pods.
  - ret_inv H. split_and!; [done|cbn; lia|]. no_pods.
  - ret_inv H. split_and!; [done|cbn; lia|]. no_pods.
Qed.

(** However long the goroutine of a restore runs: as long as it goes on, every round has
    opened a watch and none was stopped; at most the last one ever is; and pods
    are deleted only when the deletion was the first event of a watch, not when
    it follows any other. *)
Theorem watchJobDelete_leaks job n tr done :
  runs (watchJobDelete job n) tr (Returned done) ->
  (done = false -> length (omap opens tr) = n /\ omap stops tr = []) /\
  length (omap stops tr) <= 1 /\
  (Exists deletes_pod tr -> Exists first_is_deletion tr).
Proof.
  revert tr. induction n as [|n IH]; intros tr H; cbn [watchJobDelete] in H.
  { ret_inv H. split_and!; [done|cbn; lia|no_pods]. }
  apply runs_bind_returned in H as (tr1 & tr2 & again & -> & H1 & H).
  apply watch_round_inv in H1 as (Hgo & Hone & Hpods). destruct again.
  - destruct (Hgo eq_refl) as [Ho Hs]. destruct (IH _ H) as (Hgo2 & Hone2 & Hpods2).
    rewrite !omap_app, !length_app, Ho, Hs. split_and!; [|cbn; lia|].
    + intros Hd. destruct (Hgo2 Hd) as [-> ->]. done.
    + rewrite !Exists_app. tauto.
  - ret_inv H. rewrite app_nil_r. done.
Qed.

(** That of a backup never has more than one watch open, and as long as it goes
    on it has not seen the job deleted: the deletion ends it, whenever it comes. *)
Theorem watchBackupJobDelete_one_watch job watching n tr done :
  runs (watchBackupJobDelete job watching n) tr (Returned done) ->
  length (omap opens tr) + (if watching then 1 else 0) <= length (omap stops tr) + 1 /\
  (done = false -> ~ Exists (sees_deletion job) tr).
Proof.
  revert watching tr. induction n as [|n IH]; intros watching tr H; cbn -[clean_job_pods] in H.
  { ret_inv H. split; [destruct watching; cbn; lia|]. intros _. rewrite Exists_nil; tauto. }
  destruct watching as [w|].
  - apply runs_inv in H as (news & tr' & -> & H). destruct news as [| |j|]; cbn -[clean_job_pods is_job] in H.
    + apply runs_inv in H as (r & tr2 & -> & H). ret_inv H. split; [cbn; lia|done].
    + apply runs_inv in H as (r & tr2 & -> & H). apply IH in H as [Hl Hd]. cbn in Hl |- *.
      split; [lia|]. intros E. rewrite !Exists_cons. cbn. specialize (Hd E). tauto.
    + destruct (is_job job j) eqn:Ej.
      * apply runs_bind_returned in H as (tr1 & tr2 & u & -> & Hc & H). ret_inv H. rewrite app_nil_r.
        apply cleaning_opens_nothing in Hc as [Ho Hs]. cbn. rewrite Ho, Hs. split; [cbn; lia|done].
      * apply IH in H as [Hl Hd]. cbn in Hl |- *. split; [lia|]. intros E.
        rewrite Exists_cons. cbn. specialize (Hd E). rewrite Ej. naive_solver.
    + apply IH in H as [Hl Hd]. cbn in Hl |- *. split; [lia|]. intros E.
      rewrite Exists_cons. cbn. specialize (Hd E). tauto.
  - apply runs_inv in H as ([w|e] & tr' & -> & H); cbn in H.
    + apply IH in H as [Hl Hd]. cbn in Hl |- *. split; [lia|]. intros E.
      rewrite Exists_cons. cbn. specialize (Hd E). tauto.
    + ret_inv H. split; [cbn; lia|done].
Qed.
