(* ===== verification/MwServer.v ===== *)
(** * The middleware HTTP server

    src/cmd/middleware/app (handler.go, utils.go, types.go, server.go), the
    checks of src/pkg/app/middleware/middleware.go in front of its handlers, the
    look-ups of src/pkg/kubesphere they use, and the functions that list clusters
    in src/pkg/workload.

    A body arrives as what [BodyParser] makes of it.  Absent and empty maps of
    an answer are not told apart. *)

From S2P Require Import Prelude Effects Apr World Citus RedisCluster Mongo Nats Minio Rabbit Elastic Sql SystemBackup.

(** ** Answers *)

(** An error of a handler: a [*fiber.Error], or any other, which fiber answers
    with 500. *)
Inductive http_error : Set :=
  | FiberError (status : Z) (message : string)
  | GoError (e : gerr).
(** [c.JSON], with status 200 and a code of its own, or an error. *)
Inductive answer (A : Type) : Type :=
  | JSON (code : Z) (message : string) (data : option A)
  | Failed (e : http_error).
Arguments JSON {A}. Arguments Failed {A}.

(** [if err != nil { return err }] in a handler. *)
Definition or_fail {A B} (m : io (res A)) (k : A -> io (answer B)) : io (answer B) :=
  let! r := m in match r with Ok a => k a | Err e => Ret (Failed (GoError e)) end.

(** ** [kubesphere.go] *)

Definition UserAnnotationOwnerRole : string := "bytetrade.io/owner-role".
Definition GetUserAnnotation (username annotation : string) : io (res string) :=
  let? data := srv_call (GetKsUser username) in
  match kso_Annotations data !! annotation with
  | Some a => Ret (Ok a)
  | None => Ret (Err (newErr ("user annotation " +:+ annotation +:+ " not found")))
  end.
Definition GetUserRole (username : string) : io (res string) := GetUserAnnotation username UserAnnotationOwnerRole.
(** The user's email is what is used of it. *)
Definition GetUser (username : string) : io (res string) :=
  let? data := srv_call (GetKsUser username) in Ret (kso_Email data).

(** ** [middleware.go]: what the checks leave in the context of a request *)

Record UserCtx : Set := mkUserCtx { uc_Name : string; uc_Email : string }.

Section Checks.
Context {A : Type}.
Definition GetUserInfo (header : string) (next : UserCtx -> io (answer A)) : io (answer A) :=
  if String.eqb header "" then Ret (JSON 401 "User name not found in header" None)
  else
    let! user := GetUser header in
    match user with
    | Err e => Ret (JSON 401 ("User info error, " +:+ err_msg e) None)
    | Ok email => next (mkUserCtx header email)
    end.
Definition RequireAdmin (next : UserCtx -> io (answer A)) (c : UserCtx) : io (answer A) :=
  let! role := GetUserRole (uc_Name c) in
  match role with
  | Err e => Ret (JSON 500 ("User info error, " +:+ err_msg e) None)
  | Ok role =>
      if negb (String.eqb role "owner") && negb (String.eqb role "admin")
      then Ret (JSON 403 "Must be platform admin" None)
      else next c
  end.
End Checks.

(** ** [types.go] *)

Record MiddlewareReq : Set := mkMwReq {
  mq_App : string; mq_AppNamespace : string; mq_Namespace : string; mq_Middleware : MiddlewareType }.
Record Database : Set := mkDatabase { db_Name : string; db_Distributed : bool }.
Record MetaInfo : Set := mkMetaInfo { mi_Name : string; mi_Namespace : string }.
Record MiddlewareRequestInfo : Set := mkMwInfo {
  ri_Meta : MetaInfo; ri_App : MetaInfo; ri_UserName : string; ri_Password : string;
  ri_Type : MiddlewareType; ri_Databases : list Database }.
Record MiddlewareRequestResp : Set := mkMwResp {
  rp_UserName : string; rp_Password : string; rp_Host : string; rp_Port : Z;
  rp_Indexes : gmap string string; rp_Databases : gmap string string; rp_Buckets : gmap string string;
  rp_Vhosts : gmap string string; rp_Subjects : gmap string string; rp_Refs : gmap string string;
  rp_BucketPrefix : string; rp_IndexPrefix : string }.
Record Proxy : Set := mkProxy { px_Endpoint : string; px_Size : Z }.
Definition no_proxy : Proxy := mkProxy "" 0.
Record MiddlewareClusterResp : Set := mkClusterResp {
  cr_Meta : MetaInfo; cr_Nodes : Z; cr_AdminUser : string; cr_Password : string;
  cr_Mongos : Proxy; cr_RedisProxy : Proxy; cr_Proxy : Proxy; cr_Type : string }.
Record ClusterScaleReq : Set := mkScaleReq { sr_Meta : MetaInfo; sr_Middleware : MiddlewareType; sr_Nodes : Z }.
Record ClusterChangePwdReq : Set := mkPwdReq {
  cp_Meta : MetaInfo; cp_Middleware : MiddlewareType; cp_User : string; cp_Password : string }.
Inductive Data : Set :=
  | RequestInfo (r : MiddlewareRequestResp)
  | Requests (l : list MiddlewareRequestInfo)
  | Clusters (l : list MiddlewareClusterResp).

(** ** [utils.go]: what a request was given *)

(** A map filled in the order of the list. *)
Definition named (l : list (string * string)) : gmap string string :=
  fold_left (fun m kv => <[kv.1 := kv.2]> m) l ∅.
(** The port of the last entry of the name, or the default. *)
Definition named_port (name : string) (ports : list (string * Z)) (d : Z) : Z :=
  fold_left (fun p np => if String.eqb np.1 name then np.2 else p) ports d.

Definition resp_base (user pwd host : string) (port : Z) : MiddlewareRequestResp :=
  mkMwResp user pwd host port ∅ ∅ ∅ ∅ ∅ ∅ "" "".
Definition with_databases (r : MiddlewareRequestResp) (dbs : list (string * string)) : MiddlewareRequestResp :=
  mkMwResp (rp_UserName r) (rp_Password r) (rp_Host r) (rp_Port r) (rp_Indexes r) (named dbs) (rp_Buckets r)
    (rp_Vhosts r) (rp_Subjects r) (rp_Refs r) (rp_BucketPrefix r) (rp_IndexPrefix r).
Definition with_indexes (r : MiddlewareRequestResp) (l : list (string * string)) (prefix : string) : MiddlewareRequestResp :=
  mkMwResp (rp_UserName r) (rp_Password r) (rp_Host r) (rp_Port r) (named l) (rp_Databases r) (rp_Buckets r)
    (rp_Vhosts r) (rp_Subjects r) (rp_Refs r) (rp_BucketPrefix r) prefix.
Definition with_buckets (r : MiddlewareRequestResp) (l : list (string * string)) (prefix : string) : MiddlewareRequestResp :=
  mkMwResp (rp_UserName r) (rp_Password r) (rp_Host r) (rp_Port r) (rp_Indexes r) (rp_Databases r) (named l)
    (rp_Vhosts r) (rp_Subjects r) (rp_Refs r) prefix (rp_IndexPrefix r).
Definition with_vhosts (r : MiddlewareRequestResp) (l : list (string * string)) : MiddlewareRequestResp :=
  mkMwResp (rp_UserName r) (rp_Password r) (rp_Host r) (rp_Port r) (rp_Indexes r) (rp_Databases r) (rp_Buckets r)
    (named l) (rp_Subjects r) (rp_Refs r) (rp_BucketPrefix r) (rp_IndexPrefix r).
Definition with_subjects (r : MiddlewareRequestResp) (l refs : list (string * string)) : MiddlewareRequestResp :=
  mkMwResp (rp_UserName r) (rp_Password r) (rp_Host r) (rp_Port r) (rp_Indexes r) (rp_Databases r) (rp_Buckets r)
    (rp_Vhosts r) (named l) (named refs) (rp_BucketPrefix r) (rp_IndexPrefix r).

(** [pkg/workload/zinc] and [pkg/workload/redis-cluster] name theirs like this. *)
Definition joined (namespace name : string) : string := namespace +:+ "_" +:+ name.
(** Each name with what it is called in the middleware. *)
Definition real_names (real : string -> string) (l : list string) : list (string * string) :=
  map (fun n => (n, real n)) l.

Definition ref_names (m : MiddlewareRequest) : list (string * string) :=
  let owner := GetOwnerNameFromNs (mr_Namespace m) in
  concat (map (fun r => map (fun s => (ref_AppName r +:+ "_" +:+ rs_Name s,
                                       MakeRealNameForRefSubjectName (ref_AppNamespace r) (rs_Name s) owner))
                            (ref_Subjects r)) (nats_Refs (ms_Nats (mr_Spec m)))).
(** The services whose port is looked up. *)
Definition CitusMasterServiceName : string := "citus-master-svc".
Definition RedisClusterService : string := "redis-cluster-proxy".

Definition getMiddlewareInfo (mwReq : MiddlewareReq) (m : MiddlewareRequest) : io (MiddlewareRequestResp + http_error) :=
  let spec := mr_Spec m in
  let ns := mq_Namespace mwReq in
  let app := ms_AppNamespace spec in
  let with_pwd (p : PasswordVar) (k : string -> io (res MiddlewareRequestResp)) : io (MiddlewareRequestResp + http_error) :=
    let! r := (let? pwd := GetVarValue p ns in k pwd) in
    Ret (match r with Ok resp => inl resp | Err e => inr (GoError e) end) in
  match ms_Middleware spec with
  | TypePostgreSQL =>
      let pg := ms_PostgreSQL spec in
      with_pwd (pg_Password pg) (fun pwd =>
        let? ports := srv_call (GetServicePorts ns CitusMasterServiceName) in
        Ret (Ok (with_databases (resp_base (pg_User pg) pwd (CitusMasterServiceName +:+ "." +:+ ns) (named_port "citus" ports 5432))
                   (real_names (Citus.GetDatabaseName app) (map cdb_Name (pg_Databases pg))))))
  | TypeMongoDB =>
      let mg := ms_MongoDB spec in
      with_pwd (mongo_Password mg) (fun pwd =>
        Ret (Ok (with_databases (resp_base (mongo_User mg) pwd "mongodb-mongodb-headless.mongodb-middleware" 27017)
                   (real_names (MongoDatabaseName app) (map mdb_Name (mongo_Databases mg))))))
  | TypeRedis =>
      let rd := ms_Redis spec in
      with_pwd (redis_Password rd) (fun pwd =>
        let? ports := srv_call (GetServicePorts ns RedisClusterService) in
        Ret (Ok (with_databases (resp_base "" pwd (RedisClusterService +:+ "." +:+ ns) (named_port "proxy" ports 6379))
                   (real_names (joined app) [redis_Namespace rd]))))
  | TypeZinc =>
      let z := ms_Zinc spec in
      with_pwd (zinc_Password z) (fun pwd =>
        Ret (Ok (with_indexes (resp_base (zinc_User z) pwd ("zinc-server-svc." +:+ ns) 80)
                   (real_names (joined app) (map zic_Name (zinc_Indexes z))) "")))
  | TypeNats =>
      let n := ms_Nats spec in
      (* the error of the password is assigned and not looked at *)
      let! pwd := GetVarValue (nats_Password n) ns in
      Ret (inl (with_subjects (resp_base (nats_User n) (match pwd with Ok p => p | Err _ => "" end) ("nats." +:+ ns) 4222)
             (real_names (fun s => MakeRealSubjectName s app) (map sub_Name (nats_Subjects n))) (ref_names m)))
  | TypeMinio =>
      let b := ms_Minio spec in
      with_pwd (minio_Password b) (fun pwd =>
        Ret (Ok (with_buckets (resp_base (minio_User b) pwd "minio-minio-headless.minio-middleware" 9000)
                   (real_names (GetBucketName app) (minio_Buckets b)) app)))
  | TypeRabbitMQ =>
      let r := ms_RabbitMQ spec in
      with_pwd (rabbit_Password r) (fun pwd =>
        Ret (Ok (with_vhosts (resp_base (rabbit_User r) pwd "rabbitmq-rabbitmq-headless.rabbitmq-middleware" 5672)
                   (real_names (GetVhostName app) (rabbit_Vhosts r)))))
  | TypeElasticsearch =>
      let e := ms_Elasticsearch spec in
      with_pwd (es_Password e) (fun pwd =>
        Ret (Ok (with_indexes (resp_base (es_User e) pwd "elasticsearch-mdit-http.elasticsearch-middleware" 9200)
                   (real_names (GetIndexName app) (es_Indexes e)) app)))
  | TypeMariaDB =>
      let d := ms_MariaDB spec in
      with_pwd (maria_Password d) (fun pwd =>
        Ret (Ok (with_databases (resp_base (maria_User d) pwd "mariadb-mariadb-headless.mariadb-middleware" 3306)
                   (real_names (Sql.GetDatabaseName app) (maria_Databases d)))))
  | TypeMysql =>
      let d := ms_Mysql spec in
      with_pwd (mysql_Password d) (fun pwd =>
        Ret (Ok (with_databases (resp_base (mysql_User d) pwd "mysql-mysql-headless.mysql-middleware" 3306)
                   (real_names (Sql.GetDatabaseName app) (mysql_Databases d)))))
  | TypeOther _ => Ret (inr (FiberError 501 "middleware type unsupported"))
  end.

(** ** [handler.go]: requests *)

Definition wanted_request (q : MiddlewareReq) (m : MiddlewareRequest) : bool :=
  String.eqb (ms_App (mr_Spec m)) (mq_App q) && String.eqb (ms_AppNamespace (mr_Spec m)) (mq_AppNamespace q) &&
  bool_decide (ms_Middleware (mr_Spec m) = mq_Middleware q).

(** [body] is what the body is parsed to. *)
Definition handleGetMiddlewareRequestInfo (body : res MiddlewareReq) : io (answer Data) :=
  or_fail (Ret body) (fun q =>
  or_fail (apr_call (LookupMiddlewareRequests (mq_Namespace q))) (fun middlewares =>
    match List.find (wanted_request q) middlewares with
    | None => Ret (Failed (FiberError 404 "middleware not found"))
    | Some m =>
        let! r := getMiddlewareInfo q m in
        match r with
        | inl resp => Ret (JSON 200 "" (Some (RequestInfo resp)))
        | inr e => Ret (Failed e)
        end
    end)).

(** User, password variable and databases of a request in the list; none for a
    type the list has no case for, which MariaDB and MySQL are. *)
Definition listed_request (m : MiddlewareRequest) : option (string * PasswordVar * list Database) :=
  let spec := mr_Spec m in
  let app := ms_AppNamespace spec in
  let plain := map (fun n => mkDatabase n false) in
  match ms_Middleware spec with
  | TypeMongoDB => let mg := ms_MongoDB spec in
      Some (mongo_User mg, mongo_Password mg, plain (map mdb_Name (mongo_Databases mg)))
  | TypePostgreSQL => let pg := ms_PostgreSQL spec in
      Some (pg_User pg, pg_Password pg, map (fun d => mkDatabase (cdb_Name d) (IsDistributed d)) (pg_Databases pg))
  | TypeRedis => let rd := ms_Redis spec in Some ("", redis_Password rd, plain [redis_Namespace rd])
  | TypeZinc => let z := ms_Zinc spec in
      Some (zinc_User z, zinc_Password z, plain (map (fun i => joined app (zic_Name i)) (zinc_Indexes z)))
  | TypeMinio => let b := ms_Minio spec in
      Some (minio_User b, minio_Password b, plain (map (GetBucketName app) (minio_Buckets b)))
  | TypeRabbitMQ => let r := ms_RabbitMQ spec in
      Some (rabbit_User r, rabbit_Password r, plain (map (GetVhostName app) (rabbit_Vhosts r)))
  | TypeElasticsearch => let e := ms_Elasticsearch spec in
      Some (es_User e, es_Password e, plain (map (GetIndexName app) (es_Indexes e)))
  | TypeNats => let n := ms_Nats spec in
      Some (nats_User n, nats_Password n, plain (map (fun s => app +:+ "." +:+ sub_Name s) (nats_Subjects n)))
  | TypeMariaDB | TypeMysql | TypeOther _ => None
  end.
Definition request_listing (m : MiddlewareRequest) : io (res MiddlewareRequestInfo) :=
  let info := mkMwInfo (mkMetaInfo (mr_Name m) (mr_Namespace m))
                (mkMetaInfo (ms_App (mr_Spec m)) (ms_AppNamespace (mr_Spec m))) in
  match listed_request m with
  | Some (user, p, dbs) => let? pwd := GetVarValue p (mr_Namespace m) in Ret (Ok (info user pwd (ms_Middleware (mr_Spec m)) dbs))
  | None => Ret (Ok (info "" "" (ms_Middleware (mr_Spec m)) []))
  end.
(** [queryType] is the query parameter, empty when it is absent. *)
Definition handleListMiddlewareRequests (queryType : string) : io (answer Data) :=
  or_fail (apr_call (LookupMiddlewareRequests "")) (fun middlewares =>
    let asked m := String.eqb queryType "" || bool_decide (ms_Middleware (mr_Spec m) = MiddlewareType_of_string queryType) in
    or_fail (fold_each (fun acc m => let? info := request_listing m in Ret (Ok (acc ++ [info])))
               (List.filter asked middlewares) [])
      (fun infos => Ret (JSON 200 "" (Some (Requests infos))))).

(** ** Clusters: [ListMinioClusters] and its like, [ListKvRocks] *)

Definition instance_is (name : string) (c : KbListed) : bool :=
  match kl_Labels c with
  | Some l => bool_decide (default "" (l !! "app.kubernetes.io/instance") = name)
  | None => false
  end.
Definition ListInstances (name : string) : io (res (list KbListed)) :=
  let? clusters := srv_call ListKbClusters in Ret (Ok (List.filter (instance_is name) clusters)).
Definition ListMinioClusters : io (res (list KbListed)) := ListInstances "minio".
Definition ListRabbitMQClusters : io (res (list KbListed)) := ListInstances "rabbitmq".
Definition ListMysqlClusters : io (res (list KbListed)) := ListInstances "mysql".
Definition ListMongoClusters : io (res (list KbListed)) := ListInstances "mongodb".
(** [elasticsearch.ListRabbitMQClusters] *)
Definition ListElasticsearchClusters : io (res (list KbListed)) := ListInstances "elasticsearch".
(** MariaDB's may also go by their name, if they have labels at all. *)
Definition ListMariadbClusters : io (res (list KbListed)) :=
  let? clusters := srv_call ListKbClusters in
  Ret (Ok (List.filter (fun c => instance_is "mariadb" c ||
                                 match kl_Labels c with Some _ => String.eqb (kl_Name c) "mariadb" | None => false end) clusters)).
Definition ListKvRocks : io (res (list RedixCluster)) := srv_call LookupRedixClusters.

(** ** [handler.go]: clusters *)

(** A loop that collects answers; [skips] says which errors pass over a cluster. *)
Definition collect {C} (entry : C -> io (res MiddlewareClusterResp)) (skips : gerr -> bool) (l : list C)
    (acc : list MiddlewareClusterResp) : io (res (list MiddlewareClusterResp)) :=
  fold_each (fun acc c =>
    let! r := entry c in
    match r with
    | Ok resp => Ret (Ok (acc ++ [resp]))
    | Err e => if skips e then Ret (Ok acc) else Ret (Err e)
    end) l acc.
Definition never (e : gerr) : bool := false.

(** [ComponentSpecs[0].Replicas] *)
Definition first_replicas (c : KbListed) : io Z :=
  match kl_Replicas c with [] => Panic "index out of range [0] with length 0" | r :: _ => Ret r end.
Definition kb_meta (c : KbListed) : MetaInfo := mkMetaInfo (kl_Name c) (kl_Namespace c).
(** One cluster of KubeBlocks, with the service [service] at [port]. *)
Definition kb_entry (ty service port : string) (find : string -> io (res (string * string))) (c : KbListed)
    : io (res MiddlewareClusterResp) :=
  let? (user, pwd) := find (kl_Namespace c) in
  let! size := first_replicas c in
  Ret (Ok (mkClusterResp (kb_meta c) 0 user pwd no_proxy no_proxy
             (mkProxy (kl_Name c +:+ service +:+ kl_Namespace c +:+ ":" +:+ port) size) ty)).
Definition minio_entry := kb_entry "minio" "-minio-headless." "9000" FindMinioAdminUser.
Definition rabbit_entry := kb_entry "rabbitmq" "-rabbitmq-headless." "5672" FindRabbitMQAdminUser.
Definition elastic_entry := kb_entry "elasticsearch" "-mdit-http." "9200" FindElasticsearchAdminUser.
Definition maria_entry := kb_entry "mariadb" "-mariadb-headless." "3306" FindMariaDBAdminUser.
Definition mysql_entry := kb_entry "mysql" "-mysql-headless." "3306" FindMysqlAdminUser.
(** MongoDB's administrator is looked up in one namespace, and its address goes
    to another field of the two answers. *)
Definition mongo_entry (everything : bool) (c : KbListed) : io (res MiddlewareClusterResp) :=
  let? (user, pwd) := FindMongoAdminUser "mongodb-middleware" in
  let proxy := mkProxy (kl_Name c +:+ "-mongodb-headless." +:+ kl_Namespace c +:+ ":27017") 1 in
  Ret (Ok (if everything then mkClusterResp (kb_meta c) 1 user pwd no_proxy no_proxy proxy "mongodb"
           else mkClusterResp (kb_meta c) 1 user pwd proxy no_proxy no_proxy "mongodb")).
Definition redis_cluster_entry (endpoint : string) (everything : bool) (c : RedixCluster) : io (res MiddlewareClusterResp) :=
  let? pwd := FindRedisClusterPassword (om_Namespace (rx_meta c)) in
  let meta := mkMetaInfo (om_Name (rx_meta c)) (om_Namespace (rx_meta c)) in
  Ret (Ok (if everything then mkClusterResp meta 0 "" pwd no_proxy no_proxy (mkProxy endpoint 0) "redis"
           else mkClusterResp meta 0 "" pwd no_proxy (mkProxy endpoint 0) no_proxy "redis")).
Definition pg_entry (proxy : Proxy) (c : PGCluster) : io (res MiddlewareClusterResp) :=
  let? (user, pwd) := GetPGClusterAdminUserAndPassword (om_Namespace (pgc_meta c)) in
  Ret (Ok (mkClusterResp (mkMetaInfo (om_Name (pgc_meta c)) (om_Namespace (pgc_meta c)))
             (pgs_Replicas (pgc_Spec c)) user pwd no_proxy no_proxy proxy "postgres")).

Definition respond (m : io (res (list MiddlewareClusterResp))) : io (answer Data) :=
  or_fail m (fun l => Ret (JSON 200 "" (Some (Clusters l)))).
Definition list_clusters {C} (clusters : io (res (list C))) (entry : C -> io (res MiddlewareClusterResp)) : io (answer Data) :=
  respond (let? l := clusters in collect entry never l []).
Definition handleListMiddlewares (middleware : string) : io (answer Data) :=
  match MiddlewareType_of_string middleware with
  | TypeRedis =>
      list_clusters ListKvRocks (fun c => redis_cluster_entry (RedisClusterService +:+ "." +:+ om_Namespace (rx_meta c) +:+ ":6379") false c)
  | TypeMongoDB => list_clusters ListMongoClusters (mongo_entry false)
  | TypePostgreSQL => list_clusters (srv_call LookupPGClusters) (pg_entry no_proxy)
  | TypeMinio => list_clusters ListMinioClusters minio_entry
  | TypeRabbitMQ => list_clusters ListRabbitMQClusters rabbit_entry
  | TypeElasticsearch => list_clusters ListRabbitMQClusters elastic_entry
  | TypeMariaDB => list_clusters ListMariadbClusters maria_entry
  | TypeMysql => list_clusters ListMysqlClusters mysql_entry
  | _ => Ret (Failed (FiberError 404 "Not Found"))
  end.

(** One section of the answer to everything. *)
Definition section {C} (clusters : io (res (list C))) (entry : C -> io (res MiddlewareClusterResp)) (skips : gerr -> bool)
    (acc : list MiddlewareClusterResp) : io (res (list MiddlewareClusterResp)) :=
  let? l := clusters in collect entry skips l acc.
Definition nats_cluster : io (res MiddlewareClusterResp) :=
  let? (user, pwd) := FindNatsAdminUser in
  Ret (Ok (mkClusterResp (mkMetaInfo "nats" PlatformNamespace) 0 user pwd no_proxy no_proxy
             (mkProxy ("nats." +:+ PlatformNamespace +:+ ":4222") 0) "nats")).
Definition handleListMiddlewaresAll (username : string) : io (answer Data) :=
  let own := "user-system-" +:+ username in
  respond (
    let? acc := section ListKvRocks (redis_cluster_entry (RedisClusterService +:+ "." +:+ own +:+ ":6379") true) never [] in
    let? acc := section ListMongoClusters (mongo_entry true) IsNotFound acc in
    let? acc := section (srv_call LookupPGClusters) (pg_entry (mkProxy ("citus-master-svc." +:+ own +:+ ":5432") 0)) never acc in
    let? acc := section ListMinioClusters minio_entry IsNotFound acc in
    let? acc := section ListRabbitMQClusters rabbit_entry IsNotFound acc in
    let? acc := section ListElasticsearchClusters elastic_entry IsNotFound acc in
    let? acc := section ListMariadbClusters maria_entry IsNotFound acc in
    let? acc := section ListMysqlClusters mysql_entry IsNotFound acc in
    let? nats := nats_cluster in
    Ret (Ok (acc ++ [nats]))).

(** ** [handler.go]: changes *)

(** [mongodb.ScalePerconaMongoNodes]; that of redis-cluster is in [SystemBackup]. *)
Definition ScalePerconaMongoNodes (name namespace : string) (nodes : Z) : io (res unit) :=
  let? cluster := srv_call (GetPSMDB namespace name) in
  match cluster with
  | Err e => Ret (Err e)
  | Ok c =>
      match ps_Replsets c with
      | [] => Ret (Err (newErr "invalid percona mongo cluster definition"))
      | first :: rest =>
          do! deref first;
          srv_call (UpdatePSMDB namespace (mkPSMDB (ps_Name c) (Some nodes :: rest) (ps_rest c)))
      end
  end.
Definition with_replicas (c : PGCluster) (nodes : Z) : PGCluster :=
  let s := pgc_Spec c in
  mkPGCluster (pgc_meta c) (mkPGClusterSpec nodes (pgs_AdminUser s) (pgs_CitusImage s) (pgs_Password s) (pgs_Owner s) (pgs_BackupStorage s)).
Definition done (what : string) : io (answer Data) := Ret (JSON 200 what None).
Definition handleScaleMiddleware (body : res ClusterScaleReq) : io (answer Data) :=
  or_fail (Ret body) (fun q =>
    let name := mi_Name (sr_Meta q) in
    let ns := mi_Namespace (sr_Meta q) in
    match sr_Middleware q with
    | TypeMongoDB => or_fail (ScalePerconaMongoNodes name ns (sr_Nodes q)) (fun _ => done "scale success")
    | TypeRedis => or_fail (ScaleRedisClusterNodes name ns (sr_Nodes q)) (fun _ => done "scale success")
    | TypePostgreSQL =>
        or_fail (apr_call (GetPGCluster ns name)) (fun pgc =>
          if (sr_Nodes q <? pgs_Replicas (pgc_Spec pgc))%Z then Ret (Failed (FiberError 501 "Not Implemented"))
          else or_fail (srv_call (UpdatePGCluster ns (with_replicas pgc (sr_Nodes q)))) (fun _ => done "scale success"))
    | _ => Ret (Failed (FiberError 501 "Not Implemented"))
    end).

Definition with_new_admin (c : PGCluster) (user pwd : string) : PGCluster :=
  let s := pgc_Spec c in
  mkPGCluster (pgc_meta c) (mkPGClusterSpec (pgs_Replicas s) (if String.eqb user "" then pgs_AdminUser s else user)
    (pgs_CitusImage s) (mkPwd pwd None) (pgs_Owner s) (pgs_BackupStorage s)).
Definition handleUpdateMiddlewareAdminPassword (body : res ClusterChangePwdReq) : io (answer Data) :=
  or_fail (Ret body) (fun q =>
    if String.eqb (cp_Password q) "" then Ret (Failed (FiberError 406 "Not Acceptable"))
    else match cp_Middleware q with
         | TypePostgreSQL =>
             let name := mi_Name (cp_Meta q) in
             let ns := mi_Namespace (cp_Meta q) in
             or_fail (apr_call (GetPGCluster ns name)) (fun pgc =>
             or_fail (srv_call (UpdatePGCluster ns (with_new_admin pgc (cp_User q) (cp_Password q)))) (fun _ =>
               done "update success"))
         | _ => Ret (Failed (FiberError 501 "Not Implemented"))
         end).

(** ** [server.go]: the routes *)

Inductive request : Set :=
  | PostInfo (body : res MiddlewareReq)
  | GetRequests (middleware : string)
  | GetList (middleware : string)
  | GetListAll
  | PostScale (middleware : string) (body : res ClusterScaleReq)
  | PostPassword (middleware : string) (body : res ClusterChangePwdReq).
(** Whoever is not an administrator may only ask for a request's information. *)
Definition for_admins (q : request) : bool := match q with PostInfo _ => false | _ => true end.
Definition handle (q : request) (c : UserCtx) : io (answer Data) :=
  match q with
  | PostInfo body => handleGetMiddlewareRequestInfo body
  | GetRequests ty => handleListMiddlewareRequests ty
  | GetList ty => handleListMiddlewares ty
  | GetListAll => handleListMiddlewaresAll (uc_Name c)
  | PostScale _ body => handleScaleMiddleware body
  | PostPassword _ body => handleUpdateMiddlewareAdminPassword body
  end.
(** [header] is X-Bfl-User. *)
Definition serve (header : string) (q : request) : io (answer Data) :=
  GetUserInfo header (if for_admins q then RequireAdmin (handle q) else handle q).
