(* ===== verification/MwServerSpec.v ===== *)
(** * What the middleware HTTP server answers and changes *)

From S2P Require Import Prelude Effects Apr World Demo Citus RedisCluster KVRocks PgRequest Mongo Nats Minio Rabbit Elastic Sql MwServer.

Definition srv_ev (o : srv) (r : resp_srv o) : event resp := ev (Ext (Srv o)) r.

(** ** Who is let in *)

(** The look-ups of the checks. *)
Definition is_lookup (e : event resp) : Prop := exists u r, e = srv_ev (GetKsUser u) r.
(** The user of the header has one of the two roles, by what was read of it. *)
Definition admin_by (header : string) (tr : history) : Prop :=
  exists u, srv_ev (GetKsUser header) (Ok u) ∈ tr /\
    (kso_Annotations u !! UserAnnotationOwnerRole = Some "owner" \/
     kso_Annotations u !! UserAnnotationOwnerRole = Some "admin").
Definition turned_away (out : outcome (answer Data)) : Prop :=
  exists code msg, out = Returned (JSON code msg None) /\ code ∈ [401; 403; 500]%Z.

Lemma GetUser_inv name tr (out : outcome (res string)) :
  runs (GetUser name) tr out -> exists r email, tr = [srv_ev (GetKsUser name) r] /\ out = Returned email.
Proof. intros (r & tr' & -> & H)%runs_inv. destruct r as [o|e]; apply runs_inv in H as [-> ->]; eauto. Qed.
Lemma GetUserRole_inv name tr (out : outcome (res string)) :
  runs (GetUserRole name) tr out ->
  exists r role, tr = [srv_ev (GetKsUser name) r] /\ out = Returned role /\
    forall a, role = Ok a -> exists u, r = Ok u /\ kso_Annotations u !! UserAnnotationOwnerRole = Some a.
Proof.
  intros (r & tr' & -> & H)%runs_inv. exists r. destruct r as [o|e]; cbn in H.
  - destruct (_ !! _) as [a|] eqn:E; apply runs_inv in H as [-> ->]; eexists; (split_and!; [done|done|]);
      intros ? [= ->]; eauto.
  - apply runs_inv in H as [-> ->]. eexists. split_and!; [done|done|]. intros ? [=].
Qed.

Lemma RequireAdmin_inv next c tr out :
  runs (RequireAdmin next c) tr out ->
  (Forall is_lookup tr /\ turned_away out) \/
  exists tr1 tr2, tr = tr1 ++ tr2 /\ Forall is_lookup tr1 /\ admin_by (uc_Name c) tr1 /\ runs (next c) tr2 out.
Proof.
  intros [(tr1 & tr2 & role & -> & (r & x & -> & [= <-] & Hr)%GetUserRole_inv & H2)
         |(w & _ & (r & x & _ & [=] & _)%GetUserRole_inv)]%runs_bind_inv.
  assert (Hl : Forall is_lookup [srv_ev (GetKsUser (uc_Name c)) r]) by (repeat constructor; by eexists _, _).
  destruct role as [a|e]; cycle 1.
  { left. apply runs_inv in H2 as [-> ->]. rewrite app_nil_r. split; [done|]. eexists _, _. split; [done|]. set_solver. }
  destruct (Hr a eq_refl) as (u & -> & Hu). destruct (negb _ && negb _) eqn:E.
  - left. apply runs_inv in H2 as [-> ->]. rewrite app_nil_r. split; [done|]. eexists _, _. split; [done|]. set_solver.
  - right. eexists _, _. split_and!; [done|done| |done]. exists u. split; [by apply list_elem_of_singleton|].
    apply andb_false_iff in E as [E%negb_false_iff%String.eqb_eq|E%negb_false_iff%String.eqb_eq]; subst; auto.
Qed.

(** C31: Whatever is asked for, the server reads the user the header names first,
    and a request for administrators reaches its handler only after the role of
    this user was read to be owner or admin; anything else is answered with 401,
    403 or 500, without data and without another call.  The header itself is
    taken at its word. *)
Theorem admin_only header q tr out :
  runs (serve header q) tr out -> for_admins q = true ->
  (Forall is_lookup tr /\ turned_away out) \/
  exists email tr1 tr2, tr = tr1 ++ tr2 /\ Forall is_lookup tr1 /\ admin_by header tr1 /\
    runs (handle q (mkUserCtx header email)) tr2 out.
Proof.
  unfold serve, GetUserInfo. intros H Hq. rewrite Hq in H. destruct (String.eqb header "").
  { left. apply runs_inv in H as [-> ->]. split; [constructor|]. eexists _, _. split; [done|]. set_solver. }
  apply runs_bind_inv in H as [(tr1 & tr2 & user & -> & (r & x & -> & [= <-])%GetUser_inv & H2)
                              |(w & _ & (r & x & _ & [=])%GetUser_inv)].
  assert (Hl : Forall is_lookup [srv_ev (GetKsUser header) r]) by (repeat constructor; by eexists _, _).
  destruct user as [email|e]; cycle 1.
  { left. apply runs_inv in H2 as [-> ->]. rewrite app_nil_r. split; [done|]. eexists _, _. split; [done|]. set_solver. }
  apply RequireAdmin_inv in H2 as [[Hf Ht]|(t1 & t2 & -> & Hf & (u & Hu & Hr) & H2)].
  - left. split; [by apply Forall_app_2|done].
  - right. exists email, ([srv_ev (GetKsUser header) r] ++ t1), t2. rewrite app_assoc.
    split_and!; [done|by apply Forall_app_2| |done]. exists u. split; [apply elem_of_app; by right|done].
Qed.

(** ** The names a client is told, and the ones the operator creates *)

(** What the operator creates for a request, by the definitions it uses; no
    names for what is not made of databases, or not served at all. *)
Definition provisioned (m : MiddlewareRequest) : option (list string) :=
  match ms_Middleware (mr_Spec m) with
  | TypePostgreSQL => Some (map (db_name m) (pg_dbs m))
  | TypeMongoDB => Some (map mdb_Name (dbRealNames (ms_AppNamespace (mr_Spec m)) (mongo_Databases (ms_MongoDB (mr_Spec m)))))
  | TypeRedis => Some [request_namespace m]
  | TypeMinio => Some (request_buckets m)
  | TypeRabbitMQ => Some (request_vhosts m)
  | TypeElasticsearch => Some (request_indexes m)
  | TypeMariaDB => Some (sql_dbs mariadb m)
  | TypeMysql => Some (sql_dbs mysql m)
  | TypeZinc | TypeNats | TypeOther _ => None
  end.
(** What the answer calls them. *)
Definition reported (r : MiddlewareRequestResp) : gmap string string :=
  rp_Databases r ∪ rp_Indexes r ∪ rp_Buckets r ∪ rp_Vhosts r.
Definition reports (r : MiddlewareRequestResp) (real : string) : Prop := exists n, reported r !! n = Some real.

Lemma named_snoc l k v : named (l ++ [(k, v)]) = <[k := v]> (named l).
Proof. unfold named. by rewrite fold_left_app. Qed.
Lemma named_real real l n v : named (real_names real l) !! n = Some v <-> n ∈ l /\ v = real n.
Proof.
  unfold real_names. induction l as [|x l IH] using rev_ind; [cbn; set_solver|].
  rewrite map_app. cbn [map]. rewrite named_snoc. destruct (decide (n = x)) as [->|Hne].
  - rewrite lookup_insert_eq. split; [intros [= <-]; set_solver|by intros [_ ->]].
  - rewrite lookup_insert_ne by done. rewrite IH. set_solver.
Qed.
Lemma named_values real l v : (exists n, named (real_names real l) !! n = Some v) <-> v ∈ map real l.
Proof. setoid_rewrite named_real. rewrite list_elem_of_fmap. naive_solver. Qed.

Lemma reports_real r f l : reported r = named (real_names f l) -> forall v, reports r v <-> v ∈ map f l.
Proof. intros E v. unfold reports. rewrite E. apply named_values. Qed.
Ltac reports_are f l :=
  apply (reports_real _ f l); unfold reported; cbn; by rewrite ?map_empty_union, ?map_union_empty.

(** The answers that depend on the password only. *)
Lemma with_pwd_inv p ns (k : string -> io (res MiddlewareRequestResp)) tr resp :
  runs (let! r := (let? pwd := GetVarValue p ns in k pwd) in
        Ret (match r with Ok resp => inl resp | Err e => inr (GoError e) end)) tr
    (Returned (inl resp : MiddlewareRequestResp + http_error)) ->
  exists tr1 tr2 pwd, tr = tr1 ++ tr2 /\ runs (GetVarValue p ns) tr1 (Returned (Ok pwd)) /\ runs (k pwd) tr2 (Returned (Ok resp)).
Proof.
  intros (tr1 & tr2 & r & -> & H1 & H2)%runs_bind_returned. apply runs_inv in H2 as [-> [= E]]. rewrite app_nil_r.
  destruct r as [resp'|e]; [|done]. injection E as ->. by apply runs_bind_ok_returned in H1.
Qed.
Lemma with_port_inv ns svc (k : list (string * Z) -> MiddlewareRequestResp) tr resp :
  runs (let? ports := srv_call (GetServicePorts ns svc) in Ret (Ok (k ports))) tr (Returned (Ok resp)) ->
  exists ports, resp = k ports.
Proof.
  intros (t1 & t2 & ports & -> & H1 & H2)%runs_bind_ok_returned. apply runs_inv in H2 as [_ [= ->]]. eauto.
Qed.

(** C32: What a client is told its databases, indexes, buckets or virtual hosts
    are called is what the operator creates for the same request: name by name
    for every type the operator serves in this way, except Redis, whose
    namespaces the operator names after the request's own namespace and the
    answer after the application's; there they agree only if these are one. *)
Theorem info_names_provisioned q m names tr resp :
  runs (getMiddlewareInfo q m) tr (Returned (inl resp)) -> provisioned m = Some names ->
  ((forall real, reports resp real <-> real ∈ names) <->
   (ms_Middleware (mr_Spec m) = TypeRedis -> mr_Namespace m = ms_AppNamespace (mr_Spec m))).
Proof.
  unfold getMiddlewareInfo, provisioned. intros H Hn. cbv zeta in H.
  assert (Hother : forall ty, ms_Middleware (mr_Spec m) = ty -> ty <> TypeRedis ->
            (forall real, reports resp real <-> real ∈ names) ->
            ((forall real, reports resp real <-> real ∈ names) <->
             (ty = TypeRedis -> mr_Namespace m = ms_AppNamespace (mr_Spec m)))) by (intros; tauto).
  destruct (ms_Middleware (mr_Spec m)) eqn:Et; try discriminate Hn; injection Hn as <-;
    apply with_pwd_inv in H as (tr1 & tr2 & pwd & -> & _ & H);
    try (apply (Hother _ eq_refl); [done|]; clear Hother).
  - apply with_port_inv in H as (ports & ->). unfold pg_dbs, db_name. rewrite <- (map_map cdb_Name).
    reports_are (Citus.GetDatabaseName (ms_AppNamespace (mr_Spec m))) (map cdb_Name (pg_Databases (ms_PostgreSQL (mr_Spec m)))).
  - apply runs_inv in H as [_ [= ->]]. unfold dbRealNames. rewrite map_map. cbn. rewrite <- (map_map mdb_Name).
    reports_are (MongoDatabaseName (ms_AppNamespace (mr_Spec m))) (map mdb_Name (mongo_Databases (ms_MongoDB (mr_Spec m)))).
  - apply with_port_inv in H as (ports & ->).
    set (resp := with_databases _ _).
    assert (Hr : forall v, reports resp v <-> v ∈ map (joined (ms_AppNamespace (mr_Spec m))) [redis_Namespace (ms_Redis (mr_Spec m))])
      by reports_are (joined (ms_AppNamespace (mr_Spec m))) [redis_Namespace (ms_Redis (mr_Spec m))].
    setoid_rewrite Hr. unfold request_namespace, GetKVRocksNamespaceName, joined. cbn. setoid_rewrite list_elem_of_singleton.
    split; [|intros E; by rewrite E]. intros Hv _.
    apply (string_app_inj_r _ _ ("_" +:+ redis_Namespace (ms_Redis (mr_Spec m)))). symmetry. by apply Hv.
  - apply runs_inv in H as [_ [= ->]].
    reports_are (GetBucketName (ms_AppNamespace (mr_Spec m))) (minio_Buckets (ms_Minio (mr_Spec m))).
  - apply runs_inv in H as [_ [= ->]].
    reports_are (GetVhostName (ms_AppNamespace (mr_Spec m))) (rabbit_Vhosts (ms_RabbitMQ (mr_Spec m))).
  - apply runs_inv in H as [_ [= ->]].
    reports_are (GetIndexName (ms_AppNamespace (mr_Spec m))) (es_Indexes (ms_Elasticsearch (mr_Spec m))).
  - apply runs_inv in H as [_ [= ->]].
    reports_are (Sql.GetDatabaseName (ms_AppNamespace (mr_Spec m))) (maria_Databases (ms_MariaDB (mr_Spec m))).
  - apply runs_inv in H as [_ [= ->]].
    reports_are (Sql.GetDatabaseName (ms_AppNamespace (mr_Spec m))) (mysql_Databases (ms_Mysql (mr_Spec m))).
Qed.

(** ** Clusters *)

Lemma collect_keeps {C} (P : C -> MiddlewareClusterResp -> Prop) entry l :
  (forall c tr r, runs (entry c) tr (Returned (Ok r)) -> P c r) ->
  forall acc tr out, runs (collect entry never l acc) tr (Returned (Ok out)) -> exists new, out = acc ++ new /\ Forall2 P l new.
Proof.
  intros HP. induction l as [|c l IH]; intros acc tr out H.
  { apply runs_inv in H as [_ [= ->]]. exists []. by rewrite app_nil_r. }
  change (collect entry never (c :: l) acc) with
    (bind_ok (let! r := entry c in match r with Ok resp => Ret (Ok (acc ++ [resp])) | Err e => Ret (Err e) end)
             (collect entry never l)) in H.
  apply runs_bind_ok_returned in H as (tr1 & tr2 & acc' & -> & H1 & (new & -> & Hn)%IH).
  apply runs_bind_returned in H1 as (t1 & t2 & r & -> & H1 & H2).
  destruct r as [r|e]; apply runs_inv in H2 as [_ [= ->]]. exists (r :: new). rewrite <- app_assoc. eauto.
Qed.

(** The clusters an answer is about, and their type. *)
Definition answers_for (ty : string) (c : KbListed) (r : MiddlewareClusterResp) : Prop :=
  cr_Meta r = kb_meta c /\ cr_Type r = ty.
Lemma kb_entry_for ty service port find c tr r :
  runs (kb_entry ty service port find c) tr (Returned (Ok r)) -> answers_for ty c r.
Proof.
  intros (t1 & t2 & [user pwd] & -> & _ & H)%runs_bind_ok_returned.
  apply runs_bind_returned in H as (t3 & t4 & size & -> & _ & H). by apply runs_inv in H as [_ [= ->]].
Qed.
Lemma mongo_entry_for b c tr r : runs (mongo_entry b c) tr (Returned (Ok r)) -> answers_for "mongodb" c r.
Proof.
  intros (t1 & t2 & [user pwd] & -> & _ & H)%runs_bind_ok_returned. apply runs_inv in H as [_ [= ->]]. by destruct b.
Qed.
Lemma listing_for ty inst entry tr l :
  (forall c tr r, runs (entry c) tr (Returned (Ok r)) -> answers_for ty c r) ->
  runs (list_clusters (ListInstances inst) entry) tr (Returned (JSON 200 "" (Some (Clusters l)))) ->
  exists clusters tr', tr = srv_ev ListKbClusters (Ok clusters) :: tr' /\
    Forall2 (answers_for ty) (List.filter (instance_is inst) clusters) l.
Proof.
  intros He H. unfold list_clusters, respond, or_fail in H.
  apply runs_bind_returned in H as (t1 & t2 & r & -> & H1 & H2).
  destruct r as [l'|e]; apply runs_inv in H2 as [-> [= <-]]. rewrite app_nil_r.
  apply runs_bind_ok_returned in H1 as (t2 & t3 & cl & -> & H1 & (new & -> & Hn)%(collect_keeps (answers_for ty))); [|done].
  apply runs_inv in H1 as (r & t4 & -> & Hb). destruct r as [clusters|e]; apply runs_inv in Hb as [-> [= ->]].
  eexists clusters, _. split; [reflexivity|exact Hn].
Qed.

(** The instances a listing by type looks for. *)
Definition listed_instance (ty : string) : option string :=
  match MiddlewareType_of_string ty with
  | TypeMongoDB => Some "mongodb" | TypeMinio => Some "minio" | TypeRabbitMQ => Some "rabbitmq"
  | TypeElasticsearch => Some "rabbitmq" | TypeMysql => Some "mysql"
  | _ => None
  end.

(** A listing of the clusters of one type has exactly the clusters whose
    instance label names it, in their order and each once, as clusters of this
    type: except that Elasticsearch's listing has RabbitMQ's clusters, presented
    as Elasticsearch's. *)
Theorem type_listing_exact ty inst c tr l :
  listed_instance ty = Some inst ->
  runs (handle (GetList ty) c) tr (Returned (JSON 200 "" (Some (Clusters l)))) ->
  exists clusters tr', tr = srv_ev ListKbClusters (Ok clusters) :: tr' /\
    Forall2 (answers_for ty) (List.filter (instance_is inst) clusters) l.
Proof.
  unfold listed_instance. cbn [handle]. unfold handleListMiddlewares, MiddlewareType_of_string.
  repeat match goal with |- context [String.eqb ty ?s] => destruct (String.eqb_spec ty s) as [->|_] end;
    intros [= <-]; apply listing_for; intros c' tr' r; first [apply mongo_entry_for|apply kb_entry_for].
Qed.

(** ** Changes of a PostgreSQL cluster *)

Definition no_update (o : op) : Prop := match o with Ext (Srv (UpdatePGCluster _ _)) => False | _ => True end.
Lemma no_update_runs {A} (m : io A) tr out ns new r :
  issues no_update m -> runs m tr out -> srv_ev (UpdatePGCluster ns new) r ∉ tr.
Proof.
  intros Hi Hr Hin. apply (issues_runs _ _ Hi) in Hr. rewrite Forall_forall in Hr. exact (Hr _ Hin).
Qed.
Definition changes (q : request) : bool := match q with PostScale _ _ | PostPassword _ _ => true | _ => false end.
Lemma lists_no_update q c : changes q = false -> issues no_update (handle q c).
Proof. destruct q; try done; intros _; cbn [handle]; issues_walk. Qed.

(** An update [old] to [new] that a request of the server may make. *)
Definition allowed_change (old new : PGCluster) : Prop :=
  (exists nodes, (pgs_Replicas (pgc_Spec old) <= nodes)%Z /\ new = with_replicas old nodes) \/
  (exists user pwd, new = with_new_admin old user pwd /\ forall ns, GetVarValue (pgs_Password (pgc_Spec new)) ns = Ret (Ok pwd)).

Lemma or_fail_inv {A B} (m : io (res A)) (k : A -> io (answer B)) tr out :
  runs (or_fail m k) tr out ->
  (exists e, runs m tr (Returned (Err e))) \/ (exists w, runs m tr (Panicked w)) \/
  exists tr1 tr2 a, tr = tr1 ++ tr2 /\ runs m tr1 (Returned (Ok a)) /\ runs (k a) tr2 out.
Proof.
  intros [(t1 & t2 & [a|e] & -> & H1 & H2)|(w & _ & H1)]%runs_bind_inv; [by eauto 10| |by eauto].
  apply runs_inv in H2 as [-> _]. rewrite app_nil_r. eauto.
Qed.
Lemma done_runs what tr out : runs (done what) tr out -> tr = [].
Proof. by intros [-> _]%runs_inv. Qed.
(** Reading a cluster and then perhaps writing what [change] makes of it. *)
Lemma read_then_write ns name (check : PGCluster -> bool) change stop what tr out ns' new r :
  runs (or_fail (apr_call (GetPGCluster ns name)) (fun pgc =>
          if check pgc then Ret (Failed stop)
          else or_fail (srv_call (UpdatePGCluster ns (change pgc))) (fun _ => done what))) tr out ->
  srv_ev (UpdatePGCluster ns' new) r ∈ tr ->
  exists old, ns' = ns /\ ev (Apr (GetPGCluster ns name)) (Ok old) ∈ tr /\ check old = false /\ new = change old.
Proof.
  intros (x & t & -> & H)%runs_inv Hin. destruct x as [old|e]; cbn in H.
  - destruct (check old) eqn:E; [apply runs_inv in H as [-> _]; apply list_elem_of_singleton in Hin; discriminate|].
    apply runs_inv in H as (y & t' & -> & H). cbn in H.
    assert (t' = []) as -> by (destruct y; [by apply done_runs in H|by apply runs_inv in H as [-> _]]).
    apply elem_of_cons in Hin as [Hin|Hin%list_elem_of_singleton]; [discriminate|].
    exists old. injection Hin as -> ->. set_solver.
  - apply runs_inv in H as [-> _]. apply list_elem_of_singleton in Hin. discriminate.
Qed.

(** Of all requests to the server, only two write to a PostgreSQL cluster.
    What they write is the cluster they have read with a number of nodes that is
    not smaller, or with the administrator given in the request, whose password
    is then found in the cluster itself, whatever secret it was in before. *)
Theorem pg_cluster_changes q c tr out ns new r :
  runs (handle q c) tr out -> srv_ev (UpdatePGCluster ns new) r ∈ tr ->
  exists name old, ev (Apr (GetPGCluster ns name)) (Ok old) ∈ tr /\ allowed_change old new.
Proof.
  intros H Hin. destruct (changes q) eqn:Hq; cycle 1.
  { exfalso. exact (no_update_runs _ _ _ _ _ _ (lists_no_update q c Hq) H Hin). }
  destruct q as [| | | |mw body|mw body]; try done; clear Hq; cbn [handle] in H.
  - destruct body as [q|e]; [|apply runs_inv in H as [-> _]; by apply not_elem_of_nil in Hin].
    unfold handleScaleMiddleware in H. change (or_fail (Ret (Ok q)) ?k) with (k q) in H. cbv zeta beta in H.
    destruct (sr_Middleware q);
      try (exfalso; refine (no_update_runs _ _ _ _ _ _ _ H Hin); issues_walk; fail).
    apply (read_then_write _ _ (fun pgc => (sr_Nodes q <? pgs_Replicas (pgc_Spec pgc))%Z)) with (ns' := ns) (new := new) (r := r) in H
      as (old & -> & Ho & Hc & ->); [|done].
    eexists _, old. split; [exact Ho|]. left. eexists. split; [|done]. apply Z.ltb_ge in Hc. exact Hc.
  - destruct body as [q|e]; [|apply runs_inv in H as [-> _]; by apply not_elem_of_nil in Hin].
    unfold handleUpdateMiddlewareAdminPassword in H. change (or_fail (Ret (Ok q)) ?k) with (k q) in H. cbv zeta beta in H.
    destruct (String.eqb_spec (cp_Password q) "") as [|Hp]; [apply runs_inv in H as [-> _]; by apply not_elem_of_nil in Hin|].
    destruct (cp_Middleware q);
      try (apply runs_inv in H as [-> _]; by apply not_elem_of_nil in Hin).
    apply (read_then_write _ _ (fun _ => false) _ (FiberError 0 "")) with (ns' := ns) (new := new) (r := r) in H
      as (old & -> & Ho & _ & ->); [|done].
    eexists _, old. split; [exact Ho|]. right. eexists _, _. split; [reflexivity|]. intros ns'. unfold GetVarValue. cbn.
    by destruct (String.eqb_spec (cp_Password q) "").
Qed.

(** ** The properties in a concrete world *)

Definition olares_owner : KsUserObj := mkKsUserObj {[UserAnnotationOwnerRole := "owner"]} (Ok "alice@example.com").
Definition demo_pgcluster : PGCluster :=
  mkPGCluster (plain_meta "os-platform" "citus") (mkPGClusterSpec 1 "olares" "citus:12" (mkPwd "" None) "" "").
Definition kb (instance : string) : KbListed :=
  mkKbListed instance (instance +:+ "-middleware") (Some {["app.kubernetes.io/instance" := instance]}) [1%Z].
Definition demo_kb : list KbListed := [kb "minio"; kb "rabbitmq"; kb "elasticsearch"].
Definition demo_info_req : MiddlewareRequest :=
  mkMiddlewareRequest (plain_meta "user-system-alice" "files-redis")
    (with_redis (empty_spec "files" "os-system" TypeRedis) (mkRedis (mkPwd "token" None) "files")).
Definition server_world (o : op) : resp o :=
  match o return resp o with
  | Ext (Srv (GetKsUser _)) => Ok olares_owner
  | Ext (Srv ListKbClusters) => Ok demo_kb
  | Ext (Srv (GetServicePorts _ _)) => Ok [("proxy", 6379%Z)]
  | Ext (Srv (UpdatePGCluster _ _)) => Ok tt
  | Apr (GetPGCluster _ _) => Ok demo_pgcluster
  | K8s (GetSecret ns name) => Ok (mkSecret name ns {["username" := "root"; "password" := "secret"]})
  | o => unavailable o
  end.

Definition scale_request : request := PostScale "postgres" (Ok (mkScaleReq (mkMetaInfo "citus" "os-platform") TypePostgreSQL 3)).
Lemma admin_only_witness :
  (Forall is_lookup (trace_in server_world (serve "alice" scale_request)) /\
   turned_away (out_in server_world (serve "alice" scale_request))) \/
  exists email tr1 tr2, trace_in server_world (serve "alice" scale_request) = tr1 ++ tr2 /\ Forall is_lookup tr1 /\ admin_by "alice" tr1 /\
    runs (handle scale_request (mkUserCtx "alice" email)) tr2 (out_in server_world (serve "alice" scale_request)).
Proof. apply (admin_only "alice" scale_request); [apply runs_in|reflexivity]. Defined.

Definition info_query : MiddlewareReq := mkMwReq "files" "os-system" "user-system-alice" TypeRedis.
Definition redis_answer : MiddlewareRequestResp :=
  with_databases (resp_base "" "token" "redis-cluster-proxy.user-system-alice" 6379) [("files", "os-system_files")].
(** The namespace is created as [user-system-alice_files]. *)
Lemma info_names_provisioned_witness :
  (forall real, reports redis_answer real <-> real ∈ ["user-system-alice_files"]) <->
  (ms_Middleware (mr_Spec demo_info_req) = TypeRedis -> mr_Namespace demo_info_req = ms_AppNamespace (mr_Spec demo_info_req)).
Proof.
  eapply (info_names_provisioned info_query demo_info_req _ (trace_in server_world (getMiddlewareInfo info_query demo_info_req))).
  - apply runs_in_to. vm_compute. reflexivity.
  - reflexivity.
Defined.

Definition es_listing : list MiddlewareClusterResp :=
  match out_in server_world (handle (GetList "elasticsearch") (mkUserCtx "alice" "")) with
  | Returned (JSON _ _ (Some (Clusters l))) => l
  | _ => []
  end.
Lemma type_listing_exact_witness :
  map cr_Meta es_listing = [mkMetaInfo "rabbitmq" "rabbitmq-middleware"] /\
  exists clusters tr', trace_in server_world (handle (GetList "elasticsearch") (mkUserCtx "alice" "")) = srv_ev ListKbClusters (Ok clusters) :: tr' /\
    Forall2 (answers_for "elasticsearch") (List.filter (instance_is "rabbitmq") clusters) es_listing.
Proof.
  split; [vm_compute; reflexivity|].
  apply (type_listing_exact "elasticsearch" "rabbitmq" (mkUserCtx "alice" "")); [reflexivity|].
  apply runs_in_to. vm_compute. reflexivity.
Defined.

Lemma pg_cluster_changes_witness :
  exists name old, ev (Apr (GetPGCluster "os-platform" name)) (Ok old) ∈ trace_in server_world (handle scale_request (mkUserCtx "alice" "")) /\
    allowed_change old (with_replicas demo_pgcluster 3).
Proof.
  apply (pg_cluster_changes scale_request (mkUserCtx "alice" "") _ (out_in server_world (handle scale_request (mkUserCtx "alice" "")))
           "os-platform" (with_replicas demo_pgcluster 3) (Ok tt)); [apply runs_in|].
  vm_compute. right. left.
Defined.
