(* ===== verification/Base64.v ===== *)
(** * Go's [encoding/base64], as [StdEncoding] is used by the vault

    [EncodeToString] and [DecodeString] of the standard library: the standard
    alphabet with padding; decoding passes over line breaks and does not look at
    the bits that padding leaves unused. *)

From S2P Require Import Prelude.

(** Six bits, the first the most significant; Rocq's [Ascii] begins with the
    least significant of its eight. *)
Inductive sextet : Set := Six (b5 b4 b3 b2 b1 b0 : bool).
Definition alphabet : string := "ABCDEFGHIJKLMNOPQRSTUVWXYZabcdefghijklmnopqrstuvwxyz0123456789+/".
Definition padding : Ascii.ascii := "="%char.
Definition bit (b : bool) : nat := if b then 1 else 0.
Definition index (s : sextet) : nat :=
  let '(Six b5 b4 b3 b2 b1 b0) := s in 32 * bit b5 + 16 * bit b4 + 8 * bit b3 + 4 * bit b2 + 2 * bit b1 + bit b0.
Definition digit (s : sextet) : Ascii.ascii := default padding (String.get (index s) alphabet).

Definition both : list bool := [false; true].
Definition sextets : list sextet :=
  b5 ← both; b4 ← both; b3 ← both; b2 ← both; b1 ← both; b0 ← both; [Six b5 b4 b3 b2 b1 b0].
Definition value (c : Ascii.ascii) : option sextet := List.find (fun s => Ascii.eqb (digit s) c) sextets.

(** Three bytes are four digits. *)
Definition first_six (a : Ascii.ascii) : sextet :=
  let '(Ascii.Ascii _ _ a2 a3 a4 a5 a6 a7) := a in Six a7 a6 a5 a4 a3 a2.
Definition second_six (a b : Ascii.ascii) : sextet :=
  let '(Ascii.Ascii a0 a1 _ _ _ _ _ _) := a in
  let '(Ascii.Ascii _ _ _ _ b4 b5 b6 b7) := b in Six a1 a0 b7 b6 b5 b4.
Definition third_six (b c : Ascii.ascii) : sextet :=
  let '(Ascii.Ascii b0 b1 b2 b3 _ _ _ _) := b in
  let '(Ascii.Ascii _ _ _ _ _ _ c6 c7) := c in Six b3 b2 b1 b0 c7 c6.
Definition fourth_six (c : Ascii.ascii) : sextet :=
  let '(Ascii.Ascii c0 c1 c2 c3 c4 c5 _ _) := c in Six c5 c4 c3 c2 c1 c0.
Definition zero_byte : Ascii.ascii := Ascii.zero.

Fixpoint EncodeToString (s : string) : string :=
  match s with
  | EmptyString => ""
  | String a EmptyString =>
      String (digit (first_six a)) (String (digit (second_six a zero_byte)) (String padding (String padding "")))
  | String a (String b EmptyString) =>
      String (digit (first_six a)) (String (digit (second_six a b)) (String (digit (third_six b zero_byte)) (String padding "")))
  | String a (String b (String c s')) =>
      String (digit (first_six a)) (String (digit (second_six a b))
        (String (digit (third_six b c)) (String (digit (fourth_six c)) (EncodeToString s'))))
  end.

Definition byte1 (w x : sextet) : Ascii.ascii :=
  let '(Six w5 w4 w3 w2 w1 w0) := w in let '(Six x5 x4 _ _ _ _) := x in Ascii.Ascii x4 x5 w0 w1 w2 w3 w4 w5.
Definition byte2 (x y : sextet) : Ascii.ascii :=
  let '(Six _ _ x3 x2 x1 x0) := x in let '(Six y5 y4 y3 y2 _ _) := y in Ascii.Ascii y2 y3 y4 y5 x0 x1 x2 x3.
Definition byte3 (y z : sextet) : Ascii.ascii :=
  let '(Six _ _ _ _ y1 y0) := y in let '(Six z5 z4 z3 z2 z1 z0) := z in Ascii.Ascii z0 z1 z2 z3 z4 z5 y0 y1.

Definition line_break (c : Ascii.ascii) : bool :=
  Ascii.eqb c (Ascii.ascii_of_nat 10) || Ascii.eqb c (Ascii.ascii_of_nat 13).
Fixpoint without_breaks (s : string) : string :=
  match s with
  | EmptyString => ""
  | String c s' => if line_break c then without_breaks s' else String c (without_breaks s')
  end.
Fixpoint decode (s : string) : option string :=
  match s with
  | EmptyString => Some ""
  | String c1 (String c2 (String c3 (String c4 s'))) =>
      match value c1, value c2 with
      | Some w, Some x =>
          if Ascii.eqb c3 padding then
            if Ascii.eqb c4 padding then match s' with EmptyString => Some (String (byte1 w x) "") | _ => None end else None
          else match value c3 with
          | Some y =>
              if Ascii.eqb c4 padding then
                match s' with EmptyString => Some (String (byte1 w x) (String (byte2 x y) "")) | _ => None end
              else match value c4, decode s' with
              | Some z, Some r => Some (String (byte1 w x) (String (byte2 x y) (String (byte3 y z) r)))
              | _, _ => None
              end
          | None => None
          end
      | _, _ => None
      end
  | _ => None
  end.
Definition DecodeString (s : string) : res string :=
  match decode (without_breaks s) with
  | Some r => Ok r
  | None => Err (newErr "illegal base64 data")
  end.

(** ** Decoding what was encoded *)

Lemma value_digit s : value (digit s) = Some s.
Proof. destruct s as [[] [] [] [] [] []]; vm_compute; reflexivity. Qed.
Lemma digit_plain s : Ascii.eqb (digit s) padding = false /\ line_break (digit s) = false.
Proof. destruct s as [[] [] [] [] [] []]; vm_compute; auto. Qed.
Lemma bytes_back a b c :
  byte1 (first_six a) (second_six a b) = a /\ byte2 (second_six a b) (third_six b c) = b /\
  byte3 (third_six b c) (fourth_six c) = c.
Proof. by destruct a, b, c. Qed.

(** Induction by three bytes. *)
Lemma string_ind3 (P : string -> Prop) :
  P "" -> (forall a, P (String a "")) -> (forall a b, P (String a (String b ""))) ->
  (forall a b c s, P s -> P (String a (String b (String c s)))) -> forall s, P s.
Proof.
  intros H0 H1 H2 H3. fix IH 1. intros [|a [|b [|c s]]]; [apply H0|apply H1|apply H2|apply H3, IH].
Qed.
Lemma encoded_has_no_breaks s : without_breaks (EncodeToString s) = EncodeToString s.
Proof.
  induction s as [|a|a b|a b c s IH] using string_ind3; cbn [EncodeToString without_breaks];
    rewrite ?(proj2 (digit_plain _)); [done|done|done|]. by rewrite IH.
Qed.
Lemma decode_encode s : decode (EncodeToString s) = Some s.
Proof.
  induction s as [|a|a b|a b c s IH] using string_ind3; cbn [EncodeToString decode];
    rewrite ?value_digit, ?(proj1 (digit_plain _)); rewrite ?Ascii.eqb_refl; [done| | |].
  - by destruct (bytes_back a zero_byte zero_byte) as (-> & _ & _).
  - by destruct (bytes_back a b zero_byte) as (-> & -> & _).
  - rewrite IH. by destruct (bytes_back a b c) as (-> & -> & ->).
Qed.
Lemma DecodeString_encoded s : DecodeString (EncodeToString s) = Ok s.
Proof. unfold DecodeString. by rewrite encoded_has_no_breaks, decode_encode. Qed.
#[export] Hint Rewrite DecodeString_encoded : base64.
