(* ===== verification/Crypto.v ===== *)
(** * The vault's encryption: src/pkg/vault/infisical/crypto and key.go

    AES in Galois counter mode and NaCl's box are operations of the model (they
    are libraries of the code); what is around them is modelled: the random
    nonces, the sizes, the pieces that are sent apart, and base64. *)

From S2P Require Import Prelude Effects Apr World Base64.

(** The two ciphers: [Seal] of AES-GCM answers ciphertext and tag in one piece,
    and [Open] fails if they do not fit; those of the box take the nonce, the
    other's public and one's own secret key. *)
Class Ciphers : Type := {
  gcm_seal : string -> string -> string -> string;             (* key, nonce, plaintext *)
  gcm_open : string -> string -> string -> option string;      (* key, nonce, ciphertext and tag *)
  box_seal : string -> string -> string -> string -> string;   (* message, nonce, public, secret *)
  box_open : string -> string -> string -> string -> option string }.

Definition BLOCK_SIZE_BYTES : nat := 16.
Definition NACL_NONCE_SIZE_BYTES : nat := 24.

(** [io.ReadFull(rand.Reader, buf)] *)
Definition string_of_bytes (l : list Z) : string :=
  fold_right (fun b s => String (Ascii.ascii_of_N (Z.to_N b)) s) "" l.
Definition ReadFull (n : nat) : io (res string) :=
  let? bytes := sys_call (RandBytes n) in Ret (Ok (string_of_bytes bytes)).

(** [aes.NewCipher] wants a key of 16, 24 or 32 bytes. *)
Definition aes_key (secret : string) : res unit :=
  if decide (String.length secret ∈ [16; 24; 32]) then Ok tt
  else Err (newErr ("crypto/aes: invalid key size " +:+ itoa (Z.of_nat (String.length secret)))).

Section Aes.
Context `{Ciphers}.

Definition Encrypt (text secret : string) : io (res (string * string * string)) :=
  let? nonce := ReadFull BLOCK_SIZE_BYTES in
  match aes_key secret with
  | Err e => Ret (Err e)
  | Ok _ =>
      let sealed := gcm_seal secret nonce text in
      Ret (Ok (EncodeToString (take_str (String.length text) sealed), EncodeToString nonce,
               EncodeToString (drop_str (String.length text) sealed)))
  end.

(** Opening with a nonce of another size than the cipher's panics. *)
Definition Decrypt (ciphertext iv tag secret : string) : io (res string) :=
  match DecodeString iv, aes_key secret with
  | Err e, _ => Ret (Err e)
  | Ok _, Err e => Ret (Err e)
  | Ok nonce, Ok _ =>
      match DecodeString ciphertext, DecodeString tag with
      | Err e, _ => Ret (Err e)
      | Ok _, Err e => Ret (Err e)
      | Ok cipherIn, Ok part2 =>
          if negb (Nat.eqb (String.length nonce) BLOCK_SIZE_BYTES)
          then Panic "crypto/cipher: incorrect nonce length given to GCM"
          else match gcm_open secret nonce (cipherIn +:+ part2) with
               | Some plaintext => Ret (Ok plaintext)
               | None => Ret (Err (newErr "cipher: message authentication failed"))
               end
      end
  end.

(** [copy(pk[:], data)] into an array of [n] zero bytes. *)
Definition fixed (n : nat) (data : string) : string :=
  let head := take_str n data in head +:+ repeat_char Base64.zero_byte (n - String.length head).

Definition EncryptAssymmetric (plaintext publicKey privateKey : string) : io (res (string * string)) :=
  let? nonce := ReadFull NACL_NONCE_SIZE_BYTES in
  match DecodeString publicKey, DecodeString privateKey with
  | Err e, _ => Ret (Err e)
  | Ok _, Err e => Ret (Err e)
  | Ok pk, Ok sk => Ret (Ok (EncodeToString (box_seal plaintext nonce (fixed 32 pk) (fixed 32 sk)), EncodeToString nonce))
  end.
Definition DecryptAsymmetric (ciphertext nonce publicKey privateKey : string) : res string :=
  match DecodeString ciphertext, DecodeString nonce, DecodeString publicKey, DecodeString privateKey with
  | Err e, _, _, _ | Ok _, Err e, _, _ | Ok _, Ok _, Err e, _ | Ok _, Ok _, Ok _, Err e => Err e
  | Ok cipherData, Ok n, Ok pk, Ok sk =>
      match box_open cipherData (fixed NACL_NONCE_SIZE_BYTES n) (fixed 32 pk) (fixed 32 sk) with
      | Some plain => Ok plain
      | None => Err (newErr "decrypt key error")
      end
  end.

(** ** [key.go] *)

Definition secretOfPassword (password : string) : string :=
  if (32 <=? String.length password)%nat then take_str 32 password
  else repeat_char "0"%char (32 - String.length password) +:+ password.
Definition DecryptUserPrivateKeyHelper (user : UserEncryptionKeysPG) (password : string) : io (res string) :=
  if Z.eqb (uk_EncryptionVersion user) 1
  then Decrypt (uk_EncryptedPrivateKey user) (uk_IV user) (uk_Tag user) (secretOfPassword password)
  else Ret (Err (newErr "unimplement")).
End Aes.
