(* ===== verification/CryptoSpec.v ===== *)
(** * What the vault's encryption gives back

    The laws of the two ciphers are an interface; under them, what [Encrypt] and
    [EncryptAssymmetric] sent is what [Decrypt] and [DecryptAsymmetric] read.  A
    toy instance shows that the laws can hold. *)

From S2P Require Import Prelude Effects Apr World Base64 Crypto Demo.

(** What the documentation of AES-GCM and of NaCl's box says: the tag has 16
    bytes, opening with the same key and nonce gives the plaintext back, and a
    box made with one's secret and the other's public key is opened with the
    other two. *)
Class CipherLaws `{Ciphers} : Type := {
  keypair : string -> string -> Prop;
  keypair_size pk sk : keypair pk sk -> String.length pk = 32%nat /\ String.length sk = 32%nat;
  seal_length key nonce text :
    String.length (gcm_seal key nonce text) = (String.length text + BLOCK_SIZE_BYTES)%nat;
  open_sealed key nonce text : gcm_open key nonce (gcm_seal key nonce text) = Some text;
  box_opened pk1 sk1 pk2 sk2 nonce text : keypair pk1 sk1 -> keypair pk2 sk2 ->
    box_open (box_seal text nonce pk2 sk1) nonce pk1 sk2 = Some text }.

(** [io.ReadFull] answers no error only with a full buffer. *)
Definition full_reads (tr : history) : Prop :=
  forall n bytes, ev (Sys (RandBytes n)) (Ok bytes) ∈ tr -> length bytes = n.

Lemma string_of_bytes_length l : String.length (string_of_bytes l) = length l.
Proof. induction l as [|b l IH]; cbn; [done|]. by rewrite <- IH. Qed.
Lemma full_reads_app tr1 tr2 : full_reads (tr1 ++ tr2) <-> full_reads tr1 /\ full_reads tr2.
Proof.
  unfold full_reads. setoid_rewrite elem_of_app. split; [|intros [H1 H2] n b [?|?]; eauto].
  intros H. split; intros n b Hb; apply (H n b); auto.
Qed.
Lemma ReadFull_inv n tr (out : outcome (res string)) :
  runs (ReadFull n) tr out -> exists r, tr = [ev (Sys (RandBytes n)) r] /\
    match r with
    | Ok bytes => out = Returned (Ok (string_of_bytes bytes)) /\
                  (full_reads tr -> String.length (string_of_bytes bytes) = n)
    | Err e => out = Returned (Err e)
    end.
Proof.
  intros (r & tr' & -> & H)%runs_inv. exists r. destruct r as [bytes|e]; apply runs_inv in H as [-> ->]; [|done].
  do 2 (split; [done|]). intros H. rewrite string_of_bytes_length. apply H. left.
Qed.

Section Laws.
Context `{CipherLaws}.

(** *** AES-GCM *)

(** What [Encrypt] makes with the nonce it drew. *)
Definition sealed_with (nonce text secret : string) : string * string * string :=
  let sealed := gcm_seal secret nonce text in
  (EncodeToString (take_str (String.length text) sealed), EncodeToString nonce,
   EncodeToString (drop_str (String.length text) sealed)).

Lemma Decrypt_sealed nonce text secret : aes_key secret = Ok tt -> String.length nonce = BLOCK_SIZE_BYTES ->
  let '(ciphertext, iv, tag) := sealed_with nonce text secret in
  Decrypt ciphertext iv tag secret = Ret (Ok text).
Proof.
  intros Hk Hn. unfold Decrypt, sealed_with. autorewrite with base64. by rewrite Hk, Hn, take_drop_str, open_sealed.
Qed.
Lemma Encrypt_inv text secret tr c iv tag :
  runs (Encrypt text secret) tr (Returned (Ok (c, iv, tag))) -> full_reads tr ->
  exists nonce, (c, iv, tag) = sealed_with nonce text secret /\ aes_key secret = Ok tt /\
    String.length nonce = BLOCK_SIZE_BYTES /\ exists r, tr = [ev (Sys (RandBytes BLOCK_SIZE_BYTES)) r].
Proof.
  unfold Encrypt. intros H1 Hf. apply runs_bind_ok_returned in H1 as (tr1 & tr2 & nonce & -> & Hr & H2).
  apply ReadFull_inv in Hr as (r & -> & Hr). destruct r as [bytes|e]; [|discriminate Hr].
  destruct Hr as [[= ->] Hlen]. apply full_reads_app in Hf as [Hf _]. specialize (Hlen Hf).
  destruct (aes_key secret) as [[]|e]; apply runs_inv in H2 as [-> [=]]; subst.
  eexists. split_and!; [done|done|done|]. rewrite app_nil_r. eauto.
Qed.
Lemma Encrypt_decrypts text secret tr c iv tag :
  runs (Encrypt text secret) tr (Returned (Ok (c, iv, tag))) -> full_reads tr ->
  Decrypt c iv tag secret = Ret (Ok text).
Proof.
  intros H1 Hf. destruct (Encrypt_inv _ _ _ _ _ _ H1 Hf) as (nonce & E & Hk & Hn & _).
  pose proof (Decrypt_sealed nonce text secret Hk Hn) as Hd. by rewrite <- E in Hd.
Qed.

(** The sizes that are sent: as many bytes as the text has, and 16 of tag. *)
Lemma sealed_sizes nonce text secret :
  let sealed := gcm_seal secret nonce text in
  String.length (take_str (String.length text) sealed) = String.length text /\
  String.length (drop_str (String.length text) sealed) = BLOCK_SIZE_BYTES.
Proof.
  cbn zeta. pose proof (seal_length secret nonce text) as Hl.
  assert (Ht : String.length (take_str (String.length text) (gcm_seal secret nonce text)) = String.length text)
    by (rewrite take_str_length; lia). split; [done|].
  pose proof (f_equal String.length (take_drop_str (String.length text) (gcm_seal secret nonce text))) as E.
  rewrite string_app_length in E. lia.
Qed.

(** *** The box *)

Lemma fixed_exact n data : String.length data = n -> fixed n data = data.
Proof.
  intros <-. unfold fixed. rewrite take_str_all, Nat.sub_diag by done. apply string_app_nil_r.
Qed.
Lemma fixed_length n data : String.length (fixed n data) = n.
Proof. unfold fixed. rewrite string_app_length, repeat_char_length, take_str_length. lia. Qed.

Lemma DecryptAsymmetric_sealed nonce text pk1 sk1 pk2 sk2 :
  keypair pk1 sk1 -> keypair pk2 sk2 -> String.length nonce = NACL_NONCE_SIZE_BYTES ->
  DecryptAsymmetric (EncodeToString (box_seal text nonce pk2 sk1)) (EncodeToString nonce)
    (EncodeToString pk1) (EncodeToString sk2) = Ok text.
Proof.
  intros H1 H2 Hn. destruct (keypair_size _ _ H1), (keypair_size _ _ H2).
  unfold DecryptAsymmetric. autorewrite with base64. by rewrite !fixed_exact, box_opened.
Qed.
Lemma EncryptAssymmetric_decrypts text pk1 sk1 pk2 sk2 tr c nonce :
  keypair pk1 sk1 -> keypair pk2 sk2 -> full_reads tr ->
  runs (EncryptAssymmetric text (EncodeToString pk2) (EncodeToString sk1)) tr (Returned (Ok (c, nonce))) ->
  DecryptAsymmetric c nonce (EncodeToString pk1) (EncodeToString sk2) = Ok text.
Proof.
  intros K1 K2 Hf H1. unfold EncryptAssymmetric in H1.
  apply runs_bind_ok_returned in H1 as (tr1 & tr2 & n & -> & Hr & H2). autorewrite with base64 in H2.
  apply ReadFull_inv in Hr as (r & -> & Hr). destruct r as [bytes|e]; [|discriminate Hr].
  destruct Hr as [[= ->] Hlen]. apply full_reads_app in Hf as [Hf _].
  apply runs_inv in H2 as [_ [= -> ->]]. destruct (keypair_size _ _ K1), (keypair_size _ _ K2).
  rewrite !fixed_exact by done. apply DecryptAsymmetric_sealed; auto.
Qed.
End Laws.

(** *** The key made of a password *)

(** Any password makes a key AES-256 takes. *)
Lemma secretOfPassword_length p : String.length (secretOfPassword p) = 32%nat.
Proof.
  unfold secretOfPassword. destruct (Nat.leb_spec 32 (String.length p)) as [H|H].
  - rewrite take_str_length. lia.
  - rewrite string_app_length, repeat_char_length. lia.
Qed.
Lemma secretOfPassword_key p : aes_key (secretOfPassword p) = Ok tt.
Proof. unfold aes_key. rewrite secretOfPassword_length, decide_True; [done|set_solver]. Qed.

(** But passwords that differ by leading zeros, or after 32 bytes, make the same. *)
Lemma secretOfPassword_zero p : (String.length p < 32)%nat -> secretOfPassword (String "0" p) = secretOfPassword p.
Proof.
  intros H. unfold secretOfPassword. cbn [String.length].
  destruct (Nat.leb_spec 32 (S (String.length p))) as [H1|H1], (Nat.leb_spec 32 (String.length p)) as [H2|H2];
    try lia.
  - replace (32 - String.length p)%nat with 1%nat by lia. change (take_str 32 (String "0" p)) with (String "0" (take_str 31 p)). by rewrite take_str_all by lia.
  - replace (32 - String.length p)%nat with (S (32 - S (String.length p))) by lia.
    generalize (32 - S (String.length p))%nat as n. intros n. induction n as [|n IH]; [done|].
    exact (f_equal (String "0") IH).
Qed.

(** Opening with a nonce that has not 16 bytes is not an error but a panic. *)
Lemma Decrypt_short_nonce_panics `{Ciphers} c tag secret cs ts :
  aes_key secret = Ok tt -> DecodeString c = Ok cs -> DecodeString tag = Ok ts ->
  Decrypt c (EncodeToString "short") tag secret = Panic "crypto/cipher: incorrect nonce length given to GCM".
Proof. intros Hk Hc Ht. unfold Decrypt. by rewrite DecodeString_encoded, Hk, Hc, Ht. Qed.

(** ** Ciphers that keep the laws, though no secrets *)

Definition toy_tag : string := "0123456789abcdef".
#[export] Instance toy_ciphers : Ciphers := {|
  gcm_seal key nonce text := text +:+ toy_tag;
  gcm_open key nonce sealed := Some (take_str (String.length sealed - 16) sealed);
  box_seal text nonce pk sk := text;
  box_open sealed nonce pk sk := Some sealed |}.
#[export] Program Instance toy_laws : @CipherLaws toy_ciphers := {|
  keypair pk sk := String.length pk = 32%nat /\ String.length sk = 32%nat |}.
Next Obligation. done. Qed.
Next Obligation. intros. cbn. by rewrite string_app_length. Qed.
Next Obligation.
  intros. cbn. rewrite string_app_length. replace (_ + _ - 16)%nat with (String.length text) by (cbn; lia).
  by rewrite take_str_app.
Qed.
Next Obligation. done. Qed.
