(* ===== verification/VaultDb.v ===== *)
(** * The vault's client of Infisical's database

    src/pkg/vault/infisical/postgres.go: the rows it reads and writes, and the
    statements.  A statement with names is sent with the values of the row it
    is made of; what a query answers is its first row. *)

From S2P Require Import Prelude Effects Apr World.

(** ** Rows *)

Record UserPG : Set := mkUserPG {
  us_ID : option string; us_Email : string; us_AuthMethods : list string; us_SuperAdmin : bool; us_FirstName : string;
  us_LastName : string; us_IsAccepted : bool; us_IsMfaEnabled : bool; us_MfaMethods : list string; us_IsGhost : bool;
  us_Username : string }.
Record OrgMembershipsPG : Set := mkMembership {
  om_ID : option string; om_Role : string; om_Status : string; om_InviteEmail : string; om_UserId : string;
  om_OrgId : string; om_RoleId : option string }.

(** The columns a row is written to: the fields by their tags, without those
    that are empty and tagged so; and the row under a new key. *)
Class Row (T : Set) : Type := { columns : T -> list (string * sqlval); setId : T -> string -> T }.

Definition opt_col (name : string) (v : option string) : list (string * sqlval) :=
  match v with Some s => [(name, SqlStr s)] | None => [] end.
Definition list_col (name : string) (l : list string) : list (string * sqlval) :=
  match l with [] => [] | _ => [(name, SqlStr (join "," l))] end.

#[export] Instance row_user : Row UserPG := {|
  columns u := opt_col "id" (us_ID u) ++ [("email", SqlStr (us_Email u))] ++ list_col "authMethods" (us_AuthMethods u) ++
    [("superAdmin", SqlBool (us_SuperAdmin u)); ("firstName", SqlStr (us_FirstName u)); ("lastName", SqlStr (us_LastName u));
     ("isAccepted", SqlBool (us_IsAccepted u)); ("isMfaEnabled", SqlBool (us_IsMfaEnabled u))] ++
    list_col "mfaMethods" (us_MfaMethods u) ++
    [("isGhost", SqlBool (us_IsGhost u)); ("username", SqlStr (us_Username u))];
  setId u id := mkUserPG (Some id) (us_Email u) (us_AuthMethods u) (us_SuperAdmin u) (us_FirstName u) (us_LastName u)
    (us_IsAccepted u) (us_IsMfaEnabled u) (us_MfaMethods u) (us_IsGhost u) (us_Username u) |}.
#[export] Instance row_keys : Row UserEncryptionKeysPG := {|
  columns u := opt_col "id" (uk_ID u) ++
    [("clientPublicKey", SqlStr (uk_ClientPublicKey u)); ("serverPrivateKey", SqlStr (uk_ServerPrivateKey u));
     ("encryptionVersion", SqlInt (uk_EncryptionVersion u)); ("protectedKey", SqlStr (uk_ProtectedKey u));
     ("protectedKeyIV", SqlStr (uk_ProtectedKeyIV u)); ("protectedKeyTag", SqlStr (uk_ProtectedKeyTag u));
     ("publicKey", SqlStr (uk_PublicKey u)); ("encryptedPrivateKey", SqlStr (uk_EncryptedPrivateKey u));
     ("iv", SqlStr (uk_IV u)); ("tag", SqlStr (uk_Tag u)); ("salt", SqlStr (uk_Salt u));
     ("verifier", SqlStr (uk_Verifier u)); ("userId", SqlStr (uk_UserID u))] ++ opt_col "orgId" (uk_OrgId u);
  setId u id := mkUserKeys (Some id) (uk_ClientPublicKey u) (uk_ServerPrivateKey u) (uk_EncryptionVersion u)
    (uk_ProtectedKey u) (uk_ProtectedKeyIV u) (uk_ProtectedKeyTag u) (uk_PublicKey u) (uk_EncryptedPrivateKey u)
    (uk_IV u) (uk_Tag u) (uk_Salt u) (uk_Verifier u) (uk_UserID u) (uk_OrgId u) |}.
#[export] Instance row_org : Row OrganizationsPG := {|
  columns o := opt_col "id" (og_ID o) ++ [("name", SqlStr (og_Name o)); ("customerId", SqlStr ""); ("slug", SqlStr "");
    ("authEnforced", SqlBool false); ("scimEnabled", SqlBool false)];
  setId o id := mkOrg (Some id) (og_Name o) |}.
#[export] Instance row_membership : Row OrgMembershipsPG := {|
  columns o := opt_col "id" (om_ID o) ++ [("role", SqlStr (om_Role o)); ("status", SqlStr (om_Status o));
    ("inviteEmail", SqlStr (om_InviteEmail o)); ("userId", SqlStr (om_UserId o)); ("orgId", SqlStr (om_OrgId o))] ++
    opt_col "roleId" (om_RoleId o);
  setId o id := mkMembership (Some id) (om_Role o) (om_Status o) (om_InviteEmail o) (om_UserId o) (om_OrgId o) (om_RoleId o) |}.
#[export] Instance row_session : Row AuthTokenSessionsPG := {|
  columns s := opt_col "id" (ts_ID s) ++ [("ip", SqlStr (ts_IP s))] ++ opt_col "userAgent" (ts_UserAgent s) ++
    [("refreshVersion", SqlInt (ts_RefreshVersion s)); ("accessVersion", SqlInt (ts_AccessVersion s));
     ("userId", SqlStr (ts_UserId s)); ("lastUsed", SqlInt (ts_LastUsed s))];
  setId s id := mkSession (Some id) (ts_IP s) (ts_UserAgent s) (ts_RefreshVersion s) (ts_AccessVersion s) (ts_UserId s)
    (ts_LastUsed s) |}.

(** ** Statements *)

(** [ValueMapper]: the columns and their placeholders, in the order in which the
    map of the fields is ranged over. *)
Definition column_map (l : list (string * sqlval)) : gmap string string := list_to_map (map (fun c => (c.1, "")) l).
Definition ValueMapper {T} `{Row T} (obj : T) : io (list string * list string) :=
  let! values := sys_call (RangeMap (column_map (columns obj))) in
  Ret (map (fun kv => quoted kv.1) values, map (fun kv => ":" +:+ kv.1) values).

Definition insert_sql (table : string) (fields keys : list string) : string :=
  "insert into " +:+ table +:+ "(" +:+ join "," fields +:+ ") values(" +:+ join "," keys +:+ ")".
(** The key is an answer also when the statement has failed. *)
Definition insert {T} `{Row T} (client : nat) (table : string) (obj : T) : io (string * res unit) :=
  let! id := vt_call NewUuid in
  let obj := setId obj id in
  let! fk := ValueMapper obj in
  let! err := vt_call (InfNamedExec client (insert_sql table fk.1 fk.2) (columns obj)) in
  Ret (id : string, err : res unit).
Definition Create {T} `{Row T} (client : nat) (table : string) (obj : T) : io (res string) :=
  let! created := insert client table obj in
  Ret (match created.2 with Ok _ => Ok created.1 | Err e => Err e end).

Definition delete_sql (table whereClause : string) : string := "delete from " +:+ table +:+ " " +:+ whereClause.
Definition delete (client : nat) (table whereClause : string) : io (res unit) :=
  vt_call (InfExec client (delete_sql table whereClause)).

Definition users_table : string := "users".
Definition keys_table : string := "user_encryption_keys".
Definition memberships_table : string := "org_memberships".

(** ** Operations *)

Definition NewClient (dsn : string) : io (res nat) := vt_call (InfConnect dsn).
Definition Close (client : nat) : io unit := vt_call (InfClose client).

(** The first row of a query, scanned. *)
Definition first_row (s : selected) (client : nat) (sql : string) (arg : list (string * string)) : io (res (option (row s))) :=
  let? found := vt_call (InfQuery s client sql arg) in
  match found with
  | None => Ret (Ok None)
  | Some (Ok r) => Ret (Ok (Some r))
  | Some (Err e) => Ret (Err e)
  end.

(** An error of the creation is only logged. *)
Definition UpdateSuperAdmin (client : nat) : io (res string) :=
  do? vt_call (InfExec client "update super_admin set initialized = true");
  let? org := first_row OrgRow client "select * from organizations where name = :name" [("name", "Terminus")] in
  match org with
  | Some org => let! id := deref (og_ID org) in Ret (Ok id)
  | None =>
      let! created := insert client "organizations" (mkOrg None "Terminus") in
      Ret (Ok created.1)
  end.

Definition user_sql : string :=
  "select b.*, c." +:+ quoted "orgId" +:+ " from users a, user_encryption_keys b, org_memberships c where a.email=:email and a.id = b."
  +:+ quoted "userId" +:+ " and a.id = c." +:+ quoted "userId".
Definition GetUser (client : nat) (email : string) : io (res (option UserEncryptionKeysPG)) :=
  if String.eqb email "" then Ret (Err (newErr "email is empty"))
  else first_row UserRow client user_sql [("email", email)].

Definition session_sql : string :=
  "select * from auth_token_sessions where " +:+ quoted "userId" +:+ "=:userId and ip = :ip and " +:+ quoted "userAgent" +:+ " = :userAgent".
Definition GetUserTokenSession (client : nat) (userId ip userAgent : string) : io (res AuthTokenSessionsPG) :=
  if String.eqb userId "" then Ret (Err (newErr "user is empty"))
  else
    let? found := first_row SessionRow client session_sql [("userId", userId); ("ip", ip); ("userAgent", userAgent)] in
    match found with
    | Some session => Ret (Ok session)
    | None =>
        let! now := sys_call Now in
        let session := mkSession None ip (Some userAgent) 1 1 userId now in
        let? sid := Create client "auth_token_sessions" session in
        Ret (Ok (setId session sid))
    end.

Definition with_user (u : UserEncryptionKeysPG) (uid : string) : UserEncryptionKeysPG :=
  mkUserKeys (uk_ID u) (uk_ClientPublicKey u) (uk_ServerPrivateKey u) (uk_EncryptionVersion u) (uk_ProtectedKey u)
    (uk_ProtectedKeyIV u) (uk_ProtectedKeyTag u) (uk_PublicKey u) (uk_EncryptedPrivateKey u) (uk_IV u) (uk_Tag u)
    (uk_Salt u) (uk_Verifier u) uid (uk_OrgId u).
Definition SaveUser (client : nat) (orgId : string) (user : option UserPG) (userEnc : option UserEncryptionKeysPG) : io (res string) :=
  match user with
  | None => Ret (Err (newErr "user is empty"))
  | Some user =>
      let? uid := Create client users_table user in
      do? match userEnc with
          | Some enc => let? _ := Create client keys_table (with_user enc uid) in Ret (Ok tt)
          | None => Ret (Ok tt)
          end;
      let? _ := Create client memberships_table (mkMembership None "admin" "accepted" "" uid orgId None) in
      Ret (Ok uid)
  end.

(** Only an error of the first statement is returned. *)
Definition DeleteUser (client : nat) (userId : string) : io (res unit) :=
  do? delete client "user" ("id = " +:+ userId);
  do! delete client keys_table ("userId = " +:+ userId);
  do! delete client memberships_table ("userId = " +:+ userId);
  Ret (Ok tt).
