(* ===== verification/VaultApi.v ===== *)
(** * The vault's client of Infisical's REST interface

    The clients of workspaces, users and secrets in
    src/pkg/vault/infisical/controllers (workspace.go, user.go, secret.go,
    types.go).  An answer has a status, a text, and what its body is decoded to
    by the result the request was given.

    [CreateWorkspace] holds the client's mutex from its first line to its last:
    its text is one step for the other callers of [CreateWorkspace], and only
    for them. *)

From S2P Require Import Prelude Effects Apr World Base64 Crypto.

(** ** [types.go] *)

Record Secret : Set := mkVaultSecret { sc_Name : string; sc_Value : string; sc_Environment : string }.
Definition DefaulSecretEnv : string := "prod".
Definition env_or_default (env : string) : string := if String.eqb env "" then DefaulSecretEnv else env.

Record RequiredOp : Set := mkRequiredOp { rop_Op : string; rop_Params : gmap string string }.
(** [strings.Split(p, "=")]: what is before the first sign, and between it and the second. *)
Definition param_of (p : string) : string * string :=
  match split_char "="%char p with
  | k :: v :: _ => (k, v)
  | [k] => (k, "")
  | [] => ("", "")
  end.
Definition DecodeOps (op : string) : RequiredOp :=
  match split_char "?"%char op with
  | name :: query :: _ =>
      mkRequiredOp name (fold_left (fun m p => if String.eqb p "" then m else let '(k, v) := param_of p in <[k := v]> m)
                           (split_char "&"%char query) ∅)
  | [name] => mkRequiredOp name ∅
  | [] => mkRequiredOp "" ∅
  end.

(** ** One request *)

Section Clients.
Context `{Ciphers} (InfisicalAddr : string).

(** The request and the two checks that follow every one of them. *)
Definition api (d : decoded) (method path token : string) (query : list (string * string)) (body : option json)
    : io (res (decoded_to d)) :=
  let? resp := vt_call (Infisical d method (InfisicalAddr +:+ path) token query body) in
  Ret (if Z.eqb (if_Status d resp) 200 then Ok (if_Result d resp) else Err (newErr (if_Body d resp))).

(** *** [workspace.go] *)

Definition WORKSPACE_KEY_SIZE_BYTES : nat := 16.
Definition UserWorkspaceName (workflowName user : string) : string := workflowName +:+ "-" +:+ user.
Definition NotFoundPrefix (err : gerr) : bool := has_prefix "not found" (err_msg err).

Definition workspaces_path (orgId : string) : string := "/api/v2/organizations/" +:+ orgId +:+ "/workspaces".
Definition workspaces_of (token orgId : string) : io (res (list (string * string))) :=
  let? items := api WorkspaceList "GET" (workspaces_path orgId) token [] None in
  Ret (match items with
       | [] => Err (newErr "not found the workspaces of user org")
       | _ => Ok items
       end).
Definition id_named (workspace : string) (items : list (string * string)) : option string :=
  option_map fst (List.find (fun w => String.eqb w.2 workspace) items).
Definition GetWorkspace (token orgId workspace : string) : io (res string) :=
  let? items := workspaces_of token orgId in
  Ret (match id_named workspace items with
       | Some id => Ok id
       | None => Err (newErr ("not found the workspace: " +:+ workspace))
       end).
Definition ListWorkspace (token orgId : string) : io (res (list string)) :=
  let? items := workspaces_of token orgId in Ret (Ok (map snd items)).

Definition CreateWorkspace (token orgId workspace : string) : io (res string) :=
  let! got := GetWorkspace token orgId workspace in
  match got with
  | Ok workspaceId => Ret (Ok workspaceId)
  | Err e =>
      if negb (NotFoundPrefix e) then Ret (Err e)
      else
        let? project := api ProjectOf "POST" "/api/v2/workspace" token [] (Some (JObj [("projectName", JStr workspace)])) in
        let! project := deref project in
        Ret (Ok (fst project))
  end.
Definition DeleteWorkspace (token workspaceId : string) : io (res unit) :=
  let? _ := api WorkspaceList "DELETE" ("/api/v1/workspace/" +:+ workspaceId) token [] None in Ret (Ok tt).

(** [utils.Hex]: two digits for each byte. *)
Fixpoint hex_of (s : string) : string :=
  match s with
  | EmptyString => ""
  | String c s' =>
      let z := Z.of_N (Ascii.N_of_ascii c) in
      String (hex_digit (z / 16)) (String (hex_digit (z mod 16)) (hex_of s'))
  end.
Definition uploadKeyToWorkspace (user : UserEncryptionKeysPG) (token workspaceId privateKey : string) : io (res unit) :=
  let? key := ReadFull WORKSPACE_KEY_SIZE_BYTES in
  let? sealed := EncryptAssymmetric (hex_of key) (uk_PublicKey user) privateKey in
  let? _ := api Nothing "POST" ("/api/v1/key/" +:+ workspaceId) token []
    (Some (JObj [("key", JObj [("userId", JStr (uk_UserID user)); ("encryptedKey", JStr sealed.1); ("nonce", JStr sealed.2)])])) in
  Ret (Ok tt).
Definition key_path (workspaceId : string) : string := "/api/v2/workspace/" +:+ workspaceId +:+ "/encrypted-key".
Definition GetWorkspaceKey (token workspaceId privateKey : string) : io (res string) :=
  let? key := api KeyOf "GET" (key_path workspaceId) token [] None in
  Ret (DecryptAsymmetric (ek_Encryptedkey key) (ek_Nonce key) (ek_SenderPublicKey key) privateKey).

(** *** [user.go] *)

Definition GetUserOrganizationId (token : string) : io (res string) :=
  let? orgs := api OrganizationIds "GET" "/api/v2/users/me/organizations" token [] None in
  Ret (match orgs with [] => Err (newErr "user doesn't has organizations") | id :: _ => Ok id end).
Definition GetUserPrivateKey (user : UserEncryptionKeysPG) (password : string) : io (res string) :=
  DecryptUserPrivateKeyHelper user password.

(** *** [secret.go] *)

Definition secrets_path : string := "/api/v3/secrets/".
Definition scope_query (workspaceId env : string) : list (string * string) :=
  [("environment", env_or_default env); ("workspaceId", workspaceId); ("type", "shared")].
Definition scope_fields (workspaceId env : string) : list (string * json) :=
  [("workspaceId", JStr workspaceId); ("environment", JStr (env_or_default env)); ("type", JStr "shared")].
(** The three pieces of an encrypted text under the names of the interface. *)
Definition sealed_fields (prefix : string) (sealed : string * string * string) : list (string * json) :=
  let '(ciphertext, iv, tag) := sealed in
  [(prefix +:+ "Ciphertext", JStr ciphertext); (prefix +:+ "IV", JStr iv); (prefix +:+ "Tag", JStr tag)].

Definition CreateSecretInWorkspace (token workspaceId projectKey secretName secretValue env : string) : io (res unit) :=
  let? key := Encrypt secretName projectKey in
  let? value := Encrypt secretValue projectKey in
  let? _ := api Nothing "POST" (secrets_path +:+ secretName) token []
    (Some (JObj (scope_fields workspaceId env ++ sealed_fields "secretKey" key ++ sealed_fields "secretValue" value))) in
  Ret (Ok tt).

(** [valueOf]: empty if it is not there, and a panic if it is no text. *)
Definition valueOf (m : gmap string json) (k : string) : io string :=
  match m !! k with
  | None => Ret ""
  | Some (JStr s) => Ret s
  | Some _ => Panic "interface conversion: interface {} is not string"
  end.
Definition decrypt_field (m : gmap string json) (prefix projectKey : string) : io (res string) :=
  let! ciphertext := valueOf m (prefix +:+ "Ciphertext") in
  let! iv := valueOf m (prefix +:+ "IV") in
  let! tag := valueOf m (prefix +:+ "Tag") in
  Decrypt ciphertext iv tag projectKey.
Definition decrypt_secret (projectKey : string) (m : gmap string json) : io (res (string * string)) :=
  let? name := decrypt_field m "secretKey" projectKey in
  let? value := decrypt_field m "secretValue" projectKey in
  Ret (Ok (name, value)).

Definition GetSecretInWorkspace (token workspaceId projectKey env secretName : string) : io (res (string * string)) :=
  let? result := api SecretOf "GET" (secrets_path +:+ secretName) token (scope_query workspaceId env) None in
  decrypt_secret projectKey result.
Definition ListSecretInWorkspace (token workspaceId projectKey env : string) : io (res (list (string * string))) :=
  let? results := api SecretList "GET" secrets_path token (scope_query workspaceId env) None in
  fold_each (fun secrets result =>
    let! m := deref result in
    let? nv := decrypt_secret projectKey m in
    Ret (Ok (secrets ++ [nv]))) results [].
Definition DeleteSecretInWorkspace (token workspaceId env secretName : string) : io (res unit) :=
  let? _ := api Nothing "DELETE" (secrets_path +:+ secretName) token [] (Some (JObj (scope_fields workspaceId env))) in
  Ret (Ok tt).
Definition UpdateSecretInWorkspace (token workspaceId projectKey secretName secretValue env : string) : io (res unit) :=
  let? value := Encrypt secretValue projectKey in
  let? _ := api Nothing "PATCH" (secrets_path +:+ secretName) token []
    (Some (JObj (scope_fields workspaceId env ++ sealed_fields "secretValue" value))) in
  Ret (Ok tt).
End Clients.
