(* ===== verification/Vault.v ===== *)
(** * The secret vault's HTTP server

    src/pkg/vault/infisical (init.go, token.go) and its controllers (auth.go,
    middlewares.go, secret.go, user.go, admin.go) behind src/cmd/vault/app: the
    user of the header, the tokens issued for him, his private key, and the
    handlers that reach his workspaces with them.

    A body arrives as what decoding it makes of it.  A body of an answer that is
    not an object with a code is given with [StatusOK]. *)

From S2P Require Import Prelude Effects Apr World Base64 Crypto VaultDb VaultApi KVRocks MwServer.

(** ** [init.go] *)

Definition ProtectedNamespace : string := "os-protected".
(** The package's variables, as [init] leaves them; [Org] is set by
    [InitSuperAdmin]. *)
Record Config : Set := mkConfig {
  cf_InfisicalDBUser : string; cf_InfisicalDBName : string; cf_InfisicalDBAddr : string; cf_InfisicalAddr : string;
  cf_Password : string }.
Definition GetenvOrDefault (env d : string) : io string :=
  let! v := sys_call (Getenv env) in Ret (if String.eqb v "" then d else v).
Definition init_config : io Config :=
  let! user := GetenvOrDefault "PG_USER" "infisical" in
  let! db := GetenvOrDefault "PG_DB" "infisical" in
  let! dbAddr := sys_call (Getenv "PG_ADDR") in
  let! addr := GetenvOrDefault "INFISICAL_URL" ("http://infisical-service." +:+ ProtectedNamespace) in
  let! password := sys_call (Getenv "PASSWORD") in
  Ret (mkConfig user db dbAddr addr password).

Definition InitSuperAdmin (pg : nat) : io (res string) := UpdateSuperAdmin pg.

(** ** What the request's context holds *)

Record Ctx : Set := mkCtx {
  cx_Username : option string; cx_Email : option string; cx_Password : option string;
  cx_User : option UserEncryptionKeysPG; cx_OrgId : option string; cx_RefreshToken : option string;
  cx_AuthToken : option string; cx_PrivateKey : option string }.
Definition with_infisical_user (c : Ctx) (u : UserEncryptionKeysPG) (orgId : string) : Ctx :=
  mkCtx (cx_Username c) (cx_Email c) (cx_Password c) (Some u) (Some orgId) (cx_RefreshToken c) (cx_AuthToken c) (cx_PrivateKey c).
Definition with_tokens (c : Ctx) (refresh auth : string) : Ctx :=
  mkCtx (cx_Username c) (cx_Email c) (cx_Password c) (cx_User c) (cx_OrgId c) (Some refresh) (Some auth) (cx_PrivateKey c).
Definition with_private_key (c : Ctx) (key : string) : Ctx :=
  mkCtx (cx_Username c) (cx_Email c) (cx_Password c) (cx_User c) (cx_OrgId c) (cx_RefreshToken c) (cx_AuthToken c) (Some key).
Definition with_org (c : Ctx) (orgId : string) : Ctx :=
  mkCtx (cx_Username c) (cx_Email c) (cx_Password c) (cx_User c) (Some orgId) (cx_RefreshToken c) (cx_AuthToken c) (cx_PrivateKey c).

(** What an answer carries besides code and message; [NoBody] is the empty 200 of
    a handler that returns nil, and [StillConnecting] stands for no answer yet. *)
Inductive VData : Set :=
  | NoBody
  | StillConnecting
  | TokenData (token secretKey : string)
  | KeysData (u : UserEncryptionKeysPG)
  | SecretData (s : Secret)
  | SecretsData (l : list Secret)
  | PermissionData (permission : bool)
  | AppKeys (l : list (string * string)).       (* workspace, key *)
Definition handler : Type := Ctx -> io (answer VData).
Definition StatusOK : Z := 0.
Definition no_auth_token : answer VData := Failed (GoError (newErr "no auth token")).
Definition internal (what : string) (e : gerr) : answer VData := JSON 500 (what +:+ err_msg e) None.
Definition ok_msg (what : string) : answer VData := JSON StatusOK what None.
Definition ok_data (d : VData) : answer VData := JSON StatusOK "" (Some d).

(** [r, err := m; if err != nil { return c.JSON(500, what + err) }] *)
Definition or_500 {A} (what : string) (m : io (res A)) (k : A -> io (answer VData)) : io (answer VData) :=
  let! r := m in match r with Ok a => k a | Err e => Ret (internal what e) end.

Section Vault.
Context `{Ciphers} (cfg : Config).
Let addr : string := cf_InfisicalAddr cfg.

(** ** [server.go]: the database's account *)

Definition getSecretPwd (secretName secretKey : string) : io (res string) :=
  let? secret := k8s_call (GetSecret ProtectedNamespace secretName) in
  Ret (Ok (default "" (sec_Data secret !! secretKey))).
Definition getPostgresUserAndPwd : io (res (string * string)) :=
  let? pwd := getSecretPwd "infisical-postgres" "postgres-passwords" in
  Ret (Ok (cf_InfisicalDBUser cfg, pwd)).
Definition dsn_of (up : string * string) : string :=
  "postgres://" +:+ up.1 +:+ ":" +:+ up.2 +:+ "@" +:+ cf_InfisicalDBAddr cfg +:+ "/" +:+ cf_InfisicalDBName cfg +:+ "?sslmode=disable".

(** The loop that waits for the database has no bound: [rounds] attempts of it,
    and nothing if none of them was answered. *)
Fixpoint connect (rounds : nat) (dsn : string) : io (option nat) :=
  match rounds with
  | O => Ret None
  | S n =>
      let! client := NewClient dsn in
      match client with
      | Ok conn => Ret (Some conn)
      | Err _ => do! sys_call (Sleep 1); connect n dsn
      end
  end.
Definition when_connected {A} (rounds : nat) (dsn : string) (k : nat -> io A) : io (option A) :=
  let! client := connect rounds dsn in
  match client with
  | None => Ret None
  | Some conn => let! a := with_defer (Close conn) (k conn) in Ret (Some a)
  end.

Definition Init (rounds : nat) : io (option (res string)) :=
  let! up := getPostgresUserAndPwd in
  match up with
  | Err e => Ret (Some (Err e))
  | Ok up => when_connected rounds (dsn_of up) InitSuperAdmin
  end.

(** ** A user's keys *)

(** The key pair is made here; salt and verifier are what the node script prints. *)
Definition new_keys (password email : string) : io (res UserEncryptionKeysPG) :=
  let? keys := vt_call BoxGenerateKey in
  let? sealed := Encrypt (EncodeToString (snd keys)) (secretOfPassword password) in
  let '(encryptPrivateKey, encryptIV, encryptTag) := sealed in
  let! printed := vt_call (Jsrp email password) in
  match printed with
  | Err e => Ret (Err (newErr ("jsrp-client: " +:+ err_msg e)))
  | Ok resStr =>
      match split_char ":"%char resStr with
      | salt :: verifier :: _ =>
          Ret (Ok (mkUserKeys None "" "" 1 "" "" "" (EncodeToString (fst keys)) encryptPrivateKey encryptIV encryptTag
                     salt verifier "" None))
      | _ => Ret (Err (newErr ("jsrp-client: return invalid, " +:+ resStr)))
      end
  end.
Definition new_user (username email : string) : UserPG :=
  mkUserPG None email [] false "" username true false [] false username.
Definition InsertKsUserToPostgres (Org : string) (pg : nat) (username email password : string) : io (res unit) :=
  let? keys := new_keys password email in
  let? _ := SaveUser pg Org (Some (new_user username email)) (Some keys) in
  Ret (Ok tt).
Definition DeleteUserFromPostgres (pg : nat) (userId : string) : io (res unit) := DeleteUser pg userId.

(** ** [token.go] *)

Definition ten_days : Z := 864000.
Definition issueToken (userId key : string) (expireIn : Z) (tokenType sessionId orgId : string) : io (res string) :=
  let av := if String.eqb tokenType "accessToken" then Some 1%Z else None in
  let rv := if String.eqb tokenType "refreshToken" then Some 1%Z else None in
  let! now := sys_call Now in
  let! later := sys_call Now in
  vt_call (JwtSign (mkClaims userId tokenType sessionId av rv orgId "email" now (later + expireIn)) key).
Definition getJwtSecret : io (res (string * string)) :=
  let? secret := k8s_call (GetSecret ProtectedNamespace "infisical-backend") in
  Ret (Ok (default "" (sec_Data secret !! "JWT_AUTH_SECRET"), default "" (sec_Data secret !! "JWT_REFRESH_SECRET"))).
Definition getUserFromInfisicalPostgres (email : string) : io (res (UserEncryptionKeysPG * AuthTokenSessionsPG)) :=
  let? up := getPostgresUserAndPwd in
  let? pg := NewClient (dsn_of up) in
  with_defer (Close pg)
    (let? userEnc := VaultDb.GetUser pg email in
     match userEnc with
     | None => Ret (Err (newErr ("user " +:+ email +:+ " not found")))
     | Some u =>
         let? session := GetUserTokenSession pg (uk_UserID u) "localhost" "tapr-sidecar" in
         Ret (Ok (u, session))
     end).

Definition unauthorized (text : string) : answer VData := JSON 401 text None.
Definition IssueInfisicalToken (next : handler) : handler := fun c =>
  match cx_Email c with
  | None => Ret (unauthorized "auth user email is invalid")
  | Some email =>
      let! found := getUserFromInfisicalPostgres email in
      match found with
      | Err e => Ret (unauthorized ("get user from infisical error, " +:+ err_msg e +:+ ", " +:+ email))
      | Ok (user, session) =>
          let! orgId := deref (uk_OrgId user) in
          let c := with_infisical_user c user orgId in
          let! keys := getJwtSecret in
          match keys with
          | Err e => Ret (unauthorized ("get user jwt key error, " +:+ err_msg e))
          | Ok (authKey, _) =>
              let! sid := deref (ts_ID session) in
              let! refreshToken := issueToken (uk_UserID user) authKey ten_days "refreshToken" sid orgId in
              match refreshToken with
              | Err e => Ret (unauthorized ("unable to sign refresh token, " +:+ err_msg e))
              | Ok refreshToken =>
                  let! authToken := issueToken (uk_UserID user) authKey ten_days "accessToken" sid orgId in
                  match authToken with
                  | Err e => Ret (unauthorized ("unable to sign auth token, " +:+ err_msg e))
                  | Ok authToken => next (with_tokens c refreshToken authToken)
                  end
              end
          end
      end
  end.

(** ** [middlewares.go] *)

Definition FetchUserPrivateKey (next : handler) : handler := fun c =>
  let! user := deref (cx_User c) in
  let! password := deref (cx_Password c) in
  or_500 "get user private key error, " (GetUserPrivateKey user password) (fun key => next (with_private_key c key)).
Definition FetchUserOrganizationId (next : handler) : handler := fun c =>
  match cx_OrgId c with
  | Some _ => next c
  | None =>
      let! token := deref (cx_AuthToken c) in
      or_500 "get user organization error, " (GetUserOrganizationId addr token) (fun orgId => next (with_org c orgId))
  end.

(** ** [auth.go] *)

Definition AuthToken : handler := fun c =>
  match cx_AuthToken c with
  | None => Ret no_auth_token
  | Some token => Ret (ok_data (TokenData token (cf_Password cfg)))
  end.
Definition PrivateKey : handler := fun c =>
  match cx_AuthToken c, cx_User c with
  | None, _ => Ret no_auth_token
  | Some _, None => Ret (Failed (GoError (newErr "no user data")))
  | Some _, Some u => Ret (ok_data (KeysData u))
  end.

(** ** [secret.go] *)

Definition no_workspace_param : answer VData := JSON 400 "invalid request, none of the workspace param" None.
(** The beginning of every handler of secrets; two of them also take the user from
    the context. *)
Definition with_secret (user_too : bool) (body : res Secret) (workspace : string) (c : Ctx)
    (k : string -> Secret -> string -> string -> string -> io (answer VData)) : io (answer VData) :=
  match cx_AuthToken c with
  | None => Ret no_auth_token
  | Some token =>
      match body with
      | Err e => Ret (Failed (GoError e))
      | Ok secret =>
          if String.eqb workspace "" then Ret no_workspace_param
          else
            do! (if user_too then let! _ := deref (cx_User c) in Ret tt else Ret tt);
            let! orgId := deref (cx_OrgId c) in
            let! userPrivateKey := deref (cx_PrivateKey c) in
            let! userName := deref (cx_Username c) in
            k token secret orgId userPrivateKey (UserWorkspaceName workspace userName)
      end
  end.
(** The user's workspace and its key, for the handlers that do not create it. *)
Definition in_workspace (user_too : bool) (body : res Secret) (workspace : string) (c : Ctx)
    (k : string -> Secret -> string -> string -> io (answer VData)) : io (answer VData) :=
  with_secret user_too body workspace c (fun token secret orgId userPrivateKey userWorkspace =>
    or_500 "get user workspace error, " (GetWorkspace addr token orgId userWorkspace) (fun workspaceId =>
      or_500 "get user workspace key error, " (GetWorkspaceKey addr token workspaceId userPrivateKey)
        (k token secret workspaceId))).

Definition CreateSecret (body : res Secret) (workspace : string) : handler := fun c =>
  with_secret true body workspace c (fun token secret orgId userPrivateKey userWorkspace =>
    let! got := GetWorkspace addr token orgId userWorkspace in
    let with_id (workspaceId : string) : io (answer VData) :=
      or_500 "get user workspace key error, " (GetWorkspaceKey addr token workspaceId userPrivateKey) (fun projectKey =>
        or_500 "create user secret error, "
          (CreateSecretInWorkspace addr token workspaceId projectKey (sc_Name secret) (sc_Value secret) (sc_Environment secret))
          (fun _ => Ret (ok_data NoBody))) in
    match got with
    | Ok workspaceId => with_id workspaceId
    | Err e =>
        if negb (NotFoundPrefix e) then Ret (internal "get user workspace error, " e)
        else or_500 "create user workspace error, " (CreateWorkspace addr token orgId userWorkspace) with_id
    end).
Definition RetrieveSecret (body : res Secret) (workspace : string) : handler := fun c =>
  in_workspace false body workspace c (fun token secret workspaceId projectKey =>
    or_500 "retrieve secret key error, "
      (GetSecretInWorkspace addr token workspaceId projectKey (sc_Environment secret) (sc_Name secret))
      (fun nv => Ret (ok_data (SecretData (mkVaultSecret nv.1 nv.2 (sc_Environment secret)))))).
Definition ListSecret (body : res Secret) (workspace : string) : handler := fun c =>
  in_workspace false body workspace c (fun token secret workspaceId projectKey =>
    or_500 "list secret keys error, " (ListSecretInWorkspace addr token workspaceId projectKey (sc_Environment secret))
      (fun l => Ret (ok_data (SecretsData (map (fun nv => mkVaultSecret nv.1 nv.2 (sc_Environment secret)) l))))).
Definition DeleteSecret (body : res Secret) (workspace : string) : handler := fun c =>
  in_workspace false body workspace c (fun token secret workspaceId projectKey =>
    or_500 "delete secret error, "
      (DeleteSecretInWorkspace addr token workspaceId (sc_Environment secret) (sc_Name secret))
      (fun _ => Ret (ok_msg "delete secret succeed"))).
Definition UpdateSecret (body : res Secret) (workspace : string) : handler := fun c =>
  in_workspace true body workspace c (fun token secret workspaceId projectKey =>
    or_500 "update user secret error, "
      (UpdateSecretInWorkspace addr token workspaceId projectKey (sc_Name secret) (sc_Value secret) (sc_Environment secret))
      (fun _ => Ret (ok_msg "update secret succeed"))).
End Vault.
