(* ===== verification/VaultAdmin.v ===== *)
(** * The vault's settings, its users, and its routes

    src/pkg/vault/infisical/controllers/admin.go and user.go, and the routes of
    src/cmd/vault/app/server.go.  An application's workspace is what the first
    operation of its permission on secrets names. *)

From S2P Require Import Prelude Effects Apr World Base64 Crypto VaultDb VaultApi KVRocks MwServer Vault.

Record secretData : Set := mkSecretData { sd_Key : string; sd_Value : string }.
Record AppWorkspace : Set := mkAppWorkspace { aw_Name : string; aw_Id : string; aw_Key : string }.
(** The error that is told apart by its identity, and every other. *)
Inductive perm_error : Set := ErrorNoPerm | PermError (e : gerr).
Definition perm_text (e : perm_error) : gerr :=
  match e with ErrorNoPerm => newErr "app didn't has perm on infisical secret" | PermError e => e end.

(** The workspace a permission is for. *)
Definition secret_workspace (pr : PermissionRequire) : option string :=
  if String.eqb (pq_DataType pr) "secret" && String.eqb (pq_Group pr) "secret.infisical" && String.eqb (pq_Version pr) "v1"
  then match pq_Ops pr with
       | op :: _ => rop_Params (DecodeOps op) !! "workspace"
       | [] => None
       end
  else None.
Definition system_namespace (username : string) : string := "user-system-" +:+ username.

Section Admin.
Context `{Ciphers} (cfg : Config).
Let addr : string := cf_InfisicalAddr cfg.

(** ** [getAppSecretWorkspaces] *)

(** What one permission adds: the workspace, with identifier and key if it is
    there, and an error if it is not. *)
Definition app_workspace (token orgId userPrivateKey username : string) (acc : list AppWorkspace * list gerr)
    (pr : PermissionRequire) : io (res (list AppWorkspace * list gerr)) :=
  match secret_workspace pr with
  | None => Ret (Ok acc)
  | Some workspaceName =>
      let userWorkspace := UserWorkspaceName workspaceName username in
      let! got := GetWorkspace addr token orgId userWorkspace in
      let absent := mkAppWorkspace userWorkspace "" "" in
      match got with
      | Err e =>
          if negb (NotFoundPrefix e) then Ret (Err e)
          else Ret (Ok (acc.1 ++ [absent], acc.2 ++ [e]))
      | Ok workspaceId =>
          if String.eqb workspaceId "" then Ret (Ok (acc.1 ++ [absent], acc.2))
          else
            let? projectKey := GetWorkspaceKey addr token workspaceId userPrivateKey in
            Ret (Ok (acc.1 ++ [mkAppWorkspace userWorkspace workspaceId projectKey], acc.2))
      end
  end.
(** Whether a permission of the application was found is counted over all items. *)
Definition app_item (token orgId userPrivateKey username appName : string)
    (acc : bool * (list AppWorkspace * list gerr)) (item : res AppPermission) : io (res (bool * (list AppWorkspace * list gerr))) :=
  match item with
  | Err e => Ret (Err e)
  | Ok appperm =>
      if String.eqb (ap_App appperm) appName
      then let? l := fold_each (app_workspace token orgId userPrivateKey username) (ap_Permission appperm) acc.2 in Ret (Ok (true, l))
      else Ret (Ok acc)
  end.
Definition getAppSecretWorkspaces (token orgId userPrivateKey username appName : string) : io (list AppWorkspace * option perm_error) :=
  let! permList := vt_call (ListAppPermissions (system_namespace username)) in
  match permList with
  | Err e => Ret ([], Some (PermError e))
  | Ok [] => Ret ([], Some ErrorNoPerm)
  | Ok items =>
      let! r := fold_each (app_item token orgId userPrivateKey username appName) items (false, ([], [])) in
      Ret (match r with
           | Err e => ([], Some (PermError e))
           | Ok (foundPerm, (workspaces, [])) => if foundPerm then (workspaces, None) else ([], Some ErrorNoPerm)
           | Ok (_, (workspaces, errs)) => (workspaces, Some (PermError (NewAggregate (map err_msg errs))))
           end)
  end.

(** ** The handlers of settings *)

(** Their common beginning: the application, the token, the body of those that
    have one, and what the context holds. *)
Definition for_app {B} (app : string) (user_too : bool) (body : res B) (c : Ctx)
    (k : string -> B -> string -> string -> string -> io (answer VData)) : io (answer VData) :=
  if String.eqb app "" then Ret (Failed (GoError (newErr "app name is empty")))
  else match cx_AuthToken c with
  | None => Ret no_auth_token
  | Some token =>
      match body with
      | Err e => Ret (JSON 400 ("send data invalid, " +:+ err_msg e) None)
      | Ok data =>
          do! (if user_too then let! _ := deref (cx_User c) in Ret tt else Ret tt);
          let! username := deref (cx_Username c) in
          let! orgId := deref (cx_OrgId c) in
          let! userPrivateKey := deref (cx_PrivateKey c) in
          k token data username orgId userPrivateKey
      end
  end.

Definition CheckAppSecretPerm (app : string) : handler := fun c =>
  for_app app false (Ok tt) c (fun token _ username orgId userPrivateKey =>
    let! w := getAppSecretWorkspaces token orgId userPrivateKey username app in
    Ret (match w with
         | ([], Some (PermError e)) => internal "check app secret permission error, " e
         | (l, err) => ok_data (PermissionData (match err with Some ErrorNoPerm => false | _ => true end &&
                                                negb (Nat.eqb (length l) 0)))
         end)).

(** The keys of one workspace, those that are there. *)
Definition workspace_keys (token : string) (secrets : list (string * string)) (w : AppWorkspace) : io (res (list (string * string))) :=
  if String.eqb (aw_Id w) "" then Ret (Ok secrets)
  else
    let? l := ListSecretInWorkspace addr token (aw_Id w) (aw_Key w) DefaulSecretEnv in
    Ret (Ok (secrets ++ map (fun s => (aw_Name w, s.1)) l)).
Definition ListAppSecret (app : string) : handler := fun c =>
  for_app app false (Ok tt) c (fun token _ username orgId userPrivateKey =>
    let! w := getAppSecretWorkspaces token orgId userPrivateKey username app in
    match w with
    | ([], Some e) => Ret (internal "get app workspace key error, " (perm_text e))
    | ([], None) => Ret (ok_data (AppKeys []))
    | (l, _) =>
        or_500 "list secres in app workspace error, " (fold_each (workspace_keys token) l [])
          (fun secrets => Ret (ok_data (AppKeys secrets)))
    end).

Definition not_permitted (what : string) : answer VData := JSON 404 ("app has not permission to " +:+ what +:+ " secret") None.
Definition CreateAppSecret (app : string) (body : res secretData) : handler := fun c =>
  for_app app true body c (fun token secret username orgId userPrivateKey =>
    let! w := getAppSecretWorkspaces token orgId userPrivateKey username app in
    match w.1 with
    | [] => Ret (not_permitted "create")
    | ws :: _ =>
        let create (id key : string) : io (answer VData) :=
          or_500 "create secret error, "
            (CreateSecretInWorkspace addr token id key (sd_Key secret) (sd_Value secret) DefaulSecretEnv)
            (fun _ => Ret (ok_msg "create secret success")) in
        if String.eqb (aw_Id ws) "" then
          or_500 "create user workspace error, " (CreateWorkspace addr token orgId (aw_Name ws)) (fun id =>
            or_500 "get user workspace key error, " (GetWorkspaceKey addr token id userPrivateKey) (create id))
        else create (aw_Id ws) (aw_Key ws)
    end).
(** The first of the application's workspaces, for the handlers that change what
    is there. *)
Definition in_app_workspace (app : string) (user_too : bool) (body : res secretData) (c : Ctx)
    (k : string -> secretData -> AppWorkspace -> io (answer VData)) : io (answer VData) :=
  for_app app user_too body c (fun token secret username orgId userPrivateKey =>
    let! w := getAppSecretWorkspaces token orgId userPrivateKey username app in
    match w with
    | (_, Some e) => Ret (internal "get app workspace key error, " (perm_text e))
    | ([], None) => Ret (not_permitted "delete")
    | (ws :: _, None) => k token secret ws
    end).
Definition DeleteAppSecret (app : string) (body : res secretData) : handler := fun c =>
  in_app_workspace app false body c (fun token secret ws =>
    or_500 "delete secret error, " (DeleteSecretInWorkspace addr token (aw_Id ws) DefaulSecretEnv (sd_Key secret))
      (fun _ => Ret (ok_msg "delete secret success"))).
Definition UpdateAppSecret (app : string) (body : res secretData) : handler := fun c =>
  in_app_workspace app true body c (fun token secret ws =>
    or_500 "update secret error, "
      (UpdateSecretInWorkspace addr token (aw_Id ws) (aw_Key ws) (sd_Key secret) (sd_Value secret) DefaulSecretEnv)
      (fun _ => Ret (ok_msg "update secret success"))).

(** ** [user.go] *)

(** Workspaces that are not there are kept, without an identifier. *)
Definition user_workspace (token orgId username : string) (acc : list (string * string) * list gerr)
    (pr : PermissionRequire) : io (res (list (string * string) * list gerr)) :=
  match secret_workspace pr with
  | None => Ret (Ok acc)
  | Some workspaceName =>
      let userWorkspace := UserWorkspaceName workspaceName username in
      let! got := GetWorkspace addr token orgId userWorkspace in
      match got with
      | Ok workspaceId => Ret (Ok (acc.1 ++ [(userWorkspace, workspaceId)], acc.2))
      | Err e =>
          if negb (NotFoundPrefix e) then Ret (Err e)
          else Ret (Ok (acc.1 ++ [(userWorkspace, "")], acc.2 ++ [e]))
      end
  end.
Definition user_item (token orgId username : string) (acc : list (string * string) * list gerr)
    (item : res AppPermission) : io (res (list (string * string) * list gerr)) :=
  match item with
  | Err e => Ret (Err e)
  | Ok appperm => fold_each (user_workspace token orgId username) (ap_Permission appperm) acc
  end.
(** The error is only logged by its caller. *)
Definition getWorkspaces (token orgId username : string) : io (list (string * string)) :=
  let! permList := vt_call (ListAppPermissions (system_namespace username)) in
  match permList with
  | Err _ => Ret []
  | Ok items =>
      let! r := fold_each (user_item token orgId username) items ([], []) in
      Ret (match r with Ok (workspaces, _) => workspaces | Err _ => [] end)
  end.

Record PostUserInfo : Set := mkPostUserInfo { pu_Name : string; pu_Email : string }.
(** The account and the body, then the database: what both callbacks begin with. *)
Definition user_callback (rounds : nat) (body : res PostUserInfo) (k : PostUserInfo -> nat -> io (answer VData)) : io (answer VData) :=
  or_fail (getPostgresUserAndPwd cfg) (fun up =>
    match body with
    | Err e => Ret (Failed (GoError e))
    | Ok info =>
        let! r := when_connected rounds (dsn_of cfg up) (k info) in
        Ret (default (ok_data StillConnecting) r)
    end).
Definition CreateUser (rounds : nat) (Org : string) (body : res PostUserInfo) : io (answer VData) :=
  user_callback rounds body (fun info client =>
    or_fail (VaultDb.GetUser client (pu_Email info)) (fun u =>
      match u with
      | Some _ => Ret (ok_data NoBody)
      | None =>
          or_fail (InsertKsUserToPostgres Org client (pu_Name info) (pu_Email info) (cf_Password cfg))
            (fun _ => Ret (ok_data NoBody))
      end)).
Definition DeleteUser (rounds : nat) (body : res PostUserInfo) (c : Ctx) : io (answer VData) :=
  user_callback rounds body (fun info client =>
    or_fail (VaultDb.GetUser client (pu_Email info)) (fun u =>
      match u with
      | None => Ret (ok_data NoBody)
      | Some u =>
          or_fail (DeleteUserFromPostgres client (uk_UserID u)) (fun _ =>
            match cx_AuthToken c with
            | None => Ret no_auth_token
            | Some token =>
                let! username := deref (cx_Username c) in
                let! orgId := deref (cx_OrgId c) in
                let! workspaces := getWorkspaces token orgId username in
                do! fold_all (fun _ w => do! DeleteWorkspace addr token w.2; Ret tt) workspaces tt;
                Ret (ok_data NoBody)
            end)
      end)).

(** ** [server.go]: the routes *)

Inductive vault_request : Set :=
  | PostAuthToken | PostPrivateKey
  | PostCreateSecret (body : res Secret) (workspace : string) | PostDeleteSecret (body : res Secret) (workspace : string)
  | PostUpdateSecret (body : res Secret) (workspace : string) | PostRetrieveSecret (body : res Secret) (workspace : string)
  | PostListSecret (body : res Secret) (workspace : string)
  | GetPermission (appid : string) | GetAppSecrets (appid : string)
  | PostAppSecret (appid : string) (body : res secretData) | DelAppSecret (appid : string) (body : res secretData)
  | PutAppSecret (appid : string) (body : res secretData).

(** The handlers that come after the token and after the two look-ups. *)
Definition plain_route (q : vault_request) : option handler :=
  match q with PostAuthToken => Some (AuthToken cfg) | PostPrivateKey => Some PrivateKey | _ => None end.
Definition route (q : vault_request) : handler :=
  match q with
  | PostAuthToken => AuthToken cfg
  | PostPrivateKey => PrivateKey
  | PostCreateSecret b w => CreateSecret cfg b w
  | PostDeleteSecret b w => DeleteSecret cfg b w
  | PostUpdateSecret b w => UpdateSecret cfg b w
  | PostRetrieveSecret b w => RetrieveSecret cfg b w
  | PostListSecret b w => ListSecret cfg b w
  | GetPermission a => CheckAppSecretPerm a
  | GetAppSecrets a => ListAppSecret a
  | PostAppSecret a b => CreateAppSecret a b
  | DelAppSecret a b => DeleteAppSecret a b
  | PutAppSecret a b => UpdateAppSecret a b
  end.
(** [GetUserInfo] puts the configured password in the context, for every user. *)
Definition user_ctx (u : UserCtx) : Ctx :=
  mkCtx (Some (uc_Name u)) (Some (uc_Email u)) (Some (cf_Password cfg)) None None None None None.
Definition with_key_and_org (next : handler) : handler :=
  FetchUserPrivateKey (FetchUserOrganizationId cfg next).
Definition serve_vault (header : string) (q : vault_request) : io (answer VData) :=
  GetUserInfo header (fun u =>
    IssueInfisicalToken cfg
      (match plain_route q with Some h => h | None => with_key_and_org (route q) end) (user_ctx u)).
Definition serve_user_create (rounds : nat) (Org : string) (body : res PostUserInfo) : io (answer VData) :=
  CreateUser rounds Org body.
Definition serve_user_delete (header : string) (rounds : nat) (body : res PostUserInfo) : io (answer VData) :=
  GetUserInfo header (fun u => IssueInfisicalToken cfg (DeleteUser rounds body) (user_ctx u)).
End Admin.
