(* ===== verification/VaultSpec.v ===== *)
(** * What the vault does for a user, and to whose secrets *)

From S2P Require Import Prelude Effects Apr World Base64 Crypto CryptoSpec Demo VaultDb VaultApi MwServer Vault VaultAdmin.

Definition vt_ev (o : vt) (r : resp_vt o) : event resp := ev (Ext (Vt o)) r.

Lemma runs_vt_call o tr out : runs (vt_call o) tr out -> exists r, tr = [vt_ev o r] /\ out = Returned r.
Proof. intros (r & tr' & -> & [-> ->]%runs_inv)%runs_inv. by exists r. Qed.

#[local] Arguments NotFoundPrefix : simpl never.

(** ** What is stored is read back *)

Lemma api_inv `{Ciphers} addr d method path token query body tr (out : outcome (res (decoded_to d))) :
  runs (api addr d method path token query body) tr out ->
  exists r, tr = [vt_ev (Infisical d method (addr +:+ path) token query body) r] /\
    out = Returned (match r with
                    | Ok resp => if Z.eqb (if_Status d resp) 200 then Ok (if_Result d resp) else Err (newErr (if_Body d resp))
                    | Err e => Err e
                    end).
Proof. intros (r & tr' & -> & H1)%runs_inv. exists r. destruct r; apply runs_inv in H1 as [-> ->]; done. Qed.

(** The interface gives back, of a secret, the fields it was given of its name and
    value. *)
Definition gives_back (m : gmap string json) (fields : list (string * json)) : Prop :=
  forall k v, (k, v) ∈ fields -> has_prefix "secret" k = true -> m !! k = Some v.

Section ReadBack.
Context `{CipherLaws}.

Lemma decrypt_field_sealed m prefix text nonce projectKey fields :
  gives_back m fields -> (forall kv, kv ∈ sealed_fields prefix (sealed_with nonce text projectKey) -> kv ∈ fields) ->
  has_prefix "secret" prefix = true -> aes_key projectKey = Ok tt -> String.length nonce = BLOCK_SIZE_BYTES ->
  decrypt_field m prefix projectKey = Ret (Ok text).
Proof.
  intros Hm Hf Hp Hk Hn. assert (Hpre : forall s, has_prefix "secret" (prefix +:+ s) = true).
  { intros s. apply has_prefix_spec in Hp as [r ->]. rewrite string_app_assoc. apply has_prefix_self. }
  pose proof (Decrypt_sealed nonce text projectKey Hk Hn) as Hd.
  unfold decrypt_field, valueOf. unfold sealed_with in *. cbn [sealed_fields] in Hf.
  rewrite (Hm (prefix +:+ "Ciphertext") _ (Hf _ ltac:(left)) (Hpre _)). cbn.
  rewrite (Hm (prefix +:+ "IV") _ (Hf _ ltac:(right; left)) (Hpre _)). cbn.
  rewrite (Hm (prefix +:+ "Tag") _ (Hf _ ltac:(right; right; left)) (Hpre _)). cbn. exact Hd.
Qed.

(** C34: A secret that was created is read back with the name and the value it was
    created with, whoever reads it with the project's key: the one call that
    creates it carries fields from which, if the interface gives those of name
    and value back, reading answers exactly this pair. *)
Theorem secret_read_back addr token workspaceId projectKey name value env tr :
  runs (CreateSecretInWorkspace addr token workspaceId projectKey name value env) tr (Returned (Ok tt)) -> full_reads tr ->
  exists fields r,
    vt_ev (Infisical Nothing "POST" (addr +:+ secrets_path +:+ name) token [] (Some (JObj fields))) r ∈ tr /\
    ("workspaceId", JStr workspaceId) ∈ fields /\ ("environment", JStr (env_or_default env)) ∈ fields /\
    forall token' tr' out, runs (GetSecretInWorkspace addr token' workspaceId projectKey env name) tr' out ->
      (forall reply, vt_ev (Infisical SecretOf "GET" (addr +:+ secrets_path +:+ name) token' (scope_query workspaceId env) None) reply ∈ tr' ->
         exists text m, reply = Ok (mkInfReply SecretOf 200 text m) /\ gives_back m fields) ->
      out = Returned (Ok (name, value)).
Proof.
  unfold CreateSecretInWorkspace. intros Hr Hf.
  apply runs_bind_ok_returned in Hr as (tr1 & tr2 & [[c1 i1] t1] & -> & H1 & Hr).
  apply runs_bind_ok_returned in Hr as (tr3 & tr4 & [[c2 i2] t2] & -> & H2 & Hr).
  apply runs_bind_ok_returned in Hr as (tr5 & tr6 & [] & -> & H3 & Hr).
  apply full_reads_app in Hf as [Hf1 [Hf2 _]%full_reads_app].
  apply Encrypt_inv in H1 as (n1 & E1 & Hk & Hn1 & _); [|done]. apply Encrypt_inv in H2 as (n2 & E2 & _ & Hn2 & _); [|done].
  apply api_inv in H3 as (r & -> & _). eexists _, r. split_and!.
  - rewrite !elem_of_app. right. right. left. left.
  - left.
  - right. left.
  - intros token' tr' out (r' & tr'' & -> & Hget)%runs_inv Hreply.
    destruct (Hreply r' ltac:(left)) as (text & m & -> & Hm). cbn in Hget. unfold decrypt_secret in Hget.
    rewrite (decrypt_field_sealed m "secretKey" name n1 projectKey _ Hm) in Hget; [|by rewrite <- E1; intros kv Hkv; rewrite !elem_of_app; auto|done..].
    cbn in Hget.
    rewrite (decrypt_field_sealed m "secretValue" value n2 projectKey _ Hm) in Hget; [|by rewrite <- E2; intros kv Hkv; rewrite !elem_of_app; auto|done..].
    by apply runs_inv in Hget as [_ ->].
Qed.
End ReadBack.

(** ** The user's private key *)

(** The row holds the pair, the secret half under the password. *)
Definition opens_with `{Ciphers} (row : UserEncryptionKeysPG) (password pk sk : string) : Prop :=
  uk_PublicKey row = EncodeToString pk /\ DecryptUserPrivateKeyHelper row password = Ret (Ok (EncodeToString sk)).

Section PrivateKeys.
Context `{CipherLaws}.

Lemma new_keys_open password email tr row :
  runs (new_keys password email) tr (Returned (Ok row)) -> full_reads tr ->
  exists pk sk, vt_ev BoxGenerateKey (Ok (pk, sk)) ∈ tr /\ opens_with row password pk sk.
Proof.
  unfold new_keys. intros Hr Hf. apply runs_bind_ok_returned in Hr as (tr1 & tr2 & [pk sk] & -> & H1 & Hr).
  apply (runs_vt_call BoxGenerateKey) in H1 as (r & -> & [= <-]). apply full_reads_app in Hf as [_ Hf].
  apply runs_bind_ok_returned in Hr as (tr3 & tr4 & [[c iv] tag] & -> & H2 & Hr). apply full_reads_app in Hf as [Hf _].
  pose proof (Encrypt_decrypts _ _ _ _ _ _ H2 Hf) as Hd.
  apply runs_bind_returned in Hr as (tr5 & tr6 & printed & -> & _ & Hr).
  destruct printed as [text|e]; [|by apply runs_inv in Hr as [_ [=]]].
  destruct (split_char _ text) as [|salt [|verifier rest]]; [by apply runs_inv in Hr as [_ [=]]..|].
  apply runs_inv in Hr as [_ [= ->]]. exists pk, sk. split; [left|]. by split.
Qed.

Lemma Create_inserts {T} `{Row T} client table (obj : T) tr id :
  runs (Create client table obj) tr (Returned (Ok id)) ->
  exists sql, vt_ev (InfNamedExec client sql (columns (setId obj id))) (Ok tt) ∈ tr.
Proof.
  unfold Create, insert. intros Hr. apply runs_bind_returned in Hr as (tr1 & tr2 & [i r] & -> & Hi & Hr).
  cbn in Hr. destruct r as [[]|e]; apply runs_inv in Hr as [-> [=]]; subst i.
  apply runs_bind_returned in Hi as (t1 & t2 & id' & -> & _ & Hi).
  apply runs_bind_returned in Hi as (t3 & t4 & fk & -> & _ & Hi).
  apply runs_bind_returned in Hi as (t5 & t6 & err & -> & H5 & Hi).
  apply runs_inv in Hi as [-> [= -> ->]]. apply (runs_vt_call (InfNamedExec _ _ _)) in H5 as (r & -> & [= <-]).
  eexists. rewrite !elem_of_app. left. right. right. left. left.
Qed.

(** C35: When a user was inserted, the row of his keys that was written opens, with
    the password he was inserted with, to the secret half of the key pair whose
    public half it shows: what is sealed for him can be read by whoever knows the
    password. *)
Theorem saved_key_opens Org pg username email password tr :
  runs (InsertKsUserToPostgres Org pg username email password) tr (Returned (Ok tt)) -> full_reads tr ->
  exists pk sk sql row,
    vt_ev BoxGenerateKey (Ok (pk, sk)) ∈ tr /\ vt_ev (InfNamedExec pg sql (columns row)) (Ok tt) ∈ tr /\
    opens_with row password pk sk.
Proof.
  unfold InsertKsUserToPostgres. intros Hr Hf. apply runs_bind_ok_returned in Hr as (tr1 & tr2 & keys & -> & H1 & Hr).
  apply runs_bind_ok_returned in Hr as (tr3 & tr4 & uid & -> & H2 & _). apply full_reads_app in Hf as [Hf _].
  destruct (new_keys_open _ _ _ _ H1 Hf) as (pk & sk & Hbox & Hopen).
  cbn [SaveUser] in H2. apply runs_bind_ok_returned in H2 as (t1 & t2 & u & -> & _ & H2).
  apply runs_bind_ok_returned in H2 as (t3 & t4 & [] & -> & H2 & _).
  apply runs_bind_ok_returned in H2 as (t5 & t6 & id & -> & [sql Hi]%Create_inserts & _).
  exists pk, sk, sql, (setId (with_user keys u) id). split_and!; [..|exact Hopen].
  - rewrite !elem_of_app. auto.
  - rewrite !elem_of_app. tauto.
Qed.
End PrivateKeys.

(** ** Names of workspaces *)

Lemma same_suffix (a b u v : string) : a +:+ u = b +:+ v -> exists x, (a = b +:+ x /\ v = x +:+ u) \/ (b = a +:+ x /\ u = x +:+ v).
Proof.
  revert b. induction a as [|c a IH]; intros b E.
  - exists b. by right.
  - destruct b as [|d b]; [exists (String c a); left; by split|].
    injection E as -> E. destruct (IH b E) as [x [[-> ->]|[-> ->]]]; exists x; [left|right]; done.
Qed.

(** C36: Two users have a workspace of one name exactly when they are one user with
    one name for it, or the one's name ends with a dash and the other's and the
    other named his accordingly: the names are unique for each user only as long
    as no user's name holds a dash. *)
Theorem workspace_names_exact w u w' u' :
  UserWorkspaceName w u = UserWorkspaceName w' u' <->
  (w = w' /\ u = u') \/
  exists x, (u' = x +:+ "-" +:+ u /\ w = w' +:+ "-" +:+ x) \/ (u = x +:+ "-" +:+ u' /\ w' = w +:+ "-" +:+ x).
Proof.
  unfold UserWorkspaceName. split.
  - intros [x [[-> E]|[-> E]]]%same_suffix; destruct x as [|c x].
    1,3: apply (string_app_inj_l "-") in E as ->; left; by rewrite string_app_nil_r.
    + change (String "-" u' = String c (x +:+ "-" +:+ u)) in E. injection E as <- ->. right. exists x. by left.
    + change (String "-" u = String c (x +:+ "-" +:+ u')) in E. injection E as <- ->. right. exists x. by right.
  - by intros [[-> ->]|[x [[-> ->]|[-> ->]]]]; rewrite ?string_app_assoc.
Qed.
Lemma plain_names_unique w u w' u' : str_contains "-"%char u = false -> str_contains "-"%char u' = false ->
  UserWorkspaceName w u = UserWorkspaceName w' u' -> w = w' /\ u = u'.
Proof.
  intros Hu Hu' [H|[x [[-> _]|[-> _]]]]%workspace_names_exact; [done|..]; exfalso.
  - rewrite !str_contains_app in Hu'. by rewrite orb_true_r in Hu'.
  - rewrite !str_contains_app in Hu. by rewrite orb_true_r in Hu.
Qed.

(** ** When a workspace is made *)

Definition project_ev (addr token workspace : string) r : event resp :=
  vt_ev (Infisical ProjectOf "POST" (addr +:+ "/api/v2/workspace") token [] (Some (JObj [("projectName", JStr workspace)]))) r.
Definition list_ev (addr token orgId : string) r : event resp :=
  vt_ev (Infisical WorkspaceList "GET" (addr +:+ workspaces_path orgId) token [] None) r.
(** What a listing says of a workspace: its identifier, that there is none, or an
    error. *)
Definition listed (workspace : string) (r : res (InfReply WorkspaceList)) : res (option string) :=
  match r with
  | Err e => if NotFoundPrefix e then Ok None else Err e
  | Ok resp =>
      if Z.eqb (if_Status _ resp) 200 then Ok (id_named workspace (if_Result _ resp))
      else if NotFoundPrefix (newErr (if_Body _ resp)) then Ok None else Err (newErr (if_Body _ resp))
  end.

Lemma GetWorkspace_inv `{Ciphers} addr token orgId workspace tr (out : outcome (res string)) :
  runs (GetWorkspace addr token orgId workspace) tr out ->
  exists r, tr = [list_ev addr token orgId r] /\
    match listed workspace r with
    | Ok (Some id) => out = Returned (Ok id)
    | Ok None => exists e, out = Returned (Err e) /\ NotFoundPrefix e = true
    | Err e => out = Returned (Err e) /\ NotFoundPrefix e = false
    end.
Proof.
  unfold GetWorkspace, workspaces_of, api. intros (r & tr' & -> & H1)%runs_inv. exists r.
  destruct r as [[status body items]|e]; cbn in *.
  - destruct (Z.eqb status 200) eqn:Es; cbn in H1.
    + destruct items as [|it items]; cbn in H1.
      * apply runs_inv in H1 as [-> ->]. split; [done|]. cbn. by eexists.
      * apply runs_inv in H1 as [-> ->]. split; [done|]. cbn. destruct (id_named _ _); [done|]. by eexists.
    + apply runs_inv in H1 as [-> ->]. split; [done|]. destruct (NotFoundPrefix (newErr body)) eqn:Eb; [by eexists|by split].
  - apply runs_inv in H1 as [-> ->]. split; [done|]. destruct (NotFoundPrefix e) eqn:Ee; cbn; [by eexists|]. by split.
Qed.

(** What a creation does after a listing. *)
Definition creation_after (addr token orgId workspace : string) (r : res (InfReply WorkspaceList)) (tr : history)
    (out : outcome (res string)) : Prop :=
  match listed workspace r with
  | Ok (Some id) => tr = [list_ev addr token orgId r] /\ out = Returned (Ok id)
  | Err e => tr = [list_ev addr token orgId r] /\ out = Returned (Err e)
  | Ok None => exists p, tr = [list_ev addr token orgId r; project_ev addr token workspace p] /\
      match p with
      | Err e => out = Returned (Err e)
      | Ok resp =>
          if Z.eqb (if_Status _ resp) 200
          then match if_Result _ resp with
               | Some project => out = Returned (Ok project.1)
               | None => exists why, out = Panicked why
               end
          else out = Returned (Err (newErr (if_Body _ resp)))
      end
  end.

(** Creating a workspace lists those of the organization once, and posts a new
    project of that name exactly when the listing says it is not there, also by an
    answer with another status whose text begins with "not found"; a workspace
    that is there is answered as it is, and without "project" in the answer to the
    post the handler panics. *)
Theorem CreateWorkspace_exact `{Ciphers} addr token orgId workspace tr out :
  runs (CreateWorkspace addr token orgId workspace) tr out ->
  exists r, creation_after addr token orgId workspace r tr out.
Proof.
  unfold CreateWorkspace. intros [(tr1 & tr2 & got & -> & (r & -> & Hr)%GetWorkspace_inv & H2)
    |(w & _ & (r & _ & Hr)%GetWorkspace_inv)]%runs_bind_inv; exists r; unfold creation_after; cycle 1.
  { destruct (listed workspace r) as [[id|]|e]; [done|by destruct Hr as (? & [=] & _)|by destruct Hr]. }
  destruct (listed workspace r) as [[id|]|e].
  - injection Hr as ->. apply runs_inv in H2 as [-> ->]. by rewrite app_nil_r.
  - destruct Hr as (e & [= ->] & He). rewrite He in H2. cbn in H2. apply runs_inv in H2 as (p & tr' & -> & H2).
    exists p. destruct p as [[status body result]|e']; cbn in *; [|by apply runs_inv in H2 as [-> ->]].
    destruct (Z.eqb status 200); cbn in H2; [|by apply runs_inv in H2 as [-> ->]].
    destruct result as [[id name]|]; cbn in H2; apply runs_inv in H2 as [-> ->]; eauto.
  - destruct Hr as [[= ->] He]. rewrite He in H2. apply runs_inv in H2 as [-> ->]. by rewrite app_nil_r.
Qed.
