(* ===== verification/VaultSafety.v ===== *)
(** * Whose workspaces the vault reaches *)

From S2P Require Import Prelude Effects Apr World Base64 Crypto CryptoSpec Demo VaultDb VaultApi MwServer Vault VaultAdmin VaultSpec.

Section Confined.
Context `{Ciphers} (cfg : Config) (user : string).
Let addr : string := cf_InfisicalAddr cfg.

(** A token was signed, for access, for the row read by the email that was read of
    the user. *)
Definition issued (h : history) (token : string) : Prop :=
  exists o email conn (u : UserEncryptionKeysPG) claims key,
    ev (Ext (Srv (GetKsUser user))) (Ok o) ∈ h /\ kso_Email o = Ok email /\
    vt_ev (InfQuery UserRow conn user_sql [("email", email)]) (Ok (Some (Ok u))) ∈ h /\
    vt_ev (JwtSign claims key) (Ok token) ∈ h /\ tc_UserId claims = uk_UserID u /\ tc_AuthTokenType claims = "accessToken".
(** A listing or the answer to a new project gave the identifier with a name that
    ends with a dash and the user's. *)
Definition owned (h : history) (id : string) : Prop :=
  exists x token,
    (exists orgId resp, list_ev addr token orgId (Ok resp) ∈ h /\ (id, x +:+ "-" +:+ user) ∈ if_Result _ resp) \/
    (exists resp name, project_ev addr token (x +:+ "-" +:+ user) (Ok resp) ∈ h /\ if_Result _ resp = Some (id, name)).
(** The workspace a call on secrets says it is for. *)
Definition scoped_to (id : string) (query : list (string * string)) (body : option json) : Prop :=
  ("workspaceId", id) ∈ query \/ exists fields, body = Some (JObj fields) /\ ("workspaceId", JStr id) ∈ fields.
Definition confined_op (h : history) (o : op) : Prop :=
  match o with
  | Ext (Vt (Infisical d method url token query body)) =>
      issued h token /\
      (has_prefix (addr +:+ secrets_path) url = true -> exists id, owned h id /\ scoped_to id query body) /\
      (forall id, method = "DELETE" -> url = addr +:+ "/api/v1/workspace/" +:+ id -> owned h id \/ id = "")
  | _ => True
  end.
Definition confined (h : history) (e : event resp) : Prop := confined_op h (projT1 e).

Lemma issued_mono h h' token : h ⊆ h' -> issued h token -> issued h' token.
Proof. intros Hs (o & em & conn & u & claims & key & H1 & H2 & H3 & H4 & H5). exists o, em, conn, u, claims, key. split_and!; auto; apply H5. Qed.
Lemma owned_mono h h' id : h ⊆ h' -> owned h id -> owned h' id.
Proof.
  intros Hs (x & token & [(orgId & resp & H1 & H2)|(resp & name & H1 & H2)]); exists x, token; [left|right]; eauto.
Qed.

(** ** Programs that keep to it *)

Definition keeps {A} (m : io A) (P : history -> A -> Prop) (h : history) : Prop :=
  always confined h ->
  wp trace_step m (fun h' x => always confined h' /\ h ⊆ h' /\ match x with Returned a => P h' a | Panicked _ => True end) h.
Definition anything {A} (h : history) (a : A) : Prop := True.

Lemma keeps_ret {A} (a : A) (P : history -> A -> Prop) h : P h a -> keeps (Ret a) P h.
Proof. by intros HP Hh. Qed.
Lemma keeps_panic {A} w (P : history -> A -> Prop) h : keeps (Panic w) P h.
Proof. by intros Hh. Qed.
Lemma keeps_mono {A} (m : io A) (P Q : history -> A -> Prop) h :
  keeps m P h -> (forall h' a, h ⊆ h' -> P h' a -> Q h' a) -> keeps m Q h.
Proof.
  intros Hm HPQ Hh. eapply wp_mono; [|by apply Hm]. intros h' [a|w] (Ha & Hs & HP); split_and!; auto.
Qed.
Lemma keeps_bind {A B} (m : io A) (f : A -> io B) M P h :
  keeps m M h -> (forall h' a, h ⊆ h' -> M h' a -> keeps (f a) P h') -> keeps (bind m f) P h.
Proof.
  intros Hm Hf Hh. rewrite wp_bind. eapply wp_mono; [|by apply Hm]. intros h' [a|w] (Ha & Hs & HM); [|done].
  eapply wp_mono; [|by apply Hf]. intros h'' x (Ha' & Hs' & HP). split_and!; [done|by etrans|done].
Qed.
Lemma keeps_bind_ok {A B} (m : io (res A)) (f : A -> io (res B)) M P h :
  keeps m (fun h' r => match r with Ok a => M h' a | Err e => P h' (Err e) end) h ->
  (forall h' a, h ⊆ h' -> M h' a -> keeps (f a) P h') -> keeps (bind_ok m f) P h.
Proof. intros Hm Hf. eapply keeps_bind; [exact Hm|]. intros h' [a|e] Hs HM; [by apply Hf|by apply keeps_ret]. Qed.
Lemma keeps_call o (P : history -> resp o -> Prop) h :
  confined_op h o -> (forall r, P (h ++ [ev o r]) r) -> keeps (call (resp := resp) o) P h.
Proof.
  intros Ho HP Hh. cbn. intros r. unfold trace_step. rewrite always_snoc. split_and!; [done|done|set_solver|done].
Qed.
(** Everything but the calls of the interface is unrestricted. *)
Definition elsewhere (o : op) : Prop := match o with Ext (Vt (Infisical _ _ _ _ _ _)) => False | _ => True end.
Lemma keeps_elsewhere {A} (m : io A) h : issues elsewhere m -> keeps m anything h.
Proof.
  intros Hm Hh. assert (H1 : wp trace_step m (fun h' _ => always confined h') h).
  { apply (wp_always_issues confined elsewhere); [|done..]. intros h' o r Ho. unfold confined. cbn.
    by destruct o as [| | | | | | |[| | | |[]|]]. }
  eapply wp_mono; [|apply (wp_extend trace_step (fun a b => a ⊆ b)), H1]; [by intros h' [a|w] [Hs Ha]|].
  intros h' e. unfold trace_step. set_solver.
Qed.
Lemma keeps_deref {A} (p : option A) h : keeps (deref p) (fun _ a => p = Some a) h.
Proof. destruct p; [by apply keeps_ret|apply keeps_panic]. Qed.
Lemma keeps_or_500 {A} what (m : io (res A)) (k : A -> io (answer VData)) M h :
  keeps m (fun h' r => forall a, r = Ok a -> M h' a) h ->
  (forall h' a, h ⊆ h' -> M h' a -> keeps (k a) anything h') -> keeps (or_500 what m k) anything h.
Proof. intros Hm Hk. eapply keeps_bind; [exact Hm|]. intros h' [a|e] Hs HM; [by apply Hk; auto|by apply keeps_ret]. Qed.
Lemma keeps_with_defer {A} d (m : io A) P h :
  issues elsewhere d -> (forall h h' (a : A), h ⊆ h' -> P h a -> P h' a) -> keeps m P h -> keeps (with_defer d m) P h.
Proof.
  intros Hd HP Hm Hh. rewrite wp_with_defer. eapply wp_mono; [|by apply Hm]. intros h' x (Ha & Hs & Hx).
  eapply wp_mono; [|by apply (keeps_elsewhere d)]. intros h'' [u|w] (Ha' & Hs' & _); split_and!; [done|by etrans| |done|by etrans|done].
  destruct x; [by eapply HP|done].
Qed.
(** An accumulator that stays good as the calls go on. *)
Lemma keeps_fold_each {S A} (body : S -> A -> io (res S)) (I : history -> S -> Prop) l s h :
  (forall h h' s, h ⊆ h' -> I h s -> I h' s) ->
  (forall h' s x, h ⊆ h' -> I h' s -> keeps (body s x) (fun h'' r => forall s', r = Ok s' -> I h'' s') h') ->
  I h s -> keeps (fold_each body l s) (fun h' r => forall s', r = Ok s' -> I h' s') h.
Proof.
  intros HI Hb. revert s h Hb. induction l as [|x l IH]; intros s h Hb Hs; cbn.
  - apply keeps_ret. by intros s' [= <-].
  - eapply keeps_bind; [by apply Hb|]. intros h' [s'|e] Hs' Hr; [|by apply keeps_ret].
    apply IH; [|by apply Hr]. intros h'' s'' y Hs''. apply Hb. by etrans.
Qed.

(** ** The clients *)

Lemma keeps_api h d method path token query body :
  issued h token ->
  (has_prefix secrets_path path = true -> exists id, owned h id /\ scoped_to id query body) ->
  (forall id, method = "DELETE" -> path = "/api/v1/workspace/" +:+ id -> owned h id \/ id = "") ->
  keeps (api addr d method path token query body) (fun h' r => forall a, r = Ok a ->
    exists resp, vt_ev (Infisical d method (addr +:+ path) token query body) (Ok resp) ∈ h' /\ if_Result d resp = a) h.
Proof.
  intros Ht Hs Hd. unfold api.
  apply (keeps_bind_ok _ _ (fun h' resp => vt_ev (Infisical d method (addr +:+ path) token query body) (Ok resp) ∈ h')).
  - apply (keeps_call (Ext (Vt (Infisical d method (addr +:+ path) token query body)))).
    + cbn. split_and!; [done| |].
      * rewrite has_prefix_app_l. exact Hs.
      * intros id Hm Hu. apply Hd; [done|]. by eapply string_app_inj_l.
    + intros [resp|e]; [|by intros ? [=]]. apply elem_of_app. right. left.
  - intros h' resp Hs' Hin. apply keeps_ret. intros a. destruct (Z.eqb _ _); intros [= <-]. eauto.
Qed.
(** A call on neither secrets nor a workspace to be deleted. *)
Lemma keeps_plain_api h d method path token query body :
  issued h token -> has_prefix secrets_path path = false -> has_prefix "/api/v1/workspace/" path = false ->
  keeps (api addr d method path token query body) (fun h' r => forall a, r = Ok a ->
    exists resp, vt_ev (Infisical d method (addr +:+ path) token query body) (Ok resp) ∈ h' /\ if_Result d resp = a) h.
Proof.
  intros Ht Hs Hw. apply keeps_api; [done|congruence|]. intros id _ ->. by rewrite has_prefix_self in Hw.
Qed.

Lemma id_named_in workspace items id : id_named workspace items = Some id -> (id, workspace) ∈ items.
Proof.
  unfold id_named. intros E. destruct (List.find _ items) as [[i n]|] eqn:F; [|done]. injection E as <-.
  apply List.find_some in F as [Hin Hn%String.eqb_eq]. cbn in Hn. subst. by apply list_elem_of_In.
Qed.
Lemma keeps_workspaces h token orgId : issued h token ->
  keeps (workspaces_of addr token orgId) (fun h' r => forall items, r = Ok items ->
    exists resp, list_ev addr token orgId (Ok resp) ∈ h' /\ if_Result _ resp = items) h.
Proof.
  intros Ht. unfold workspaces_of. eapply keeps_bind_ok.
  - eapply keeps_mono; [by apply keeps_plain_api|]. intros h' [items|e] Hs Hr; [exact (Hr items eq_refl)|by intros ? [=]].
  - intros h' items Hs Hr. apply keeps_ret. by intros l; destruct items; intros [= <-].
Qed.
Lemma keeps_GetWorkspace h token orgId x : issued h token ->
  keeps (GetWorkspace addr token orgId (UserWorkspaceName x user)) (fun h' r => forall id, r = Ok id -> owned h' id) h.
Proof.
  intros Ht. unfold GetWorkspace. eapply keeps_bind_ok.
  - eapply keeps_mono; [by apply keeps_workspaces|]. intros h' [items|e] Hs Hr; [exact (Hr items eq_refl)|by intros ? [=]].
  - intros h' items Hs (resp & Hin & <-). apply keeps_ret. intros id. destruct (id_named _ _) as [i|] eqn:E; intros [= <-].
    exists x, token. left. exists orgId, resp. split; [done|]. by apply id_named_in.
Qed.
Lemma keeps_CreateWorkspace h token orgId x : issued h token ->
  keeps (CreateWorkspace addr token orgId (UserWorkspaceName x user)) (fun h' r => forall id, r = Ok id -> owned h' id) h.
Proof.
  intros Ht. unfold CreateWorkspace. eapply keeps_bind; [by apply keeps_GetWorkspace|].
  intros h1 [id|e] Hs1 Hr; [by apply keeps_ret|]. destruct (negb _); [by apply keeps_ret|]. eapply keeps_bind_ok.
  - eapply keeps_mono; [apply keeps_plain_api; [by eapply issued_mono|done..]|].
    intros h' [project|e'] Hs Hp; [exact (Hp project eq_refl)|by intros ? [=]].
  - intros h2 project Hs2 (resp & Hin & <-). eapply keeps_bind; [apply keeps_deref|]. intros h3 p Hs3 Hp.
    apply keeps_ret. intros id [= <-]. exists x, token. right. exists resp, (snd p). split; [by apply Hs3|].
    rewrite Hp. by destruct p.
Qed.
Lemma keeps_GetWorkspaceKey h token id privateKey : issued h token ->
  keeps (GetWorkspaceKey addr token id privateKey) (fun _ r => forall key, r = Ok key -> True) h.
Proof.
  intros Ht. unfold GetWorkspaceKey. eapply (keeps_bind_ok _ _ anything).
  - eapply keeps_mono; [by apply keeps_plain_api|]. by intros h' [].
  - intros. by apply keeps_ret.
Qed.

Lemma issues_Encrypt text secret : issues elsewhere (Encrypt text secret).
Proof. unfold Encrypt, ReadFull. by issues_walk. Qed.
(** A secret's call in a workspace that is the user's. *)
Lemma keeps_secret_api h d method name token query body id :
  issued h token -> owned h id -> scoped_to id query body -> 
  keeps (api addr d method (secrets_path +:+ name) token query body) anything h.
Proof.
  intros Ht Ho Hs. eapply keeps_mono; [|done]. apply keeps_api; [done|by exists id|]. by intros i _ E.
Qed.
Lemma scoped_query id env : scoped_to id (scope_query id env) None.
Proof. left. right. left. Qed.
Lemma scoped_body id env fields : scoped_to id [] (Some (JObj (scope_fields id env ++ fields))).
Proof. right. eexists. split; [done|]. left. Qed.

Lemma keeps_then {A B} (m : io (res A)) (f : A -> io (res B)) h :
  keeps m anything h -> (forall h' a, h ⊆ h' -> keeps (f a) anything h') -> keeps (bind_ok m f) anything h.
Proof.
  intros Hm Hf. eapply (keeps_bind_ok _ _ anything); [|by eauto]. eapply keeps_mono; [exact Hm|]. by intros h' [].
Qed.
Lemma keeps_CreateSecretInWorkspace h token id key name value env : issued h token -> owned h id ->
  keeps (CreateSecretInWorkspace addr token id key name value env) anything h.
Proof.
  intros Ht Ho. apply keeps_then; [apply keeps_elsewhere, issues_Encrypt|]. intros h1 k Hs1.
  apply keeps_then; [apply keeps_elsewhere, issues_Encrypt|]. intros h2 v Hs2.
  apply keeps_then; [|by intros; apply keeps_ret].
  eapply keeps_secret_api; [eapply issued_mono; [|exact Ht]; by etrans|eapply owned_mono; [|exact Ho]; by etrans|apply scoped_body].
Qed.
Lemma keeps_UpdateSecretInWorkspace h token id key name value env : issued h token -> owned h id ->
  keeps (UpdateSecretInWorkspace addr token id key name value env) anything h.
Proof.
  intros Ht Ho. apply keeps_then; [apply keeps_elsewhere, issues_Encrypt|]. intros h1 v Hs1.
  apply keeps_then; [|by intros; apply keeps_ret].
  eapply keeps_secret_api; [by eapply issued_mono|by eapply owned_mono|apply scoped_body].
Qed.
Lemma keeps_DeleteSecretInWorkspace h token id env name : issued h token -> owned h id ->
  keeps (DeleteSecretInWorkspace addr token id env name) anything h.
Proof.
  intros Ht Ho. apply keeps_then; [|by intros; apply keeps_ret].
  eapply keeps_secret_api; [done|done|]. right. eexists. split; [done|]. left.
Qed.
Lemma issues_decrypt_secret key m : issues elsewhere (decrypt_secret key m).
Proof. unfold decrypt_secret, decrypt_field, valueOf, Decrypt. by issues_walk. Qed.
Lemma keeps_GetSecretInWorkspace h token id key env name : issued h token -> owned h id ->
  keeps (GetSecretInWorkspace addr token id key env name) anything h.
Proof.
  intros Ht Ho. apply keeps_then; [by eapply keeps_secret_api, scoped_query|]. intros. apply keeps_elsewhere, issues_decrypt_secret.
Qed.
Lemma keeps_ListSecretInWorkspace h token id key env : issued h token -> owned h id ->
  keeps (ListSecretInWorkspace addr token id key env) anything h.
Proof.
  intros Ht Ho. apply keeps_then.
  - change secrets_path with (secrets_path +:+ ""). by eapply keeps_secret_api, scoped_query.
  - intros. apply keeps_elsewhere. apply issues_fold_each. intros s x. apply issues_bind; [apply issues_deref|].
    intros m. apply issues_bind_ok; [apply issues_decrypt_secret|done].
Qed.

(** ** The handlers *)

(** A context that stands for the user: his name, and a token issued for him. *)
Definition acts (h : history) (c : Ctx) : Prop :=
  cx_Username c = Some user /\ forall token, cx_AuthToken c = Some token -> issued h token.
Lemma acts_mono h h' c : h ⊆ h' -> acts h c -> acts h' c.
Proof. intros Hs [Hu Ht]. split; [done|]. intros token E. eapply issued_mono; eauto. Qed.
Definition keeping (hd : handler) : Prop := forall h c, acts h c -> keeps (hd c) anything h.

Lemma keeps_any {A} (m : io (res A)) h : keeps m anything h -> keeps m (fun _ r => forall a, r = Ok a -> True) h.
Proof. intros Hm. by eapply keeps_mono. Qed.
Lemma keeps_after {A} what (m : io (res A)) (k : A -> io (answer VData)) h :
  keeps m anything h -> (forall h' a, h ⊆ h' -> keeps (k a) anything h') -> keeps (or_500 what m k) anything h.
Proof. intros Hm Hk. apply (keeps_or_500 _ _ _ (fun _ _ => True)); [by apply keeps_any|eauto]. Qed.

Lemma keeping_with_secret (user_too : bool) body workspace k :
  (forall h token secret orgId key, issued h token ->
     keeps (k token secret orgId key (UserWorkspaceName workspace user)) anything h) ->
  keeping (fun c => with_secret user_too body workspace c k).
Proof.
  intros Hk h c [Hu Ht]. unfold with_secret. destruct (cx_AuthToken c) as [token|]; [|by apply keeps_ret].
  specialize (Ht token eq_refl). destruct body as [secret|e]; [|by apply keeps_ret].
  destruct (String.eqb workspace ""); [by apply keeps_ret|].
  apply (keeps_bind _ _ anything); [apply keeps_elsewhere; destruct user_too; [|done]; apply issues_bind; [apply issues_deref|done]|].
  intros h1 _ Hs1 _. eapply keeps_bind; [apply keeps_deref|]. intros h2 orgId Hs2 _.
  eapply keeps_bind; [apply keeps_deref|]. intros h3 key Hs3 _.
  eapply keeps_bind; [apply keeps_deref|]. intros h4 name Hs4 E. rewrite Hu in E. injection E as <-.
  apply Hk. eapply issued_mono; [|exact Ht]. set_solver.
Qed.
Lemma keeping_in_workspace (user_too : bool) body workspace k :
  (forall h token secret id key, issued h token -> owned h id -> keeps (k token secret id key) anything h) ->
  keeping (fun c => in_workspace cfg user_too body workspace c k).
Proof.
  intros Hk. apply keeping_with_secret. intros h token secret orgId key Ht.
  eapply keeps_or_500; [by apply keeps_GetWorkspace|]. intros h1 id Hs1 Ho.
  eapply keeps_or_500; [apply keeps_GetWorkspaceKey; by eapply issued_mono|]. intros h2 pk Hs2 _.
  apply Hk; [eapply issued_mono; [|exact Ht]; by etrans|by eapply owned_mono].
Qed.

Lemma keeping_CreateSecret body workspace : keeping (CreateSecret cfg body workspace).
Proof.
  apply keeping_with_secret. intros h token secret orgId key Ht.
  assert (Hid : forall h' id, h ⊆ h' -> owned h' id -> keeps
    (or_500 "get user workspace key error, " (GetWorkspaceKey addr token id key) (fun projectKey =>
        or_500 "create user secret error, "
          (CreateSecretInWorkspace addr token id projectKey (sc_Name secret) (sc_Value secret) (sc_Environment secret))
          (fun _ => Ret (ok_data NoBody)))) anything h').
  { intros h' id Hs Ho. eapply keeps_or_500; [apply keeps_GetWorkspaceKey; by eapply issued_mono|]. intros h1 pk Hs1 _.
    apply keeps_after; [|by intros; apply keeps_ret].
    apply keeps_CreateSecretInWorkspace; [eapply issued_mono; [|exact Ht]; by etrans|by eapply owned_mono]. }
  eapply keeps_bind; [by apply keeps_GetWorkspace|]. intros h1 [id|e] Hs1 Hr; [by apply Hid; auto|].
  destruct (negb _); [by apply keeps_ret|].
  eapply keeps_or_500; [apply keeps_CreateWorkspace; by eapply issued_mono|]. intros h2 id Hs2 Ho. apply Hid; [by etrans|done].
Qed.
Lemma keeping_RetrieveSecret body workspace : keeping (RetrieveSecret cfg body workspace).
Proof.
  apply keeping_in_workspace. intros. apply keeps_after; [by apply keeps_GetSecretInWorkspace|]. intros. by apply keeps_ret.
Qed.
Lemma keeping_ListSecret body workspace : keeping (ListSecret cfg body workspace).
Proof.
  apply keeping_in_workspace. intros. apply keeps_after; [by apply keeps_ListSecretInWorkspace|]. intros. by apply keeps_ret.
Qed.
Lemma keeping_DeleteSecret body workspace : keeping (DeleteSecret cfg body workspace).
Proof.
  apply keeping_in_workspace. intros. apply keeps_after; [by apply keeps_DeleteSecretInWorkspace|]. intros. by apply keeps_ret.
Qed.
Lemma keeping_UpdateSecret body workspace : keeping (UpdateSecret cfg body workspace).
Proof.
  apply keeping_in_workspace. intros. apply keeps_after; [by apply keeps_UpdateSecretInWorkspace|]. intros. by apply keeps_ret.
Qed.

(** ** Settings *)

(** What the look-up of an application's workspaces has: names of the user's, and
    identifiers of his, all of them if no error was kept. *)
Definition apps_ok (h : history) (acc : list AppWorkspace * list gerr) : Prop :=
  forall w, w ∈ acc.1 -> (exists x, aw_Name w = UserWorkspaceName x user) /\
    (aw_Id w = "" \/ owned h (aw_Id w)) /\ (acc.2 = [] -> owned h (aw_Id w)).
Lemma apps_ok_mono h h' acc : h ⊆ h' -> apps_ok h acc -> apps_ok h' acc.
Proof.
  intros Hs Ha w Hw. destruct (Ha w Hw) as (Hn & Hi & He). split_and!; [done| |intros E; eapply owned_mono; eauto].
  destruct Hi; [by left|right; by eapply owned_mono].
Qed.
Lemma apps_ok_snoc h acc w errs :
  apps_ok h acc -> (exists x, aw_Name w = UserWorkspaceName x user) -> (aw_Id w = "" \/ owned h (aw_Id w)) ->
  (errs = [] -> owned h (aw_Id w)) -> apps_ok h (acc.1 ++ [w], acc.2 ++ errs).
Proof.
  intros Ha Hn Hi He v [Hv|Hv]%elem_of_app.
  - destruct (Ha v Hv) as (H1 & H2 & H3). split_and!; [done..|]. cbn. intros [E _]%app_nil. auto.
  - apply list_elem_of_singleton in Hv as ->. split_and!; [done..|]. cbn. intros [_ E]%app_nil. auto.
Qed.

Lemma keeps_app_workspace h token orgId key acc pr : issued h token -> apps_ok h acc ->
  keeps (app_workspace cfg token orgId key user acc pr) (fun h' r => forall acc', r = Ok acc' -> apps_ok h' acc') h.
Proof.
  intros Ht Ha. unfold app_workspace. destruct (secret_workspace pr) as [x|]; [|apply keeps_ret; by intros acc' [= <-]].
  eapply keeps_bind; [by apply keeps_GetWorkspace|]. intros h1 [id|e] Hs1 Hr.
  - specialize (Hr id eq_refl). destruct (String.eqb_spec id "") as [->|Hne].
    + apply keeps_ret. intros acc' [= <-]. rewrite <- (app_nil_r acc.2).
      apply apps_ok_snoc; [by eapply apps_ok_mono|by exists x|by left|done].
    + eapply keeps_bind; [apply keeps_GetWorkspaceKey; by eapply issued_mono|]. intros h2 [k|e] Hs2 _; apply keeps_ret; [|done].
      intros acc' [= <-]. rewrite <- (app_nil_r acc.2). assert (owned h2 id) by (by eapply owned_mono).
      apply apps_ok_snoc; [eapply apps_ok_mono; [|exact Ha]; by etrans|by exists x|by right|done].
  - destruct (negb _); apply keeps_ret; [done|]. intros acc' [= <-].
    apply apps_ok_snoc; [by eapply apps_ok_mono|by exists x|by left|done].
Qed.
Lemma keeps_getAppSecretWorkspaces h token orgId key app : issued h token ->
  keeps (getAppSecretWorkspaces cfg token orgId key user app)
    (fun h' r => exists errs, apps_ok h' (r.1, errs) /\ (r.2 = None -> errs = [])) h.
Proof.
  intros Ht. unfold getAppSecretWorkspaces. assert (H0 : forall h' e, exists errs, apps_ok h' (@nil AppWorkspace, errs) /\ (e = @None perm_error -> errs = [])).
  { intros h' e. exists []. split; [|done]. intros w []%elem_of_nil. }
  eapply (keeps_bind _ _ anything); [by apply keeps_elsewhere|]. intros h1 [[|item items]|e] Hs1 _; [by apply keeps_ret, H0| |by apply keeps_ret, H0].
  eapply keeps_bind.
  - apply (keeps_fold_each _ (fun h acc => apps_ok h acc.2)).
    + intros h2 h3 s. apply apps_ok_mono.
    + intros h2 acc [perm|e] Hs2 Ha; [|by apply keeps_ret]. cbn. destruct (String.eqb _ _); [|apply keeps_ret; by intros ? [= <-]].
      eapply keeps_bind; [apply (keeps_fold_each _ apps_ok); [intros ???; apply apps_ok_mono| |exact Ha]|].
      * intros h3 acc' pr Hs3 Ha'. apply keeps_app_workspace; [|done]. eapply issued_mono; [|exact Ht]. set_solver.
      * intros h3 [l|e] Hs3 Hr; apply keeps_ret; [|done]. intros ? [= <-]. by apply Hr.
    + intros w []%elem_of_nil.
  - intros h2 [[found [l errs]]|e] Hs2 Hr; apply keeps_ret; [|apply H0]. specialize (Hr _ eq_refl). cbn in Hr.
    destruct errs as [|e errs]; [destruct found; [by exists []|apply H0]|]. by exists (e :: errs).
Qed.

Lemma keeping_for_app {B} app (user_too : bool) (body : res B) k :
  (forall h token data orgId key, issued h token -> keeps (k token data user orgId key) anything h) ->
  keeping (fun c => for_app app user_too body c k).
Proof.
  intros Hk h c [Hu Ht]. unfold for_app. destruct (String.eqb app ""); [by apply keeps_ret|].
  destruct (cx_AuthToken c) as [token|]; [|by apply keeps_ret]. specialize (Ht token eq_refl).
  destruct body as [data|e]; [|by apply keeps_ret].
  apply (keeps_bind _ _ anything); [apply keeps_elsewhere; destruct user_too; [|done]; apply issues_bind; [apply issues_deref|done]|].
  intros h1 _ Hs1 _. eapply keeps_bind; [apply keeps_deref|]. intros h2 name Hs2 E. rewrite Hu in E. injection E as <-.
  eapply keeps_bind; [apply keeps_deref|]. intros h3 orgId Hs3 _.
  eapply keeps_bind; [apply keeps_deref|]. intros h4 key Hs4 _.
  apply Hk. eapply issued_mono; [|exact Ht]. set_solver.
Qed.
Lemma keeping_CheckAppSecretPerm app : keeping (CheckAppSecretPerm cfg app).
Proof.
  apply keeping_for_app. intros h token _ orgId key Ht.
  eapply keeps_bind; [by apply keeps_getAppSecretWorkspaces|]. intros. by apply keeps_ret.
Qed.
Lemma keeping_ListAppSecret app : keeping (ListAppSecret cfg app).
Proof.
  apply keeping_for_app. intros h token _ orgId key Ht.
  eapply keeps_bind; [by apply keeps_getAppSecretWorkspaces|]. intros h1 [[|w ws] err] Hs1 (errs & Ha & _);
    [destruct err; by apply keeps_ret|]. apply keeps_after; [|by intros; apply keeps_ret].
  assert (Hall : forall v, v ∈ w :: ws -> aw_Id v = "" \/ owned h1 (aw_Id v)) by (intros v Hv; apply (Ha v Hv)).
  clear Ha. revert Hall. generalize (w :: ws) as l. intros l Hall.
  assert (Ht1 : issued h1 token) by (by eapply issued_mono). clear Hs1 Ht. revert h1 Ht1 Hall. generalize (@nil (string * string)) as acc.
  induction l as [|v l IH]; intros acc h1 Ht1 Hall; cbn; [by apply keeps_ret|].
  apply keeps_then.
  - unfold workspace_keys. destruct (String.eqb_spec (aw_Id v) ""); [by apply keeps_ret|].
    apply keeps_then; [|by intros; apply keeps_ret]. apply keeps_ListSecretInWorkspace; [done|].
    by destruct (Hall v ltac:(left)).
  - intros h2 acc' Hs2. apply IH; [by eapply issued_mono|]. intros x Hx. destruct (Hall x ltac:(by right)); [by left|right; by eapply owned_mono].
Qed.
Lemma keeping_CreateAppSecret app body : keeping (CreateAppSecret cfg app body).
Proof.
  apply keeping_for_app. intros h token secret orgId key Ht.
  assert (Hc : forall h' id k, h ⊆ h' -> owned h' id -> keeps
    (or_500 "create secret error, " (CreateSecretInWorkspace addr token id k (sd_Key secret) (sd_Value secret) DefaulSecretEnv)
       (fun _ => Ret (ok_msg "create secret success"))) anything h').
  { intros h' id k Hs Ho. apply keeps_after; [|by intros; apply keeps_ret].
    apply keeps_CreateSecretInWorkspace; [by eapply issued_mono|done]. }
  eapply keeps_bind; [by apply keeps_getAppSecretWorkspaces|]. intros h1 [[|w ws] err] Hs1 (errs & Ha & _); [by apply keeps_ret|].
  destruct (Ha w ltac:(left)) as ((x & Hx) & Hid & _). cbn [fst]. destruct (String.eqb_spec (aw_Id w) "") as [E|E].
  - rewrite Hx. eapply keeps_or_500; [apply keeps_CreateWorkspace; by eapply issued_mono|]. intros h2 id Hs2 Ho.
    eapply keeps_or_500; [apply keeps_GetWorkspaceKey; eapply issued_mono; [|exact Ht]; by etrans|]. intros h3 k Hs3 _.
    apply Hc; [set_solver|by eapply owned_mono].
  - apply Hc; [done|]. by destruct Hid.
Qed.
Lemma keeping_in_app_workspace app (user_too : bool) body k :
  (forall h token secret ws, issued h token -> owned h (aw_Id ws) -> keeps (k token secret ws) anything h) ->
  keeping (fun c => in_app_workspace cfg app user_too body c k).
Proof.
  intros Hk. apply keeping_for_app. intros h token secret orgId key Ht.
  eapply keeps_bind; [by apply keeps_getAppSecretWorkspaces|]. intros h1 [[|w ws] [e|]] Hs1 (errs & Ha & He); try by apply keeps_ret.
  apply Hk; [by eapply issued_mono|]. apply (Ha w ltac:(left)). by apply He.
Qed.
Lemma keeping_DeleteAppSecret app body : keeping (DeleteAppSecret cfg app body).
Proof.
  apply keeping_in_app_workspace. intros. apply keeps_after; [by apply keeps_DeleteSecretInWorkspace|]. intros. by apply keeps_ret.
Qed.
Lemma keeping_UpdateAppSecret app body : keeping (UpdateAppSecret cfg app body).
Proof.
  apply keeping_in_app_workspace. intros. apply keeps_after; [by apply keeps_UpdateSecretInWorkspace|]. intros. by apply keeps_ret.
Qed.

(** ** Deleting a user *)

Definition workspaces_ok (h : history) (acc : list (string * string) * list gerr) : Prop :=
  forall w, w ∈ acc.1 -> owned h w.2 \/ w.2 = "".
Lemma workspaces_ok_mono h h' acc : h ⊆ h' -> workspaces_ok h acc -> workspaces_ok h' acc.
Proof. intros Hs Ha w Hw. destruct (Ha w Hw); [left; by eapply owned_mono|by right]. Qed.
Lemma keeps_user_workspace h token orgId acc pr : issued h token -> workspaces_ok h acc ->
  keeps (user_workspace cfg token orgId user acc pr) (fun h' r => forall acc', r = Ok acc' -> workspaces_ok h' acc') h.
Proof.
  intros Ht Ha. unfold user_workspace. destruct (secret_workspace pr) as [x|]; [|apply keeps_ret; by intros acc' [= <-]].
  eapply keeps_bind; [by apply keeps_GetWorkspace|]. intros h1 [id|e] Hs1 Hr.
  - apply keeps_ret. intros acc' [= <-] w [Hw| ->%list_elem_of_singleton]%elem_of_app; [by eapply workspaces_ok_mono|left; by apply Hr].
  - destruct (negb _); apply keeps_ret; [done|].
    intros acc' [= <-] w [Hw| ->%list_elem_of_singleton]%elem_of_app; [by eapply workspaces_ok_mono|by right].
Qed.
Lemma keeps_getWorkspaces h token orgId : issued h token ->
  keeps (getWorkspaces cfg token orgId user) (fun h' l => workspaces_ok h' (l, [])) h.
Proof.
  intros Ht. unfold getWorkspaces. assert (H0 : forall h', workspaces_ok h' ([], [])) by (intros h' w []%elem_of_nil).
  eapply (keeps_bind _ _ anything); [by apply keeps_elsewhere|]. intros h1 [items|e] Hs1 _; [|by apply keeps_ret].
  eapply keeps_bind.
  - apply (keeps_fold_each _ workspaces_ok); [intros ???; apply workspaces_ok_mono| |apply H0].
    intros h2 acc [perm|e] Hs2 Ha; [|by apply keeps_ret].
    apply (keeps_fold_each _ workspaces_ok); [intros ???; apply workspaces_ok_mono| |exact Ha].
    intros h3 acc' pr Hs3 Ha'. apply keeps_user_workspace; [|done]. eapply issued_mono; [|exact Ht]. set_solver.
  - intros h2 [[l errs]|e] Hs2 Hr; apply keeps_ret; [|apply H0]. exact (Hr _ eq_refl).
Qed.
Lemma keeps_DeleteWorkspace h token id : issued h token -> owned h id \/ id = "" ->
  keeps (DeleteWorkspace addr token id) anything h.
Proof.
  intros Ht Ho. apply keeps_then; [|by intros; apply keeps_ret]. eapply keeps_mono; [|done].
  apply keeps_api; [done|done|]. intros i _ E. apply string_app_inj_l in E as <-. done.
Qed.
Lemma keeps_or_fail {A} (m : io (res A)) (k : A -> io (answer VData)) h :
  keeps m anything h -> (forall h' a, h ⊆ h' -> keeps (k a) anything h') -> keeps (or_fail m k) anything h.
Proof. intros Hm Hk. apply (keeps_bind _ _ anything); [done|]. intros h' [a|e] Hs _; [by apply Hk|by apply keeps_ret]. Qed.
Lemma keeps_connect rounds dsn h : keeps (connect rounds dsn) anything h.
Proof.
  apply keeps_elsewhere. induction rounds as [|n IH]; [done|]. cbn [connect]. apply issues_bind; [done|].
  intros [conn|e]; [done|]. by apply issues_bind.
Qed.
Lemma keeps_user_callback rounds body k h :
  (forall h' info client, h ⊆ h' -> keeps (k info client) anything h') -> keeps (user_callback cfg rounds body k) anything h.
Proof.
  intros Hk. apply keeps_or_fail.
  { apply keeps_elsewhere. unfold getPostgresUserAndPwd, getSecretPwd. by issues_walk. }
  intros h1 up Hs1. destruct body as [info|e]; [|by apply keeps_ret].
  apply (keeps_bind _ _ anything); [|by intros; apply keeps_ret].
  apply (keeps_bind _ _ anything); [apply keeps_connect|]. intros h2 [conn|] Hs2 _; [|by apply keeps_ret].
  apply (keeps_bind _ _ anything); [|by intros; apply keeps_ret].
  apply keeps_with_defer; [done|done|]. apply Hk. by etrans.
Qed.
Lemma issues_insert {T} `{Row T} client table (obj : T) : issues elsewhere (Create client table obj).
Proof. unfold Create, insert, ValueMapper. by issues_walk. Qed.
Lemma issues_first_row s client sql arg : issues elsewhere (first_row s client sql arg).
Proof. unfold first_row. by issues_walk. Qed.
Lemma issues_GetUser client email : issues elsewhere (VaultDb.GetUser client email).
Proof. unfold VaultDb.GetUser. destruct (String.eqb _ _); [done|apply issues_first_row]. Qed.
Lemma keeping_DeleteUser rounds body : keeping (DeleteUser cfg rounds body).
Proof.
  intros h c [Hu Ht]. apply keeps_user_callback. intros h1 info client Hs1.
  apply keeps_or_fail; [apply keeps_elsewhere, issues_GetUser|]. intros h2 [u|] Hs2; [|by apply keeps_ret].
  apply keeps_or_fail; [apply keeps_elsewhere; unfold DeleteUserFromPostgres, VaultDb.DeleteUser, delete; by issues_walk|].
  intros h3 _ Hs3. destruct (cx_AuthToken c) as [token|]; [|by apply keeps_ret]. specialize (Ht token eq_refl).
  eapply keeps_bind; [apply keeps_deref|]. intros h4 name Hs4 E. rewrite Hu in E. injection E as <-.
  eapply keeps_bind; [apply keeps_deref|]. intros h5 orgId Hs5 _.
  assert (Ht5 : issued h5 token) by (eapply issued_mono; [|exact Ht]; set_solver).
  eapply keeps_bind; [by apply keeps_getWorkspaces|]. intros h6 l Hs6 Hl.
  apply (keeps_bind _ _ anything); [|by intros; apply keeps_ret].
  assert (Ht6 : issued h6 token) by (by eapply issued_mono). clear - Hl Ht6. revert h6 Hl Ht6.
  induction l as [|w l IH]; intros h Hl Ht; cbn [fold_all]; [by apply keeps_ret|].
  apply (keeps_bind _ _ anything).
  - apply (keeps_bind _ _ anything); [|by intros; apply keeps_ret]. apply keeps_DeleteWorkspace; [done|]. apply (Hl w). left.
  - intros h' [] Hs _. apply IH; [|by eapply issued_mono]. eapply (workspaces_ok_mono h); [done|]. intros v Hv. apply Hl. by right.
Qed.

(** ** The token, and the whole server *)

Lemma keeping_FetchUserPrivateKey next : keeping next -> keeping (FetchUserPrivateKey next).
Proof.
  intros Hn h c Hc. unfold FetchUserPrivateKey. eapply keeps_bind; [apply keeps_deref|]. intros h1 u Hs1 _.
  eapply keeps_bind; [apply keeps_deref|]. intros h2 pwd Hs2 _.
  apply keeps_after.
  - apply keeps_elsewhere. unfold GetUserPrivateKey, DecryptUserPrivateKeyHelper, Decrypt. by issues_walk.
  - intros h3 key Hs3. apply Hn. eapply acts_mono; [|exact Hc]. set_solver.
Qed.
Lemma keeping_FetchUserOrganizationId next : keeping next -> keeping (FetchUserOrganizationId cfg next).
Proof.
  intros Hn h c Hc. unfold FetchUserOrganizationId. destruct (cx_OrgId c); [by apply Hn|].
  eapply keeps_bind; [apply keeps_deref|]. intros h1 token Hs1 E.
  assert (Ht : issued h1 token) by (eapply issued_mono; [done|]; by apply Hc).
  apply keeps_after; [|intros h2 org Hs2; apply Hn; eapply acts_mono; [|exact Hc]; set_solver].
  apply keeps_then; [|by intros; apply keeps_ret]. eapply keeps_mono; [by apply keeps_plain_api|done].
Qed.
Lemma keeping_plain (hd : handler) : (forall c, issues elsewhere (hd c)) -> keeping hd.
Proof. intros Hi h c _. by apply keeps_elsewhere. Qed.

Lemma keeps_getUser h email :
  keeps (getUserFromInfisicalPostgres cfg email) (fun h' r => forall us, r = Ok us ->
    exists conn, vt_ev (InfQuery UserRow conn user_sql [("email", email)]) (Ok (Some (Ok us.1))) ∈ h') h.
Proof.
  unfold getUserFromInfisicalPostgres. eapply (keeps_bind_ok _ _ anything).
  { eapply keeps_mono; [apply keeps_elsewhere; unfold getPostgresUserAndPwd, getSecretPwd; by issues_walk|]. by intros h' [] . }
  intros h1 up Hs1 _. eapply (keeps_bind_ok _ _ anything); [eapply keeps_mono; [by apply keeps_elsewhere|]; by intros h' []|].
  intros h2 pg Hs2 _. apply keeps_with_defer; [done| |].
  { intros h3 h4 r Hs HP us E. destruct (HP us E) as [conn Hc]. exists conn. by apply Hs. }
  apply (keeps_bind_ok _ _ (fun h' found => forall u, found = Some u ->
    vt_ev (InfQuery UserRow pg user_sql [("email", email)]) (Ok (Some (Ok u))) ∈ h')).
  - unfold VaultDb.GetUser. destruct (String.eqb _ _); [by apply keeps_ret|]. unfold first_row.
    eapply (keeps_bind_ok _ _ (fun h' (r : option (res UserEncryptionKeysPG)) =>
      vt_ev (InfQuery UserRow pg user_sql [("email", email)]) (Ok r) ∈ h')).
    + apply (keeps_call (Ext (Vt (InfQuery UserRow pg user_sql [("email", email)])))); [done|].
      intros [r|e]; [|done]. apply elem_of_app. right. left.
    + intros h3 [[u|e]|] Hs3 Hin; apply keeps_ret; [by intros ? [= <-]|done|done].
  - intros h3 [u|] Hs3 Hin; [|by apply keeps_ret]. specialize (Hin u eq_refl).
    eapply (keeps_bind_ok _ _ anything).
    + eapply keeps_mono; [apply keeps_elsewhere|by intros h' []]. unfold GetUserTokenSession. destruct (String.eqb _ _); [done|].
      apply issues_bind_ok; [apply issues_first_row|]. intros [s|]; [done|]. apply issues_bind; [done|]. intros now.
      apply issues_bind_ok; [apply issues_insert|done].
    + intros h4 s Hs4 _. apply keeps_ret. intros us [= <-]. exists pg. by apply Hs4.
Qed.
Lemma keeps_issueToken h uid key ten ty sid org :
  keeps (issueToken uid key ten ty sid org) (fun h' r => forall token, r = Ok token ->
    exists claims, vt_ev (JwtSign claims key) (Ok token) ∈ h' /\ tc_UserId claims = uid /\ tc_AuthTokenType claims = ty) h.
Proof.
  unfold issueToken. eapply (keeps_bind _ _ anything); [by apply keeps_elsewhere|]. intros h1 now Hs1 _.
  eapply (keeps_bind _ _ anything); [by apply keeps_elsewhere|]. intros h2 later Hs2 _.
  set (claims := mkClaims _ _ _ _ _ _ _ _ _). apply (keeps_call (Ext (Vt (JwtSign claims key)))); [done|].
  intros r token ->. exists claims. split_and!; [|done..]. apply elem_of_app. right. left.
Qed.
Lemma keeps_IssueInfisicalToken next h c o email :
  keeping next -> ev (Ext (Srv (GetKsUser user))) (Ok o) ∈ h -> kso_Email o = Ok email ->
  cx_Username c = Some user -> cx_Email c = Some email ->
  keeps (IssueInfisicalToken cfg next c) anything h.
Proof.
  intros Hn Ho He Hu Hc. unfold IssueInfisicalToken. rewrite Hc.
  eapply keeps_bind; [apply keeps_getUser|]. intros h1 [[u s]|e] Hs1 Hr; [|by apply keeps_ret].
  destruct (Hr _ eq_refl) as [conn Hq]. eapply keeps_bind; [apply keeps_deref|]. intros h2 org Hs2 _.
  eapply (keeps_bind _ _ anything); [apply keeps_elsewhere; unfold getJwtSecret; by issues_walk|].
  intros h3 [[ak rk]|e] Hs3 _; [|by apply keeps_ret]. eapply keeps_bind; [apply keeps_deref|]. intros h4 sid Hs4 _.
  eapply keeps_bind; [apply keeps_issueToken|]. intros h5 [rt|e] Hs5 _; [|by apply keeps_ret].
  eapply keeps_bind; [apply keeps_issueToken|]. intros h6 [token|e] Hs6 Ht; [|by apply keeps_ret].
  apply Hn. split; [done|]. intros t [= <-]. destruct (Ht _ eq_refl) as (claims & Hj & Hid & Hty).
  exists o, email, conn, u, claims, ak. split_and!; [|done| |done..].
  - set_solver.
  - set_solver.
Qed.
Lemma keeps_GetUserInfo (next : UserCtx -> io (answer VData)) h :
  (forall h' o email, ev (Ext (Srv (GetKsUser user))) (Ok o) ∈ h' -> kso_Email o = Ok email ->
     keeps (next (mkUserCtx user email)) anything h') ->
  keeps (GetUserInfo user next) anything h.
Proof.
  intros Hn. unfold GetUserInfo. destruct (String.eqb user ""); [by apply keeps_ret|].
  eapply (keeps_bind _ _ (fun h' r => forall email, r = Ok email ->
    exists o, ev (Ext (Srv (GetKsUser user))) (Ok o) ∈ h' /\ kso_Email o = Ok email)).
  - eapply (keeps_bind_ok _ _ (fun h' (o : KsUserObj) => ev (Ext (Srv (GetKsUser user))) (Ok o) ∈ h')).
    + apply (keeps_call (Ext (Srv (GetKsUser user)))); [done|]. intros [o|e]; [|by intros ? [=]]. apply elem_of_app. right. left.
    + intros h1 o Hs1 Ho. apply keeps_ret. eauto.
  - intros h1 [email|e] Hs1 Hr; [|by apply keeps_ret]. destruct (Hr _ eq_refl) as (o & Ho & He). by eapply Hn.
Qed.

Lemma keeping_route q : keeping (match plain_route cfg q with Some hd => hd | None => with_key_and_org cfg (route cfg q) end).
Proof.
  assert (H1 : forall hd, keeping hd -> keeping (with_key_and_org cfg hd)).
  { intros hd Hh. by apply keeping_FetchUserPrivateKey, keeping_FetchUserOrganizationId. }
  destruct q; cbn [plain_route route]; try apply H1.
  - apply keeping_plain. intros c. unfold AuthToken. by destruct (cx_AuthToken c).
  - apply keeping_plain. intros c. unfold PrivateKey. by destruct (cx_AuthToken c), (cx_User c).
  - apply keeping_CreateSecret.
  - apply keeping_DeleteSecret.
  - apply keeping_UpdateSecret.
  - apply keeping_RetrieveSecret.
  - apply keeping_ListSecret.
  - apply keeping_CheckAppSecretPerm.
  - apply keeping_ListAppSecret.
  - apply keeping_CreateAppSecret.
  - apply keeping_DeleteAppSecret.
  - apply keeping_UpdateAppSecret.
Qed.

Lemma keeps_runs {A} (m : io A) tr out : keeps m anything [] -> runs m tr out -> always confined tr.
Proof. intros Hm Hr. eapply (proj1 (wp_trace m (fun tr' _ => always confined tr'))); [|exact Hr].
  eapply wp_mono; [|apply Hm, always_nil]. by intros h' x [Ha _]. Qed.

(** C33: Whatever is asked of the vault with a user in the header, each call of the
    secret store uses a token that was signed before, in this run, for the row
    read by the email read of this user; a call on secrets is for a workspace
    whose identifier a listing or a creation gave before under a name that ends
    with a dash and the user's name; and only such workspaces are deleted when a
    user is, besides the call for those that were not found, which names none. *)
Theorem vault_confined q rounds body tr out :
  runs (serve_vault cfg user q) tr out \/ runs (serve_user_delete cfg user rounds body) tr out ->
  always confined tr.
Proof.
  assert (H1 : forall (next : handler) tr out, keeping next ->
    runs (GetUserInfo user (fun u => IssueInfisicalToken cfg next (user_ctx cfg u))) tr out -> always confined tr).
  { intros next tr' out' Hn Hr. eapply keeps_runs; [|exact Hr]. apply keeps_GetUserInfo.
    intros h o email Ho He. by eapply keeps_IssueInfisicalToken. }
  intros [Hr|Hr]; (eapply H1; [|exact Hr]); [apply keeping_route|apply keeping_DeleteUser].
Qed.
End Confined.
