(* ===== verification/VaultDemo.v ===== *)
(** * A vault to try the theorems on

    A concrete world for the secret vault: one user, one workspace of his, an
    interface that answers always alike, and the toy ciphers. *)

From S2P Require Import Prelude Effects Apr World Base64 Crypto CryptoSpec Demo VaultDb VaultApi MwServer Vault VaultAdmin VaultSpec VaultSafety.

Definition demo_config : Config := mkConfig "infisical" "infisical" "pg:5432" "http://infisical" "secret".
Definition bytes32 : string := repeat_char "k"%char 32.
Definition bytes16 : string := repeat_char "n"%char 16.
(** What the toy cipher makes of an empty key. *)
Definition demo_row : UserEncryptionKeysPG :=
  mkUserKeys (Some "k1") "" "" 1 "" "" "" (EncodeToString bytes32) "" (EncodeToString bytes16) (EncodeToString toy_tag)
    "salt" "verifier" "u1" (Some "org1").
Definition demo_session : AuthTokenSessionsPG := mkSession (Some "s1") "localhost" (Some "tapr-sidecar") 1 1 "u1" 0.
Definition demo_user : KsUserObj := mkKsUserObj ∅ (Ok "alice@example.com").
Definition demo_secret_fields : gmap string json :=
  list_to_map (sealed_fields "secretKey" (sealed_with bytes16 "api-key" bytes32) ++
               sealed_fields "secretValue" (sealed_with bytes16 "s3cr3t" bytes32)).
Definition demo_reply (d : decoded) : InfReply d :=
  match d with
  | OrganizationIds => mkInfReply OrganizationIds 200 "" ["org1"]
  | WorkspaceList => mkInfReply WorkspaceList 200 "" [("w0", "files-bob"); ("w1", "files-alice")]
  | ProjectOf => mkInfReply ProjectOf 200 "" (Some ("w2", "new-alice"))
  | KeyOf => mkInfReply KeyOf 200 "" (mkEncryptedKey (EncodeToString bytes32) "" "")
  | SecretOf => mkInfReply SecretOf 200 "" demo_secret_fields
  | SecretList => mkInfReply SecretList 200 "" [Some demo_secret_fields]
  | Nothing => mkInfReply Nothing 200 "" tt
  end.
Definition vault_world (o : op) : resp o :=
  match o with
  | K8s (GetSecret ns name) => Ok (mkSecret name ns {["postgres-passwords" := "pg"; "JWT_AUTH_SECRET" := "jwt"]})
  | Sys (RandBytes n) => Ok (repeat 110%Z n)
  | Ext (Srv (GetKsUser _)) => Ok demo_user
  | Ext (Vt BoxGenerateKey) => Ok (bytes32, bytes32)
  | Ext (Vt (Jsrp _ _)) => Ok "salt:verifier"
  | Ext (Vt NewUuid) => "id1"
  | Ext (Vt (JwtSign claims _)) => Ok ("token of " +:+ tc_UserId claims)
  | Ext (Vt (InfConnect _)) => Ok 0%nat
  | Ext (Vt (InfExec _ _)) => Ok tt
  | Ext (Vt (InfNamedExec _ _ _)) => Ok tt
  | Ext (Vt (InfQuery UserRow _ _ _)) => Ok (Some (Ok demo_row))
  | Ext (Vt (InfQuery SessionRow _ _ _)) => Ok (Some (Ok demo_session))
  | Ext (Vt (InfQuery OrgRow _ _ _)) => Ok (Some (Ok (mkOrg (Some "org1") "Terminus")))
  | Ext (Vt (Infisical d _ _ _ _ _)) => Ok (demo_reply d)
  | Ext (Vt (ListAppPermissions _)) =>
      Ok [Ok (mkAppPermission "files" [mkPermReq "secret.infisical" "secret" "v1" ["CreateSecret?workspace=files"]])]
  | o => unavailable o
  end.

Definition retrieve : vault_request := PostRetrieveSecret (Ok (mkVaultSecret "api-key" "" "")) "files".
Definition create : vault_request := PostCreateSecret (Ok (mkVaultSecret "api-key" "s3cr3t" "")) "files".
Example retrieved : out_in vault_world (serve_vault demo_config "alice" retrieve) =
  Returned (ok_data (SecretData (mkVaultSecret "api-key" "s3cr3t" ""))).
Proof. vm_compute. reflexivity. Qed.
Example settings_listed : out_in vault_world (serve_vault demo_config "alice" (GetAppSecrets "files")) =
  Returned (ok_data (AppKeys [("files-alice", "api-key")])).
Proof. vm_compute. reflexivity. Qed.

(** The reads of the random source in this world are full. *)
Fixpoint reads_full (tr : history) : bool :=
  match tr with
  | [] => true
  | existT (Sys (RandBytes n)) (Ok bytes) :: tr' => Nat.eqb (length bytes) n && reads_full tr'
  | _ :: tr' => reads_full tr'
  end.
Lemma reads_full_spec tr : reads_full tr = true -> full_reads tr.
Proof.
  intros Ht n bytes. revert Ht. induction tr as [|e tr IH]; intros Ht Hin; [by apply elem_of_nil in Hin|].
  apply elem_of_cons in Hin as [<-|Hin].
  - cbn in Ht. by apply andb_true_iff in Ht as [E%Nat.eqb_eq _].
  - apply IH; [|done]. destruct e as [[| | | |[]| | |] r]; cbn in Ht; try done. destruct r; [|done].
    by apply andb_true_iff in Ht as [_ Ht].
Qed.

Definition create_in_api : io (res unit) := CreateSecretInWorkspace "http://infisical" "token" "w1" bytes32 "api-key" "s3cr3t" "".
Lemma secret_read_back_witness :
  out_in vault_world create_in_api = Returned (Ok tt) /\
  exists fields r,
    vt_ev (Infisical Nothing "POST" ("http://infisical" +:+ secrets_path +:+ "api-key") "token" [] (Some (JObj fields))) r
      ∈ trace_in vault_world create_in_api /\
    ("workspaceId", JStr "w1") ∈ fields /\ ("environment", JStr "prod") ∈ fields /\
    forall token' tr' out, runs (GetSecretInWorkspace "http://infisical" token' "w1" bytes32 "" "api-key") tr' out ->
      (forall reply, vt_ev (Infisical SecretOf "GET" ("http://infisical" +:+ secrets_path +:+ "api-key") token' (scope_query "w1" "") None) reply ∈ tr' ->
         exists text m, reply = Ok (mkInfReply SecretOf 200 text m) /\ gives_back m fields) ->
      out = Returned (Ok ("api-key", "s3cr3t")).
Proof.
  split; [vm_compute; reflexivity|].
  apply (secret_read_back "http://infisical" "token" "w1" bytes32 "api-key" "s3cr3t" "").
  - apply runs_in_to. vm_compute. reflexivity.
  - apply reads_full_spec. vm_compute. reflexivity.
Defined.

Definition insert_alice : io (res unit) := InsertKsUserToPostgres "org1" 0 "alice" "alice@example.com" "short".
Lemma saved_key_opens_witness :
  exists pk sk sql row,
    vt_ev BoxGenerateKey (Ok (pk, sk)) ∈ trace_in vault_world insert_alice /\
    vt_ev (InfNamedExec 0 sql (columns row)) (Ok tt) ∈ trace_in vault_world insert_alice /\
    opens_with row "short" pk sk.
Proof.
  apply (saved_key_opens "org1" 0 "alice" "alice@example.com").
  - apply runs_in_to. vm_compute. reflexivity.
  - apply reads_full_spec. vm_compute. reflexivity.
Defined.

Definition create_there : io (res string) := CreateWorkspace "http://infisical" "token" "org1" "files-alice".
Lemma CreateWorkspace_exact_witness :
  exists r, creation_after "http://infisical" "token" "org1" "files-alice" r (trace_in vault_world create_there)
              (Returned (Ok "w1")).
Proof. apply CreateWorkspace_exact, runs_in_to. vm_compute. reflexivity. Defined.

Lemma vault_confined_witness :
  out_in vault_world (serve_vault demo_config "alice" create) = Returned (ok_data NoBody) /\
  always (confined demo_config "alice") (trace_in vault_world (serve_vault demo_config "alice" create)).
Proof.
  split; [vm_compute; reflexivity|].
  apply (vault_confined demo_config "alice" create 0 (Ok (mkPostUserInfo "" ""))) with (out := out_in vault_world (serve_vault demo_config "alice" create)).
  left. apply runs_in.
Defined.
