(* ===== verification/VaultMongo.v ===== *)
(** * The vault's users in MongoDB

    src/pkg/vault/infisical/mongo.go, and the functions of init.go and token.go
    over it: where Infisical kept its users before PostgreSQL.  Nothing in the
    repository calls them any more. *)

From S2P Require Import Prelude Effects Apr World Base64 Crypto VaultDb Vault.

(** Called [MongoClient] in the code. *)
Record MongoAccess : Set := mkMongoAccess {
  ma_User : string; ma_Password : string; ma_Database : string; ma_Addr : string }.
Definition infisical_dsn (m : MongoAccess) : string :=
  "mongodb://" +:+ ma_User m +:+ ":" +:+ ma_Password m +:+ "@" +:+ ma_Addr m +:+ "/" +:+ ma_Database m.

(** Connecting, and [defer client.Disconnect]. *)
Definition with_infisical_mongo {A} (m : MongoAccess) (k : nat -> io (res A)) : io (res A) :=
  let? client := un_call (MdbConnect (infisical_dsn m)) in
  with_defer (un_call (MdbDisconnect client)) (k client).

Definition TryConnect (m : MongoAccess) : io (res unit) :=
  with_infisical_mongo m (fun client => un_call (MdbPing client)).

Definition mongo_GetUser (m : MongoAccess) (email : string) : io (res UserMDB) :=
  if String.eqb email "" then Ret (Err (newErr "email is empty"))
  else with_infisical_mongo m (fun client => let? user := un_call (MdbFindUser client (ma_Database m) email) in Ret user).

(** [InsertedID.(primitive.ObjectID)] *)
Definition object_id (id : option string) : io string :=
  match id with Some id => Ret id | None => Panic "interface conversion: not primitive.ObjectID" end.

(** The user, an organization, and his membership in it, one after the other. *)
Definition mongo_SaveUser (m : MongoAccess) (user : option UserMDB) : io (res string) :=
  match user with
  | None => Ret (Err (newErr "user is empty"))
  | Some user =>
      with_infisical_mongo m (fun client =>
        let? userresult := un_call (MdbInsertOne client (ma_Database m) "users" (UserDoc user)) in
        let? orgRes := un_call (MdbInsertOne client (ma_Database m) "organizations" (OrganizationMDB "Terminus")) in
        let! organization := object_id orgRes in
        let! uid := object_id userresult in
        let? _ := un_call (MdbInsertOne client (ma_Database m) "membershiporgs"
                             (MembershipOrgMDB organization uid "owner" "accepted")) in
        Ret (Ok uid))
  end.

Section Users.
Context `{Ciphers} (cfg : Config).

(** The keys are made as for PostgreSQL. *)
Definition new_mongo_user (username email : string) (k : UserEncryptionKeysPG) : UserMDB :=
  mkUserMDB "" email "" username 1 "" "" "" (uk_PublicKey k) (uk_EncryptedPrivateKey k) (uk_IV k) (uk_Tag k)
    (uk_Salt k) (uk_Verifier k) 0 false [].
Definition InsertKsUserToMongo (m : MongoAccess) (username email password : string) : io (res unit) :=
  let? keys := new_keys password email in
  let? _ := mongo_SaveUser m (Some (new_mongo_user username email keys)) in
  Ret (Ok tt).

(** The account is the one configured for the token issuer. *)
Definition getUserFromInfisicalMongoDB (getUserAndPwd : io (res (string * string))) (email : string) : io (res UserMDB) :=
  let? up := getUserAndPwd in
  mongo_GetUser (mkMongoAccess up.1 up.2 (cf_InfisicalDBName cfg) (cf_InfisicalDBAddr cfg)) email.
End Users.

(** ** Results *)

(** A deferred call is the last of every run, also of one that panics. *)
Lemma runs_defer_call {A} (o : op) (E : resp o = unit) (d : io unit) (m : io A) tr out :
  (forall tr' out', runs d tr' out' -> exists r, tr' = [ev o r] /\ out' = Returned tt) ->
  runs (with_defer d m) tr out -> exists tr' r, tr = tr' ++ [ev o r] /\ runs m tr' out.
Proof.
  intros Hd. revert tr. induction m as [a|w|o' k IH]; intros tr H; cbn in H.
  - apply runs_bind_inv in H as [(tr1 & tr2 & u & -> & H1 & H2)|(w & _ & H)]; [|by apply Hd in H as (r & _ & [=])].
    apply runs_inv in H2 as [-> ->]. apply Hd in H1 as (r & -> & _). exists [], r. split; [done|constructor].
  - apply runs_bind_inv in H as [(tr1 & tr2 & u & -> & H1 & H2)|(w' & _ & H)]; [|by apply Hd in H as (r & _ & [=])].
    apply runs_inv in H2 as [-> ->]. apply Hd in H1 as (r & -> & _). exists [], r. split; [done|constructor].
  - apply runs_inv in H as (r & tr' & -> & H). apply IH in H as (tr2 & r2 & -> & H).
    exists (ev o' r :: tr2), r2. split; [done|by constructor].
Qed.

(** A connection that was opened is closed by the last call, whatever happened
    in between. *)
Theorem with_infisical_mongo_disconnects {A} m (k : nat -> io (res A)) tr out :
  runs (with_infisical_mongo m k) tr out ->
  (exists e, tr = [ev (Ext (Un (MdbConnect (infisical_dsn m)))) (Err e)] /\ out = Returned (Err e)) \/
  exists client tr', tr = ev (Ext (Un (MdbConnect (infisical_dsn m)))) (Ok client) :: tr' ++
    [ev (Ext (Un (MdbDisconnect client))) tt] /\ runs (k client) tr' out.
Proof.
  intros H. apply runs_inv in H as ([client|e] & tr' & -> & H); cbn in H.
  - right. exists client. apply (runs_defer_call (Ext (Un (MdbDisconnect client)))) in H as (tr2 & [] & -> & H).
    + by exists tr2.
    + done.
    + intros tr2 out2 H2. apply runs_inv in H2 as (r & tr3 & -> & H2). apply runs_inv in H2 as [-> ->]. destruct r. by exists tt.
  - left. apply runs_inv in H as [-> ->]. by exists e.
Qed.

(** A saved user was inserted, and is the owner of the organization inserted
    after him. *)
Theorem mongo_SaveUser_exact m user tr uid :
  runs (mongo_SaveUser m user) tr (Returned (Ok uid)) ->
  exists u client org member, user = Some u /\
  let insert coll doc := MdbInsertOne client (ma_Database m) coll doc in
  tr = [ev (Ext (Un (MdbConnect (infisical_dsn m)))) (Ok client);
        ev (Ext (Un (insert "users" (UserDoc u)))) (Ok (Some uid));
        ev (Ext (Un (insert "organizations" (OrganizationMDB "Terminus")))) (Ok (Some org));
        ev (Ext (Un (insert "membershiporgs" (MembershipOrgMDB org uid "owner" "accepted")))) (Ok member);
        ev (Ext (Un (MdbDisconnect client))) tt].
Proof.
  intros H. destruct user as [u|]; [|by ret_inv H]. exists u.
  apply with_infisical_mongo_disconnects in H as [(e & _ & [=])|(client & tr' & -> & H)]. exists client.
  apply runs_inv in H as ([id|e] & tr2 & -> & H); cbn in H; [|by ret_inv H].
  apply runs_inv in H as ([org|e] & tr3 & -> & H); cbn in H; [|by ret_inv H].
  destruct org as [org|]; cbn in H; [|by apply runs_inv in H as [_ [=]]].
  destruct id as [id|]; cbn in H; [|by apply runs_inv in H as [_ [=]]].
  apply runs_inv in H as ([member|e] & tr4 & -> & H); cbn in H; [|by ret_inv H].
  ret_inv H. by exists org, member.
Qed.
