(* ===== verification/Uploader.v ===== *)
(** * The image uploader

    src/cmd/images/uploader/app, with the check of a token in front of it
    ([RequireAuth] of src/pkg/app/middleware, [ValidateToken] of
    src/pkg/kubesphere) and the policy of an uploaded image
    (src/pkg/terminus/policy.go).

    The JWT library parses a token, asks for its key, and verifies it: two calls
    of the model with the look-up of the key between them. *)

From S2P Require Import Prelude Effects Apr World Nats MwServer.

(** ** [kubesphere.go] *)

Definition getLLdapJwtKey : io (res string) :=
  let? secret := k8s_call (GetSecret PlatformNamespace "lldap-credentials") in
  Ret (match sec_Data secret !! "lldap-jwt-secret" with
       | Some key => Ok key
       | None => Err (newErr "failed to get lldap jwt secret")
       end).
Definition ValidateToken (tokenString : string) : io (res string) :=
  let? method := srv_call (JwtMethod tokenString) in
  if negb (fst method : bool) then Ret (Err (newErr ("unexpected signing method: " +:+ snd method)))
  else
    let? key := getLLdapJwtKey in
    let? claims := srv_call (JwtVerify tokenString key) in
    if ucl_Valid claims then Ret (Ok (ucl_Username claims))
    else Ret (Err (newErr "invalid token, or claims not match")).
Definition UserAnnotationZoneKey : string := "bytetrade.io/zone".
Definition GetUserZone (username : string) : io (res string) := GetUserAnnotation username UserAnnotationZoneKey.

(** ** [middleware.go] *)

Record AuthCtx : Set := mkAuthCtx { ac_Name : string; ac_Email : string; ac_Token : string }.
Section RequireAuth.
Context {A : Type}.
Definition RequireAuth (header cookie : string) (next : AuthCtx -> io (answer A)) : io (answer A) :=
  let authToken := if String.eqb header "" then cookie else header in
  if String.eqb authToken "" then Ret (JSON 401 "Auth token not found" None)
  else
    let! username := ValidateToken authToken in
    match username with
    | Err e => Ret (JSON 401 ("Auth token invalid, " +:+ err_msg e) None)
    | Ok username =>
        let! user := MwServer.GetUser username in
        match user with
        | Err e => Ret (JSON 401 ("User info error, " +:+ err_msg e) None)
        | Ok email => next (mkAuthCtx username email authToken)
        end
    end.
End RequireAuth.

(** ** [policy.go] *)

Definition oneFactor : string := "one_factor".
(** The first entry of the address changed, or a new one at the end. *)
Fixpoint set_policy (uri policy : string) (l : list SubPolicy) : option (list SubPolicy) :=
  match l with
  | [] => None
  | sub :: l' =>
      if String.eqb (sp_URI sub) uri then Some (mkSubPolicy uri policy false 0 :: l')
      else option_map (cons sub) (set_policy uri policy l')
  end.
Definition with_policy (uri policy : string) (p : SettingsPolicy) : SettingsPolicy :=
  let subs := match set_policy uri policy (st_SubPolicies p) with
              | Some l => l
              | None => st_SubPolicies p ++ [mkSubPolicy uri policy false 0]
              end in
  mkSettingsPolicy (st_DefaultPolicy p) subs (st_OneTime p) (st_Duration p).
Definition fresh_policy : SettingsPolicy := mkSettingsPolicy oneFactor [] false 0.
Definition bfl_path (bfl app : string) : string := "http://" +:+ bfl +:+ "/bfl/settings/v1alpha1/applications/" +:+ app.

Definition UpdatePolicy (bfl uri app entrance token policy : string) : io (res unit) :=
  let? resp := srv_call (GetPolicies (bfl_path bfl app +:+ "/setup/policy") token) in
  if negb (Z.eqb (bfl_Status _ resp) 200) then Ret (Err (newErr (bfl_Body _ resp)))
  else
    let! current :=
      (if negb (Z.eqb (bfl_Code _ resp) 0) then Ret fresh_policy
       else match bfl_Data _ resp !! entrance with
            | None => Ret fresh_policy
            | Some p => deref p
            end) in
    let? resp := srv_call (PostPolicy (bfl_path bfl app +:+ "/" +:+ entrance +:+ "/setup/policy") token (with_policy uri policy current)) in
    Ret (if negb (Z.eqb (bfl_Status _ resp) 200) then Err (newErr (bfl_Body _ resp))
         else if negb (Z.eqb (bfl_Code _ resp) 0) then Err (newErr (bfl_Message _ resp))
         else Ok tt).

(** ** [server.go] *)

(** [strings.ToLower] as far as it gives letters of ASCII other than a k: on
    those letters, and on the dotted capital I (C4 B0 in UTF-8), which becomes
    an i. *)
Definition lower_char (c : Ascii.ascii) : Ascii.ascii :=
  let n := Ascii.nat_of_ascii c in
  if (65 <=? n)%nat && (n <=? 90)%nat then Ascii.ascii_of_nat (n + 32) else c.
Fixpoint ToLower (s : string) : string :=
  match s with
  | EmptyString => ""
  | String c s' =>
      match s' with
      | String d s'' => if Ascii.eqb c (Ascii.ascii_of_nat 196) && Ascii.eqb d (Ascii.ascii_of_nat 176)
                        then String "i" (ToLower s'') else String (lower_char c) (ToLower s')
      | EmptyString => String (lower_char c) ""
      end
  end.
Definition IsImage (ext : string) : bool := bool_decide (ToLower ext ∈ ["png"; "jpeg"; "jpg"; "gif"]).

Definition uploadPath : string := "/data/Upload".
Definition make_upload_dir : io (res string) := do? sys_call (Mkdir uploadPath); Ret (Ok uploadPath).
Definition ensureUploadPath : io (res string) :=
  let! dir := sys_call (Stat uploadPath) in
  match dir with
  | Err e => if isKind KNotExist e then make_upload_dir else Ret (Err e)
  | Ok true => Ret (Ok uploadPath)
  | Ok false => do? sys_call (Remove uploadPath); make_upload_dir
  end.

(** The extension is what follows the first dot. *)
Definition extension (filename : string) : res string :=
  match split_char "."%char filename with
  | _ :: ext :: _ => if IsImage ext then Ok ext else Err (newErr "just uploading image file is allowed")
  | _ => Err (newErr "just uploading image file is allowed")
  end.
Definition image_uri (image : string) : string := "/resources/Home/Pictures/Upload/" +:+ image.
(** The writer; [bfl] is the variable of the policies' service. *)
Definition write_image (bfl filename policy : string) (c : AuthCtx) : io (res string) :=
  let! uniqueId := vt_call NewUuid in
  match extension filename with
  | Err e => Ret (Err e)
  | Ok fileExt =>
      let image := replace_all uniqueId "-" "" +:+ "." +:+ fileExt in
      let? uploadDir := ensureUploadPath in
      do? srv_call (SaveFile (uploadDir +:+ "/" +:+ image));
      let? userZone := GetUserZone (ac_Name c) in
      let imageUrl := "https://" +:+ ("files." +:+ userZone) +:+ image_uri image in
      if String.eqb policy "public"
      then do? UpdatePolicy bfl (image_uri image) "olares-app" "files" (ac_Token c) policy; Ret (Ok imageUrl)
      else Ret (Ok imageUrl)
  end.

Record Uploaded : Set := mkUploaded { up_imageUrl : string; up_size : Z }.
(** The form's file, its name and size, if there is one; the policy has a default. *)
Definition handleFileupload (bfl : string) (file : option (string * Z)) (policy : option string) (c : AuthCtx) : io (answer Uploaded) :=
  match file with
  | None => Ret (JSON 500 "Upload image error" None)
  | Some (filename, size) =>
      let! url := write_image bfl filename (default "private" policy) c in
      Ret (match url with
           | Err _ => JSON 500 "Save image error" None
           | Ok imageUrl => JSON 200 "Image uploaded successfully" (Some (mkUploaded imageUrl size))
           end)
  end.
Definition serve_upload (bfl header cookie : string) (file : option (string * Z)) (policy : option string) : io (answer Uploaded) :=
  RequireAuth header cookie (handleFileupload bfl file policy).
