(* ===== verification/UploaderSpec.v ===== *)
(** * Who may upload what, and where it goes *)

From S2P Require Import Prelude Effects Apr World Demo Nats MwServer MwServerSpec Uploader.

(** ** Names of files *)

Definition slash : Ascii.ascii := "/"%char.
Lemma lower_slash c : lower_char c = slash -> c = slash.
Proof. destruct c as [[] [] [] [] [] [] [] []]; vm_compute; congruence. Qed.
Lemma ToLower_slash s : str_contains slash s = true -> str_contains slash (ToLower s) = true.
Proof.
  enough (H : forall n s, String.length s <= n -> str_contains slash s = true -> str_contains slash (ToLower s) = true) by by apply (H (String.length s) s).
  clear s. induction n as [|n IH]; intros [|c s] Hn; cbn [String.length] in Hn; try done; [lia|].
  cbn [ToLower str_contains]. destruct s as [|d s].
  - intros [E|E]%orb_true_iff; [|done]. by apply Ascii.eqb_eq in E as <-.
  - cbn [String.length] in Hn. destruct (Ascii.eqb_spec c (Ascii.ascii_of_nat 196)) as [->|_]; [destruct (Ascii.eqb_spec d (Ascii.ascii_of_nat 176)) as [->|_]|].
    { cbn [andb]. intros H. change (str_contains slash (ToLower s) = true). apply IH; [lia|exact H]. }
    all: cbn [andb]; intros [E|E]%orb_true_iff; [by apply Ascii.eqb_eq in E as <-|].
    all: cbn [str_contains]; rewrite (IH (String d s)) by (cbn [String.length]; lia || exact E); apply orb_true_r.
Qed.
Lemma image_extension ext : IsImage ext = true -> str_contains slash ext = false.
Proof.
  intros Hi%bool_decide_eq_true. destruct (str_contains slash ext) eqn:E; [|done]. apply ToLower_slash in E.
  revert Hi E. generalize (ToLower ext). intros s Hs. repeat (apply elem_of_cons in Hs as [->|Hs]; [done|]).
  by apply elem_of_nil in Hs.
Qed.
Lemma extension_image filename ext : extension filename = Ok ext -> IsImage ext = true.
Proof. unfold extension. destruct (split_char _ _) as [|? [|e ?]]; [done|done|]. destruct (IsImage e) eqn:E; [congruence|done]. Qed.
Lemma replace_all_no_slash old s : str_contains slash s = false -> forall k, str_contains slash (replace_all_go old "" k s) = false.
Proof.
  induction s as [|c s IH]; [by intros _ []|]. cbn [str_contains]. intros [Hc Hs]%orb_false_iff k. specialize (IH Hs).
  destruct k as [|k]; cbn [replace_all_go]; [|apply IH]. destruct (has_prefix _ _).
  - change (str_contains slash (replace_all_go old "" (String.length old - 1) s) = false). apply IH.
  - cbn [str_contains]. by rewrite Hc, IH.
Qed.

(** ** Who is let in *)

(** The token was verified, by its secret and under an HMAC, for the user. *)
Definition verified (h : history) (token user : string) : Prop :=
  exists method secret key,
    srv_ev (JwtMethod token) (Ok (true, method)) ∈ h /\
    ev (K8s (GetSecret PlatformNamespace "lldap-credentials")) (Ok secret) ∈ h /\
    sec_Data secret !! "lldap-jwt-secret" = Some key /\
    srv_ev (JwtVerify token key) (Ok (mkUserClaims user true)) ∈ h.
Definition not_saving (o : op) : Prop := match o with Ext (Srv (SaveFile _)) => False | _ => True end.

Lemma ValidateToken_verified token tr user :
  runs (ValidateToken token) tr (Returned (Ok user)) -> verified tr token user.
Proof.
  unfold ValidateToken. intros (r & tr1 & -> & Hr)%runs_inv. destruct r as [[hmac m]|e]; [|by apply runs_inv in Hr as [_ [=]]].
  cbn [bind bind_ok fst snd] in Hr. destruct hmac; [|by apply runs_inv in Hr as [_ ?]]. cbn [negb] in Hr.
  apply runs_bind_ok_returned in Hr as (t1 & t2 & key & -> & Hk & Hr). unfold getLLdapJwtKey in Hk.
  apply runs_inv in Hk as (r & t3 & -> & Hk). destruct r as [secret|e]; [|by apply runs_inv in Hk as [_ [=]]].
  cbn [bind] in Hk. destruct (sec_Data secret !! _) as [k|] eqn:Ek; [|by apply runs_inv in Hk as [_ [=]]]. apply runs_inv in Hk as [-> [= ->]].
  apply runs_inv in Hr as (r & t4 & -> & Hr). destruct r as [[u v]|e]; [|by apply runs_inv in Hr as [_ [=]]].
  cbn [bind ucl_Valid ucl_Username] in Hr. destruct v; [|by apply runs_inv in Hr as [_ [=]]]. apply runs_inv in Hr as [-> [= ->]].
  exists m, secret, k. split_and!; [set_solver|set_solver|done|set_solver].
Qed.

(** A file is saved in the directory, under a name made of a new identifier and
    the extension of an image, for a user whose token was verified before. *)
Definition allowed_save (h : history) (token path : string) : Prop :=
  exists user o id ext,
    verified h token user /\ srv_ev (GetKsUser user) (Ok o) ∈ h /\ ev (Ext (Vt NewUuid)) id ∈ h /\ IsImage ext = true /\
    path = uploadPath +:+ "/" +:+ (replace_all id "-" "" +:+ "." +:+ ext).
Definition save_ok (token : string) (h : history) (e : event resp) : Prop :=
  match projT1 e with Ext (Srv (SaveFile path)) => allowed_save h token path | _ => True end.

Lemma quiet_keeps {A} token (m : io A) h : issues not_saving m -> always (save_ok token) h ->
  wp trace_step m (fun h' _ => always (save_ok token) h') h.
Proof.
  intros Hm. apply (wp_always_issues (save_ok token) not_saving); [|done]. intros h' o r Ho. unfold save_ok. cbn.
  by destruct o as [| | | | | | |[| | |[]| |]].
Qed.
Lemma ensure_path tr dir : runs ensureUploadPath tr (Returned (Ok dir)) -> dir = uploadPath.
Proof.
  assert (Hm : forall tr', runs make_upload_dir tr' (Returned (Ok dir)) -> dir = uploadPath).
  { intros tr' (r & t & -> & H1)%runs_inv. destruct r; by apply runs_inv in H1 as [_ [=]]. }
  intros (r & t & -> & H1)%runs_inv. destruct r as [[]|e]; cbn [bind] in H1.
  - by apply runs_inv in H1 as [_ [=]].
  - apply runs_inv in H1 as (r & t' & -> & H1). destruct r; cbn [bind bind_ok] in H1; [by eapply Hm|by apply runs_inv in H1 as [_ [=]]].
  - destruct (isKind _ e); [by eapply Hm|by apply runs_inv in H1 as [_ [=]]].
Qed.
Lemma issues_UpdatePolicy bfl uri app entrance token policy : issues not_saving (UpdatePolicy bfl uri app entrance token policy).
Proof. unfold UpdatePolicy. by issues_walk. Qed.
Lemma issues_GetUserZone u : issues not_saving (GetUserZone u).
Proof. unfold GetUserZone, GetUserAnnotation. by issues_walk. Qed.
Lemma issues_ensure : issues not_saving ensureUploadPath.
Proof. unfold ensureUploadPath, make_upload_dir. by issues_walk. Qed.
Lemma issues_validate token : issues not_saving (ValidateToken token).
Proof. unfold ValidateToken, getLLdapJwtKey. by issues_walk. Qed.

(** A program with a fact about what it returns, on top of its trace. *)
Lemma quiet_returns {A} token (m : io A) (R : A -> Prop) h :
  issues not_saving m -> (forall tr a, runs m tr (Returned a) -> R a) -> always (save_ok token) h ->
  wp trace_step m (fun h' x => (always (save_ok token) h' /\ h ⊆ h') /\ match x with Returned a => R a | Panicked _ => True end) h.
Proof.
  intros Hm HR Hh. apply wp_and.
  - eapply wp_mono; [|apply (wp_extend trace_step (fun a b : history => a ⊆ b)), quiet_keeps; [|exact Hm|exact Hh]].
    + by intros h' x [Hs Ha].
    + intros h' e. unfold trace_step. set_solver.
  - apply wp_runs. intros tr [a|w] Hr; [by eapply HR|done].
Qed.

Lemma write_image_ok bfl filename policy c h o :
  verified h (ac_Token c) (ac_Name c) -> srv_ev (GetKsUser (ac_Name c)) (Ok o) ∈ h -> always (save_ok (ac_Token c)) h ->
  wp trace_step (write_image bfl filename policy c) (fun h' _ => always (save_ok (ac_Token c)) h') h.
Proof.
  intros (m & s & k & V1 & V2 & V3 & V4) Ho Hh. unfold write_image. intros id. cbn [bind].
  assert (H1 : always (save_ok (ac_Token c)) (trace_step h (ev (Ext (Vt NewUuid)) id))) by (by apply always_snoc).
  set (h1 := trace_step h (ev (Ext (Vt NewUuid)) id)) in *.
  destruct (extension filename) as [ext|e] eqn:Ee; [|done]. apply extension_image in Ee.
  rewrite wp_bind_ok. eapply wp_mono; [|apply (quiet_returns (ac_Token c) ensureUploadPath (fun r => forall dir, r = Ok dir -> dir = uploadPath));
    [apply issues_ensure|intros tr a Hr dir ->; by eapply ensure_path|exact H1]].
  intros h2 [[dir|e]|w] [[Ha Hs] HR]; [|done..]. rewrite (HR _ eq_refl). clear HR.
  assert (Hin : h ⊆ h2) by (unfold h1, trace_step in Hs; set_solver).
  intros r. set (h3 := trace_step h2 _).
  assert (H3 : always (save_ok (ac_Token c)) h3).
  { apply always_snoc. split; [done|]. exists (ac_Name c), o, id, ext. split_and!; [|by apply Hin| |done|done].
    - exists m, s, k. split_and!; [by apply Hin|by apply Hin|done|by apply Hin].
    - apply Hs. unfold h1, trace_step. set_solver. }
  destruct r as [[]|e]; [|done]. cbn [bind]. apply quiet_keeps; [|done].
  apply issues_bind_ok; [apply issues_GetUserZone|]. intros zone. destruct (String.eqb _ _); [|done].
  apply issues_bind_ok; [apply issues_UpdatePolicy|done].
Qed.

(** C37: The uploader saves a file only after the token it was sent, in the header or
    else in the cookie, was verified with the secret of the platform under an HMAC
    for a user who was then found; and it saves it directly in the upload
    directory, under a name without slashes made of a fresh identifier and the
    extension of an image, whatever the name of the file that was sent. *)
Theorem upload_confined bfl header cookie file policy tr out path r tr1 tr2 :
  runs (serve_upload bfl header cookie file policy) tr out ->
  (forall id, ev (Ext (Vt NewUuid)) id ∈ tr -> str_contains slash id = false) ->
  tr = tr1 ++ srv_ev (SaveFile path) r :: tr2 ->
  exists name, allowed_save tr1 (if String.eqb header "" then cookie else header) path /\
    path = uploadPath +:+ "/" +:+ name /\ str_contains slash name = false.
Proof.
  set (token := if String.eqb header "" then cookie else header). intros Hr Hid Htr.
  assert (Ha : always (save_ok token) tr).
  { eapply (proj1 (wp_trace (serve_upload bfl header cookie file policy) (fun tr' _ => always (save_ok token) tr'))); [|exact Hr].
    unfold serve_upload, RequireAuth. fold token. destruct (String.eqb token ""); [apply always_nil|].
    rewrite wp_bind. apply wp_trace. intros t1 [[user|e]|w] Hv; cycle 1.
    - cbn. apply (issues_runs _ _ (issues_validate token)) in Hv. intros a e' b ->.
      apply Forall_app in Hv as [_ [Hv _]%Forall_cons]. unfold save_ok. by destruct (projT1 e') as [| | | | | | |[| | |[]| |]].
    - apply (issues_runs _ _ (issues_validate token)) in Hv. intros a e' b ->.
      apply Forall_app in Hv as [_ [Hv _]%Forall_cons]. unfold save_ok. by destruct (projT1 e') as [| | | | | | |[| | |[]| |]].
    - assert (Hq : always (save_ok token) t1).
      { apply (issues_runs _ _ (issues_validate token)) in Hv. intros a e' b ->.
        apply Forall_app in Hv as [_ [Hv _]%Forall_cons]. unfold save_ok. by destruct (projT1 e') as [| | | | | | |[| | |[]| |]]. }
      apply ValidateToken_verified in Hv. intros o. set (t2 := trace_step t1 _).
      assert (H2 : always (save_ok token) t2) by (by apply always_snoc).
      destruct o as [o|e]; cbn [bind bind_ok]; [|done]. destruct (kso_Email o) as [email|e] eqn:Ee; [|done].
      cbn. unfold handleFileupload. destruct file as [[filename size]|]; [|done].
      rewrite wp_bind. eapply wp_mono; [|eapply (write_image_ok bfl filename _ (mkAuthCtx user email token) t2 o); cbn].
      + intros h' [[url|e]|w] Hw; done.
      + destruct Hv as (m & s & k & V1 & V2 & V3 & V4). exists m, s, k. unfold t2, trace_step. set_solver.
      + unfold t2, trace_step. apply elem_of_app. right. left.
      + exact H2. }
  pose proof (Ha tr1 _ tr2 Htr) as Hs. cbn in Hs. destruct Hs as (user & o & id & ext & Hv & Ho & Hi & Hx & ->).
  eexists. split_and!; [exists user, o, id, ext; done|done|].
  rewrite !str_contains_app. unfold replace_all. rewrite replace_all_no_slash, (image_extension ext); [done|done|].
  apply Hid. rewrite Htr. set_solver.
Qed.

(** ** The policy of an image *)

(** The entries of other addresses, in their order. *)
Definition others (uri : string) (l : list SubPolicy) : list SubPolicy :=
  List.filter (fun sub => negb (String.eqb (sp_URI sub) uri)) l.
Definition policy_of (uri : string) (l : list SubPolicy) : option string :=
  option_map sp_Policy (List.find (fun sub => String.eqb (sp_URI sub) uri) l).

Lemma set_policy_spec uri policy l :
  match set_policy uri policy l with
  | Some l' => policy_of uri l' = Some policy /\ others uri l' = others uri l
  | None => policy_of uri l = None
  end.
Proof.
  induction l as [|sub l IH]; [done|]. cbn [set_policy]. unfold policy_of, others in *. cbn [List.find List.filter].
  destruct (String.eqb (sp_URI sub) uri) eqn:E; cbn [List.find List.filter sp_URI negb].
  - by rewrite String.eqb_refl.
  - destruct (set_policy uri policy l) as [l'|]; cbn [option_map List.find List.filter]; rewrite ?E; cbn [negb]; [|done].
    destruct IH as [IH1 IH2]. split; [done|]. by rewrite IH2.
Qed.
Lemma find_snoc {A} (P : A -> bool) l x : List.find P l = None -> P x = true -> List.find P (l ++ [x]) = Some x.
Proof. induction l as [|y l IH]; cbn; [by intros _ ->|]. destruct (P y); [done|auto]. Qed.
Lemma with_policy_spec uri policy p :
  policy_of uri (st_SubPolicies (with_policy uri policy p)) = Some policy /\
  others uri (st_SubPolicies (with_policy uri policy p)) = others uri (st_SubPolicies p).
Proof.
  unfold with_policy. cbn [st_SubPolicies]. pose proof (set_policy_spec uri policy (st_SubPolicies p)) as Hs.
  destruct (set_policy _ _ _) as [l|]; [done|]. unfold policy_of, others in *.
  destruct (List.find _ _) eqn:E in Hs; [done|]. split.
  - rewrite (find_snoc _ _ (mkSubPolicy uri policy false 0) E); [done|]. cbn. apply String.eqb_refl.
  - rewrite List.filter_app. cbn. rewrite String.eqb_refl. cbn. apply app_nil_r.
Qed.

(** What the first answer says the entrance's policies are: those it has, and none
    when it has none or the answer has another code than 0, whichever. *)
Definition policies_of (entrance : string) (resp : BflReply (gmap string (option SettingsPolicy))) : list SubPolicy :=
  if Z.eqb (bfl_Code _ resp) 0
  then match bfl_Data _ resp !! entrance with Some (Some p) => st_SubPolicies p | _ => [] end
  else [].

(** When setting an address's policy succeeds, the policies of the entrance were
    read once and written once: the address has the policy asked for, and the
    entries of all other addresses are as they were read, in their order - but an
    answer with another code than 0, whatever the reason, is read as no policies
    at all, and they are overwritten. *)
Theorem UpdatePolicy_exact bfl uri app entrance token policy tr :
  runs (UpdatePolicy bfl uri app entrance token policy) tr (Returned (Ok tt)) ->
  exists resp posted reply,
    tr = [srv_ev (GetPolicies (bfl_path bfl app +:+ "/setup/policy") token) (Ok resp);
          srv_ev (PostPolicy (bfl_path bfl app +:+ "/" +:+ entrance +:+ "/setup/policy") token posted) (Ok reply)] /\
    policy_of uri (st_SubPolicies posted) = Some policy /\
    others uri (st_SubPolicies posted) = others uri (policies_of entrance resp).
Proof.
  intros (r & t1 & -> & Hr)%runs_inv. destruct r as [resp|e]; [|by apply runs_inv in Hr as [_ ?]].
  cbn [bind] in Hr. destruct (Z.eqb (bfl_Status _ resp) 200); [|by apply runs_inv in Hr as [_ ?]]. cbn [negb] in Hr.
  apply runs_bind_returned in Hr as (t2 & t3 & current & -> & Hc & Hr).
  assert (Hcur : t2 = [] /\ st_SubPolicies current = policies_of entrance resp).
  { unfold policies_of. destruct (Z.eqb (bfl_Code _ resp) 0); [|by apply runs_inv in Hc as [-> [= ->]]]. cbn [negb] in Hc.
    destruct (_ !! _) as [[p|]|]; apply runs_inv in Hc as [-> Hc]; [by injection Hc as ->|discriminate|by injection Hc as ->]. }
  destruct Hcur as [-> Hcur]. apply runs_inv in Hr as (r & t4 & -> & Hr).
  destruct r as [reply|e]; [|by apply runs_inv in Hr as [_ ?]]. apply runs_inv in Hr as [-> _].
  exists resp, (with_policy uri policy current), reply. split; [done|]. rewrite <- Hcur. apply with_policy_spec.
Qed.

(** ** An upload *)

Definition upload_world (o : op) : resp o :=
  match o with
  | K8s (GetSecret ns name) => Ok (mkSecret name ns {["lldap-jwt-secret" := "key"]})
  | Ext (Srv (JwtMethod _)) => Ok (true, "HS256")
  | Ext (Srv (JwtVerify _ _)) => Ok (mkUserClaims "alice" true)
  | Ext (Srv (GetKsUser _)) => Ok (mkKsUserObj {[UserAnnotationZoneKey := "alice.olares.com"]} (Ok "alice@example.com"))
  | Ext (Vt NewUuid) => "ab-cd"
  | Sys (Stat _) => Ok true
  | Ext (Srv (SaveFile _)) => Ok tt
  | Ext (Srv (GetPolicies _ _)) => Ok (mkBflReply _ 200 "" 0 "" {["files" := Some (mkSettingsPolicy oneFactor [mkSubPolicy "/x" "deny" false 0] false 0)]})
  | Ext (Srv (PostPolicy _ _ _)) => Ok (mkBflReply _ 200 "" 0 "" tt)
  | o => unavailable o
  end.
Definition demo_upload : io (answer Uploaded) := serve_upload "bfl" "token" "" (Some ("../../cat.PNG/.png", 12%Z)) (Some "public").
Example dots_refused : out_in upload_world demo_upload = Returned (JSON 500 "Save image error" None).
Proof. vm_compute. reflexivity. Qed.
Definition cat_upload : io (answer Uploaded) := serve_upload "bfl" "" "token" (Some ("dir/cat.PNG", 12%Z)) (Some "public").
(** The identifiers drawn in a run have no slashes. *)
Fixpoint plain_ids (tr : history) : bool :=
  match tr with
  | [] => true
  | existT (Ext (Vt NewUuid)) id :: tr' => negb (str_contains slash id) && plain_ids tr'
  | _ :: tr' => plain_ids tr'
  end.
Lemma plain_ids_spec tr id : plain_ids tr = true -> ev (Ext (Vt NewUuid)) id ∈ tr -> str_contains slash id = false.
Proof.
  induction tr as [|e tr IH]; intros Ht Hin; [by apply elem_of_nil in Hin|]. apply elem_of_cons in Hin as [<-|Hin].
  - cbn in Ht. by apply andb_true_iff in Ht as [E%negb_true_iff _].
  - apply IH; [|done]. destruct e as [[| | | | | | |[| | | |[]|]] r]; cbn in Ht; try done. by apply andb_true_iff in Ht as [_ Ht].
Qed.
Lemma upload_confined_witness :
  out_in upload_world cat_upload =
    Returned (JSON 200 "Image uploaded successfully"
      (Some (mkUploaded "https://files.alice.olares.com/resources/Home/Pictures/Upload/abcd.PNG" 12))) /\
  exists tr1 tr2 name, trace_in upload_world cat_upload = tr1 ++ srv_ev (SaveFile "/data/Upload/abcd.PNG") (Ok tt) :: tr2 /\
    allowed_save tr1 "token" "/data/Upload/abcd.PNG" /\
    "/data/Upload/abcd.PNG" = uploadPath +:+ "/" +:+ name /\ str_contains slash name = false.
Proof.
  split; [vm_compute; reflexivity|].
  exists (take 6 (trace_in upload_world cat_upload)), (drop 7 (trace_in upload_world cat_upload)).
  destruct (upload_confined "bfl" "" "token" (Some ("dir/cat.PNG", 12%Z)) (Some "public") (trace_in upload_world cat_upload)
    (out_in upload_world cat_upload) "/data/Upload/abcd.PNG" (Ok tt) (take 6 (trace_in upload_world cat_upload))
    (drop 7 (trace_in upload_world cat_upload))) as [name Hn].
  - apply runs_in.
  - intros id. apply plain_ids_spec. vm_compute. reflexivity.
  - vm_compute. reflexivity.
  - exists name. split; [vm_compute; reflexivity|exact Hn].
Defined.
Lemma UpdatePolicy_exact_witness :
  exists resp posted reply,
    trace_in upload_world (UpdatePolicy "bfl" "/y" "olares-app" "files" "token" "public") =
      [srv_ev (GetPolicies (bfl_path "bfl" "olares-app" +:+ "/setup/policy") "token") (Ok resp);
       srv_ev (PostPolicy (bfl_path "bfl" "olares-app" +:+ "/" +:+ "files" +:+ "/setup/policy") "token" posted) (Ok reply)] /\
    policy_of "/y" (st_SubPolicies posted) = Some "public" /\
    others "/y" (st_SubPolicies posted) = others "/y" (policies_of "files" resp).
Proof. apply UpdatePolicy_exact. apply runs_in_to. vm_compute. reflexivity. Defined.
