(* ===== verification/Controllers.v ===== *)
(** * The other controllers of the operator

    [controller.go] of pgcluster, redixcluster, kvrocks-bakcup, kvrocks-restore,
    pgcluster-backup and pgcluster-restore, and [controller_config.go] of
    middleware-request: each is the queue of [WorkQueue] with its handler, and
    puts every failed entry back. *)

From S2P Require Import Prelude Effects Apr World WorkQueue KVRocks PgCluster Nats Backup.

Definition requeues {J} (j : J) : bool := false.

(** An object of another type than the controller's, a tombstone above all,
    fails; a handler of the others may change the object. *)
Definition checked {O} (invalid : string) (h : Action -> O -> io (O * res unit))
    (j : Action * option O) : io ((Action * option O) * res unit) :=
  match j.2 with
  | None => Ret (j, Err (newErr invalid))
  | Some o => let! (o', r) := h j.1 o in Ret ((j.1, Some o'), r)
  end.

Definition pgcluster_job : Type := Action * option PGCluster.
Definition pgcluster_process : pgcluster_job -> io (pgcluster_job * res unit) :=
  reading (fun j => pgcluster_handler j.2).
Definition redix_job : Type := Action * option RedixCluster.
Definition redix_process : redix_job -> io (redix_job * res unit) := reading (fun j => redix_handler j.1 j.2).

Definition kv_backup_job : Type := Action * option KVRocksBackup.
Definition kv_backup_process : kv_backup_job -> io (kv_backup_job * res unit) :=
  checked "invalid object, not kvrocks backup" kv_backup_handler.
Definition kv_restore_job : Type := Action * option KVRocksRestore.
Definition kv_restore_process : kv_restore_job -> io (kv_restore_job * res unit) :=
  checked "invalid object, not kvrocks restore" kv_restore_handler.

Section PostgreSQL.
(* How a time is written, as in [Backup]. *)
Context (format_time : Z -> string).
Definition pg_backup_process (j : Action * option PGClusterBackup) : io ((Action * option PGClusterBackup) * res unit) :=
  checked "invalid object, not pg cluster backup" (pg_backup_handler format_time) j.
End PostgreSQL.
Definition pg_restore_process (j : Action * option PGClusterRestore) : io ((Action * option PGClusterRestore) * res unit) :=
  checked "invalid object, not pg cluster restore" pg_restore_handler j.

(** [controller_config.go]: only the addition of the map of NATS is put in the
    queue; updates are not, and deletions are not watched. *)
Definition config_job : Type := Action * option (gmap string string).
Definition config_enqueues (action : Action) (cm : option (string * gmap string string)) : option config_job :=
  match action, cm with
  | ADD, Some (name, data) => if String.eqb name "nats-config" then Some (ADD, Some data) else None
  | _, _ => None
  end.
Definition config_process : config_job -> io (config_job * res unit) := reading (fun j => config_handler j.2).

Definition pgcluster_controller : queue_state pgcluster_job -> Prop := queue_reaches pgcluster_process requeues.
Definition redix_controller : queue_state redix_job -> Prop := queue_reaches redix_process requeues.
Definition kv_backup_controller : queue_state kv_backup_job -> Prop := queue_reaches kv_backup_process requeues.
Definition kv_restore_controller : queue_state kv_restore_job -> Prop := queue_reaches kv_restore_process requeues.
Definition pg_backup_controller (format_time : Z -> string) : queue_state (Action * option PGClusterBackup) -> Prop :=
  queue_reaches (pg_backup_process format_time) requeues.
Definition pg_restore_controller : queue_state (Action * option PGClusterRestore) -> Prop :=
  queue_reaches pg_restore_process requeues.
Definition config_controller : queue_state config_job -> Prop := queue_reaches config_process requeues.
