(* ===== verification/Operator.v ===== *)
(** * The operator's process: src/cmd/middleware/main.go

    [main] makes eight controllers, each with one worker and a queue of its own,
    and runs them side by side.  They share no variable of the program, only the
    cluster; the handler of one entry is one step, and as its answers are
    arbitrary they may well be what the others have brought about meanwhile.  A
    handler that panics ends the process, and all controllers with it. *)

From S2P Require Import Prelude Effects Apr World Citus PgRequest PgRequestSpec KVRocks WorkQueue WorkQueueSpec Dispatch Controllers.

Inductive controller : Set :=
  | requestController | configMapController | pgclusterController | pgBackupController
  | pgRestoreController | redixClusterController | kvrocksBackupController | kvrocksRestoreController.
#[export] Instance controller_eq_dec : EqDecision controller.
Proof. solve_decision. Defined.

Section Operator.
(* How a time is written, as in [Backup]. *)
Context (format_time : Z -> string).

Definition job (c : controller) : Type :=
  match c with
  | requestController => mr_job
  | configMapController => config_job
  | pgclusterController => pgcluster_job
  | pgBackupController => Action * option PGClusterBackup
  | pgRestoreController => Action * option PGClusterRestore
  | redixClusterController => redix_job
  | kvrocksBackupController => kv_backup_job
  | kvrocksRestoreController => kv_restore_job
  end.
Definition process (c : controller) : job c -> io (job c * res unit) :=
  match c with
  | requestController => mr_process
  | configMapController => config_process
  | pgclusterController => pgcluster_process
  | pgBackupController => pg_backup_process format_time
  | pgRestoreController => pg_restore_process
  | redixClusterController => redix_process
  | kvrocksBackupController => kv_backup_process
  | kvrocksRestoreController => kv_restore_process
  end.
(** Only the request controller keeps a failed entry. *)
Definition holds (c : controller) : job c -> bool :=
  match c with requestController => mr_holds | _ => requeues end.

Definition operator : Type := forall c, queue_state (job c).
Definition operator0 : operator := fun _ => queue0.
Definition alive (s : operator) : Prop := forall c, q_crashed (s c) = false.

Inductive operator_step : operator -> operator -> Prop :=
  | controller_steps s s' c :
      alive s -> queue_step (process c) (holds c) (s c) (s' c) ->
      (forall c', c' <> c -> s' c' = s c') -> operator_step s s'.
Definition operator_reaches (s : operator) : Prop := rtc operator_step operator0 s.

(** [s] with another queue for [c]. *)
Definition with_queue (s : operator) (c : controller) (q : queue_state (job c)) : operator :=
  fun c' => match decide (c = c') with
            | left E => eq_rect c (fun x => queue_state (job x)) q c' E
            | right _ => s c'
            end.

Lemma with_queue_same s c q : with_queue s c q c = q.
Proof.
  unfold with_queue. destruct (decide (c = c)) as [E|]; [|done].
  by rewrite (proof_irrel E eq_refl).
Qed.
Lemma with_queue_other s c q c' : c' <> c -> with_queue s c q c' = s c'.
Proof. intros H. unfold with_queue. by destruct (decide (c = c')) as [->|]. Qed.

(** Every controller alone does what [WorkQueue] says of it. *)
Lemma operator_projects s : operator_reaches s -> forall c, queue_reaches (process c) (holds c) (s c).
Proof.
  intros H c. revert s H. apply rtc_ind_r; [apply rtc_refl|].
  intros s1 s2 _ Hst IH. destruct Hst as [s1 s2 c0 _ Hq Ho].
  destruct (decide (c = c0)) as [->|Hc]; [by eapply rtc_r|]. by rewrite Ho.
Qed.

(** A run of one queue is a run of the process. *)
Lemma operator_lifts c q1 q2 :
  queue_runs (process c) (holds c) q1 q2 ->
  q_crashed q2 = false -> forall s, alive s -> s c = q1 ->
  exists s', rtc operator_step s s' /\ alive s' /\ s' c = q2 /\ forall c', c' <> c -> s' c' = s c'.
Proof.
  intros Hq Hc. induction Hq as [q|q q' q'' Hst Hq IH]; intros s Ha Es.
  { exists s. split_and!; [apply rtc_refl|done..]. }
  assert (Ha' : alive (with_queue s c q')).
  { intros c'. destruct (decide (c' = c)) as [->|Hne]; [|by rewrite with_queue_other].
    rewrite with_queue_same. destruct Hq as [|? ? ? Hst' _]; [done|]. by eapply step_alive. }
  destruct (IH Hc (with_queue s c q') Ha' (with_queue_same _ _ _)) as (s' & Hs & Ha'' & E & Ho).
  exists s'. split_and!; [|done|done|intros c' Hne; rewrite Ho by done; by apply with_queue_other].
  eapply rtc_l; [|exact Hs]. apply (controller_steps s _ c); [done|by rewrite with_queue_same, Es|].
  intros c' Hne. by apply with_queue_other.
Qed.

(** What is to be done is done, controller after controller. *)
Definition drainable (s : operator) : Prop := forall c, Forall (can_succeed (process c)) (pending (s c)).
Lemma drain_one c s :
  alive s -> drainable s ->
  exists s', rtc operator_step s s' /\ alive s' /\ drainable s' /\ pending (s' c) = [] /\
    (forall c', q_arrived (s' c') = q_arrived (s c')) /\ forall c', pending (s c') = [] -> pending (s' c') = [].
Proof.
  intros Ha Hd.
  destruct (queue_drains (process c) (holds c) (s c) (Ha c) (Hd c)) as (q & Hq & Hc & Har & Hp).
  destruct (operator_lifts c _ _ Hq Hc s Ha eq_refl) as (s' & Hs & Ha' & Eq & Ho).
  exists s'. split_and!; [done|done| |by rewrite Eq| |]; intros c';
    (destruct (decide (c' = c)) as [->|Hne]; [rewrite Eq|by rewrite Ho]); [|done..].
  rewrite Hp. constructor.
Qed.
Lemma drain_all (cs : list controller) : forall s, alive s -> drainable s ->
  exists s', rtc operator_step s s' /\ alive s' /\ Forall (fun c => pending (s' c) = []) cs /\
    (forall c, q_arrived (s' c) = q_arrived (s c)) /\ forall c, pending (s c) = [] -> pending (s' c) = [].
Proof.
  induction cs as [|c cs IH]; intros s Ha Hd.
  { exists s. split_and!; [apply rtc_refl|done|constructor|done|done]. }
  destruct (drain_one c s Ha Hd) as (s1 & H1 & Ha1 & Hd1 & Hp & Har & Hk).
  destruct (IH s1 Ha1 Hd1) as (s2 & H2 & Ha2 & Hps & Har2 & Hk2).
  exists s2. split_and!; [by etransitivity|done|by constructor; auto| |auto].
  intros c'. by rewrite Har2.
Qed.
Definition controllers : list controller :=
  [requestController; configMapController; pgclusterController; pgBackupController;
   pgRestoreController; redixClusterController; kvrocksBackupController; kvrocksRestoreController].

(** C39: The operator is never wedged: from every state its process can reach,
    short of its end, in which each entry that is queued, delayed or held could
    be handled, there is a way on, with no further notification needed, to a
    state in which no controller has anything left to do, and then every
    notification that ever arrived has been handled successfully exactly once. *)
Theorem operator_drains s :
  operator_reaches s -> alive s ->
  (forall c, Forall (can_succeed (process c)) (pending (s c))) ->
  exists s', rtc operator_step s s' /\ alive s' /\ forall c,
    q_arrived (s' c) = q_arrived (s c) /\ pending (s' c) = [] /\
    map en_ptr (q_arrived (s' c)) ≡ₚ map en_ptr (succeeded (s' c)) /\ NoDup (map en_ptr (succeeded (s' c))).
Proof.
  intros Hr Ha Hd. destruct (drain_all controllers s Ha Hd) as (s' & Hs & Ha' & Hp & Har & _).
  exists s'. split_and!; [done|done|]. intros c.
  assert (Hpc : pending (s' c) = []).
  { rewrite Forall_forall in Hp. apply (Hp c). destruct c; set_solver. }
  assert (Hcons : conserved (s' c)).
  { apply (queue_keeps_all (process c) (holds c)), operator_projects. unfold operator_reaches. by etransitivity. }
  pose proof (drained_succeeded _ Hcons Hpc) as Hperm. split_and!; [done|done|done|].
  rewrite <- Hperm. apply Hcons.
Qed.

End Operator.

(** ** A process whose request controller is busy *)

(** Only the request controller has anything to do. *)
Definition with_requests (q : queue_state mr_job) : operator :=
  fun c => match c with requestController => q | _ => queue0 end.

Lemma requests_step format_time s q :
  alive s -> (forall c, c <> requestController -> s c = queue0) ->
  queue_step mr_process mr_holds (s requestController) q -> operator_step format_time s (with_requests q).
Proof.
  intros Ha Ho Hst. apply (controller_steps format_time _ _ requestController); [done|done|].
  intros c Hc. rewrite Ho by done. by destruct c.
Qed.

(** A request that could not be handled when it came, and was handed in again;
    another one waits behind it. *)
Definition failed_request : entry mr_job := mkEntry 1 (ADD, Some demo_req).
Definition next_request : entry mr_job := mkEntry 2 (ADD, Some demo_req).
Definition busy_operator : operator :=
  with_requests (mkQueue [next_request] [failed_request] None [failed_request; next_request]
                   [(failed_request, false)] false).
Definition refused : gerr := newErr "refused".

Lemma demo_request_fails : runs (mr_process (ADD, Some demo_req))
  [ev (K8s (GetStatefulSet PGClusterNamespace PGClusterName)) (Err refused)]
  (Returned ((ADD, Some demo_req), Err refused)).
Proof. cbn. eapply runs_vis. cbn. constructor. Qed.
Lemma demo_request_succeeds p : can_succeed mr_process (mkEntry p (ADD, Some demo_req)).
Proof.
  exists (ADD, Some demo_req), (trace_of (createOrUpdatePGRequest demo_req) ++ []).
  eapply runs_bind_intro; [|constructor].
  assert (E : outcome_of (createOrUpdatePGRequest demo_req) = Returned (Ok tt)) by (vm_compute; reflexivity).
  rewrite <- E. apply (demo_runs (createOrUpdatePGRequest demo_req)).
Qed.
Lemma busy_reached format_time : operator_reaches format_time busy_operator.
Proof.
  unfold operator_reaches, busy_operator.
  eapply rtc_l; [apply requests_step; [done|done|]|].
  { by apply (step_enqueue _ _ [] [] None [] [] failed_request), not_elem_of_nil. }
  eapply rtc_l; [apply requests_step; [by intros []|by intros []|apply (step_get _ _ [] [] _ _ failed_request)]|].
  eapply rtc_l; [apply requests_step; [by intros []|by intros []|]|].
  { eapply (step_requeue mr_process mr_holds [] [] [failed_request] []); [apply demo_request_fails|done]. }
  apply rtc_once, requests_step; [by intros []|by intros []|].
  apply (step_enqueue _ _ [] [failed_request] None [failed_request] _ next_request).
  by intros ?%list_elem_of_singleton.
Qed.

Lemma operator_drains_witness :
  exists s', rtc (operator_step (fun _ => "")) busy_operator s' /\ pending (s' requestController) = [] /\
    map en_ptr (succeeded (s' requestController)) ≡ₚ [1; 2].
Proof.
  assert (Ha : alive busy_operator) by by intros [].
  assert (Hd : forall c, Forall (can_succeed (process (fun _ => "") c)) (pending (busy_operator c))).
  { intros []; try constructor; [|constructor; [|constructor]]; apply demo_request_succeeds. }
  destruct (operator_drains (fun _ => "") busy_operator (busy_reached _) Ha Hd) as (s' & Hs & _ & H).
  exists s'. destruct (H requestController) as (Har & Hp & Hperm & _). rewrite Har in Hperm.
  split_and!; [exact Hs|exact Hp|by symmetry].
Defined.
