(* ===== verification/Waiting.v ===== *)
(** * How long a handler keeps its worker

    Every controller has one worker, so while a handler waits - it sleeps, polls
    ([wait.Poll...]) or backs off ([retry.OnError]) - nothing else of its queue is
    handled.  This file counts the waits of a run and bounds them for the handlers
    of the operator. *)

From S2P Require Import Prelude Effects Apr World Demo WorkQueue Postgres Citus PgRequest PgRequestSpec PgCluster PgClusterSpec KVRocks Nats Mongo Minio Rabbit Elastic Sql Backup BackupSpec Dispatch Controllers Operator.

(** ** Waits *)

Definition is_wait (o : op) : bool :=
  match o with Sys (Sleep _) | Sys PollTick | Sys Backoff => true | _ => false end.
Definition tally (n : nat) (e : event resp) : nat := if is_wait (projT1 e) then S n else n.
(** The waits of a run. *)
Definition waits (tr : history) : nat := fold_left tally tr 0.

Lemma tally_from tr n : fold_left tally tr n = n + waits tr.
Proof.
  unfold waits. revert n. induction tr as [|e tr IH]; intros n; cbn; [lia|].
  rewrite (IH (tally n e)), (IH (tally 0 e)). unfold tally. destruct (is_wait _); lia.
Qed.
Lemma waits_app tr1 tr2 : waits (tr1 ++ tr2) = waits tr1 + waits tr2.
Proof. unfold waits. by rewrite fold_left_app, tally_from. Qed.

(** [m] waits at most [n] times, whatever is answered. *)
Definition within (n : nat) {A} (m : io A) : Prop := forall s, wp tally m (fun s' _ => s' <= s + n) s.

Lemma within_runs {A} n (m : io A) tr out : within n m -> runs m tr out -> waits tr <= n.
Proof. intros H Hr. specialize (H 0). rewrite wp_runs in H. exact (H _ _ Hr). Qed.
Lemma within_mono {A} k n (m : io A) : k <= n -> within k m -> within n m.
Proof. intros Hk H s. eapply wp_mono; [|apply H]. intros s' x Hs. cbn in Hs. lia. Qed.

(** Programs that do not wait. *)
Definition no_wait (o : op) : Prop := is_wait o = false.
Lemma within_quiet {A} n (m : io A) : issues no_wait m -> within n m.
Proof.
  intros H s. apply (wp_issues tally (fun s' => s' <= s + n) no_wait); [|done|lia].
  intros s' o r Ho Hs. unfold tally. cbn. by rewrite Ho.
Qed.

Lemma within_bind {A B} k n (m : io A) (f : A -> io B) :
  within k m -> (forall a, within n (f a)) -> within (k + n) (bind m f).
Proof.
  intros Hm Hf s. rewrite wp_bind. eapply wp_mono; [|apply Hm]. intros s' [a|w] Hs; cbn in Hs; [|lia].
  eapply wp_mono; [|apply Hf]. intros s'' x Hs'. cbn in Hs'. lia.
Qed.
Lemma within_bind_ok {A B} k n (m : io (res A)) (f : A -> io (res B)) :
  within k m -> (forall a, within n (f a)) -> within (k + n) (bind_ok m f).
Proof.
  intros Hm Hf. apply within_bind; [done|]. intros [a|e]; [apply Hf|by apply within_quiet].
Qed.
(** Where only one of the two parts waits. *)
Lemma within_after {A B} n (m : io A) (f : A -> io B) :
  issues no_wait m -> (forall a, within n (f a)) -> within n (bind m f).
Proof. intros Hm Hf. by apply (within_bind 0); [apply within_quiet|]. Qed.
Lemma within_after_ok {A B} n (m : io (res A)) (f : A -> io (res B)) :
  issues no_wait m -> (forall a, within n (f a)) -> within n (bind_ok m f).
Proof. intros Hm Hf. by apply (within_bind_ok 0); [apply within_quiet|]. Qed.
Lemma within_before {A B} n (m : io A) (f : A -> io B) :
  within n m -> (forall a, issues no_wait (f a)) -> within n (bind m f).
Proof. intros Hm Hf. rewrite <- (Nat.add_0_r n). apply within_bind; [done|]. intros a. by apply within_quiet. Qed.
Lemma within_before_ok {A B} n (m : io (res A)) (f : A -> io (res B)) :
  within n m -> (forall a, issues no_wait (f a)) -> within n (bind_ok m f).
Proof. intros Hm Hf. rewrite <- (Nat.add_0_r n). apply within_bind_ok; [done|]. intros a. by apply within_quiet. Qed.
Lemma within_with_defer {A} n d (m : io A) : issues no_wait d -> within n m -> within n (with_defer d m).
Proof.
  intros Hd Hm s. rewrite wp_with_defer. eapply wp_mono; [|apply Hm]. intros s' x Hs. cbn in Hs.
  eapply wp_mono; [|exact (within_quiet 0 d Hd s')]. intros s'' [u|w] Hs'; cbn in Hs'; lia.
Qed.
Lemma within_sleep n z : within (S n) (sys_call (Sleep z)).
Proof. intros s r. cbn. lia. Qed.

(** A poll waits once a round; the condition may wait when it is done. *)
Lemma within_WaitFor_last {A} k n (cond : io (res (option A))) :
  (forall s, wp tally cond (fun s' x => match x with
                                        | Returned (Ok None) => s' <= s
                                        | _ => s' <= s + k
                                        end) s) ->
  within (n + k) (WaitFor n cond).
Proof.
  intros Hc. induction n as [|n IH]; intros s; cbn [WaitFor]; [cbn; lia|].
  rewrite wp_bind_ok. cbn [sys_call call wp]. intros [u|e]; cbn; [|lia].
  rewrite wp_bind_ok. eapply wp_mono; [|apply Hc]. cbn.
  intros s' [[[a|]|e]|w] Hs; cbn; try lia. eapply wp_mono; [|apply IH]. intros s'' x Hs'. cbn in Hs'. lia.
Qed.
Lemma within_Poll {A} n (cond : io (res (option A))) : issues no_wait cond -> within (S n) (Poll n cond).
Proof.
  intros Hc. apply (within_mono (S n + 0)); [lia|]. apply (within_WaitFor_last 0 (S n)). intros s.
  eapply wp_mono; [|exact (within_quiet 0 cond Hc s)]. intros s' [[[a|]|e]|w] Hs; cbn in Hs; lia.
Qed.
(** Between five attempts there are four waits. *)
Lemma within_RetryOnError {A} n retriable (fn : io (res A)) :
  issues no_wait fn -> within (n - 1) (RetryOnError n retriable fn).
Proof.
  intros Hf. induction n as [|n IH]; [by apply within_quiet|]. cbn [RetryOnError].
  apply within_after; [done|]. intros [a|e]; [by apply within_quiet|].
  destruct (retriable e); [|by apply within_quiet]. destruct n as [|n]; [by apply within_quiet|].
  apply (within_bind 1 n); [intros s r; cbn; lia|]. intros []; [|by apply within_quiet].
  eapply within_mono; [|exact IH]. lia.
Qed.

(** ** Requests are handled without waiting *)

Lemma issues_cbind {A B} P (m : cio A) (f : A -> cio B) c :
  (forall c, issues P (m c)) -> (forall a c, issues P (f a c)) -> issues P (cbind m f c).
Proof. intros Hm Hf. apply issues_bind; [done|]. intros [c' [a|e]]; [apply Hf|done]. Qed.
Lemma issues_cfor_each {A} P (body : A -> cio unit) l c :
  (forall x c, issues P (body x c)) -> issues P (cfor_each body l c).
Proof. intros H. revert c. induction l as [|x l IH]; intros c; [done|]. by apply issues_cbind. Qed.
Lemma issues_pairs_of P l : issues P (pairs_of l).
Proof.
  induction l as [l IH] using (induction_ltof1 _ length). unfold ltof in IH. destruct l as [|n [|t l]]; cbn; [done| |].
  - by destruct (String.eqb _ _).
  - apply issues_bind_ok; [apply IH; cbn; lia|done].
Qed.
Ltac quiet_step :=
  lazymatch goal with
  | |- no_wait _ => reflexivity
  | |- issues _ (cbind _ _ _) => apply issues_cbind; intros
  | |- issues _ (cfor_each _ _ _) => apply issues_cfor_each; intros
  | |- issues _ (pairs_of _) => apply issues_pairs_of
  | |- issues _ (updateStatus _ _ _) => apply issues_updateStatus; [done|by intros []]
  | |- issues _ (sql_admin _) => cbn [sql_admin mariadb mysql]
  | |- issues _ ((match ?x with _ => _ end) _) => destruct x
  | |- _ => issues_step
  end.
Ltac quiet_walk := repeat (first [quiet_step | done]).

Lemma quiet_postgres req :
  issues no_wait (createOrUpdatePGRequest req) /\ issues no_wait (deleteDatabaseIfNotExists req) /\
  issues no_wait (deletePGAll req).
Proof. split_and!; quiet_walk. Qed.
Lemma quiet_stores req update :
  issues no_wait (createOrUpdateMDBRequest req) /\ issues no_wait (deleteMDBRequest req) /\
  issues no_wait (createOrUpdateRedixRequest req update) /\ issues no_wait (deleteRedixRequest req) /\
  issues no_wait (createOrUpdateMinioRequest req) /\ issues no_wait (deleteMinioRequest req) /\
  issues no_wait (createOrUpdateElasticsearchRequest req) /\ issues no_wait (deleteElasticsearchRequest req).
Proof. split_and!; quiet_walk. Qed.
Lemma quiet_others req :
  issues no_wait (createOrUpdateNatsUser req) /\ issues no_wait (deleteNatsUserAndStream req) /\
  issues no_wait (createOrUpdateRabbitMQRequest req) /\ issues no_wait (deleteRabbitMQRequest req) /\
  issues no_wait (createOrUpdateMariaDBRequest req) /\ issues no_wait (deleteMariaDBRequest req) /\
  issues no_wait (createOrUpdateMysqlRequest req) /\ issues no_wait (deleteMysqlRequest req).
Proof. split_and!; quiet_walk. Qed.
Lemma quiet_mr_process j : issues no_wait (mr_process j).
Proof.
  destruct j as [action [req|]]; [|by apply issues_bind]. unfold mr_process, reading, mr_handler.
  destruct (quiet_postgres req) as (? & ? & ?).
  destruct (quiet_stores req (bool_decide (action = UPDATE))) as (? & ? & ? & ? & ? & ? & ? & ?).
  destruct (quiet_others req) as (? & ? & ? & ? & ? & ? & ? & ?).
  apply issues_bind; [|done]. cbn [fst snd].
  destruct (ms_Middleware _), action; first [done | by apply issues_bind_ok].
Qed.
Lemma quiet_config_process j : issues no_wait (config_process j).
Proof. unfold config_process, reading. quiet_walk. Qed.

(** ** The other controllers *)

(** Down to the one part of a handler that waits. *)
Ltac within_step :=
  lazymatch goal with
  | |- within _ (bind _ _) =>
      first [apply within_after; [by quiet_walk|intros ?] | apply within_before; [|by intros ?; quiet_walk]]
  | |- within _ (bind_ok _ _) =>
      first [apply within_after_ok; [by quiet_walk|intros ?] | apply within_before_ok; [|by intros ?; quiet_walk]]
  | |- within _ (with_defer _ _) => apply within_with_defer; [by quiet_walk|]
  | |- within _ (Poll _ _) => apply within_Poll; by quiet_walk
  | |- within _ (match ?x with _ => _ end) => destruct x
  | |- within _ _ => apply within_quiet; by quiet_walk
  end.
Ltac within_walk := cbv zeta; repeat within_step.

Lemma within_KVWaitForPodRunning ns pod : within 603 (KVWaitForPodRunning ns pod).
Proof.
  apply (within_bind 1 602); [apply within_sleep|]. intros _. apply (within_WaitFor_last 1 601). intros s.
  rewrite wp_bind_ok. cbn. intros [p|e]; cbn; [|destruct (IsNotFound e); cbn; lia].
  destruct (pod_ready _ _); cbn; [intros r; cbn|]; lia.
Qed.
Lemma within_CreateOrUpdateKVRocks def updated : within 4 (CreateOrUpdateKVRocks def updated).
Proof.
  unfold CreateOrUpdateKVRocks. do 2 within_step. cbv zeta. within_step. within_step; [|within_step].
  apply (within_RetryOnError 5). by quiet_walk.
Qed.
Lemma within_BackupKVRocks def backup : within 1801 (BackupKVRocks def backup).
Proof. unfold BackupKVRocks. within_walk. Qed.
Lemma within_RestoreKVRocks def : within 602 (RestoreKVRocks def).
Proof.
  unfold RestoreKVRocks, wait_pods. within_step. within_step; [within_walk|]. within_step.
  apply (within_bind_ok 301 301); [within_walk|]. intros _. within_walk.
Qed.
Lemma within_run_job {O} `{ReportsStatus O} n (o : O) (work : O -> io (res O)) :
  (forall o, within n (work o)) -> within n (run_job o work).
Proof. intros Hw. unfold run_job. within_step. destruct a as [o1 [running|e]]; [|within_walk]. by within_step. Qed.

Lemma within_previous_job ns name : within 61 (previous_job true ns name).
Proof. unfold previous_job. within_walk. Qed.
Lemma within_start_job {O} `{ReportsStatus O} (o : O) failed job : within 721 (start_job o failed job).
Proof. unfold start_job, waitForJobComplete. within_walk. Qed.

Lemma within_checked {O} n invalid (h : Action -> O -> io (O * res unit)) j :
  (forall action o, within n (h action o)) -> within n (checked invalid h j).
Proof. intros Hh. unfold checked. destruct (j.2) as [o|]; [|within_walk]. apply within_before; [done|]. by intros [o' r]. Qed.
Lemma within_kv_backup j : within 1801 (kv_backup_process j).
Proof.
  apply within_checked. intros [] o; [within_walk| |within_walk..]. cbn [kv_backup_handler]. unfold kv_backup_add.
  destruct (finished _); [within_walk|]. destruct (String.eqb _ _); [within_walk|]. within_step.
  destruct a as [cluster|e]; [|within_walk]. destruct (rxs_Type _); try (by within_walk).
  apply within_run_job. intros o'. apply within_before_ok; [apply within_BackupKVRocks|done].
Qed.
Lemma within_kv_restore j : within 602 (kv_restore_process j).
Proof.
  apply within_checked. intros [] o; [within_walk| |within_walk..]. cbn [kv_restore_handler].
  destruct (finished _); [within_walk|]. destruct (String.eqb _ _); [within_walk|]. within_step.
  destruct a as [cluster|e]; [|within_walk]. destruct (rxs_Type _); try (by within_walk).
  apply within_run_job. intros o'. apply within_before_ok; [apply within_RestoreKVRocks|done].
Qed.
Lemma within_pg_backup format_time j : within 782 (pg_backup_process format_time j).
Proof.
  apply within_checked. intros [] o; [within_walk| |within_walk..]. cbn [pg_backup_handler]. unfold pg_backup_add.
  destruct (finished _); [within_walk|]. destruct (String.eqb _ _); [within_walk|]. within_step.
  destruct a as [[admin password]|e]; [|within_walk].
  apply (within_bind 61 721); [apply within_previous_job|]. intros [[]|e]; [within_walk| |within_walk].
  destruct (pgb_VolumeSpec o); [within_step|]; apply within_start_job.
Qed.
Lemma within_pg_restore j : within 721 (pg_restore_process j).
Proof.
  apply within_checked. intros [] o; [within_walk| |within_walk..]. cbn [pg_restore_handler]. unfold pg_restore_add.
  destruct (finished _); [within_walk|]. destruct (String.eqb _ _); [within_walk|]. within_step.
  destruct a as [[admin password]|e]; [|within_walk]. within_step. destruct a as [backup|e]; [|within_walk].
  destruct (negb _); [within_walk|]. destruct (String.eqb _ _); [within_walk|]. within_step.
  destruct a as [[]|e]; [within_walk| |within_walk]. apply within_start_job.
Qed.
Lemma within_redix j : within 607 (redix_process j).
Proof.
  unfold redix_process, reading. apply within_before; [|done].
  destruct j as [action [cluster|]]; cbn [fst snd redix_handler]; [|within_walk].
  destruct (rxs_Type _); try (by within_walk). destruct action; [within_walk| | |within_walk].
  - apply (within_bind_ok 4 603); [apply within_CreateOrUpdateKVRocks|]. intros sts.
    apply within_before_ok; [apply within_KVWaitForPodRunning|done].
  - apply within_before_ok; [|done]. eapply within_mono; [|apply within_CreateOrUpdateKVRocks]. lia.
Qed.

(** The longest wait of a handler; that of PostgreSQL's controller depends on
    what it reads. *)
Definition patience (c : controller) : option nat :=
  match c with
  | requestController | configMapController => Some 0
  | pgclusterController => None
  | pgBackupController => Some (61 + 721)
  | pgRestoreController => Some 721
  | redixClusterController => Some (4 + 603)
  | kvrocksBackupController => Some 1801
  | kvrocksRestoreController => Some (301 + 301)
  end.
Lemma patience_enough format_time c n j :
  patience c = Some n -> within n (process format_time c j).
Proof.
  destruct c; cbn [patience process]; intros [= <-].
  - apply within_quiet, quiet_mr_process.
  - apply within_quiet, quiet_config_process.
  - apply within_pg_backup.
  - apply within_pg_restore.
  - apply within_redix.
  - apply within_kv_backup.
  - apply within_kv_restore.
Qed.

(** ** The bounds are reached *)

(** A cluster that is always just in time, until the last poll, which nothing
    ends; the state counts the waits so far. *)
Definition slow_job (active succeeded : Z) : Job := mkJob "job" "os-platform" "" active succeeded 0 []
  (mkContainer "" "" "" [] [] [] None).
Definition slow_pod (ready : bool) : Pod := mkPod "kvrocks-0" "os-platform" "Running" [("kvrocks", ready)] "10.0.0.1" [].
Definition slow_backup : PGClusterBackup :=
  mkPGClusterBackup bdemo_meta "citus" None (mkBackupStatus StateReady None None "" "/backup/all.sql").
Definition slow_world (o : op) (w : nat) : resp o * nat :=
  match o return resp o * nat with
  | Sys PollTick => (Ok tt, S w)
  | Sys (Sleep _) => (tt, S w)
  | Sys Backoff => (true, S w)
  | Sys (Stat path) => (if String.eqb path dbDir || Nat.ltb w 301 then Ok true else Err (mkErr KNotExist ""), w)
  | Sys (RemoveAll _) => (Ok tt, w)
  | Sys (Rename _ _) => (Ok tt, w)
  | Apr (GetPGCluster _ _) => (Ok bdemo_cluster, w)
  | Apr (GetPGBackup _ _) => (Ok slow_backup, w)
  | Apr (GetRedixCluster _ _) => (Ok bdemo_rx, w)
  | Apr (UpdatePGBackupStatus _ b) => (Ok b, w)
  | Apr (UpdatePGRestoreStatus _ r) => (Ok r, w)
  | Apr (UpdateKVBackupStatus _ b) => (Ok b, w)
  | Apr (UpdateKVRestoreStatus _ r) => (Ok r, w)
  | Rds (RdsPing _ _) => (Ok tt, w)
  | Rds (RdsBgSave _) => (Ok tt, w)
  | K8s (GetJob _ _) =>
      (if Nat.eqb w 0 then Ok (slow_job 0 1) else if Nat.eqb w 61 then Err (mkErr KNotFound "job") else Ok (slow_job 1 0), w)
  | K8s (CreateJob _ _) => (Ok tt, w)
  | K8s (DeleteJob _ _) => (Ok tt, w)
  | K8s (GetScale ns name) => (Ok (mkScale name ns 1), w)
  | K8s (UpdateScale _ _ s) => (Ok s, w)
  | K8s (ListPods _ _) => (Ok (if Nat.ltb w 301 then [slow_pod true] else []), w)
  | K8s (GetPVC _ _) => (Ok "volume", w)
  | K8s (GetPV _) => (Ok (Some "/olares"), w)
  | K8s (GetStatefulSet _ _) => (Ok empty_sts, w)
  | K8s (UpdateStatefulSet _ s) => (if Nat.ltb w 4 then Err (mkErr KConflict "") else Ok s, w)
  | K8s (GetService _ _) => (Ok KVRocksService, w)
  | K8s (GetPod _ _) => (Ok (slow_pod (Nat.leb 606 w)), w)
  | o => (unavailable o, w)
  end.

(** The run from [w] waits on. *)
Definition slow_run {A} (m : io A) (w : nat) : history * outcome A * nat := exec slow_world m w.
Lemma slow_runs {A} (m : io A) w : runs m (fst (fst (slow_run m w))) (snd (fst (slow_run m w))).
Proof. destruct (slow_run m w) as [[tr out] w'] eqn:E. by eapply exec_runs. Qed.
Definition waiting_job (c : controller) : job c :=
  match c with
  | requestController => (ADD, None)
  | configMapController => (ADD, None)
  | pgclusterController => (ADD, None)
  | pgBackupController => (ADD, Some (mkPGClusterBackup bdemo_meta "citus" None (mkBackupStatus StateNew None None "" "")))
  | pgRestoreController => (ADD, Some (mkPGClusterRestore bdemo_meta "citus" "backup" (mkRestoreStatus StateNew None None "")))
  | redixClusterController => (ADD, Some bdemo_rx)
  | kvrocksBackupController => (ADD, Some bdemo_kv)
  | kvrocksRestoreController => (ADD, Some (mkKVRocksRestore bdemo_meta "kvrocks" "" (mkRestoreStatus StateNew None None "")))
  end.
(** The restore's job is not there at first, and neither is the backup's file. *)
Definition waits_before (c : controller) : nat :=
  match c with pgRestoreController => 61 | kvrocksBackupController => 301 | _ => 0 end.
Lemma patience_reached format_time c n :
  patience c = Some n -> waits (fst (fst (slow_run (process format_time c (waiting_job c)) (waits_before c)))) = n.
Proof. destruct c; intros [= <-]; vm_compute; reflexivity. Qed.

(** ** PostgreSQL's controller has no bound *)

(** [m] can return [a] and wait at least [n] times. *)
Definition may (n : nat) {A} (m : io A) (a : A) : Prop := exists tr, runs m tr (Returned a) /\ n <= waits tr.
Lemma may_bind {A B} k n (m : io A) (f : A -> io B) a b : may k m a -> may n (f a) b -> may (k + n) (bind m f) b.
Proof.
  intros (tr1 & H1 & Hk) (tr2 & H2 & Hn). exists (tr1 ++ tr2). rewrite waits_app. split; [by eapply runs_bind_intro|lia].
Qed.
Lemma may_bind_ok {A B} k n (m : io (res A)) (f : A -> io (res B)) a b :
  may k m (Ok a) -> may n (f a) b -> may (k + n) (bind_ok m f) b.
Proof. intros H1 H2. by eapply may_bind. Qed.
Lemma may_exec {A} (n : nat) (world : forall o, resp o) (m : io A) a :
  out_in world m = Returned a -> n <= waits (trace_in world m) -> may n m a.
Proof. intros H Hn. exists (trace_in world m). split; [by apply runs_in_to|done]. Qed.
Lemma may_for_each {A} k (body : A -> io (res unit)) l :
  (forall x, may k (body x) (Ok tt)) -> may (k * length l) (for_each body l) (Ok tt).
Proof.
  intros Hb. induction l as [|x l IH]; cbn [for_each length].
  - exists []. split; [constructor|cbn; lia].
  - rewrite Nat.mul_succ_r, Nat.add_comm. eapply may_bind_ok; [apply Hb|exact IH].
Qed.

(** A set of [n] nodes whose administrator changes; every pod is ready. *)
Definition wide_sts (n : Z) : StatefulSet := mkSts (sts_meta literal_sts) (Some n) (sts_Template literal_sts).
Definition wide_cluster (n : Z) : PGCluster :=
  mkPGCluster (mkMeta "citus" "os-platform" ∅ ∅) (mkPGClusterSpec n "olares" "" (mkPwd "secret" None) "system" "").
Definition wide_world (n : Z) (o : op) : resp o :=
  match o return resp o with
  | K8s (GetStatefulSet _ _) => Ok (wide_sts n)
  | K8s (GetPod _ _) => Ok (demo_pod "citus")
  | Apr (GetPGCluster _ _) => Ok (wide_cluster n)
  | o => fst (scale_world o 0)
  end.
Lemma node_waits (n : Z) sts i : may 2 (change_admin_on_node sts "olares" "old" "olares" "secret" i) (Ok tt).
Proof. apply (may_exec 2 (wide_world n)); vm_compute; [reflexivity|]. lia. Qed.
Ltac by_world n := apply (may_exec 0 (wide_world n)); [vm_compute; reflexivity|lia].

Section Wide.
Context (n : nat) (z : Z) (Hz : z = Z.of_nat n).
Definition patched : StatefulSet := patch_sts (pgc_Spec (wide_cluster z)) (wide_sts z).
Lemma nodes_wait :
  may (2 * n) (for_each (change_admin_on_node patched "olares" "old" "olares" "secret") (int_range 0 z)) (Ok tt).
Proof.
  assert (Hl : length (int_range 0 z) = n) by (unfold int_range; rewrite length_seqZ; lia).
  pose proof (may_for_each 2 _ (int_range 0 z) (node_waits z patched)) as H. rewrite Hl in H. exact H.
Qed.
Lemma update_waits : may (2 * n) (update_admin false (wide_sts z) (wide_cluster z) "olares" "old") (Ok patched).
Proof.
  unfold update_admin. apply (may_bind_ok 0 (2 * n)) with (a := "secret"); [by_world z|].
  apply (may_bind_ok 0 (2 * n)) with (a := tt); [by_world z|].
  apply (may_bind 0 (2 * n)) with (a := int_range 0 z); [by_world z|].
  rewrite <- (Nat.add_0_r (2 * n)). apply may_bind_ok with (a := tt); [apply nodes_wait|by_world z].
Qed.
Lemma pgcluster_waits : may (2 * n) (pgcluster_process (ADD, Some (wide_cluster z))) ((ADD, Some (wide_cluster z)), Ok tt).
Proof.
  rewrite <- (Nat.add_0_r (2 * n)). apply may_bind with (a := Ok tt); [|by_world z]. unfold pgcluster_handler. cbv zeta.
  apply (may_bind_ok 0 (2 * n)) with (a := Some (wide_cluster z)); [by_world z|].
  apply (may_bind_ok 0 (2 * n)) with (a := Some (wide_sts z)); [by_world z|].
  apply (may_bind_ok 0 (2 * n)) with (a := wide_cluster z); [by_world z|]. unfold reconcile.
  apply (may_bind_ok 0 (2 * n)) with (a := Some ("olares", "old")); [by_world z|].
  rewrite <- (Nat.add_0_r (2 * n)). apply may_bind_ok with (a := patched); [apply update_waits|].
  apply (may_bind 0 0) with (a := tt); [by_world z|]. apply (may_bind 0 0) with (a := z); [by_world z|].
  cbn [pgs_Replicas pgc_Spec wide_cluster]. rewrite Z.eqb_refl. by_world z.
Qed.
End Wide.

(** C40: No handler keeps the only worker of its controller waiting for ever,
    and the longest it can, counted in naps, looks of a poll and pauses between
    attempts, is exactly this, for every job and all answers: nothing for a
    request or a configuration; 782 for a backup of PostgreSQL (61 for the last
    job to be gone, 721 for the new one) and 721 for a restore; 607 for a kvrocks
    cluster (four between five attempts to update, 603 for its pod); 1801 for a
    backup of kvrocks and 602 for a restore.  A poll looks at every tick and once
    more when its time is over.  PostgreSQL's own controller has no such bound: it
    waits for the pods one after the other, as many as the set it reads has. *)
Theorem worker_patience format_time c :
  match patience c with
  | Some n =>
      (forall j tr out, runs (process format_time c j) tr out -> waits tr <= n) /\
      exists j tr out, runs (process format_time c j) tr out /\ waits tr = n
  | None => forall n, exists j tr out, runs (process format_time c j) tr out /\ n <= waits tr
  end.
Proof.
  destruct (patience c) as [n|] eqn:E.
  - split; [intros j tr out; by apply within_runs, patience_enough|].
    exists (waiting_job c). do 2 eexists. split; [apply (slow_runs _ (waits_before c))|by apply patience_reached].
  - destruct c; try discriminate E. intros n. destruct (pgcluster_waits n (Z.of_nat n) eq_refl) as (tr & Hr & Hn).
    exists (ADD, Some (wide_cluster (Z.of_nat n))). do 2 eexists. split; [exact Hr|lia].
Qed.

(** A kvrocks restore that waits for both of its scalings to the last. *)
Lemma worker_patience_witness :
  exists j tr out, runs (process (fun _ => "") kvrocksRestoreController j) tr out /\ waits tr = 602.
Proof. exact (proj2 (worker_patience (fun _ => "") kvrocksRestoreController)). Defined.
