(* ===== verification/Events.v ===== *)
(** * The event watcher: callbacks, notifications and subscribers

    [event.go], [callback.go], [notification.go], [filters.go], [subscriber.go]
    and [app.go] of src/cmd/sys-event/watchers, and the subscribers in its
    directories apps, custom, dnspod, login, users and workflows.

    A subscriber says which notifications of the API server it puts in the
    watchers' queue, and what is done with one that the worker takes out.  Where
    the code keeps an optional [Notification], it is always set. *)

From S2P Require Import Prelude Effects Apr World.

(** ** [event.go] *)

Record EventClient : Set := NewEventClient { ec_Key : string; ec_Secret : string; ec_Server : string }.
Definition GroupID : string := "message-disptahcer.system-server".
Definition EventVersion : string := "v1".
Definition content_json : string * string := ("Content-Type", "application/json").

(** [time.Now().UnixMilli() / 1000] *)
Definition unix_seconds (nano : Z) : Z := (nano / 1000000) ÷ 1000.
Definition access_request (key : string) (now : Z) (token : string) : json :=
  JObj [("app_key", JStr key); ("timestamp", JInt now); ("token", JStr token);
        ("perm", JObj [("group", JStr GroupID); ("dataType", JStr "event"); ("version", JStr EventVersion);
                       ("ops", JList [JStr "Create"])])].
(** A post whose answer must be 200 and carry the code 0. *)
Definition accepted_post (url : string) (headers : list (string * string)) (body : json) : io (res EventReply) :=
  let? resp := evt_call (PostEvent url headers body) in
  if negb (Z.eqb (pr_Status resp) 200) then Ret (Err (newErr (pr_Body resp)))
  else if negb (Z.eqb (pr_Code resp) 0) then Ret (Err (newErr (pr_Message resp)))
  else Ret (Ok resp).

Definition getAccessToken (c : EventClient) : io (res string) :=
  let! nano := evt_call NowNano in
  let now := unix_seconds nano in
  let? encode := nats_call (BcryptHash (ec_Key c +:+ itoa now +:+ ec_Secret c)) in
  let? resp := accepted_post ("http://" +:+ ec_Server c +:+ "/permission/v1alpha1/access") [content_json]
                 (access_request (ec_Key c) now encode) in
  Ret (Ok (pr_Token resp)).

Definition event_body (eventType msg : string) (data : json) : json :=
  JObj [("type", JStr eventType); ("version", JStr EventVersion); ("data", JObj [("msg", JStr msg); ("payload", data)])].
Definition CreateEvent (c : EventClient) (eventType msg : string) (data : json) : io (res unit) :=
  let? token := getAccessToken c in
  do? accepted_post ("http://" +:+ ec_Server c +:+ "/system-server/v1alpha1/event/message-disptahcer.system-server/v1")
        [content_json; ("X-Access-Token", token)] (event_body eventType msg data);
  Ret (Ok tt).

(** ** [notification.go] *)

(** [EventPayload]; the data is left out when it is nil. *)
Definition EventPayload (ty : string) (data : option json) : json :=
  JObj (("eventType", JStr ty) :: match data with Some d => [("eventData", d)] | None => [] end).

Definition getUserAppKey (user : string) : io (res (string * string)) :=
  evt_call (GetAppPermission ("user-system-" +:+ user) "bfl").
Definition Send (user msg : string) (data : json) : io (res unit) :=
  let? (appKey, appSecret) := getUserAppKey user in
  CreateEvent (NewEventClient appKey appSecret ("system-server.user-system-" +:+ user)) "notification" msg data.

Definition is_owner (u : UserObj) : bool := bool_decide (uo_Annotations u !! "bytetrade.io/owner-role" = Some "owner").
Definition AdminUser : io (res string) :=
  let? users := k8s_call ListUsers in
  match base.filter (fun u => is_owner u = true) users with
  | user :: _ => Ret (Ok (uo_Name user))
  | [] => Ret (Err (newErr "admin not found"))
  end.

(** ** [callback.go] *)

Definition InvokeRetry : nat := 10.

Definition sendEvent (cb : SysEventRegistry) (data : json) : io (res unit) :=
  let name := om_Name (ser_meta cb) in
  let? status := evt_call (PostCallback 120 (ser_Callback cb) data) in
  if (400 <=? status)%Z then
    if (status =? 493)%Z then Ret (Err (newErr ("[" +:+ name +:+ "] response forbidden, canceled")))
    else Ret (Err (newErr ("invoke callback [" +:+ name +:+ "] response error")))
  else Ret (Ok tt).

(** The loop over the registries, which [users.go] has a second time with another
    way of sending. *)
Definition invoke_each (filter : SysEventRegistry -> bool) (send : SysEventRegistry -> io (res unit))
    (callbacks : list SysEventRegistry) : io (res unit) :=
  for_each (fun cb =>
    if filter cb then
      if String.eqb (ser_Callback cb) "" then Ret (Err (newErr "callback url is empty"))
      else RetryOnError InvokeRetry (fun _ => true) (send cb)
    else Ret (Ok tt)) callbacks.
Definition Invoke (filter : SysEventRegistry -> bool) (data : json) : io (res unit) :=
  let? callbacks := evt_call ListRegistries in
  invoke_each filter (fun cb => sendEvent cb data) callbacks.
Definition subscribed (ev : EventType) (cb : SysEventRegistry) : bool :=
  String.eqb (ser_Type cb) Subscriber && bool_decide (ser_Event cb = ev).

(** ** [filters.go] *)

Record WatchedMeta : Set := mkWatched {
  w_meta : ObjectMeta; w_Creation : Z; w_Deletion : option Z }.     (* nanoseconds *)
Definition minute : Z := 60 * 1000000000.
Definition hour : Z := 60 * minute.
Definition ValidWatchDuration (m : WatchedMeta) : io bool :=
  let! now := evt_call NowNano in
  if (now - w_Creation m <? minute)%Z then Ret true
  else match w_Deletion m with
       | None => Ret false
       | Some t => let! now := evt_call NowNano in Ret (now - t <? minute)%Z
       end.

(** ** What the watchers put in their queue: [app.go] *)

Inductive EvAction : Set := EvUnknown | EvAdd | EvUpdate | EvDelete | EvSuspend.
#[export] Instance EvAction_eq_dec : EqDecision EvAction.
Proof. solve_decision. Defined.

Definition event_name (t : EventType) : string :=
  match t with
  | UserCreate => "user.create" | UserDelete => "user.delete" | UserActive => "user.active" | UserLogin => "user.login"
  | AppInstall => "app.install" | AppUninstall => "app.uninstall" | AppSuspend => "app.suspend"
  | MemoryHigh => "metrics.memory.high" | CPUHigh => "metrics.cpu.high"
  | UserMemoryHigh => "metrics.user.memory.high" | UserCPUHigh => "metrics.user.cpu.high"
  | RecommendInstall => "recommend.install" | RecommendUninstall => "recommend.uninstall" | EventOther s => s
  end.

(** ** [apps/applications.go] *)

Record AppObj : Set := mkApp { ap_watched : WatchedMeta; ap_Name : string; ap_Namespace : string; ap_Owner : string }.
Definition ap_annotation (a : AppObj) (k : string) : option string := om_Annotations (w_meta (ap_watched a)) !! k.
Definition suspendAnnotation : string := "bytetrade.io/suspend-by".
Definition suspendCauseAnnotation : string := "bytetrade.io/suspend-cause".

Definition in_user_namespace (ns : string) : bool := has_prefix "user-space-" ns || has_prefix "user-system-" ns.
Definition app_filter (a : AppObj) : bool := negb (in_user_namespace (ap_Namespace a)).
Definition app_added (a : AppObj) : io (option EvAction) :=
  let! valid := ValidWatchDuration (ap_watched a) in Ret (if valid : bool then Some EvAdd else None).
Definition app_deleted (a : AppObj) : option EvAction := Some EvDelete.
(** The old object's annotation counts as empty when it is absent. *)
Definition app_updated (old new : AppObj) : option EvAction :=
  match ap_annotation new suspendAnnotation with
  | Some a => if String.eqb a (default "" (ap_annotation old suspendAnnotation)) then None else Some EvSuspend
  | None => None
  end.

Definition app_title (a : AppObj) : string := ap_Namespace a +:+ "/" +:+ ap_Name a.
Definition name_data (k v : string) : option json := Some (JObj [(k, JStr v)]).
Definition apps_Do (app : AppObj) (action : EvAction) : io (res unit) :=
  match action with
  | EvAdd => Send (ap_Owner app) ("app " +:+ app_title app +:+ " is installed")
               (EventPayload (event_name AppInstall) (name_data "name" (ap_Name app)))
  | EvDelete => Send (ap_Owner app) ("app " +:+ app_title app +:+ " is uninstalled")
                  (EventPayload (event_name AppUninstall) (name_data "name" (ap_Name app)))
  | EvSuspend =>
      let? admin := AdminUser in
      Send admin (ap_Owner app +:+ "'s app " +:+ app_title app +:+ " was suspended, cause: " +:+
                  default "" (ap_annotation app suspendCauseAnnotation))
        (EventPayload (event_name AppSuspend) (name_data "name" (ap_Name app)))
  | _ => Ret (Ok tt)
  end.

(** ** [custom/subscriber.go], and [fireEvent] of apiserver/server.go, which puts
    an event that was posted in the queue *)

Record CustomEvent : Set := mkCustomEvent { ce_Type : string; ce_Data : json; ce_Message : string; ce_User : string }.
Definition custom_Do (event : CustomEvent) (action : EvAction) : io (res unit) :=
  match action with
  | EvAdd => Send (ce_User event) (ce_Message event)
               (EventPayload (ce_Type event) (match ce_Data event with JNull => None | d => Some d end))
  | _ => Ret (Ok tt)
  end.
(** The answer's status, and what is queued.  [None] is a body that cannot be
    parsed. *)
Definition fireEvent (body : option CustomEvent) : Z * option (CustomEvent * EvAction) :=
  match body with None => (502%Z, None) | Some event => (200%Z, Some (event, EvAdd)) end.

(** ** [login/record.go] *)

Record LoginRecord : Set := mkLogin { lr_watched : WatchedMeta; lr_SourceIP : string }.
Definition login_user (l : LoginRecord) : string :=
  default "" (om_Labels (w_meta (lr_watched l)) !! "iam.kubesphere.io/user-ref").
Definition login_added (l : LoginRecord) : io (option EvAction) :=
  let! valid := ValidWatchDuration (lr_watched l) in Ret (if valid : bool then Some EvAdd else None).
Definition login_Do (login : LoginRecord) (action : EvAction) : io (res unit) :=
  match action with
  | EvAdd =>
      let? admin := AdminUser in
      let user := login_user login in
      let msg := user +:+ " login from " +:+ lr_SourceIP login in
      let payload := EventPayload (event_name UserLogin) (name_data "user" user) in
      do? Send admin msg payload;
      if String.eqb user admin then Ret (Ok tt) else Send user msg payload
  | _ => Ret (Ok tt)
  end.

(** ** [workflows/subscriber.go] *)

Definition WorkflowNameLabel : string := "workflows.app.bytetrade.io/name".
Definition WorkflowTitleAnnotation : string := "workflows.app.bytetrade.io/title".
Definition workflow_filter (ns : ObjectMeta) : bool := negb (in_user_namespace (om_Name ns)).
Definition has_label (ns : ObjectMeta) (k : string) : bool := bool_decide (is_Some (om_Labels ns !! k)).
Definition workflow_deleted (ns : ObjectMeta) : option EvAction :=
  if has_label ns WorkflowNameLabel then Some EvDelete else None.
Definition workflow_updated (old new : ObjectMeta) : option EvAction :=
  if has_label new WorkflowNameLabel && negb (has_label old WorkflowNameLabel) then Some EvAdd else None.

(** The owner of the first workflow that has one; a failing listing counts as
    empty. *)
Definition workflow_owner (labels : option (gmap string string)) : option string :=
  match labels with
  | None => None
  | Some l => match l !! "workflows.app.bytetrade.io/owner" with
              | Some o => if String.eqb o "" then None else Some o
              | None => None
              end
  end.
Definition getWorkflowOwner (namespace : string) : io (res string) :=
  let! workflows := evt_call (ListCronWorkflows namespace) in
  match workflows with
  | Ok l => match omap workflow_owner l with
            | owner :: _ => Ret (Ok owner)
            | [] => Ret (Err (newErr "owner not found"))
            end
  | Err _ => Ret (Err (newErr "owner not found"))
  end.
(** Callbacks that fail are logged; so is an owner that is not found. *)
Definition workflow_event (ns : ObjectMeta) (ev : EventType) (what : string) : io (res unit) :=
  let name := default "" (om_Labels ns !! WorkflowNameLabel) in
  let title := default "" (om_Annotations ns !! WorkflowTitleAnnotation) in
  do! Invoke (subscribed ev) (JObj [("name", JStr name)]);
  let! owner := match om_Labels ns !! "bytetrade.io/ns-owner" with
                | Some o => Ret o
                | None => let! r := getWorkflowOwner (om_Name ns) in
                          Ret (match r with Ok o => o | Err _ => "" end)
                end in
  if String.eqb owner "" then Ret (Ok tt)
  else Send owner ("recommend " +:+ title +:+ " is " +:+ what) (EventPayload (event_name ev) (name_data "name" name)).
Definition workflows_Do (ns : ObjectMeta) (action : EvAction) : io (res unit) :=
  match action with
  | EvAdd => workflow_event ns RecommendInstall "installed"
  | EvDelete => workflow_event ns RecommendUninstall "uninstalled"
  | _ => Ret (Ok tt)
  end.

(** ** [dnspod] and [users/subscriber.go]

    What regenerates the DNS configuration is that of [Corefile]. *)

Definition node_filter (labels : gmap string string) : bool :=
  bool_decide (is_Some (labels !! "node-role.kubernetes.io/control-plane")).
Definition pod_filter (labels : gmap string string) : bool :=
  bool_decide (labels !! "applications.app.bytetrade.io/name" = Some "adguardhome") ||
  bool_decide (labels !! "tier" = Some "bfl") ||
  bool_decide (labels !! "app.bytetrade.io/shared-entrance" = Some "true").

Section Subscribers.
Context (RegenerateCorefile : io (res unit)).

Definition dnspod_Do (action : EvAction) : io (res unit) := RegenerateCorefile.

Definition notify_user (user : string) (ev : EventType) (what : string) : io (res unit) :=
  let? admin := AdminUser in
  Send admin ("user " +:+ user +:+ " is " +:+ what) (EventPayload (event_name ev) (name_data "user" user)).
(** The notification first, then the DNS. *)
Definition users_Do (user : string) (action : EvAction) : io (res unit) :=
  match action with
  | EvAdd => notify_user user UserCreate "created"
  | EvDelete => do? notify_user user UserDelete "deleted"; RegenerateCorefile
  | EvUpdate => RegenerateCorefile
  | _ => Ret (Ok tt)
  end.
End Subscribers.
