(* ===== verification/EventsSpec.v ===== *)
(** * Which callbacks an event reaches, and whom a notification *)

From S2P Require Import Prelude Effects Apr World Demo Events.

(** ** Posts to callbacks *)

(** The address of a post that was accepted, and of any post. *)
Definition accepted_by (e : event resp) : option string :=
  match e with
  | existT (Ext (Evt (PostCallback _ url _))) (Ok status) => if (status <? 400)%Z then Some url else None
  | _ => None
  end.
Definition posted_to (e : event resp) : option string :=
  match projT1 e with Ext (Evt (PostCallback _ url _)) => Some url | _ => None end.
Definition accepted (tr : history) : list string := omap accepted_by tr.
Definition posted (tr : history) : list string := omap posted_to tr.
Lemma accepted_app tr1 tr2 : accepted (tr1 ++ tr2) = accepted tr1 ++ accepted tr2.
Proof. apply omap_app. Qed.
Lemma posted_app tr1 tr2 : posted (tr1 ++ tr2) = posted tr1 ++ posted tr2.
Proof. apply omap_app. Qed.

(** A way of sending to a callback: posts to its address only, and one of them is
    accepted exactly when it reports success. *)
Class Sender (send : SysEventRegistry -> io (res unit)) : Prop := {
  sender_posts cb tr out : runs (send cb) tr out -> Forall (fun u => u = ser_Callback cb) (posted tr);
  sender_accepted cb tr r : runs (send cb) tr (Returned r) -> accepted tr = if is_ok r then [ser_Callback cb] else [];
  sender_returns cb tr w : ~ runs (send cb) tr (Panicked w) }.

Section Invoking.
Context (filter : SysEventRegistry -> bool) (send : SysEventRegistry -> io (res unit)) {HS : Sender send}.

Lemma retry_posts n cb tr out :
  runs (RetryOnError n (fun _ => true) (send cb)) tr out -> Forall (fun u => u = ser_Callback cb) (posted tr).
Proof.
  revert tr. induction n as [|n IH]; intros tr H; cbn [RetryOnError] in H.
  { apply runs_inv in H as [-> _]. constructor. }
  apply runs_bind_inv in H as [(tr1 & tr2 & r & -> & H1%sender_posts & H2)|(w & _ & []%sender_returns)].
  rewrite posted_app. apply Forall_app_2; [done|]. destruct r as [u|e]; [apply runs_inv in H2 as [-> _]; constructor|].
  destruct n as [|n]; [apply runs_inv in H2 as [-> _]; constructor|].
  apply runs_inv in H2 as (more & tr' & -> & H2). cbn. destruct more; [by apply IH|].
  apply runs_inv in H2 as [-> _]. constructor.
Qed.
Lemma retry_accepted n cb tr r :
  runs (RetryOnError n (fun _ => true) (send cb)) tr (Returned r) -> accepted tr = if is_ok r then [ser_Callback cb] else [].
Proof.
  revert tr. induction n as [|n IH]; intros tr H; cbn [RetryOnError] in H; [by ret_inv H|].
  apply runs_bind_returned in H as (tr1 & tr2 & r1 & -> & H1%sender_accepted & H2). rewrite accepted_app, H1.
  destruct r1 as [u|e]; [ret_inv H2; done|]. cbn.
  destruct n as [|n]; [by ret_inv H2|].
  apply runs_inv in H2 as (more & tr' & -> & H2). cbn. destruct more; [by apply IH|]. by ret_inv H2.
Qed.

Definition wanted (cbs : list SysEventRegistry) : list string :=
  map ser_Callback (base.filter (fun cb => filter cb = true) cbs).
Lemma wanted_cons cb cbs : wanted (cb :: cbs) = (if filter cb then [ser_Callback cb] else []) ++ wanted cbs.
Proof.
  unfold wanted. destruct (filter cb) eqn:E; [by rewrite filter_cons_True|].
  rewrite filter_cons_False by congruence. done.
Qed.
Lemma wanted_app l1 l2 : wanted (l1 ++ l2) = wanted l1 ++ wanted l2.
Proof. unfold wanted. by rewrite filter_app, map_app. Qed.

(** What a round of callbacks amounts to. *)
Definition round_result (cbs : list SysEventRegistry) (tr : history) (r : res unit) : Prop :=
  match r with
  | Ok _ => accepted tr = wanted cbs /\ Forall (fun u => u <> "") (wanted cbs)
  | Err _ => exists l1 cb l2, cbs = l1 ++ cb :: l2 /\ filter cb = true /\
      accepted tr = wanted l1 /\ Forall (fun u => u ∈ wanted l1 ++ [ser_Callback cb]) (posted tr)
  end.

Lemma invoke_each_ok cbs tr : runs (invoke_each filter send cbs) tr (Returned (Ok tt)) ->
  accepted tr = wanted cbs /\ Forall (fun u => u ∈ wanted cbs) (posted tr) /\ Forall (fun u => u <> "") (wanted cbs).
Proof.
  revert tr. induction cbs as [|cb cbs IH]; intros tr H.
  { apply runs_inv in H as [-> _]. repeat constructor. }
  apply runs_bind_ok_returned in H as (tr1 & tr2 & [] & -> & H1 & H2). apply IH in H2 as (Ha & Hp & Hn).
  rewrite accepted_app, posted_app, wanted_cons, Ha.
  destruct (filter cb); [|ret_inv H1; done].
  destruct (String.eqb_spec (ser_Callback cb) "") as [E|E]; [ret_inv H1|].
  rewrite (retry_accepted _ _ _ _ H1). split; [done|]. split; [|by constructor].
  apply Forall_app_2.
  - eapply Forall_impl; [by eapply retry_posts|]. intros u ->. by left.
  - eapply Forall_impl; [exact Hp|]. intros u Hu. by right.
Qed.
Lemma invoke_each_result cbs tr r : runs (invoke_each filter send cbs) tr (Returned r) -> round_result cbs tr r.
Proof.
  destruct r as [[]|e]; [by intros (Ha & _ & Hn)%invoke_each_ok|]. cbn.
  revert tr. induction cbs as [|cb cbs IH]; intros tr H; [by ret_inv H|].
  apply runs_bind_returned in H as (tr1 & tr2 & r1 & -> & H1 & H2). destruct r1 as [[]|e1].
  - apply IH in H2 as (l1 & cb' & l2 & -> & Hf & Ha & Hp). exists (cb :: l1), cb', l2.
    assert (H0 : runs (invoke_each filter send [cb]) tr1 (Returned (Ok tt))).
    { cbn [invoke_each for_each]. unfold bind_ok.
      replace tr1 with (tr1 ++ []) by apply app_nil_r. eapply runs_bind_intro; [exact H1|constructor]. }
    apply invoke_each_ok in H0 as (Ha0 & Hp0 & _). change (cb :: l1) with ([cb] ++ l1).
    rewrite wanted_app, accepted_app, posted_app, Ha0, Ha. split_and!; try done.
    apply Forall_app_2; (eapply Forall_impl; [eassumption|]); intros u Hu; cbn in *; set_solver.
  - ret_inv H2. exists [], cb, cbs. rewrite app_nil_r. split; [done|].
    destruct (filter cb) eqn:Ef; [|ret_inv H1]. split; [done|].
    destruct (String.eqb (ser_Callback cb) ""); [ret_inv H1; split; [done|constructor]|].
    split; [by apply retry_accepted in H1|]. eapply Forall_impl; [by eapply retry_posts|].
    intros u ->. by left.
Qed.
End Invoking.

#[export] Instance sendEvent_sender data : Sender (fun cb => sendEvent cb data).
Proof.
  split; unfold sendEvent.
  - intros cb tr out (r & tr' & -> & H)%runs_inv. destruct r as [st|e]; cbn in H.
    + assert (tr' = []) as ->.
      { destruct (400 <=? st)%Z; [destruct (st =? 493)%Z|]; by apply runs_inv in H as [-> _]. }
      by constructor.
    + apply runs_inv in H as [-> _]. by constructor.
  - intros cb tr r (a & tr' & -> & H)%runs_inv. destruct a as [st|e]; cbn in H; [|by ret_inv H].
    rewrite Z.leb_antisym in H. unfold accepted. cbn. destruct (st <? 400)%Z; cbn in H; [by ret_inv H|].
    destruct (st =? 493)%Z; by ret_inv H.
  - intros cb tr w (r & tr' & -> & H)%runs_inv. destruct r as [st|e]; cbn in H; [|by apply runs_inv in H as [_ [=]]].
    destruct (400 <=? st)%Z; [destruct (st =? 493)%Z|]; by apply runs_inv in H as [_ [=]].
Qed.

(** A round of callbacks asks for the registries once.  If it succeeds, every
    one of them that matches, and no other, was posted to until it accepted once,
    in the order of the list.  If it fails, it is because of one of them: the
    matching ones before it have accepted, and none after it was posted to. *)
Theorem callback_round_exact filter data tr r :
  runs (Invoke filter data) tr (Returned r) ->
  (exists e, tr = [ev (Ext (Evt ListRegistries)) (Err e)] /\ r = Err e) \/
  exists cbs tr', tr = ev (Ext (Evt ListRegistries)) (Ok cbs) :: tr' /\ round_result filter cbs tr' r.
Proof.
  intros (l & tr' & -> & H)%runs_inv. destruct l as [cbs|e]; [right|left; ret_inv H; eauto].
  exists cbs, tr'. split; [done|]. by eapply (invoke_each_result filter (fun cb => sendEvent cb data)).
Qed.

(** ** Notifications *)

Definition evt_ev (o : evt) (r : resp_evt o) : event resp := ev (Ext (Evt o)) r.
Definition good (r : EventReply) : Prop := pr_Status r = 200%Z /\ pr_Code r = 0%Z.
Lemma accepted_post_ok url headers body tr r :
  runs (accepted_post url headers body) tr (Returned (Ok r)) -> tr = [evt_ev (PostEvent url headers body) (Ok r)] /\ good r.
Proof.
  intros (tr1 & tr2 & a & -> & H1 & H2)%runs_bind_ok_returned. call_inv H1. unfold good.
  destruct (Z.eqb_spec (pr_Status a) 200); cbn in H2; [|ret_inv H2].
  destruct (Z.eqb_spec (pr_Code a) 0); cbn in H2; ret_inv H2. done.
Qed.

(** A notification that is sent has been sent as the user it is for: with the
    key and the secret of the user's own permission, a token was asked of the
    user's own event server, and with this token the event was created there;
    nothing else was called, and both answers were 200 with the code 0. *)
Theorem notification_exact user msg data tr :
  runs (Send user msg data) tr (Returned (Ok tt)) ->
  exists key secret nano token r1 r2,
    let server := "system-server.user-system-" +:+ user in
    tr = [evt_ev (GetAppPermission ("user-system-" +:+ user) "bfl") (Ok (key, secret));
          evt_ev NowNano nano;
          ev (NatsOp (BcryptHash (key +:+ itoa (unix_seconds nano) +:+ secret))) (Ok token);
          evt_ev (PostEvent ("http://" +:+ server +:+ "/permission/v1alpha1/access") [content_json]
                    (access_request key (unix_seconds nano) token)) (Ok r1);
          evt_ev (PostEvent ("http://" +:+ server +:+ "/system-server/v1alpha1/event/message-disptahcer.system-server/v1")
                    [content_json; ("X-Access-Token", pr_Token r1)] (event_body "notification" msg data)) (Ok r2)] /\
    good r1 /\ good r2.
Proof.
  intros (tr1 & tr2 & [key secret] & -> & H1 & H)%runs_bind_ok_returned. call_inv H1.
  apply runs_bind_ok_returned in H as (tr3 & tr4 & token & -> & Ht & H).
  apply runs_bind_returned in Ht as (t1 & t2 & nano & -> & Hn & Ht). call_inv Hn. cbv zeta in Ht.
  apply runs_bind_ok_returned in Ht as (t3 & t4 & enc & -> & He & Ht). call_inv He.
  apply runs_bind_ok_returned in Ht as (t5 & t6 & r1 & -> & Hr1%accepted_post_ok & Ht). ret_inv Ht.
  apply runs_bind_ok_returned in H as (t7 & t8 & r2 & -> & Hr2%accepted_post_ok & H). ret_inv H.
  destruct Hr1 as [-> Hr1], Hr2 as [-> Hr2]. exists key, secret, nano, enc, r1, r2. by rewrite !app_nil_r.
Qed.

(** ** The properties in a concrete world *)

Definition registry (name : string) (e : EventType) (url : string) : SysEventRegistry :=
  {| ser_meta := plain_meta "os-system" name; ser_Type := "subscriber"; ser_Event := e; ser_Callback := url |}.
Definition demo_registries : list SysEventRegistry :=
  [registry "a" RecommendInstall "http://a"; registry "x" UserDelete "http://x";
   registry "b" RecommendInstall "http://b"; registry "c" RecommendInstall "http://c"].
(** The second of the three callbacks answers 500; the clock stops the retries. *)
Definition event_world (o : op) : resp o :=
  match o return resp o with
  | Ext (Evt ListRegistries) => Ok demo_registries
  | Ext (Evt (PostCallback _ url _)) => Ok (if String.eqb url "http://b" then 500%Z else 200%Z)
  | Ext (Evt (GetAppPermission _ _)) => Ok ("key", "secret")
  | Ext (Evt NowNano) => 1700000000000000000%Z
  | Ext (Evt (PostEvent _ _ _)) => Ok (mkEventReply 200 "" 0 "" "token")
  | NatsOp (BcryptHash p) => Ok "hash"
  | o => unavailable o
  end.

Lemma callback_round_exact_witness :
  let tr := trace_in event_world (Invoke (subscribed RecommendInstall) JNull) in
  posted tr = ["http://a"; "http://b"] /\
  ((exists e, tr = [ev (Ext (Evt ListRegistries)) (Err e)] /\
      Err (newErr "invoke callback [b] response error") = Err e :> res unit) \/
   exists cbs tr', tr = ev (Ext (Evt ListRegistries)) (Ok cbs) :: tr' /\
     round_result (subscribed RecommendInstall) cbs tr' (Err (newErr "invoke callback [b] response error"))).
Proof.
  split; [vm_compute; reflexivity|].
  apply (callback_round_exact (subscribed RecommendInstall) JNull). apply runs_in_to. vm_compute. reflexivity.
Defined.

Lemma notification_exact_witness :
  exists key secret nano token r1 r2,
    trace_in event_world (Send "bob" "hello" JNull) =
      [evt_ev (GetAppPermission "user-system-bob" "bfl") (Ok (key, secret));
       evt_ev NowNano nano;
       ev (NatsOp (BcryptHash (key +:+ itoa (unix_seconds nano) +:+ secret))) (Ok token);
       evt_ev (PostEvent "http://system-server.user-system-bob/permission/v1alpha1/access" [content_json]
                 (access_request key (unix_seconds nano) token)) (Ok r1);
       evt_ev (PostEvent "http://system-server.user-system-bob/system-server/v1alpha1/event/message-disptahcer.system-server/v1"
                 [content_json; ("X-Access-Token", pr_Token r1)] (event_body "notification" "hello" JNull)) (Ok r2)] /\
    good r1 /\ good r2.
Proof.
  apply (notification_exact "bob" "hello" JNull). apply runs_in_to. vm_compute. reflexivity.
Defined.
