(* ===== verification/Watchers.v ===== *)
(** * How the event watcher listens to the API server

    [AddToWatchers] of [app.go] under src/cmd/sys-event/watchers, and the
    [HandleEvent] of the four subscribers [main.go] registers: the handler that
    the informer gets converts the object first and then asks the subscriber's.
    The queue they put their notifications in is that of [WorkQueue], and what
    is done with one is in [Events]. *)

From S2P Require Import Prelude Effects Apr World WorkQueue Controllers Events.

(** What an informer hands over: the object or, for a deletion that was missed,
    client-go's [DeletedFinalStateUnknown]. *)
Inductive informed (U : Type) : Type := Unstructured (u : U) | FinalStateUnknown.
Arguments Unstructured {U} u.
Arguments FinalStateUnknown {U}.

(** A handler over typed objects: it may filter, lacks the callbacks that are
    [None], and answers what it puts in the queue with the (new) object. *)
Record ResourceEventHandler (R : Type) : Type := mkHandler {
  FilterFunc : option (R -> bool);
  AddFunc : option (R -> io (option EvAction));
  UpdateFunc : option (R -> R -> io (option EvAction));
  DeleteFunc : option (R -> io (option EvAction)) }.
Arguments mkHandler {R}. Arguments FilterFunc {R}. Arguments AddFunc {R}.
Arguments UpdateFunc {R}. Arguments DeleteFunc {R}.

Section AddToWatchers.
Context {U R : Type}.
(* [DefaultUnstructuredConverter.FromUnstructured] for [R]. *)
Context (FromUnstructured : U -> res R).
Context (handler : ResourceEventHandler R).

Definition convert (obj : informed U) : io (res R) :=
  match obj with
  | Unstructured u => Ret (FromUnstructured u)
  | FinalStateUnknown => Panic "interface conversion: not *unstructured.Unstructured"
  end.
(** The object, if it converts. *)
Definition converted {A} (obj : informed U) (default : A) (k : R -> io A) : io A :=
  let! r := convert obj in match r with Ok o => k o | Err _ => Ret default end.

Definition new_filter (obj : informed U) : io bool :=
  match FilterFunc handler with
  | Some f => converted obj false (fun o => Ret (f o))
  | None => Ret true
  end.
(** What is put in the queue: the object and what happened to it. *)
Definition queued (o : R) (f : option (io (option EvAction))) : io (option (R * EvAction)) :=
  match f with
  | Some f => let! a := f in Ret ((fun a => (o, a)) <$> a)
  | None => Ret None
  end.
Definition new_add (obj : informed U) : io (option (R * EvAction)) :=
  converted obj None (fun o => queued o ((fun f => f o) <$> AddFunc handler)).
Definition new_update (oldObj newObj : informed U) : io (option (R * EvAction)) :=
  converted newObj None (fun n =>
    converted oldObj None (fun o => queued n ((fun f => f o n) <$> UpdateFunc handler))).
Definition new_delete (obj : informed U) : io (option (R * EvAction)) :=
  converted obj None (fun o => queued o ((fun f => f o) <$> DeleteFunc handler)).
End AddToWatchers.

(** ** The queue

    An entry names the object, what happened to it, and the subscriber, whose
    [Do] is an interface: any program.  Failed entries are put back; [main.go]
    starts one worker, so the queue is that of [WorkQueue].  (The subscriber of
    metrics also keeps the times it alerted at, see [Metrics].) *)
Record EnqueueObj : Type := mkEnqueue {
  eo_Type : Type; eo_Obj : eo_Type; eo_Action : EvAction;
  eo_Subscribe : eo_Type -> EvAction -> io (res unit) }.
Definition watchers_process : EnqueueObj -> io (EnqueueObj * res unit) :=
  reading (fun e => eo_Subscribe e (eo_Obj e) (eo_Action e)).
Definition watchers_queue : queue_state EnqueueObj -> Prop := queue_reaches watchers_process requeues.

(** ** The subscribers that [main.go] registers *)

Definition apps_HandleEvent : ResourceEventHandler AppObj :=
  mkHandler (Some app_filter) (Some app_added) (Some (fun o n => Ret (app_updated o n))) (Some (fun a => Ret (app_deleted a))).
Definition workflows_HandleEvent : ResourceEventHandler ObjectMeta :=
  mkHandler (Some workflow_filter) None (Some (fun o n => Ret (workflow_updated o n))) (Some (fun n => Ret (workflow_deleted n))).
(** Pods and nodes are followed alike: an update counts as an addition. *)
Definition dnspod_HandleEvent (filter : gmap string string -> bool) : ResourceEventHandler (gmap string string) :=
  mkHandler (Some filter) (Some (fun _ => Ret (Some EvAdd))) (Some (fun _ _ => Ret (Some EvAdd))) (Some (fun _ => Ret (Some EvDelete))).
Definition PodSubscriber : ResourceEventHandler (gmap string string) := dnspod_HandleEvent pod_filter.
Definition NodeSubscriber : ResourceEventHandler (gmap string string) := dnspod_HandleEvent node_filter.

(** ** What the process survives *)

Definition sturdy {R} (h : ResourceEventHandler R) : Prop :=
  (forall f o, AddFunc h = Some f -> survives (f o)) /\
  (forall f o n, UpdateFunc h = Some f -> survives (f o n)) /\
  (forall f o, DeleteFunc h = Some f -> survives (f o)).

Lemma queued_survives {R} (o : R) f :
  (forall m, f = Some m -> survives m) -> survives (queued o f).
Proof. intros H. destruct f as [m|]; cbn; [apply survives_bind; [by apply H|intros a; apply survives_ret]|apply survives_ret]. Qed.

Lemma valid_survives m : survives (ValidWatchDuration m).
Proof.
  unfold ValidWatchDuration. apply survives_bind; [exact (survives_call (Ext (Evt _)))|intros now].
  repeat case_match; try apply survives_ret. apply survives_bind; [exact (survives_call (Ext (Evt _)))|intros n; apply survives_ret].
Qed.
Lemma registered_sturdy : sturdy apps_HandleEvent /\ sturdy workflows_HandleEvent /\ sturdy PodSubscriber /\ sturdy NodeSubscriber.
Proof.
  unfold sturdy. split_and!; cbn; intros; simplify_eq; try apply survives_ret.
  apply survives_bind; [apply valid_survives|intros []; apply survives_ret].
Qed.

Section Missed.
Context {U R : Type} (FromUnstructured : U -> res R) (h : ResourceEventHandler R).

(** A deletion that the informer has missed ends the process: it is handed
    over as [DeletedFinalStateUnknown], and a subscriber that filters panics on
    it before it can look at it, whatever its callbacks.  No other notification
    can do that, if no callback does: whatever the object, converted or not. *)
Theorem missed_deletion_crashes :
  (FilterFunc h <> None -> forall tr out, runs (new_filter FromUnstructured h FinalStateUnknown) tr out ->
     exists why, out = Panicked why) /\
  (sturdy h -> forall u u',
     survives (new_filter FromUnstructured h (Unstructured u)) /\
     survives (new_add FromUnstructured h (Unstructured u)) /\
     survives (new_update FromUnstructured h (Unstructured u) (Unstructured u')) /\
     survives (new_delete FromUnstructured h (Unstructured u))).
Proof.
  split.
  - unfold new_filter, converted. destruct (FilterFunc h); [|done]. intros _ tr out H%runs_inv. cbn in H. naive_solver.
  - intros (Ha & Hu & Hd) u u'. unfold new_filter, new_add, new_update, new_delete, converted.
    split_and!; repeat (cbn [convert bind]; case_match); try apply survives_ret;
      apply queued_survives; intros m; destruct (AddFunc h), (UpdateFunc h), (DeleteFunc h); cbn; intros [= <-]; eauto.
Qed.
End Missed.

Definition demo_node : gmap string string := {["node-role.kubernetes.io/control-plane" := ""]}.
Lemma missed_deletion_crashes_witness :
  (exists why, Panicked "interface conversion: not *unstructured.Unstructured" = Panicked why :> outcome bool) /\
  survives (new_delete Ok NodeSubscriber (Unstructured demo_node)).
Proof.
  split.
  - apply (proj1 (missed_deletion_crashes Ok NodeSubscriber) ltac:(discriminate) []). constructor.
  - exact (proj2 (proj2 (proj2 (proj2 (missed_deletion_crashes Ok NodeSubscriber)
             (proj2 (proj2 (proj2 registered_sturdy))) demo_node demo_node)))).
Defined.
