(* ===== verification/Users.v ===== *)
(** * The watcher of users: src/cmd/sys-event/watchers/users/users.go

    One goroutine reads two watches of the API server, of users and of callback
    registries, and handles an event at a time.  Its state is what it remembers
    of the events it has recorded and of the users who are going through the
    wizard; the model keeps, beside it, what was put in the watchers' queue and
    which events were handled.  When a watch breaks both are begun again: more
    events arrive, which is all this model sees of it. *)

From S2P Require Import Prelude Effects Apr World Events.

Inductive WatchType : Set := Added | Modified | Deleted | OtherType (s : string).
#[export] Instance WatchType_eq_dec : EqDecision WatchType.
Proof. solve_decision. Defined.
(** [watch.EventType], a string. *)
Definition type_name (t : WatchType) : string :=
  match t with Added => "ADDED" | Modified => "MODIFIED" | Deleted => "DELETED" | OtherType s => s end.

Record KsUser : Set := mkKsUser { ku_watched : WatchedMeta; ku_Email : string }.
Definition ku_Name (u : KsUser) : string := om_Name (w_meta (ku_watched u)).
Definition ku_annotation (u : KsUser) (k : string) : option string := om_Annotations (w_meta (ku_watched u)) !! k.

(** An event's object: its identity and version, and what it converts to. *)
Record watched (A : Type) : Type := mkObject { wo_UID : string; wo_Version : string; wo_Object : A }.
Arguments mkObject {A} _ _ _.
Arguments wo_UID {A} _.
Arguments wo_Version {A} _.
Arguments wo_Object {A} _.

Record watcher : Type := mkWatcher {
  wt_cacheEvent : gmap string (gmap string string);      (* uid, type, version *)
  wt_activingUsers : gmap string string;
  wt_enqueued : list (KsUser * EvAction);
  wt_handled : list (WatchType * KsUser) }.
Definition NewWatcher : watcher := mkWatcher ∅ ∅ [] [].

Definition isDupEvent {A} (w : watcher) (t : WatchType) (o : watched A) : bool :=
  match wt_cacheEvent w !! wo_UID o with
  | Some old => bool_decide (old !! type_name t = Some (wo_Version o))
  | None => false
  end.
Definition eventRecord {A} (t : WatchType) (o : watched A) (w : watcher) : watcher :=
  let old := default ∅ (wt_cacheEvent w !! wo_UID o) in
  mkWatcher (<[wo_UID o := <[type_name t := wo_Version o]> old]> (wt_cacheEvent w))
    (wt_activingUsers w) (wt_enqueued w) (wt_handled w).
Definition enqueue_user (u : KsUser) (a : EvAction) (w : watcher) : watcher :=
  mkWatcher (wt_cacheEvent w) (wt_activingUsers w) (wt_enqueued w ++ [(u, a)]) (wt_handled w).
Definition set_activing (m : gmap string string) (w : watcher) : watcher :=
  mkWatcher (wt_cacheEvent w) m (wt_enqueued w) (wt_handled w).
Definition handling (t : WatchType) (u : KsUser) (w : watcher) : watcher :=
  mkWatcher (wt_cacheEvent w) (wt_activingUsers w) (wt_enqueued w) (wt_handled w ++ [(t, u)]).

(** ** Callbacks *)

Definition postUserInfo (body : json) (cb : SysEventRegistry) : io (res unit) :=
  let? status := evt_call (PostCallback 2 (ser_Callback cb) body) in
  if (400 <=? status)%Z then Ret (Err (newErr "invoke callback response error")) else Ret (Ok tt).
Definition invokeCallbacks (callbacks : option (list SysEventRegistry)) (trigger : SysEventRegistry -> bool)
    (action : SysEventRegistry -> io (res unit)) : io (res unit) :=
  let? callbacks := match callbacks with Some l => Ret (Ok l) | None => evt_call ListRegistries end in
  invoke_each trigger action callbacks.
Definition invokeUserCreatedCB (callbacks : option (list SysEventRegistry)) (user : KsUser) : io (res unit) :=
  invokeCallbacks callbacks (subscribed UserCreate)
    (postUserInfo (JObj [("name", JStr (ku_Name user));
                         ("role", JStr (default "" (ku_annotation user "bytetrade.io/owner-role")));
                         ("email", JStr (ku_Email user))])).
Definition invokeUserDeletedCB (callbacks : option (list SysEventRegistry)) (user : KsUser) : io (res unit) :=
  invokeCallbacks callbacks (subscribed UserDelete)
    (postUserInfo (JObj [("name", JStr (ku_Name user)); ("email", JStr (ku_Email user))])).
Definition invokeUserActivedCB (callbacks : option (list SysEventRegistry)) (user : KsUser) : io (res unit) :=
  invokeCallbacks callbacks (subscribed UserActive)
    (postUserInfo (JObj [("name", JStr (ku_Name user)); ("email", JStr (ku_Email user))])).

(** ** Events *)

Definition UserTerminusWizardStatus : string := "bytetrade.io/wizard-status".
Definition Completed : string := "completed".

(** Recorded unless the callbacks failed. *)
Definition record_if_ok {A} (t : WatchType) (o : watched A) (w : watcher) (r : res unit) : io watcher :=
  Ret (match r with Ok _ => eventRecord t o w | Err _ => w end).

(** The users who were seen with another status, and have not completed. *)
Definition on_wizard_status (o : watched (option KsUser)) (user : KsUser) (w : watcher) : io watcher :=
  match ku_annotation user UserTerminusWizardStatus with
  | None => Ret (eventRecord Modified o w)
  | Some status =>
      if String.eqb status Completed then
        match wt_activingUsers w !! ku_Name user with
        | Some s =>
            if String.eqb s Completed then Ret (eventRecord Modified o w)
            else
              let w := set_activing (delete (ku_Name user) (wt_activingUsers w)) w in
              let! r := invokeUserActivedCB None user in record_if_ok Modified o w r
        | None => Ret (eventRecord Modified o w)
        end
      else Ret (eventRecord Modified o (set_activing (<[ku_Name user := status]> (wt_activingUsers w)) w))
  end.

(** [None] for the object is one of another type; for the user, one that cannot
    be converted. *)
Definition on_user_event (t : WatchType) (obj : option (watched (option KsUser))) (w : watcher) : io watcher :=
  match obj with
  | None => Ret w
  | Some o =>
      if isDupEvent w t o then Ret w
      else match wo_Object o with
           | None => Ret w
           | Some user =>
               let w := handling t user w in
               match t with
               | Added =>
                   let! valid := ValidWatchDuration (ku_watched user) in
                   let w := if valid : bool then enqueue_user user EvAdd w else w in
                   let! r := invokeUserCreatedCB None user in record_if_ok t o w r
               | Deleted =>
                   let w := enqueue_user user EvDelete w in
                   let! r := invokeUserDeletedCB None user in record_if_ok t o w r
               | Modified => on_wizard_status o user (enqueue_user user EvUpdate w)
               | OtherType _ => Ret (eventRecord t o w)
               end
           end
  end.

(** A new registry for created users is told of every user there is. *)
Definition on_callback_event (users : io (res (list (option KsUser)))) (t : WatchType)
    (obj : option (watched SysEventRegistry)) (w : watcher) : io watcher :=
  match obj with
  | None => Ret w
  | Some o =>
      if isDupEvent w t o then Ret w
      else if negb (subscribed UserCreate (wo_Object o)) then Ret w
      else match t with
           | Added =>
               let! r := users in
               match r with
               | Err _ => Ret w
               | Ok l =>
                   do! fold_all (fun _ u => match u with
                                            | None => Ret tt
                                            | Some user => let! _ := invokeUserCreatedCB (Some [wo_Object o]) user in Ret tt
                                            end) l tt;
                   Ret (eventRecord t o w)
               end
           | _ => Ret (eventRecord t o w)
           end
  end.

(** The two watches, in the order their events are read. *)
Inductive watch_event : Type :=
  | UserEvent (t : WatchType) (o : option (watched (option KsUser)))
  | CallbackEvent (t : WatchType) (o : option (watched SysEventRegistry)).
Definition on_event (users : io (res (list (option KsUser)))) (e : watch_event) (w : watcher) : io watcher :=
  match e with
  | UserEvent t o => on_user_event t o w
  | CallbackEvent t o => on_callback_event users t o w
  end.
Definition watch (users : io (res (list (option KsUser)))) (events : list watch_event) : io watcher :=
  fold_all (fun w e => on_event users e w) events NewWatcher.
