(* ===== verification/UsersSpec.v ===== *)
(** * What the watcher of users does over a sequence of events *)

From S2P Require Import Prelude Effects Apr World Demo Events EventsSpec Users.

#[export] Instance postUserInfo_sender body : Sender (postUserInfo body).
Proof.
  split; unfold postUserInfo.
  - intros cb tr out (r & tr' & -> & H)%runs_inv. destruct r as [st|e]; cbn in H.
    + assert (tr' = []) as -> by (destruct (400 <=? st)%Z; by apply runs_inv in H as [-> _]). by constructor.
    + apply runs_inv in H as [-> _]. by constructor.
  - intros cb tr r (a & tr' & -> & H)%runs_inv. destruct a as [st|e]; cbn in H; [|by ret_inv H].
    rewrite Z.leb_antisym in H. unfold accepted. cbn. destruct (st <? 400)%Z; cbn in H; by ret_inv H.
  - intros cb tr w (r & tr' & -> & H)%runs_inv. destruct r as [st|e]; cbn in H; [|by apply runs_inv in H as [_ [=]]].
    destruct (400 <=? st)%Z; by apply runs_inv in H as [_ [=]].
Qed.

(** ** The wizard *)

(** The status of the wizard a user was last seen with, if it is not completed. *)
Definition status_of_event (u : string) (x : WatchType * KsUser) : option string :=
  match x.1 with
  | Modified => if String.eqb (ku_Name x.2) u then ku_annotation x.2 UserTerminusWizardStatus else None
  | _ => None
  end.
Definition unfinished (u : string) (handled : list (WatchType * KsUser)) : option string :=
  match last (omap (status_of_event u) handled) with
  | Some s => if String.eqb s Completed then None else Some s
  | None => None
  end.
Definition activing_exact (w : watcher) : Prop :=
  forall u, wt_activingUsers w !! u = unfinished u (wt_handled w).

Lemma unfinished_snoc u l x :
  unfinished u (l ++ [x]) = match status_of_event u x with
                            | Some s => if String.eqb s Completed then None else Some s
                            | None => unfinished u l
                            end.
Proof.
  unfold unfinished. rewrite omap_app. cbn. destruct (status_of_event u x); [by rewrite last_snoc|].
  by rewrite app_nil_r.
Qed.
Lemma record_keeps {A} t (o : watched A) w : activing_exact (eventRecord t o w) <-> activing_exact w.
Proof. done. Qed.
Lemma record_if_ok_returned {A} t (o : watched A) w r tr w' :
  runs (record_if_ok t o w r) tr (Returned w') -> tr = [] /\ (w' = eventRecord t o w \/ w' = w).
Proof. intros H. destruct r; ret_inv H; auto. Qed.

Lemma other_event_keeps t user w : t <> Modified -> activing_exact w -> activing_exact (handling t user w).
Proof.
  intros Ht Hw u. cbn. rewrite unfinished_snoc, Hw. unfold status_of_event. cbn. by destruct t.
Qed.

Lemma unfinished_status u l s : unfinished u l = Some s -> s <> Completed.
Proof.
  unfold unfinished. destruct (last _) as [x|]; [|done]. destruct (String.eqb_spec x Completed); [done|]. by intros [= <-].
Qed.
Lemma unfinished_modified u user l :
  unfinished u (l ++ [(Modified, user)]) =
    if String.eqb (ku_Name user) u then
      match ku_annotation user UserTerminusWizardStatus with
      | Some s => if String.eqb s Completed then None else Some s
      | None => unfinished u l
      end
    else unfinished u l.
Proof. rewrite unfinished_snoc. unfold status_of_event. cbn. by destruct (String.eqb (ku_Name user) u). Qed.

Lemma on_wizard_status_keeps o user w tr w' :
  activing_exact w -> runs (on_wizard_status o user (enqueue_user user EvUpdate (handling Modified user w))) tr (Returned w') ->
  activing_exact w'.
Proof.
  intros Hw H. unfold on_wizard_status in H. destruct (ku_annotation user _) as [status|] eqn:Ea; cycle 1.
  { ret_inv H. intros u. cbn. rewrite unfinished_modified, Ea, Hw. by destruct (String.eqb _ u). }
  destruct (String.eqb_spec status Completed) as [->|Hs]; cycle 1.
  { ret_inv H. intros u. cbn. rewrite unfinished_modified, Ea.
    destruct (String.eqb_spec (ku_Name user) u) as [<-|Hu]; [|by rewrite lookup_insert_ne].
    rewrite lookup_insert_eq. by destruct (String.eqb_spec status Completed). }
  cbn [wt_activingUsers enqueue_user handling] in H. destruct (wt_activingUsers w !! ku_Name user) as [s|] eqn:El.
  - pose proof El as El'. rewrite Hw in El'. apply unfinished_status in El'.
    destruct (String.eqb_spec s Completed); [done|].
    apply runs_bind_returned in H as (tr1 & tr2 & r & -> & _ & [-> Hr]%record_if_ok_returned).
    assert (E : wt_activingUsers w' = delete (ku_Name user) (wt_activingUsers w) /\
                wt_handled w' = wt_handled w ++ [(Modified, user)]) by (by destruct Hr as [-> | ->]).
    destruct E as [E1 E2]. intros u. rewrite E1, E2, unfinished_modified, Ea.
    destruct (String.eqb_spec (ku_Name user) u) as [<-|Hu]; [by rewrite lookup_delete_eq|by rewrite lookup_delete_ne].
  - ret_inv H. intros u. cbn. rewrite unfinished_modified, Ea.
    destruct (String.eqb_spec (ku_Name user) u) as [<-|Hu]; [by rewrite El|done].
Qed.

Lemma on_user_event_keeps t obj w tr w' :
  activing_exact w -> runs (on_user_event t obj w) tr (Returned w') -> activing_exact w'.
Proof.
  intros Hw H. unfold on_user_event in H. destruct obj as [o|]; [|by ret_inv H].
  destruct (isDupEvent w t o); [by ret_inv H|]. destruct (wo_Object o) as [user|]; [|by ret_inv H]. cbv zeta in H.
  destruct t as [| | |s].
  - apply runs_bind_returned in H as (tr1 & tr2 & valid & -> & _ & H).
    apply runs_bind_returned in H as (tr3 & tr4 & r & -> & _ & [-> Hr]%record_if_ok_returned).
    pose proof (other_event_keeps Added user w ltac:(done) Hw). by destruct Hr as [-> | ->], valid.
  - by eapply on_wizard_status_keeps.
  - apply runs_bind_returned in H as (tr3 & tr4 & r & -> & _ & [-> Hr]%record_if_ok_returned).
    pose proof (other_event_keeps Deleted user w ltac:(done) Hw). by destruct Hr as [-> | ->].
  - ret_inv H. by apply (other_event_keeps (OtherType s) user w).
Qed.
Lemma on_callback_event_keeps users t obj w tr w' :
  activing_exact w -> runs (on_callback_event users t obj w) tr (Returned w') -> activing_exact w'.
Proof.
  intros Hw H. unfold on_callback_event in H. destruct obj as [o|]; [|by ret_inv H].
  destruct (isDupEvent w t o); [by ret_inv H|]. destruct (negb _); [by ret_inv H|].
  destruct t; try (by ret_inv H).
  apply runs_bind_returned in H as (tr1 & tr2 & [l|e] & -> & _ & H); [|by ret_inv H].
  apply runs_bind_returned in H as (tr3 & tr4 & u & -> & _ & H). by ret_inv H.
Qed.

Lemma watch_keeps users events w tr w' :
  activing_exact w -> runs (fold_all (fun w e => on_event users e w) events w) tr (Returned w') -> activing_exact w'.
Proof.
  revert w tr. induction events as [|e events IH]; intros w tr Hw H; [by ret_inv H|].
  apply runs_fold_all_cons in H as (tr1 & tr2 & w1 & -> & H1 & H2). eapply (IH w1); [|exact H2].
  destruct e; [by eapply on_user_event_keeps|by eapply on_callback_event_keeps].
Qed.

(** C29: Whatever events are read and however callbacks answer, the users the
    watcher takes to be in the wizard are exactly those whose last handled change
    of status was to another status than completed, with this status. *)
Theorem wizard_state_exact users events tr w u :
  runs (watch users events) tr (Returned w) -> wt_activingUsers w !! u = unfinished u (wt_handled w).
Proof. intros H. by eapply (watch_keeps users events NewWatcher); [|exact H]. Qed.

(** C30: The callbacks of an activation are called for an event exactly when it is
    not a duplicate, says that its user has completed the wizard, and the user
    was last seen in the wizard.  Afterwards the user is not in the wizard any
    more, also when the callbacks failed: they are not called again. *)
Theorem activation_exact users events tr0 w o user tr w' :
  runs (watch users events) tr0 (Returned w) ->
  wo_Object o = Some user ->
  runs (on_user_event Modified (Some o) w) tr (Returned w') ->
  (tr <> [] <-> isDupEvent w Modified o = false /\
               ku_annotation user UserTerminusWizardStatus = Some Completed /\
               is_Some (unfinished (ku_Name user) (wt_handled w))) /\
  (tr <> [] -> (exists r, runs (invokeUserActivedCB None user) tr (Returned r)) /\
               unfinished (ku_Name user) (wt_handled w') = None).
Proof.
  intros Hw Ho H. assert (Hx : activing_exact w) by (by eapply (watch_keeps users events NewWatcher); [|exact Hw]).
  clear Hw users events tr0.
  unfold on_user_event in H. rewrite Ho in H. cbv zeta in H.
  destruct (isDupEvent w Modified o) eqn:Ed; [ret_inv H; naive_solver|].
  unfold on_wizard_status in H. destruct (ku_annotation user _) as [status|] eqn:Ea; [|ret_inv H; naive_solver].
  destruct (String.eqb_spec status Completed) as [->|Hs]; [|ret_inv H; naive_solver].
  cbn [wt_activingUsers enqueue_user handling] in H. rewrite Hx in H. destruct (unfinished (ku_Name user) (wt_handled w)) as [s|] eqn:Eu; cycle 1.
  { ret_inv H. split; [|done]. split; [done|]. by intros (_ & _ & [? [=]]). }
  pose proof (unfinished_status _ _ _ Eu) as Hs. destruct (String.eqb_spec s Completed); [done|].
  apply runs_bind_returned in H as (tr1 & tr2 & r & -> & H1 & [-> Hr]%record_if_ok_returned). rewrite app_nil_r.
  assert (Hh : wt_handled w' = wt_handled w ++ [(Modified, user)]) by (by destruct Hr as [-> | ->]).
  split; [split; [by eauto|]|].
  - intros _ ->. by apply runs_inv in H1 as (? & ? & [=] & _).
  - intros _. split; [by eauto|]. rewrite Hh, unfinished_modified, Ea, String.eqb_refl. done.
Qed.

(** ** The properties on concrete events *)

Definition wizard_user (status : string) : KsUser :=
  mkKsUser (mkWatched (mkMeta "bob" "" ∅ {[UserTerminusWizardStatus := status]}) 0 None) "bob@example.com".
Definition wizard_event (version status : string) : watched (option KsUser) :=
  mkObject "uid-bob" version (Some (wizard_user status)).
Definition no_users : io (res (list (option KsUser))) := Ret (Ok []).
(** The only callback for activations answers 500. *)
Definition users_world (o : op) : resp o :=
  match o return resp o with
  | Ext (Evt ListRegistries) => Ok [registry "a" UserActive "http://b"]
  | o => event_world o
  end.
Definition in_wizard : io watcher := watch no_users [UserEvent Modified (Some (wizard_event "1" "wait_activate_system"))].
Definition w_in_wizard : watcher :=
  mkWatcher {["uid-bob" := {["MODIFIED" := "1"]}]} {["bob" := "wait_activate_system"]}
    [(wizard_user "wait_activate_system", EvUpdate)] [(Modified, wizard_user "wait_activate_system")].
Lemma in_wizard_runs : runs in_wizard (trace_in users_world in_wizard) (Returned w_in_wizard).
Proof. apply runs_in_to. vm_compute. reflexivity. Qed.

Lemma wizard_state_exact_witness :
  wt_activingUsers w_in_wizard !! "bob" = unfinished "bob" [(Modified, wizard_user "wait_activate_system")].
Proof. exact (wizard_state_exact no_users _ _ w_in_wizard "bob" in_wizard_runs). Defined.

Definition completion : io watcher := on_user_event Modified (Some (wizard_event "2" Completed)) w_in_wizard.
Definition w_completed : watcher :=
  mkWatcher {["uid-bob" := {["MODIFIED" := "1"]}]} ∅
    (wt_enqueued w_in_wizard ++ [(wizard_user Completed, EvUpdate)]) (wt_handled w_in_wizard ++ [(Modified, wizard_user Completed)]).
Lemma completion_runs : runs completion (trace_in users_world completion) (Returned w_completed).
Proof. apply runs_in_to. vm_compute. reflexivity. Qed.

(** The callbacks fail, and will not be called again. *)
Lemma activation_exact_witness :
  (trace_in users_world completion <> [] <->
     isDupEvent w_in_wizard Modified (wizard_event "2" Completed) = false /\
     ku_annotation (wizard_user Completed) UserTerminusWizardStatus = Some Completed /\
     is_Some (unfinished "bob" (wt_handled w_in_wizard))) /\
  (trace_in users_world completion <> [] ->
     (exists r, runs (invokeUserActivedCB None (wizard_user Completed)) (trace_in users_world completion) (Returned r)) /\
     unfinished "bob" (wt_handled w_completed) = None).
Proof.
  apply (activation_exact no_users _ _ w_in_wizard (wizard_event "2" Completed) (wizard_user Completed) _ w_completed in_wizard_runs);
    [reflexivity|exact completion_runs].
Defined.
