(* ===== verification/Metrics.v ===== *)
(** * Alarms: [monitoring.go], [prometheus.go] and [subscriber.go] of
    src/cmd/sys-event/watchers/metrics

    Go's floats are those of Rocq's [SpecFloat] at double precision.  Times are
    in nanoseconds. *)

From S2P Require Import Prelude Effects Apr World Postgres Events.
From Stdlib Require Import SpecFloat.

(** ** Floats *)

Definition float_mul : float64 -> float64 -> float64 := SFmul 53 1024.
Definition float_gt (x y : float64) : bool := SFltb y x.
Definition float_zero : float64 := S754_zero false.
(** 0.9, as the compiler rounds it. *)
Definition DefaultMetricThreshold : float64 := S754_finite false 8106479329266893 (-53).

(** ** [prometheus.go] *)

Inductive QueryLevel : Set := LevelCluster | LevelUser (username : string).
(** The templates of the four metrics that are asked for, and how Go looks up any
    other name. *)
Definition promQLTemplates (metric : string) : string :=
  if String.eqb metric "cluster_cpu_utilisation" then ":node_cpu_utilisation:avg1m"
  else if String.eqb metric "cluster_memory_utilisation" then ":node_memory_utilisation:"
  else if String.eqb metric "user_cpu_usage" then
    "round(sum by (user) (user:container_cpu_usage_seconds_total:sum_rate{namespace!=" +:+ dquote +:+ dquote +:+ ", $1}), 0.001)"
  else if String.eqb metric "user_memory_usage" then
    "sum by (user) (user:container_memory_usage_bytes:sum{namespace!=" +:+ dquote +:+ dquote +:+ ", $1})"
  else "".
Definition makeUserMetricExpr (tmpl username : string) : string :=
  replace_all tmpl "$1" (if String.eqb username "" then "" else "user=~" +:+ dquote +:+ username +:+ dquote).
Definition makeExpr (metric : string) (level : QueryLevel) : string :=
  match level with
  | LevelCluster => promQLTemplates metric
  | LevelUser username => makeUserMetricExpr (promQLTemplates metric) username
  end.

Record Metric : Set := mkMetric {
  m_Name : string; m_Values : list (gmap string string * (float64 * float64)); m_Error : string }.
Definition query_metric (level : QueryLevel) (metric : string) : io Metric :=
  let! r := evt_call (PromQuery (makeExpr metric level)) in
  Ret (match r with Ok values => mkMetric metric values "" | Err e => mkMetric metric [] (err_msg e) end).
(** One goroutine per metric; the results are in the order in which these end. *)
Definition GetNamedMetrics (metrics : list string) (level : QueryLevel) : io (list Metric) :=
  let! arrived := evt_call (Arrival metrics) in
  let order := if bool_decide (arrived ≡ₚ metrics) then arrived else metrics in
  fold_all (fun l m => let! r := query_metric level m in Ret (l ++ [r])) order [].
Definition GetValue (m : Metric) : float64 :=
  match m_Values m with [] => float_zero | (_, (_, v)) :: _ => v end.

(** ** [monitoring.go] *)

(** When an alarm of each metric was last put in the queue, and the alarms that
    were, each with its time. *)
Record monitor : Set := mkMonitor {
  mo_latestSend : gmap string Z; mo_enqueued : list (Z * Metric) }.
(** The zero time, for a name that is not in the map, is before any other. *)
Definition long_ago (latest : option Z) (now interval : Z) : bool :=
  match latest with Some t => (interval <? now - t)%Z | None => true end.
Definition alarm (m : Metric) (limit : float64) (mo : monitor) : io monitor :=
  if float_gt (GetValue m) limit then
    let! now := evt_call NowNano in
    if long_ago (mo_latestSend mo !! m_Name m) now minute
    then Ret (mkMonitor (<[m_Name m := now]> (mo_latestSend mo)) (mo_enqueued mo ++ [(now, m)]))
    else Ret mo
  else Ret mo.

Section Monitoring.
(* [resource.ParseQuantity] and [AsApproximateFloat64]. *)
Context (ParseQuantity : string -> res float64).

Record UserMetrics : Set := mkUserMetrics { um_Name : string; um_CPU : float64; um_Memory : float64 }.
(** The users whose two limits can be read. *)
Definition user_limits (u : UserObj) : option UserMetrics :=
  match ParseQuantity (default "" (uo_Annotations u !! "bytetrade.io/user-cpu-limit")) with
  | Err _ => None
  | Ok c => match ParseQuantity (default "" (uo_Annotations u !! "bytetrade.io/user-memory-limit")) with
            | Err _ => None
            | Ok m => Some (mkUserMetrics (uo_Name u) c m)
            end
  end.
Definition user_alarm (u : UserMetrics) (mo : monitor) (m : Metric) : io monitor :=
  if String.eqb (m_Name m) "user_cpu_usage" then alarm m (float_mul (um_CPU u) DefaultMetricThreshold) mo
  else if String.eqb (m_Name m) "user_memory_usage" then alarm m (float_mul (um_Memory u) DefaultMetricThreshold) mo
  else Ret mo.

(** One round: the state and, when it fails, why. *)
Definition round (mo : monitor) : io (monitor * res unit) :=
  let! metrics := GetNamedMetrics ["cluster_cpu_utilisation"; "cluster_memory_utilisation"] LevelCluster in
  let! mo := fold_all (fun mo m => alarm m DefaultMetricThreshold mo) metrics mo in
  let! users := k8s_call ListUsers in
  match users with
  | Err e => Ret (mo, Err e)
  | Ok users =>
      let! mo := fold_all (fun mo u =>
                   let! metrics := GetNamedMetrics ["user_cpu_usage"; "user_memory_usage"] (LevelUser (um_Name u)) in
                   fold_all (user_alarm u) metrics mo) (omap user_limits users) mo in
      Ret (mo, Ok tt)
  end.

(** [PollImmediateInfinite]: a round, then one at every tick, until one fails;
    here the first [n] of them, and whether it goes on. *)
Fixpoint rounds (n : nat) (mo : monitor) : io (monitor * bool) :=
  match n with
  | O => Ret (mo, true)
  | S n =>
      let! (mo, r) := round mo in
      match r with
      | Err _ => Ret (mo, false)
      | Ok _ => let! _ := sys_call PollTick in rounds n mo
      end
  end.
Definition start_monitor : io monitor :=
  let! t1 := evt_call NowNano in
  let! t2 := evt_call NowNano in
  let! t3 := evt_call NowNano in
  let! t4 := evt_call NowNano in
  Ret (mkMonitor {["cluster_cpu_utilisation" := t1 - 2 * minute; "cluster_memory_utilisation" := t2 - 2 * minute;
                   "user_cpu_usage" := t3 - 2 * minute; "user_memory_usage" := t4 - 2 * minute]}%Z []).
Definition Run (n : nat) : io (monitor * bool) := let! mo := start_monitor in rounds n mo.
End Monitoring.

(** ** [subscriber.go] *)

(** The package's [latestSend], of the two user metrics. *)
Definition sent_times : Set := gmap string Z.

Definition load_body (cpu memory : float64) (user : option string) : json :=
  JObj ([("cpu", JNum cpu); ("memory", JNum memory)] ++ match user with Some u => [("user", JStr u)] | None => [] end).
Definition cluster_alarm (admin : string) (ev : EventType) (body : json) (msg : string) : io (res unit) :=
  do! Invoke (subscribed ev) body;
  Send admin msg (EventPayload (event_name ev) None).
Definition err_list (r : res unit) : list gerr := match r with Ok _ => [] | Err e => [e] end.
(** [metric.MetricValues[0].Metadata["user"]] *)
Definition metric_user (m : Metric) : io string :=
  match m_Values m with
  | [] => Panic "index out of range"
  | (labels, _) :: _ => Ret (default "" (labels !! "user"))
  end.
(** Callbacks every time; the notifications at most once an hour, and the time is
    noted whether or not they could be sent. *)
Definition user_alarm_Do (admin : string) (m : Metric) (ev : EventType) (body : string -> json) (what : string)
    (st : sent_times) : io (sent_times * res unit) :=
  let! user := metric_user m in
  do! Invoke (subscribed ev) (body user);
  let! now := evt_call NowNano in
  if long_ago (st !! m_Name m) now hour then
    let! r1 := Send admin ("user: " +:+ user +:+ " High " +:+ what +:+ " usage alert") (EventPayload (event_name ev) None) in
    let! r2 := Send user ("High " +:+ what +:+ " usage alert") (EventPayload (event_name ev) None) in
    Ret (<[m_Name m := now]> st, AggregateErrs (err_list r1 ++ err_list r2))
  else Ret (st, Ok tt).
Definition metrics_Do (m : Metric) (st : sent_times) : io (sent_times * res unit) :=
  let! admin := AdminUser in
  match admin with
  | Err e => Ret (st, Err e)
  | Ok admin =>
      if String.eqb (m_Name m) "cluster_cpu_utilisation" then
        let! r := cluster_alarm admin CPUHigh (load_body (GetValue m) float_zero None) "High CPU load alert" in Ret (st, r)
      else if String.eqb (m_Name m) "cluster_memory_utilisation" then
        let! r := cluster_alarm admin MemoryHigh (load_body float_zero (GetValue m) None) "High memory usage alert" in Ret (st, r)
      else if String.eqb (m_Name m) "user_cpu_usage" then
        user_alarm_Do admin m UserCPUHigh (fun u => load_body (GetValue m) float_zero (Some u)) "cpu" st
      else if String.eqb (m_Name m) "user_memory_usage" then
        user_alarm_Do admin m UserMemoryHigh (fun u => load_body float_zero (GetValue m) (Some u)) "memory" st
      else Ret (st, Ok tt)
  end.
