(* ===== verification/MetricsSpec.v ===== *)
(** * What alarms are raised, and which are lost *)

From Stdlib Require Import SpecFloat.
From S2P Require Import Prelude Effects Apr World Demo Postgres Events EventsSpec Metrics.

(** ** At most one a minute *)

(** When the alarms of a metric were put in the queue. *)
Definition alarm_times (name : string) (l : list (Z * Metric)) : list Z :=
  omap (fun x : Z * Metric => if String.eqb (m_Name x.2) name then Some x.1 else None) l.
Definition apart (l : list Z) : Prop := forall l1 t1 t2 l2, l = l1 ++ t1 :: t2 :: l2 -> (minute < t2 - t1)%Z.

Lemma apart_snoc l t : apart l -> (forall t', last l = Some t' -> (minute < t - t')%Z) -> apart (l ++ [t]).
Proof.
  intros Hl Ht l1 t1 t2 l2 E. destruct l2 as [|x l2 _] using rev_ind.
  - change (l1 ++ [t1; t2]) with (l1 ++ [t1] ++ [t2]) in E. rewrite app_assoc in E.
    apply app_inj_tail in E as [-> ->]. apply Ht. by rewrite last_snoc.
  - rewrite !app_comm_cons, app_assoc in E. apply app_inj_tail in E as [-> _]. by apply (Hl l1 t1 t2 l2).
Qed.

Definition throttled (mo : monitor) : Prop :=
  forall name, apart (alarm_times name (mo_enqueued mo)) /\
    forall t, last (alarm_times name (mo_enqueued mo)) = Some t -> mo_latestSend mo !! name = Some t.

Lemma alarm_throttled m limit mo tr mo' :
  throttled mo -> runs (alarm m limit mo) tr (Returned mo') -> throttled mo'.
Proof.
  intros Hmo H. unfold alarm in H. destruct (float_gt _ _); [|by ret_inv H].
  apply runs_bind_returned in H as (tr1 & tr2 & now & -> & H0 & H). clear H0.
  destruct (long_ago (mo_latestSend mo !! m_Name m) now minute) eqn:E; [|by ret_inv H].
  ret_inv H. intros name. destruct (Hmo name) as [Ha Hl]. unfold alarm_times in *. cbn [mo_enqueued mo_latestSend].
  rewrite omap_app. cbn. destruct (String.eqb_spec (m_Name m) name) as [<-|Hn].
  - rewrite last_snoc, lookup_insert_eq. split; [|by intros t [= ->]]. apply apart_snoc; [done|].
    intros t Ht. rewrite (Hl t Ht) in E. by apply Z.ltb_lt in E.
  - rewrite app_nil_r, lookup_insert_ne by done. done.
Qed.

(** A loop keeps what its body keeps. *)
Lemma fold_all_keeps {S A} (I : S -> Prop) (body : S -> A -> io S) l s tr s' :
  (forall s x tr s', I s -> runs (body s x) tr (Returned s') -> I s') ->
  I s -> runs (fold_all body l s) tr (Returned s') -> I s'.
Proof.
  intros Hb. revert s tr. induction l as [|x l IH]; intros s tr Hs H; [by ret_inv H|].
  apply runs_fold_all_cons in H as (tr1 & tr2 & s1 & -> & H1 & H2). eauto.
Qed.

Section Monitoring.
Context (ParseQuantity : string -> res float64).

Lemma round_keeps (I : monitor -> Prop) mo tr mo' r :
  (forall m limit mo tr mo', I mo -> runs (alarm m limit mo) tr (Returned mo') -> I mo') ->
  I mo -> runs (round ParseQuantity mo) tr (Returned (mo', r)) -> I mo'.
Proof.
  intros HI Hmo H. unfold round in H.
  apply runs_bind_returned in H as (tr1 & tr2 & metrics & -> & _ & H).
  apply runs_bind_returned in H as (tr3 & tr4 & mo1 & -> & H1 & H).
  assert (Hmo1 : I mo1) by (eapply fold_all_keeps; [|exact Hmo|exact H1]; cbv beta; eauto).
  apply runs_bind_returned in H as (tr5 & tr6 & users & -> & _ & H). destruct users as [users|e]; [|by ret_inv H].
  apply runs_bind_returned in H as (tr7 & tr8 & mo2 & -> & H2 & H). ret_inv H.
  eapply fold_all_keeps; [|exact Hmo1|exact H2]. cbv beta. intros s u tr' s' Hs Hu.
  apply runs_bind_returned in Hu as (t1 & t2 & ms & -> & _ & Hu).
  eapply fold_all_keeps; [|exact Hs|exact Hu]. intros s1 m tr0 s2 Hs1 Hm. unfold user_alarm in Hm.
  destruct (String.eqb (m_Name m) "user_cpu_usage"); [by eauto|].
  destruct (String.eqb (m_Name m) "user_memory_usage"); [by eauto|]. by ret_inv Hm.
Qed.
Lemma rounds_keep (I : monitor -> Prop) n mo tr mo' b :
  (forall m limit mo tr mo', I mo -> runs (alarm m limit mo) tr (Returned mo') -> I mo') ->
  I mo -> runs (rounds ParseQuantity n mo) tr (Returned (mo', b)) -> I mo'.
Proof.
  intros HI. revert mo tr. induction n as [|n IH]; intros mo tr Hmo H; cbn [rounds] in H; [by ret_inv H|].
  apply runs_bind_returned in H as (tr1 & tr2 & [mo1 r] & -> & H1 & H).
  assert (Hmo1 : I mo1) by (by eapply round_keeps; [| |exact H1]). destruct r as [u|e]; [|by ret_inv H].
  apply runs_bind_returned in H as (tr3 & tr4 & t & -> & _ & H). eauto.
Qed.

Lemma start_monitor_starts tr mo : runs start_monitor tr (Returned mo) -> mo_enqueued mo = [].
Proof.
  intros H. unfold start_monitor in H.
  do 4 (apply runs_bind_returned in H as (? & ? & ? & -> & _ & H)). by ret_inv H.
Qed.

(** However long the watch runs and whatever Prometheus, the clock and the
    list of users say, two alarms of the same metric that follow each other were
    put in the queue more than a minute apart, whichever users they are about. *)
Theorem alarms_apart n tr mo b name :
  runs (Run ParseQuantity n) tr (Returned (mo, b)) -> apart (alarm_times name (mo_enqueued mo)).
Proof.
  intros H. apply runs_bind_returned in H as (tr1 & tr2 & mo0 & -> & H0%start_monitor_starts & H).
  apply (rounds_keep throttled) in H; [by destruct (H name)|apply alarm_throttled|].
  intros name'. rewrite H0. split; [|done]. by intros [|??] ????.
Qed.

(** ** The watch ends with the first failure *)

Definition listing_failed (e : event resp) : Prop :=
  match e with existT (K8s ListUsers) (Err _) => True | _ => False end.
Definition no_listing (o : op) : Prop := match o with K8s ListUsers => False | _ => True end.
Lemma no_listing_failed {A} (m : io A) tr out : issues no_listing m -> runs m tr out -> Forall (fun e => ~ listing_failed e) tr.
Proof.
  intros Hi Hr. apply (issues_runs _ _ Hi) in Hr. eapply Forall_impl; [exact Hr|].
  intros [o r]. cbn [projT1]. destruct o as [[]| | | | | | |]; first [by intros []|by intros _ []].
Qed.

Definition ends_well (ok : bool) (tr : history) : Prop :=
  if ok then Forall (fun e => ~ listing_failed e) tr
  else exists tr' e, tr = tr' ++ [ev (K8s ListUsers) (Err e)] /\ Forall (fun e => ~ listing_failed e) tr'.

Lemma round_ends mo tr mo' r : runs (round ParseQuantity mo) tr (Returned (mo', r)) -> ends_well (is_ok r) tr.
Proof.
  intros H. unfold round in H.
  apply runs_bind_returned in H as (tr1 & tr2 & metrics & -> & H1 & H). apply no_listing_failed in H1; [|issues_walk].
  apply runs_bind_returned in H as (tr3 & tr4 & mo1 & -> & H2 & H). apply no_listing_failed in H2; [|issues_walk].
  apply runs_bind_returned in H as (tr5 & tr6 & users & -> & H3 & H). call_inv H3. destruct users as [users|e].
  - apply runs_bind_returned in H as (tr7 & tr8 & mo2 & -> & H4 & H). apply no_listing_failed in H4; [|issues_walk].
    ret_inv H. unfold ends_well, is_ok. repeat (apply Forall_app_2 || apply Forall_cons_2 || apply Forall_nil_2); try done; by intros [].
  - ret_inv H. cbn. exists (tr1 ++ tr3), e. rewrite Forall_app, <- app_assoc. done.
Qed.

(** The watch goes on exactly as long as listing the users succeeds: it is
    over with the first listing that fails, which is then its last call. *)
Theorem watch_ends_with_failure n tr mo b :
  runs (Run ParseQuantity n) tr (Returned (mo, b)) -> ends_well b tr.
Proof.
  intros H. apply runs_bind_returned in H as (tr1 & tr2 & mo0 & -> & H0 & H). apply no_listing_failed in H0; [|issues_walk].
  assert (Hr : ends_well b tr2).
  { clear H0. revert mo0 tr2 H. induction n as [|n IH]; intros mo0 tr2 H; cbn [rounds] in H.
    { ret_inv H. constructor. }
    apply runs_bind_returned in H as (tr3 & tr4 & [mo1 r] & -> & H1%round_ends & H). destruct r as [u|e]; cbn in H1.
    - apply runs_bind_returned in H as (tr5 & tr6 & t & -> & H2 & H%IH). call_inv H2. unfold ends_well in *. destruct b.
      + repeat (apply Forall_app_2 || apply Forall_cons_2 || apply Forall_nil_2); try done; by intros [].
      + destruct H as (tr' & e & -> & Hf). exists (tr3 ++ ev (Sys PollTick) t :: tr'), e. rewrite <- app_assoc.
        split; [done|]. apply Forall_app_2; [done|]. apply Forall_cons_2; [by intros []|done].
    - ret_inv H. by rewrite app_nil_r. }
  unfold ends_well in *. destruct b; [by apply Forall_app_2|].
  destruct Hr as (tr' & e & -> & Hf). exists (tr1 ++ tr'), e. by rewrite app_assoc, Forall_app.
Qed.
End Monitoring.

(** ** A notification that fails is not sent again *)

(** Whether a run tried to notify anyone: [Send] begins with the permission. *)
Definition notifies (e : event resp) : Prop :=
  match projT1 e with Ext (Evt (GetAppPermission _ _)) => True | _ => False end.
Definition quiet (tr : history) : Prop := Forall (fun e => ~ notifies e) tr.
Definition no_send (o : op) : Prop := match o with Ext (Evt (GetAppPermission _ _)) => False | _ => True end.
Lemma quiet_runs {A} (m : io A) tr out : issues no_send m -> runs m tr out -> quiet tr.
Proof.
  intros Hi Hr. apply (issues_runs _ _ Hi) in Hr. eapply Forall_impl; [exact Hr|].
  intros [o r]. unfold notifies. cbn [projT1]. destruct o as [| | | | | | |[| |[]| | |]]; first [by intros []|by intros _ []].
Qed.
Lemma quiet_app tr1 tr2 : quiet (tr1 ++ tr2) <-> quiet tr1 /\ quiet tr2.
Proof. apply Forall_app. Qed.

(** Every reading of the clock in a run is at most [t]. *)
Definition clock_until (t : Z) (tr : history) : Prop :=
  forall nano, ev (Ext (Evt NowNano)) nano ∈ tr -> (nano <= t)%Z.

Lemma user_alarm_within_hour admin m ev_ body what st t tr st' r :
  st !! m_Name m = Some t -> clock_until (t + hour) tr ->
  runs (user_alarm_Do admin m ev_ body what st) tr (Returned (st', r)) -> quiet tr /\ r = Ok tt /\ st' = st.
Proof.
  intros Ht Hc H. apply runs_bind_returned in H as (tr1 & tr2 & user & -> & H1 & H).
  apply quiet_runs in H1; [|unfold metric_user; issues_walk].
  apply runs_bind_returned in H as (tr3 & tr4 & u & -> & H2 & H). apply quiet_runs in H2; [|issues_walk].
  apply runs_bind_returned in H as (tr5 & tr6 & now & -> & H3 & H). call_inv H3.
  assert (Hnow : (now <= t + hour)%Z) by (apply Hc; set_solver).
  rewrite Ht in H. cbn [long_ago] in H. rewrite (proj2 (Z.ltb_ge _ _)) in H by lia. ret_inv H.
  split; [|done]. apply quiet_app. split; [done|]. apply quiet_app. split; [done|].
  rewrite app_nil_r || idtac. by apply Forall_cons_2; [intros []|constructor].
Qed.
Lemma user_alarm_failed admin m ev_ body what st tr st' e :
  runs (user_alarm_Do admin m ev_ body what st) tr (Returned (st', Err e)) ->
  exists now, evt_ev NowNano now ∈ tr /\ st' = <[m_Name m := now]> st.
Proof.
  intros H. apply runs_bind_returned in H as (tr1 & tr2 & user & -> & H1 & H).
  apply runs_bind_returned in H as (tr3 & tr4 & u & -> & H2 & H).
  apply runs_bind_returned in H as (tr5 & tr6 & now & -> & H3 & H). call_inv H3.
  destruct (long_ago _ _ _); [|ret_inv H].
  apply runs_bind_returned in H as (tr7 & tr8 & r1 & -> & H4 & H).
  apply runs_bind_returned in H as (tr9 & tr10 & r2 & -> & H5 & H).
  apply runs_inv in H as [-> [= -> _]]. exists now. split; [unfold evt_ev; set_solver|done].
Qed.

(** A metric of users is handled by [user_alarm_Do] once the administrator is
    known. *)
Lemma metrics_Do_user m st tr st' r :
  m_Name m ∈ ["user_cpu_usage"; "user_memory_usage"] ->
  runs (metrics_Do m st) tr (Returned (st', r)) ->
  (quiet tr /\ st' = st /\ exists e, runs AdminUser tr (Returned (Err e))) \/
  exists tr1 tr2 admin ev_ body what, tr = tr1 ++ tr2 /\ quiet tr1 /\
    runs (user_alarm_Do admin m ev_ body what st) tr2 (Returned (st', r)).
Proof.
  intros Hm H. apply runs_bind_returned in H as (tr1 & tr2 & admin & -> & H1 & H).
  assert (Hq : quiet tr1) by (eapply quiet_runs; [|exact H1]; issues_walk).
  destruct admin as [admin|e]; [right|left; ret_inv H; rewrite app_nil_r; by eauto].
  rewrite !elem_of_cons in Hm. destruct Hm as [Hm|[Hm|Hm%elem_of_nil]]; [| |done]; rewrite Hm in H; cbn [String.eqb Ascii.eqb Bool.eqb] in H;
    eexists tr1, tr2, admin, _, _, _; split_and!; try done; exact H.
Qed.

(** When notifying of a user's alarm has failed, the alarm's entry is put back
    in the queue, but for an hour handling it again notifies no one: if the
    administrator could be found, it then succeeds, and the notification is
    lost. *)
Theorem failed_alarm_is_lost m st tr st' e :
  m_Name m ∈ ["user_cpu_usage"; "user_memory_usage"] ->
  runs (metrics_Do m st) tr (Returned (st', Err e)) ->
  (quiet tr /\ st' = st /\ exists e', runs AdminUser tr (Returned (Err e'))) \/
  exists now, evt_ev NowNano now ∈ tr /\
    forall tr2 st2 r2, runs (metrics_Do m st') tr2 (Returned (st2, r2)) -> clock_until (now + hour) tr2 ->
      quiet tr2 /\ st2 = st' /\ (r2 = Ok tt \/ exists e', runs AdminUser tr2 (Returned (Err e'))).
Proof.
  intros Hm [H|(tr1 & tr2 & admin & ev_ & body & what & -> & _ & H)]%metrics_Do_user; [by left| |done]. right.
  apply user_alarm_failed in H as (now & Hin & ->). exists now. split; [set_solver|].
  intros tr3 st2 r2 [(Hq & -> & Ha)|(t1 & t2 & admin2 & ev2 & body2 & what2 & -> & Hq & H2)]%metrics_Do_user Hc; [by auto| |done].
  apply (user_alarm_within_hour _ _ _ _ _ _ now) in H2 as (Hq2 & -> & ->); cycle 1.
  - apply lookup_insert_eq.
  - intros nano Hn. apply Hc. set_solver.
  - rewrite quiet_app. auto.
Qed.

(** ** The properties in a concrete world *)

Definition one : float64 := S754_finite false 4503599627370496 (-52).
Definition quantity (s : string) : res float64 :=
  if String.eqb s "1" then Ok one else Err (newErr "quantities must match the regular expression").
Definition demo_users : list UserObj :=
  [mkUserObj "alice" {["bytetrade.io/owner-role" := "owner"; "bytetrade.io/user-cpu-limit" := "1"; "bytetrade.io/user-memory-limit" := "1"]};
   mkUserObj "bob" {["bytetrade.io/user-cpu-limit" := "1"; "bytetrade.io/user-memory-limit" := "1"]}].
(** Everybody uses one CPU of one; nobody can be notified. *)
Definition load_world (o : op) : resp o :=
  match o return resp o with
  | K8s ListUsers => Ok demo_users
  | Ext (Evt (PromQuery _)) => Ok [({["user" := "bob"]}, (one, one))]
  | Ext (Evt (GetAppPermission _ _)) => Err (newErr "not found")
  | Sys PollTick => Ok tt
  | o => event_world o
  end.
Definition blind_world (o : op) : resp o :=
  match o return resp o with K8s ListUsers => Err (newErr "timeout") | o => load_world o end.

Definition out_of {A} (d : A) (x : outcome A) : A := match x with Returned a => a | Panicked _ => d end.
Definition no_monitor : monitor * bool := (mkMonitor ∅ [], true).
Definition two_rounds (world : forall o, resp o) : monitor * bool := out_of no_monitor (out_in world (Run quantity 2)).
(** The alarms of two users in two rounds at the same moment are one. *)
Lemma alarms_apart_witness :
  length (alarm_times "user_cpu_usage" (mo_enqueued (two_rounds load_world).1)) = 1 /\
  apart (alarm_times "user_cpu_usage" (mo_enqueued (two_rounds load_world).1)).
Proof.
  split; [vm_compute; reflexivity|].
  apply (alarms_apart quantity 2 (trace_in load_world (Run quantity 2)) _ (two_rounds load_world).2).
  apply runs_in_to. vm_compute. reflexivity.
Defined.

Lemma watch_ends_with_failure_witness :
  (two_rounds blind_world).2 = false /\ ends_well false (trace_in blind_world (Run quantity 2)).
Proof.
  split; [vm_compute; reflexivity|].
  apply (watch_ends_with_failure quantity 2 _ (two_rounds blind_world).1). apply runs_in_to. vm_compute. reflexivity.
Defined.

Definition cpu_alarm : Metric := mkMetric "user_cpu_usage" [({["user" := "bob"]}, (one, one))] "".
Definition failed_alarm : history := trace_in load_world (metrics_Do cpu_alarm ∅).
Lemma failed_alarm_is_lost_witness :
  (quiet failed_alarm /\ {["user_cpu_usage" := 1700000000000000000%Z]} = ∅ :> sent_times /\
     exists e', runs AdminUser failed_alarm (Returned (Err e'))) \/
  exists now, evt_ev NowNano now ∈ failed_alarm /\
    forall tr2 st2 r2, runs (metrics_Do cpu_alarm {["user_cpu_usage" := 1700000000000000000%Z]}) tr2 (Returned (st2, r2)) ->
      clock_until (now + hour) tr2 ->
      quiet tr2 /\ st2 = {["user_cpu_usage" := 1700000000000000000%Z]} /\
      (r2 = Ok tt \/ exists e', runs AdminUser tr2 (Returned (Err e'))).
Proof.
  eapply (failed_alarm_is_lost cpu_alarm ∅ failed_alarm); [apply elem_of_cons; by left|].
  apply runs_in_to. vm_compute. reflexivity.
Defined.
