(* ===== verification/Corefile.v ===== *)
(** * The cluster's DNS configuration: [src/cmd/sys-event/watchers/corefile.go]

    CoreDNS's Corefile is regenerated from the users, the nodes and the shared
    applications of the cluster.  Parsing and printing a Corefile belong to the
    corefile-migration library and are parameters. *)

From S2P Require Import Prelude Effects Apr World.

(** The library's syntax tree. *)
Record Option_ : Set := mkOption { o_Name : string; o_Args : list string }.
Record Plugin : Set := mkPlugin { p_Name : string; p_Args : list string; p_Options : list Option_ }.
Record CServer : Set := mkCServer { cs_DomPorts : list string; cs_Plugins : list Plugin }.
Definition CoreFile : Set := list CServer.

Definition UserAnnotationZoneKey : string := "bytetrade.io/zone".
Definition UserIndexAna : string := "bytetrade.io/user-index".

(** ** Addresses *)

(** [net.IP] of four bytes. *)
Definition IP : Set := (Z * Z * Z * Z)%type.
Definition IP_String (ip : IP) : string :=
  let '(a, b, c, d) := ip in itoa a +:+ "." +:+ itoa b +:+ "." +:+ itoa c +:+ "." +:+ itoa d.
Definition byte (z : Z) : Z := z mod 256.

(** Adding [offset] to the base address byte by byte, from the last; every
    addition is one of bytes and wraps around. *)
Definition add_offset (base : IP) (offset : Z) : IP :=
  let '(a, b, c, d) := base in
  (byte (a + Z.land (Z.shiftr offset 24) 255), byte (b + Z.land (Z.shiftr offset 16) 255),
   byte (c + Z.land (Z.shiftr offset 8) 255), byte (d + Z.land offset 255)).
Definition first_usable (ip : IP) : IP := let '(a, b, c, d) := ip in (a, b, c, byte (d + 1)).

Definition dns_base : IP := (100, 64, 0, 0)%Z.     (* 100.64.0.0/10 *)
Definition dns_mask_len : Z := 10.

(** [1 << shift] on an [int] panics when the shift is negative, is 0 from the
    64th bit on, and wraps in the last one. *)
Definition shift_one (shift : Z) : option Z :=
  if (shift <? 0)%Z then None else Some (if (shift <? 63)%Z then Z.shiftl 1 shift else if (shift =? 63)%Z then - 2 ^ 63 else 0)%Z.

(** [int(math.Ceil(math.Log2(float64(n))))] for the sizes at hand; of a
    non-positive number it is the smallest [int]. *)
Definition ceil_log2 (n : Z) : Z := if (n <=? 0)%Z then (- 2 ^ 63)%Z else Z.log2_up n.

(** [uint32(i * ipsPerSubnet)] *)
Definition uint32 (z : Z) : Z := z mod 2 ^ 32.

Definition subnet_ip (ipsPerSubnet : Z) (i : Z) : IP :=
  first_usable (add_offset dns_base (uint32 (i * ipsPerSubnet))).

Definition subDNSSplit (n : Z) : option (gmap string IP) :=
  let log2n := ceil_log2 n in
  alignedN ← shift_one log2n;
  ipsPerSubnet ← shift_one (32 - (dns_mask_len + log2n));
  Some (list_to_map (map (fun i => (itoa i, subnet_ip ipsPerSubnet i)) (seqZ 0 alignedN))).

(** ** Numbers in text *)

Definition digit_of (c : Ascii.ascii) : option Z :=
  let n := Z.of_nat (Ascii.nat_of_ascii c) in
  if ((48 <=? n) && (n <=? 57))%Z then Some (n - 48)%Z else None.
Fixpoint digits_value (acc : Z) (s : string) : option Z :=
  match s with
  | EmptyString => Some acc
  | String c s' => match digit_of c with Some d => digits_value (10 * acc + d) s' | None => None end
  end.
Definition unsigned_value (s : string) : option Z :=
  match s with EmptyString => None | _ => digits_value 0 s end.
(** [strconv.ParseInt(s, 10, 64)] *)
Definition ParseInt (s : string) : res Z :=
  let v := match s with
           | String "-"%char s' => option_map Z.opp (unsigned_value s')
           | String "+"%char s' => unsigned_value s'
           | _ => unsigned_value s
           end in
  match v with
  | None => Err (newErr ("strconv.ParseInt: parsing " +:+ quoted s +:+ ": invalid syntax"))
  | Some z => if ((- 2 ^ 63 <=? z) && (z <? 2 ^ 63))%Z then Ok z
              else Err (newErr ("strconv.ParseInt: parsing " +:+ quoted s +:+ ": value out of range"))
  end.

(** ** Users *)

Definition zone_of (u : UserObj) : string := default "" (uo_Annotations u !! UserAnnotationZoneKey).

(** [None] when the user has no index; an index the split does not hold is an
    error, and sizes that cannot be split panic. *)
Definition getUserLocalIp (u : UserObj) : io (res (option IP)) :=
  let userIndex := default "" (uo_Annotations u !! UserIndexAna) in
  if String.eqb userIndex "" then Ret (Ok None)
  else
    let! userMaxStr := sys_call (Getenv "OLARES_MAX_USERS") in
    match ParseInt (if String.eqb userMaxStr "" then "1024" else userMaxStr) with
    | Err e => Ret (Err e)
    | Ok userMax =>
        match subDNSSplit userMax with
        | None => Panic "negative shift amount"
        | Some ips => match ips !! userIndex with
                      | None => Ret (Err (newErr "invalid ip address <nil>"))
                      | Some ip => Ret (Ok (Some ip))
                      end
        end
    end.

Definition getUserIngressIP (u : UserObj) : io (res string) :=
  let? bfl := k8s_call (GetPod ("user-space-" +:+ uo_Name u) "bfl-0") in
  Ret (Ok (pod_IP bfl)).

(** ** Templates *)

Definition match_pattern (zone : string) : string := quoted ("\w*\.?(" +:+ zone +:+ "\.)$").
Definition answer_record (ip : string) : string := quoted ("{{ .Name }} 60 IN A " +:+ ip).
Definition a_options (pattern ip : string) : list Option_ :=
  [mkOption "match" [pattern]; mkOption "answer" [answer_record ip]; mkOption "fallthrough" []].
Definition any_options : list Option_ := [mkOption "rcode" ["NOERROR"]].

(** What [addUserTemplates] appends. *)
Definition user_templates (zone ip : string) : list Plugin :=
  [mkPlugin "template" ["IN"; "A"; zone] (a_options (match_pattern zone) ip);
   mkPlugin "template" ["IN"; "ANY"; zone] any_options].

(** The four slices the loop over the users fills. *)
Record views : Set := mkViews {
  v_templates : list Plugin; v_incluster : list Plugin;
  v_local : list Plugin; v_localDomain : list Plugin }.
Definition views0 : views := mkViews [] [] [] [].
Definition views_app (a b : views) : views :=
  mkViews (v_templates a ++ v_templates b) (v_incluster a ++ v_incluster b)
    (v_local a ++ v_local b) (v_localDomain a ++ v_localDomain b).

Definition local_zone (u : UserObj) : string := uo_Name u +:+ ".olares.local".

(** One user's share. *)
Definition user_views (masterNodeIp : string) (u : UserObj) : io (res views) :=
  if String.eqb (zone_of u) "" then Ret (Ok views0)
  else
    let? ip := getUserLocalIp u in
    match ip with
    | None => Ret (Ok views0)
    | Some ip =>
        let? ingressIp := getUserIngressIP u in
        if String.eqb ingressIp "" then Ret (Ok views0)
        else
          let vpn := user_templates (zone_of u) (IP_String ip) in
          let incluster := user_templates (zone_of u) ingressIp in
          Ret (Ok (if String.eqb masterNodeIp "" then mkViews vpn incluster [] []
                   else mkViews vpn incluster (user_templates (zone_of u) masterNodeIp)
                          (user_templates (local_zone u) masterNodeIp)))
    end.
Definition all_user_views (masterNodeIp : string) (users : list UserObj) : io (res views) :=
  fold_each (fun acc u => let? v := user_views masterNodeIp u in Ret (Ok (views_app acc v))) users views0.

(** ** Nodes *)

(** The last control-plane node's first internal address. *)
Definition control_plane (n : Node) : bool :=
  bool_decide (is_Some (node_Labels n !! "node-role.kubernetes.io/control-plane")).
Definition internal_ip (n : Node) : option string :=
  head (map snd (base.filter (fun a => fst a = "InternalIP") (node_Addresses n))).
Definition master_node_ip (nodes : list Node) : string :=
  fold_left (fun ip n => if control_plane n then default ip (internal_ip n) else ip) nodes "".

(** ** Shared entrances *)

Section Regenerate.
  (* crypto/md5 in hexadecimal; the library's parser and printer *)
  Context (MD5 : string -> string) (parse : string -> res CoreFile) (print : CoreFile -> string).

(** The zone shared entrances live in, from the first user's. *)
Definition shared_zone (users : list UserObj) : option string :=
  match users with
  | [] => None
  | u :: _ =>
      if String.eqb (zone_of u) "" then None
      else match split_char "."%char (zone_of u) with
           | _ :: (_ :: _) as rest => Some (join "." ("shared" :: rest))
           | _ => None
           end
  end.

Definition shared_namespace (app : Application) (ns : NamespaceObj) : bool :=
  String.eqb (default "" (nso_Labels ns !! "applications.app.bytetrade.io/name")) (app_Name app) &&
  String.eqb (default "" (nso_Labels ns !! "bytetrade.io/ns-shared")) "true" &&
  String.eqb (default "" (nso_Labels ns !! "applications.app.bytetrade.io/install_user")) (app_Owner app).

Definition shared_template (app : Application) (i : nat) (zone entranceIp : string) : Plugin :=
  let name := String.substring 0 8 (MD5 (app_Appid app +:+ "shared")) +:+ itoa (Z.of_nat i) in
  mkPlugin "template" ["IN"; "A"; name +:+ "." +:+ zone]
    (a_options (quoted (name +:+ ".?(" +:+ zone +:+ "\.)$")) entranceIp).

(** An entrance whose service cannot be had, or has no address, is skipped. *)
Definition entrance_templates (app : Application) (zone : string) (sharedNs : list NamespaceObj)
    (acc : list Plugin) (ie : nat * string) : io (list Plugin) :=
  fold_all (fun acc ns =>
    let! svc := k8s_call (GetService (nso_Name ns) (snd ie)) in
    Ret (match svc with
         | Err _ => acc
         | Ok svc => if String.eqb (svc_ClusterIP svc) "" then acc
                     else acc ++ [shared_template app (fst ie) zone (svc_ClusterIP svc)]
         end)) sharedNs acc.
Definition app_templates (zone : string) (nsList : list NamespaceObj) (acc : list Plugin) (a : option Application)
  : io (list Plugin) :=
  match a with
  | None => Ret acc
  | Some app =>
      fold_all (entrance_templates app zone (base.filter (fun ns => shared_namespace app ns = true) nsList))
        (imap pair (app_SharedEntrances app)) acc
  end.
Definition shared_entrances (users : list UserObj) : io (res (list Plugin)) :=
  match shared_zone users with
  | None => Ret (Ok [])
  | Some zone =>
      let? applications := k8s_call ListApplications in
      let? nsList := k8s_call ListNamespaces in
      let! plugins := fold_all (app_templates zone nsList) applications [] in
      Ret (Ok plugins)
  end.

(** ** The new file *)

Definition default_names : list string :=
  ["errors"; "health"; "ready"; "kubernetes"; "prometheus"; "forward"; "cache"; "loop"; "reload"; "loadbalance"].
Definition default_plugins (s : CServer) : list Plugin :=
  base.filter (fun p => p_Name p ∈ default_names) (cs_Plugins s).

Definition view (name expr : string) : Plugin := mkPlugin "view" [name] [mkOption "expr" [expr]].
Definition incluster_expr (adguardIp : string) : string :=
  let e := "incidr(client_ip(), '10.233.0.0/16')" in
  if String.eqb adguardIp "" then e else "( " +:+ e +:+ " && client_ip() != '" +:+ adguardIp +:+ "' )".
Definition vpn_expr (masterNodeIp : string) : string :=
  "incidr(client_ip(), '100.64.0.0/16') || client_ip() == '" +:+ masterNodeIp +:+ "'".

(** The three servers, from the first server of the old file. *)
Definition new_servers (v : views) (shared : list Plugin) (masterNodeIp adguardIp : string) (old : CServer)
  : CoreFile :=
  let defaults := default_plugins old in
  [mkCServer (cs_DomPorts old) (view "incluster" (incluster_expr adguardIp) :: defaults ++ v_incluster v ++ shared);
   mkCServer (cs_DomPorts old) (view "vpn" (vpn_expr masterNodeIp) :: defaults ++ v_templates v);
   mkCServer (cs_DomPorts old) (defaults ++ v_local v ++ v_localDomain v)].

Definition adguard_ip : io string :=
  let! pods := k8s_call (ListPods "" "applications.app.bytetrade.io/name=adguardhome") in
  Ret (match pods with Ok (p :: _) => pod_IP p | _ => "" end).

Definition RegenerateCorefile : io (res unit) :=
  let? cm := k8s_call (GetConfigMap "kube-system" "coredns") in
  let data := match cm with Some m => default "" (m !! "Corefile") | None => "" end in
  match parse data with
  | Err e => Ret (Err e)
  | Ok [] => Ret (Ok tt)
  | Ok (defaultsServer :: _) =>
      let? users := k8s_call ListUsers in
      let? nodes := k8s_call ListNodes in
      let masterNodeIp := master_node_ip nodes in
      let? v := all_user_views masterNodeIp users in
      let? shared := shared_entrances users in
      let! adguardIp := adguard_ip in
      let! data := set_key cm "Corefile" (print (new_servers v shared masterNodeIp adguardIp defaultsServer)) in
      k8s_call (UpdateConfigMap "kube-system" "coredns" data)
  end.
End Regenerate.
