(* ===== verification/CorefileSpec.v ===== *)
(** * What the regenerated Corefile says *)

From S2P Require Import Prelude Effects Apr World Demo Corefile.

(** ** Splitting the address range *)

Definition IP_value (ip : IP) : Z :=
  let '(a, b, c, d) := ip in (a * 2 ^ 24 + b * 2 ^ 16 + c * 2 ^ 8 + d)%Z.
Definition is_byte (z : Z) : Prop := (0 <= z < 256)%Z.
Definition wf_IP (ip : IP) : Prop := let '(a, b, c, d) := ip in is_byte a /\ is_byte b /\ is_byte c /\ is_byte d.

Lemma low_byte z : Z.land z 255 = (z mod 256)%Z.
Proof. change 255%Z with (Z.ones 8). by rewrite Z.land_ones. Qed.

(** Within the /10 no byte overflows, so the sum is that of the addresses. *)
Lemma add_offset_value o :
  (0 <= o < 2 ^ 22)%Z ->
  add_offset dns_base o = (100, 64 + o / 2 ^ 16, (o / 2 ^ 8) mod 256, o mod 256)%Z.
Proof.
  intros Ho. unfold add_offset, dns_base, byte. rewrite !low_byte, !Z.shiftr_div_pow2 by done.
  rewrite (Z.div_small o (2 ^ 24)) by lia.
  assert (0 <= o / 2 ^ 16 < 64)%Z.
  { split; [apply Z.div_pos; lia|]. apply Z.div_lt_upper_bound; lia. }
  rewrite (Z.mod_small (o / 2 ^ 16)) by lia. rewrite (Z.mod_small (64 + _)) by lia.
  by rewrite !Z.add_0_l, !Z.mod_mod by done.
Qed.

Lemma first_usable_value o :
  (0 <= o < 2 ^ 22)%Z -> (o mod 2 = 0)%Z ->
  wf_IP (first_usable (add_offset dns_base o)) /\
  IP_value (first_usable (add_offset dns_base o)) = (IP_value dns_base + o + 1)%Z.
Proof.
  intros Ho Heven. rewrite add_offset_value by done. cbn -[Z.pow Z.div Z.modulo].
  assert (H256 : (0 <= o mod 256 < 255)%Z).
  { pose proof (Z.mod_pos_bound o 256 ltac:(lia)). assert (o mod 256 mod 2 = 0)%Z; [|].
    { change 256%Z with (2 * 128)%Z. rewrite Z.rem_mul_r by lia. rewrite Heven.
      rewrite Z.add_0_l, Z.mul_comm. apply Z_mod_mult. }
    assert (o mod 256 <> 255)%Z; [|lia]. intros E. rewrite E in *. done. }
  assert (0 <= o / 2 ^ 16 < 64)%Z.
  { split; [apply Z.div_pos; lia|]. apply Z.div_lt_upper_bound; lia. }
  pose proof (Z.mod_pos_bound (o / 2 ^ 8) 256 ltac:(lia)).
  unfold byte. rewrite (Z.mod_small (o mod 256 + 1)) by lia.
  split; [unfold is_byte; repeat split; lia|].
  pose proof (Z.div_mod o 256 ltac:(lia)) as E1. pose proof (Z.div_mod (o / 2 ^ 8) 256 ltac:(lia)) as E2.
  rewrite Z.div_div in E2 by lia. change (2 ^ 8 * 256)%Z with (2 ^ 16)%Z in E2.
  change (2 ^ 8)%Z with 256%Z in *. lia.
Qed.

Lemma itoa_inj a b : itoa a = itoa b -> a = b.
Proof. apply pretty_Z_inj. Qed.

Lemma lookup_split {A} (f : Z -> A) n i :
  (0 <= i < n)%Z -> (list_to_map (map (fun i => (itoa i, f i)) (seqZ 0 n)) : gmap string A) !! itoa i = Some (f i).
Proof.
  intros Hi. apply elem_of_list_to_map_1.
  - rewrite <- list_fmap_compose. apply (NoDup_fmap_2_strong); [|apply NoDup_seqZ].
    intros x y _ _. apply itoa_inj.
  - apply list_elem_of_fmap. exists i. split; [done|]. apply elem_of_seqZ. lia.
Qed.

Lemma lookup_split_inv {A} (f : Z -> A) n k x :
  (list_to_map (map (fun i => (itoa i, f i)) (seqZ 0 n)) : gmap string A) !! k = Some x ->
  exists i, (0 <= i < n)%Z /\ k = itoa i /\ x = f i.
Proof.
  intros H. apply elem_of_list_to_map_2 in H. apply list_elem_of_fmap in H as (i & [= -> ->] & Hi).
  apply elem_of_seqZ in Hi. exists i. split; [lia|done].
Qed.

(** C23: For every number of users up to 2^21 the split succeeds: it has a power
    of two of addresses, at least one per user and fewer than twice as many,
    under the decimal indices from 0 on; the [i]th is the first usable address
    of the [i]th subnet of 100.64.0.0/10, with bytes in range, so different
    indices have different addresses and none leaves the range. *)
Theorem subDNSSplit_exact n :
  (1 <= n <= 2 ^ 21)%Z ->
  exists m k, subDNSSplit n = Some m /\ (0 <= k <= 21)%Z /\ (n <= 2 ^ k < 2 * n)%Z /\
    (forall key ip, m !! key = Some ip -> exists i, (0 <= i < 2 ^ k)%Z /\ key = itoa i) /\
    (forall i, (0 <= i < 2 ^ k)%Z -> exists ip, m !! itoa i = Some ip /\ wf_IP ip /\
       IP_value ip = (IP_value dns_base + i * 2 ^ (22 - k) + 1)%Z /\
       (IP_value dns_base < IP_value ip < IP_value dns_base + 2 ^ 22)%Z).
Proof.
  intros Hn. set (k := Z.log2_up n).
  assert (Hk : (0 <= k <= 21)%Z).
  { split; [apply Z.log2_up_nonneg|]. apply Z.log2_up_le_pow2; lia. }
  assert (Hp : (n <= 2 ^ k < 2 * n)%Z).
  { destruct (decide (n = 1)%Z) as [->|]; [subst k; done|].
    destruct (Z.log2_up_spec n ltac:(lia)) as [H1 H2]. fold k in H1, H2. split; [lia|].
    assert (1 <= k)%Z by (subst k; apply (Z.log2_up_le_mono 2 n); lia).
    replace k with (Z.pred k + 1)%Z by lia. rewrite Z.pow_add_r by lia. lia. }
  assert (Hs : forall i, (0 <= i < 2 ^ k)%Z -> (0 <= i * 2 ^ (22 - k) < 2 ^ 22)%Z).
  { intros i Hi. split; [nia|]. replace (2 ^ 22)%Z with (2 ^ k * 2 ^ (22 - k))%Z; [nia|].
    rewrite <- Z.pow_add_r by lia. f_equal. lia. }
  exists (list_to_map (map (fun i => (itoa i, subnet_ip (2 ^ (22 - k)) i)) (seqZ 0 (2 ^ k)))), k.
  split_and!; try lia.
  - unfold subDNSSplit, ceil_log2. destruct (Z.leb_spec n 0) as [|_]; [lia|]. fold k.
    unfold shift_one, dns_mask_len. destruct (Z.ltb_spec k 0) as [|_]; [lia|]. cbn [mbind option_bind].
    destruct (Z.ltb_spec (32 - (10 + k)) 0) as [|_]; [lia|]. cbn [mbind option_bind].
    destruct (Z.ltb_spec k 63) as [_|]; [|lia]. destruct (Z.ltb_spec (32 - (10 + k)) 63) as [_|]; [|lia].
    rewrite !Z.shiftl_1_l. by replace (32 - (10 + k))%Z with (22 - k)%Z by lia.
  - intros key ip H. apply lookup_split_inv in H as (i & Hi & -> & _). by exists i.
  - intros i Hi. exists (subnet_ip (2 ^ (22 - k)) i). split; [by apply lookup_split|].
    specialize (Hs i Hi). unfold subnet_ip, uint32. rewrite Z.mod_small by lia.
    destruct (first_usable_value (i * 2 ^ (22 - k))) as [Hw Hv]; [lia| |].
    + replace (22 - k)%Z with (21 - k + 1)%Z by lia. rewrite Z.pow_add_r by lia.
      rewrite Z.mul_assoc. apply Z_mod_mult.
    + rewrite Hv. split_and!; try done; try lia.
      assert (i * 2 ^ (22 - k) mod 2 = 0)%Z.
      { replace (22 - k)%Z with (21 - k + 1)%Z by lia. rewrite Z.pow_add_r by lia.
        rewrite Z.mul_assoc. apply Z_mod_mult. }
      pose proof (Z.div_mod (i * 2 ^ (22 - k)) 2 ltac:(lia)). lia.
Qed.

(** ** The servers *)

Definition is_template (p : Plugin) : Prop := p_Name p = "template".

Lemma default_plugins_idempotent s : base.filter (fun p => p_Name p ∈ default_names) (default_plugins s) = default_plugins s.
Proof. apply list_filter_all. apply Forall_forall. unfold default_plugins. intros p Hp. by apply list_elem_of_filter in Hp as [H _]. Qed.

Lemma filter_no_default (l : list Plugin) :
  Forall is_template l -> base.filter (fun p => p_Name p ∈ default_names) l = [].
Proof.
  induction 1 as [|p l Hp _ IH]; [done|]. rewrite filter_cons_False; [done|].
  rewrite Hp. unfold default_names. by rewrite !elem_of_cons, elem_of_nil; intuition discriminate.
Qed.

(** What is kept of the first server that was generated. *)
Lemma default_plugins_generated ports expr defaults templates :
  Forall is_template templates ->
  base.filter (fun p => p_Name p ∈ default_names) defaults = defaults ->
  default_plugins (mkCServer ports (view "incluster" expr :: defaults ++ templates)) = defaults.
Proof.
  intros Ht Hd. unfold default_plugins. cbn [cs_Plugins]. rewrite filter_cons_False.
  - by rewrite filter_app, Hd, filter_no_default, app_nil_r.
  - cbn. unfold default_names. rewrite !elem_of_cons, elem_of_nil. intuition discriminate.
Qed.

(** Regenerating forgets what was generated before: from the first server
    of a generated file, whatever users, addresses and shared entrances it was
    made for, the next regeneration makes exactly the file it would have made
    from the original server.  Templates do not accumulate and removed users
    disappear. *)
Theorem regenerate_forgets md5_views shared master adguard v2 shared2 master2 adguard2 old s rest :
  Forall is_template (v_incluster md5_views ++ shared) ->
  new_servers md5_views shared master adguard old = s :: rest ->
  new_servers v2 shared2 master2 adguard2 s = new_servers v2 shared2 master2 adguard2 old.
Proof.
  intros Ht [= <- _]. unfold new_servers.
  rewrite default_plugins_generated; [done|done|apply default_plugins_idempotent].
Qed.

(** ** A whole regeneration *)

Lemma user_templates_are zone ip : Forall is_template (user_templates zone ip).
Proof. by repeat constructor. Qed.

(** The size the addresses were split into: the environment's, or 1024. *)
Definition max_users (tr : history) (n : Z) : Prop :=
  exists text, ev (Sys (Getenv "OLARES_MAX_USERS")) text ∈ tr /\
    ParseInt (if String.eqb text "" then "1024" else text) = Ok n.
Definition local_ip (tr : history) (u : UserObj) (ip : IP) : Prop :=
  exists n ips, max_users tr n /\ subDNSSplit n = Some ips /\
    ips !! default "" (uo_Annotations u !! UserIndexAna) = Some ip.

(** Answering a name with an address. *)
Definition a_record (zone pattern ip : string) : Plugin :=
  mkPlugin "template" ["IN"; "A"; zone]
    [mkOption "match" [quoted pattern]; mkOption "answer" [quoted ("{{ .Name }} 60 IN A " +:+ ip)];
     mkOption "fallthrough" []].
(** A zone and everything in it. *)
Definition zone_records (zone ip : string) : list Plugin :=
  [a_record zone ("\w*\.?(" +:+ zone +:+ "\.)$") ip;
   mkPlugin "template" ["IN"; "ANY"; zone] [mkOption "rcode" ["NOERROR"]]].

(** A user is served when it has a zone, an index, and an ingress address:
    under its zone, with its own address for VPN clients, the ingress for the
    cluster and the master node for the local network, which also gets the
    user's local zone. *)
Definition served (tr : history) (master : string) (u : UserObj) (v : views) : Prop :=
  exists ip bfl, zone_of u <> "" /\ local_ip tr u ip /\
    ev (K8s (GetPod ("user-space-" +:+ uo_Name u) "bfl-0")) (Ok bfl) ∈ tr /\ pod_IP bfl <> "" /\
    v_templates v = zone_records (zone_of u) (IP_String ip) /\
    v_incluster v = zone_records (zone_of u) (pod_IP bfl) /\
    v_local v = (if String.eqb master "" then [] else zone_records (zone_of u) master) /\
    v_localDomain v = (if String.eqb master "" then [] else zone_records (uo_Name u +:+ ".olares.local") master).
Definition left_out (tr : history) (u : UserObj) (v : views) : Prop :=
  v = views0 /\
  (zone_of u = "" \/ default "" (uo_Annotations u !! UserIndexAna) = "" \/
   exists bfl, ev (K8s (GetPod ("user-space-" +:+ uo_Name u) "bfl-0")) (Ok bfl) ∈ tr /\ pod_IP bfl = "").
Definition user_share (tr : history) (master : string) (u : UserObj) (v : views) : Prop :=
  served tr master u v \/ left_out tr u v.

Lemma user_share_sub tr tr' master u v : tr ⊆ tr' -> user_share tr master u v -> user_share tr' master u v.
Proof.
  intros Hs [(ip & bfl & H1 & (n & ips & (t & Ht & Hp) & H2) & H3 & H4)|(H1 & H)].
  - left. exists ip, bfl. split_and!; try (by destruct_and?); [|by apply Hs].
    exists n, ips. split; [|done]. exists t. split; [by apply Hs|done].
  - right. split; [done|]. destruct H as [H|[H|(bfl & H2 & H3)]]; auto. right. right. exists bfl. auto.
Qed.

Lemma getUserLocalIp_returned u tr r :
  runs (getUserLocalIp u) tr (Returned (Ok r)) ->
  match r with
  | Some ip => local_ip tr u ip
  | None => default "" (uo_Annotations u !! UserIndexAna) = ""
  end.
Proof.
  unfold getUserLocalIp. destruct (String.eqb_spec (default "" (uo_Annotations u !! UserIndexAna)) "") as [E|E]; intros H.
  - by ret_inv H.
  - apply runs_bind_returned in H as (tr1 & tr2 & text & -> & H1 & H). call_inv H1.
    destruct (ParseInt _) as [n|e] eqn:Ep; [|by apply runs_inv in H as [_ [=]]].
    destruct (subDNSSplit n) as [ips|] eqn:Es; [|by apply runs_inv in H as [_ [=]]].
    destruct (ips !! _) as [ip|] eqn:Ei; [|by apply runs_inv in H as [_ [=]]].
    ret_inv H. exists n, ips. split_and!; [|done..]. exists text. split; [left|done].
Qed.

Lemma user_views_returned master u tr v :
  runs (user_views master u) tr (Returned (Ok v)) -> user_share tr master u v.
Proof.
  unfold user_views. destruct (String.eqb_spec (zone_of u) "") as [E|Ez]; intros H.
  - ret_inv H. right. split; [done|]. by left.
  - apply runs_bind_ok_returned in H as (tr1 & tr2 & ip & -> & H1 & H). apply getUserLocalIp_returned in H1.
    destruct ip as [ip|].
    + apply runs_bind_ok_returned in H as (tr3 & tr4 & ing & -> & H2 & H).
      apply runs_bind_ok_returned in H2 as (tr5 & tr6 & bfl & -> & H2 & H3). call_inv H2. ret_inv H3.
      destruct H1 as (n & ips & (text & Ht & Hp) & H1).
      assert (Hbfl : ev (K8s (GetPod ("user-space-" +:+ uo_Name u) "bfl-0")) (Ok bfl) ∈
        tr1 ++ ([ev (K8s (GetPod ("user-space-" +:+ uo_Name u) "bfl-0")) (Ok bfl)] ++ []) ++ tr4) by set_solver.
      destruct (String.eqb_spec (pod_IP bfl) "") as [Ei|Ei]; ret_inv H.
      * right. split; [done|]. do 2 right. by exists bfl.
      * left. exists ip, bfl. split_and!; [done| |done|done|..].
        { exists n, ips. split; [|done]. exists text. split; [set_solver|done]. }
        all: by destruct (String.eqb master "").
    + ret_inv H. right. split; [done|]. by right; left.
Qed.

Lemma all_user_views_returned master users acc tr v :
  runs (fold_each (fun acc u => let? v := user_views master u in Ret (Ok (views_app acc v))) users acc) tr (Returned (Ok v)) ->
  exists vs, v = fold_left views_app vs acc /\ Forall2 (user_share tr master) users vs.
Proof.
  revert acc tr. induction users as [|u users IH]; intros acc tr H; cbn [fold_each] in H.
  - ret_inv H. by exists [].
  - apply runs_bind_ok_returned in H as (tr1 & tr2 & acc' & -> & H1 & H).
    apply runs_bind_ok_returned in H1 as (tr3 & tr4 & v1 & -> & H1 & H2). ret_inv H2.
    apply IH in H as (vs & -> & Hvs). apply user_views_returned in H1. exists (v1 :: vs). split; [done|].
    constructor.
    + eapply user_share_sub; [|exact H1]. set_solver.
    + eapply Forall2_impl; [exact Hvs|]. intros. eapply user_share_sub; [|done]. set_solver.
Qed.

(** ** The nodes and the shared entrances, as the run was told of them *)

Definition is_control_plane (n : Node) : Prop := is_Some (node_Labels n !! "node-role.kubernetes.io/control-plane").
Definition first_internal (n : Node) (ip : string) : Prop :=
  exists before after, node_Addresses n = before ++ ("InternalIP", ip) :: after /\
    Forall (fun a => fst a <> "InternalIP") before.
Definition may_be_master (n : Node) : Prop := is_control_plane n /\ exists ip, first_internal n ip.
(** The first internal address of the last control-plane node that has one. *)
Definition is_master_ip (nodes : list Node) (ip : string) : Prop :=
  (ip = "" /\ Forall (fun n => ~ may_be_master n) nodes) \/
  exists before n after, nodes = before ++ n :: after /\ is_control_plane n /\ first_internal n ip /\
    Forall (fun n => ~ may_be_master n) after.

Lemma internal_ip_spec n :
  match internal_ip n with Some ip => first_internal n ip | None => forall ip, ~ first_internal n ip end.
Proof.
  unfold internal_ip, first_internal. induction (node_Addresses n) as [|[k v] l IH].
  { by intros ip ([|a b] & c & [=] & _). }
  rewrite filter_cons. destruct (decide (fst (k, v) = "InternalIP")) as [E|E]; cbn in E; [subst k; by exists [], l|].
  destruct (head _) as [ip|].
  - destruct IH as (b & a & -> & Hb). exists ((k, v) :: b), a. split; [done|]. by constructor.
  - intros ip (b0 & a & Hl & Hb). destruct b0 as [|x b]; [by injection Hl as -> _ _|]. injection Hl as <- ->.
    inversion Hb; subst. by apply (IH ip); exists b, a.
Qed.
Lemma control_plane_spec n : control_plane n = true <-> is_control_plane n.
Proof. apply bool_decide_eq_true. Qed.
Lemma master_node_ip_spec nodes : is_master_ip nodes (master_node_ip nodes).
Proof.
  unfold master_node_ip. induction nodes as [|n nodes IH] using rev_ind; [left; by split|].
  rewrite fold_left_app. cbn [fold_left].
  assert (Hkeep : ~ may_be_master n -> is_master_ip (nodes ++ [n]) (fold_left (fun ip n => if control_plane n
    then default ip (internal_ip n) else ip) nodes "")).
  { intros Hn. destruct IH as [[-> IH]|(b & m & a & -> & Hc & Hf & IH)].
    - left. split; [done|]. apply Forall_app. by split; [|constructor].
    - right. exists b, m, (a ++ [n]). rewrite <- app_assoc. split_and!; try done. apply Forall_app. by split; [|constructor]. }
  pose proof (internal_ip_spec n) as Hi. destruct (control_plane n) eqn:E.
  - destruct (internal_ip n) as [ip|]; cbn.
    + right. exists nodes, n, []. split_and!; [done|by apply control_plane_spec|done|constructor].
    + apply Hkeep. intros [_ [ip Hip]]. by apply (Hi ip).
  - apply Hkeep. intros [Hc _]. apply control_plane_spec in Hc. congruence.
Qed.

(** The zone of the first user with its first label replaced. *)
Definition shared_domain (users : list UserObj) (zone : string) : Prop :=
  exists u us first domain, users = u :: us /\ zone_of u = first +:+ "." +:+ domain /\
    str_contains "." first = false /\ zone = "shared." +:+ domain.
Lemma shared_zone_spec users :
  match shared_zone users with Some zone => shared_domain users zone | None => forall zone, ~ shared_domain users zone end.
Proof.
  unfold shared_zone. destruct users as [|u us]; [by intros z (? & ? & ? & ? & [=] & _)|].
  assert (Hs : forall first domain, zone_of u = first +:+ "." +:+ domain -> str_contains "." first = false ->
    split_char "." (zone_of u) = first :: split_char "." domain).
  { intros f d -> Hf. by apply (split_char_app "." f d). }
  assert (Hno : (forall first domain, zone_of u = first +:+ "." +:+ domain -> str_contains "." first = false -> False) ->
    forall zone, ~ shared_domain (u :: us) zone).
  { intros H zone (u' & us' & f & d & [= <- <-] & E & Hf & _). by apply (H f d). }
  destruct (String.eqb_spec (zone_of u) "") as [E|E].
  { apply Hno. intros f d Hz Hf. rewrite E in Hz. by destruct f. }
  pose proof (join_split_char "." (zone_of u)) as Hj. pose proof (split_char_no_sep "." (zone_of u)) as Hns.
  destruct (split_char "." (zone_of u)) as [|first [|x rest]] eqn:Es.
  - by apply split_char_nonempty in Es.
  - apply Hno. intros f d Hz Hf. specialize (Hs f d Hz Hf). injection Hs as <- Hs.
    by apply eq_sym, split_char_nonempty in Hs.
  - exists u, us, first, (join "." (x :: rest)). inversion Hns; subst. split_and!; [done| |done|].
    + by rewrite <- Hj, join_cons.
    + by rewrite join_cons.
Qed.

(** Where an entrance of an application is looked for. *)
Record place : Set := mkPlace { pl_app : string; pl_index : nat; pl_namespace : string; pl_service : string }.
Definition shared_by (app : Application) (ns : NamespaceObj) : Prop :=
  let label k := default "" (nso_Labels ns !! k) in
  label "applications.app.bytetrade.io/name" = app_Name app /\ label "bytetrade.io/ns-shared" = "true" /\
  label "applications.app.bytetrade.io/install_user" = app_Owner app.
#[export] Instance shared_by_dec app ns : Decision (shared_by app ns).
Proof. unfold shared_by. cbv zeta. apply _. Defined.
Definition app_places (nsl : list NamespaceObj) (a : option Application) : list place :=
  match a with
  | None => []
  | Some app => concat (imap (fun i host => map (fun ns => mkPlace (app_Appid app) i (nso_Name ns) host)
                                              (base.filter (shared_by app) nsl)) (app_SharedEntrances app))
  end.

(** A service with an address is answered for under the application's
    abbreviation and the number of the entrance. *)
Definition shared_answer (MD5 : string -> string) (zone : string) (tr : history) (p : place) (ts : list Plugin) : Prop :=
  exists r, ev (K8s (GetService (pl_namespace p) (pl_service p))) r ∈ tr /\
    let name := String.substring 0 8 (MD5 (pl_app p +:+ "shared")) +:+ itoa (Z.of_nat (pl_index p)) in
    ts = match r with
         | Ok svc => if String.eqb (svc_ClusterIP svc) "" then []
                     else [a_record (name +:+ "." +:+ zone) (name +:+ ".?(" +:+ zone +:+ "\.)$") (svc_ClusterIP svc)]
         | Err _ => []
         end.
Definition shared_records (MD5 : string -> string) (tr : history) (users : list UserObj) (shared : list Plugin) : Prop :=
  (shared = [] /\ forall zone, ~ shared_domain users zone) \/
  exists zone apps nsl tss, shared_domain users zone /\
    ev (K8s ListApplications) (Ok apps) ∈ tr /\ ev (K8s ListNamespaces) (Ok nsl) ∈ tr /\
    Forall2 (shared_answer MD5 zone tr) (concat (map (app_places nsl) apps)) tss /\ shared = concat tss.

(** What a loop appended, piece by piece. *)
Definition gathers {P Y} (Q : history -> P -> list Y -> Prop) (tr : history) (ps : list P) (acc out : list Y) : Prop :=
  exists yss, out = acc ++ concat yss /\ Forall2 (Q tr) ps yss.
Lemma gathers_none {P Y} (Q : history -> P -> list Y -> Prop) tr acc : gathers Q tr [] acc acc.
Proof. exists []. cbn. by rewrite app_nil_r. Qed.
Lemma gathers_fold {X P Y} (Q : history -> P -> list Y -> Prop) (places : X -> list P) (body : list Y -> X -> io (list Y))
    l acc tr out :
  (forall tr tr' p ys, tr ⊆ tr' -> Q tr p ys -> Q tr' p ys) ->
  (forall acc x tr out, runs (body acc x) tr (Returned out) -> gathers Q tr (places x) acc out) ->
  runs (fold_all body l acc) tr (Returned out) -> gathers Q tr (concat (map places l)) acc out.
Proof.
  intros HQ Hb. revert acc tr. induction l as [|x l IH]; intros acc tr H; [ret_inv H; apply gathers_none|].
  apply runs_fold_all_cons in H as (tr1 & tr2 & s1 & -> & (y1 & -> & H1)%Hb & (y2 & -> & H2)%IH).
  exists (y1 ++ y2). split; [by rewrite concat_app, app_assoc|]. cbn [map concat]. apply Forall2_app.
  - eapply Forall2_impl; [exact H1|]. intros p ys. apply HQ. set_solver.
  - eapply Forall2_impl; [exact H2|]. intros p ys. apply HQ. set_solver.
Qed.
Lemma shared_answer_sub MD5 zone tr tr' p ts : tr ⊆ tr' -> shared_answer MD5 zone tr p ts -> shared_answer MD5 zone tr' p ts.
Proof. intros Hs (r & H & E). exists r. by split; [apply Hs|]. Qed.

Lemma shared_namespace_spec app ns : shared_namespace app ns = true <-> shared_by app ns.
Proof. unfold shared_namespace, shared_by. rewrite !andb_true_iff, !String.eqb_eq. naive_solver. Qed.
Lemma entrance_returned MD5 app zone nss acc ie tr out :
  runs (entrance_templates MD5 app zone nss acc ie) tr (Returned out) ->
  gathers (shared_answer MD5 zone) tr (map (fun ns => mkPlace (app_Appid app) (fst ie) (nso_Name ns) (snd ie)) nss) acc out.
Proof.
  intros H. replace (map _ nss) with (concat (map (fun ns => [mkPlace (app_Appid app) (fst ie) (nso_Name ns) (snd ie)]) nss))
    by (clear; induction nss as [|ns nss IH]; [done|cbn; by rewrite IH]).
  eapply gathers_fold; [apply shared_answer_sub| |exact H]. clear. intros acc ns tr out H. cbn beta in H.
  apply runs_bind_returned in H as (tr1 & tr2 & svc & -> & H1 & H). call_inv H1. ret_inv H.
  exists [match svc with Ok svc => if String.eqb (svc_ClusterIP svc) "" then []
    else [shared_template MD5 app (fst ie) zone (svc_ClusterIP svc)] | Err _ => [] end]. split.
  - destruct svc as [svc|e]; [|cbn; by rewrite app_nil_r]. destruct (String.eqb _ _); cbn; by rewrite ?app_nil_r.
  - constructor; [|constructor]. exists svc. split; [set_solver|]. done.
Qed.
Lemma app_returned MD5 zone nsl acc a tr out :
  runs (app_templates MD5 zone nsl acc a) tr (Returned out) ->
  gathers (shared_answer MD5 zone) tr (app_places nsl a) acc out.
Proof.
  destruct a as [app|]; cbn [app_templates app_places]; intros H; [|ret_inv H; apply gathers_none].
  rewrite (list_filter_iff _ (shared_by app)) in H by apply shared_namespace_spec.
  eapply gathers_fold in H; [|apply shared_answer_sub|intros; by eapply entrance_returned].
  by rewrite fmap_imap in H.
Qed.
Lemma shared_entrances_returned MD5 users tr shared :
  runs (shared_entrances MD5 users) tr (Returned (Ok shared)) -> shared_records MD5 tr users shared.
Proof.
  unfold shared_entrances. pose proof (shared_zone_spec users) as Hz. destruct (shared_zone users) as [zone|]; intros H.
  2: { left. by ret_inv H. }
  apply runs_bind_ok_returned in H as (tr1 & tr2 & apps & -> & H1 & H). call_inv H1.
  apply runs_bind_ok_returned in H as (tr3 & tr4 & nsl & -> & H1 & H). call_inv H1.
  apply runs_bind_returned in H as (tr5 & tr6 & plugins & -> & H1 & H). ret_inv H.
  eapply gathers_fold in H1; [|apply shared_answer_sub|intros; by eapply app_returned].
  destruct H1 as (tss & -> & H1). right. exists zone, apps, nsl, tss. split_and!; [done|set_solver|set_solver| |done].
  eapply Forall2_impl; [exact H1|]. intros p ts. apply shared_answer_sub. set_solver.
Qed.
Lemma shared_records_sub MD5 tr tr' users shared :
  tr ⊆ tr' -> shared_records MD5 tr users shared -> shared_records MD5 tr' users shared.
Proof.
  intros Hs [H|(zone & apps & nsl & tss & H1 & H2 & H3 & H4 & H5)]; [by left|]. right. exists zone, apps, nsl, tss.
  split_and!; [done|by apply Hs|by apply Hs| |done]. eapply Forall2_impl; [exact H4|]. intros p ts. by apply shared_answer_sub.
Qed.

(** The address of the first AdGuard pod, when its pods could be listed. *)
Definition adguard_at (tr : history) (ip : string) : Prop :=
  exists r, ev (K8s (ListPods "" "applications.app.bytetrade.io/name=adguardhome")) r ∈ tr /\
    ip = match r with Ok (p :: _) => pod_IP p | _ => "" end.

(** ** The file written *)

Definition server_view (name expr : string) : Plugin := mkPlugin "view" [name] [mkOption "expr" [expr]].
Definition from_cluster (adguard : string) : string :=
  if String.eqb adguard "" then "incidr(client_ip(), '10.233.0.0/16')"
  else "( incidr(client_ip(), '10.233.0.0/16') && client_ip() != '" +:+ adguard +:+ "' )".
Definition kept (p : Plugin) : Prop :=
  p_Name p ∈ ["errors"; "health"; "ready"; "kubernetes"; "prometheus"; "forward"; "cache"; "loop"; "reload"; "loadbalance"].
(** One server for the clients in the cluster (AdGuard apart), one for those of
    the VPN and the master node, one for the others. *)
Definition file_for (old : CServer) (master adguard : string) (vs : list views) (shared : list Plugin) : CoreFile :=
  let defaults := base.filter kept (cs_Plugins old) in
  [mkCServer (cs_DomPorts old)
     (server_view "incluster" (from_cluster adguard) :: defaults ++ concat (map v_incluster vs) ++ shared);
   mkCServer (cs_DomPorts old)
     (server_view "vpn" ("incidr(client_ip(), '100.64.0.0/16') || client_ip() == '" +:+ master +:+ "'")
        :: defaults ++ concat (map v_templates vs));
   mkCServer (cs_DomPorts old) (defaults ++ concat (map v_local vs) ++ concat (map v_localDomain vs))].

Lemma fold_views vs acc :
  fold_left views_app vs acc =
  mkViews (v_templates acc ++ concat (map v_templates vs)) (v_incluster acc ++ concat (map v_incluster vs))
    (v_local acc ++ concat (map v_local vs)) (v_localDomain acc ++ concat (map v_localDomain vs)).
Proof.
  revert acc. induction vs as [|v vs IH]; intros [a b c d]; cbn; [by rewrite !app_nil_r|].
  rewrite IH. cbn. by rewrite !app_assoc.
Qed.
Lemma new_servers_file vs shared master adguard old :
  new_servers (fold_left views_app vs views0) shared master adguard old = file_for old master adguard vs shared.
Proof.
  rewrite fold_views. unfold file_for, from_cluster, new_servers, incluster_expr. reflexivity.
Qed.

(** C22: A successful regeneration either found a Corefile without any server,
    and did nothing after reading it, or wrote, as its last call, the one it
    read with three servers in place of its own, made from its first server:
    for clients in the cluster, for VPN clients and the master node, and for the
    rest, each with the default plugins of the old server.  The VPN's has the
    records of the served users with their own addresses, the last one those
    with the master node's address, the cluster's those with their ingress's
    address and those of the shared entrances: one for each service that has an
    address, of each entrance of each application, in each namespace that is
    shared by that application.  All are in the order of the listings, and users
    are left out only for the reasons given. *)
Theorem RegenerateCorefile_exact MD5 parse print tr :
  runs (RegenerateCorefile MD5 parse print) tr (Returned (Ok tt)) ->
  exists cm calls, tr = ev (K8s (GetConfigMap "kube-system" "coredns")) (Ok cm) :: calls /\
  let data := match cm with Some m => default "" (m !! "Corefile") | None => "" end in
  (parse data = Ok [] /\ calls = []) \/
  exists old rest users nodes master adguard vs shared m before,
    parse data = Ok (old :: rest) /\ cm = Some m /\
    ev (K8s ListUsers) (Ok users) ∈ tr /\ ev (K8s ListNodes) (Ok nodes) ∈ tr /\
    is_master_ip nodes master /\ adguard_at tr adguard /\
    Forall2 (user_share tr master) users vs /\ shared_records MD5 tr users shared /\
    calls = before ++ [ev (K8s (UpdateConfigMap "kube-system" "coredns"
      (<["Corefile" := print (file_for old master adguard vs shared)]> m))) (Ok tt)].
Proof.
  intros (tr1 & tr2 & cm & -> & H1 & H)%runs_bind_ok_returned. call_inv H1. exists cm, tr2. split; [done|].
  cbn zeta in *. set (data := match cm with Some m => _ | None => _ end) in *.
  destruct (parse data) as [[|old rest]|e] eqn:Ep; [left; by ret_inv H| |by apply runs_inv in H as [_ [=]]].
  right. apply runs_bind_ok_returned in H as (tr3 & tr4 & users & -> & H1 & H). call_inv H1.
  apply runs_bind_ok_returned in H as (tr5 & tr6 & nodes & -> & H1 & H). call_inv H1.
  apply runs_bind_ok_returned in H as (tr7 & tr8 & v & -> & Hv & H). apply all_user_views_returned in Hv as (vs & -> & Hv).
  apply runs_bind_ok_returned in H as (tr9 & tr10 & shared & -> & Hs & H). apply shared_entrances_returned in Hs.
  apply runs_bind_returned in H as (tr11 & tr12 & adguard & -> & Ha & H).
  apply runs_bind_returned in Ha as (tr13 & tr14 & pods & -> & H1 & Ha). call_inv H1. ret_inv Ha.
  destruct cm as [m|]; cbn [set_key bind] in H; [|by apply runs_inv in H as [_ [=]]]. call_inv H.
  rewrite new_servers_file.
  eexists old, rest, users, nodes, (master_node_ip nodes), _, vs, shared, m,
    (ev (K8s ListUsers) (Ok users) :: ev (K8s ListNodes) (Ok nodes) :: tr7 ++ tr9 ++ [_]).
  split_and!; [done|done|set_solver|set_solver|apply master_node_ip_spec| | | |].
  - exists pods. split; [|reflexivity]. set_solver.
  - eapply Forall2_impl; [exact Hv|]. intros. eapply user_share_sub; [|done]. set_solver.
  - eapply shared_records_sub; [|exact Hs]. set_solver.
  - cbn. by rewrite <- !app_assoc.
Qed.

(** ** The properties on a concrete cluster *)

Definition demo_md5 (s : string) : string := "0123456789abcdef0123456789abcdef".
Definition demo_server : CServer :=
  mkCServer [".:53"] [mkPlugin "errors" [] []; mkPlugin "hosts" ["/node-etc/hosts"] []; mkPlugin "cache" ["30"] []].
Definition demo_parse (s : string) : res CoreFile := Ok [demo_server].
Definition demo_print (f : CoreFile) : string := itoa (Z.of_nat (length (concat (map cs_Plugins f)))).
Definition demo_user (name zone index : string) : UserObj :=
  mkUserObj name (list_to_map [(UserAnnotationZoneKey, zone); (UserIndexAna, index)]).
Definition dns_world (o : op) : resp o :=
  match o return resp o with
  | K8s (GetConfigMap _ _) => Ok (Some {["Corefile" := ".:53 { errors }"]})
  | K8s ListUsers => Ok [demo_user "alice" "alice.olares.cn" "0"; demo_user "bob" "" ""; demo_user "carol" "carol.olares.cn" "3"]
  | K8s ListNodes => Ok [mkNode {["node-role.kubernetes.io/control-plane" := ""]} [("Hostname", "n1"); ("InternalIP", "192.168.1.2")]]
  | K8s (GetPod ns name) => Ok (mkPod name ns "Running" [] "10.233.1.7" [])
  | K8s ListApplications => Ok [Some (mkApplication "chat" "a1" "alice" ["chat-svc"]); None]
  | K8s ListNamespaces => Ok [mkNamespaceObj "chat-shared" (list_to_map
      [("applications.app.bytetrade.io/name", "chat"); ("bytetrade.io/ns-shared", "true");
       ("applications.app.bytetrade.io/install_user", "alice")])]
  | K8s (GetService ns name) => Ok (mkService name ns "10.96.0.9" ∅ [])
  | K8s (ListPods _ _) => Ok []
  | K8s (UpdateConfigMap _ _ _) => Ok tt
  | Sys (Getenv _) => ""
  | o => unavailable o
  end.
Definition demo_regenerate : io (res unit) := RegenerateCorefile demo_md5 demo_parse demo_print.

Lemma subDNSSplit_exact_witness :
  exists m k, subDNSSplit 1000 = Some m /\ (0 <= k <= 21)%Z /\ (1000 <= 2 ^ k < 2 * 1000)%Z /\
    (forall key ip, m !! key = Some ip -> exists i, (0 <= i < 2 ^ k)%Z /\ key = itoa i) /\
    (forall i, (0 <= i < 2 ^ k)%Z -> exists ip, m !! itoa i = Some ip /\ wf_IP ip /\
       IP_value ip = (IP_value dns_base + i * 2 ^ (22 - k) + 1)%Z /\
       (IP_value dns_base < IP_value ip < IP_value dns_base + 2 ^ 22)%Z).
Proof. apply (subDNSSplit_exact 1000). lia. Defined.

Definition alice_views : views :=
  mkViews (user_templates "alice.olares.cn" "100.64.0.1") (user_templates "alice.olares.cn" "10.233.1.7") [] [].
Lemma regenerate_forgets_witness :
  exists s rest, new_servers alice_views [] "" "" demo_server = s :: rest /\
    new_servers views0 [] "" "" s = new_servers views0 [] "" "" demo_server.
Proof.
  eexists _, _. split; [reflexivity|].
  eapply (regenerate_forgets alice_views [] "" "" views0 [] "" "" demo_server); [|reflexivity].
  repeat constructor.
Defined.

Lemma RegenerateCorefile_exact_witness :
  out_in dns_world demo_regenerate = Returned (Ok tt) /\
  exists cm calls, trace_in dns_world demo_regenerate = ev (K8s (GetConfigMap "kube-system" "coredns")) (Ok cm) :: calls.
Proof.
  assert (E : out_in dns_world demo_regenerate = Returned (Ok tt)) by (vm_compute; reflexivity).
  split; [exact E|].
  destruct (RegenerateCorefile_exact demo_md5 demo_parse demo_print _ (runs_in_to dns_world demo_regenerate _ E))
    as (cm & calls & Ht & _).
  exists cm, calls. exact Ht.
Defined.
