(* ===== verification/CorefileEdit.v ===== *)
(** * Editing one user's templates in a Corefile

    [UpsertCorefile] and [RemoveTemplateFromCorefile] of
    src/cmd/sys-event/watchers/corefile.go: both parse the text, change the
    plugins of its only server, and print it again.  As in [Corefile], the parser
    and the printer are parameters. *)

From S2P Require Import Prelude Effects Apr World Corefile.

(** The template's kind and zone, for the plugins both functions look at. *)
Definition template_of (p : Plugin) : option (string * string) :=
  if String.eqb (p_Name p) "template"
  then match p_Args p with [_; kind; zone] => Some (kind, zone) | _ => None end
  else None.

(** The parser has split quoted arguments at the blanks: they are put together
    and quoted again. *)
Definition fix_option (o : Option_) : Option_ :=
  if (String.eqb (o_Name o) "match" || String.eqb (o_Name o) "answer")%bool
  then mkOption (o_Name o) [quoted (String.concat " " (o_Args o))]
  else o.

(** One round of the loop over the plugins. *)
Definition upsert_plugin (userzone ip : string) (p : Plugin) : Plugin :=
  match template_of p with
  | None => p
  | Some (kind, zone) =>
      if (String.eqb zone userzone && String.eqb kind "A")%bool
      then mkPlugin (p_Name p) (p_Args p) (a_options (match_pattern userzone) ip)
      else if (String.eqb zone userzone && String.eqb kind "ANY")%bool
      then mkPlugin (p_Name p) (p_Args p) any_options
      else mkPlugin (p_Name p) (p_Args p) (map fix_option (p_Options p))
  end.

(** [found]. *)
Definition answers_zone (userzone : string) (p : Plugin) : bool :=
  bool_decide (template_of p = Some ("A", userzone)).

Definition upsert_plugins (userzone ip : string) (ps : list Plugin) : list Plugin :=
  map (upsert_plugin userzone ip) ps ++
  (if existsb (answers_zone userzone) ps then [] else user_templates userzone ip).

(** Of the templates with three arguments the loop appends none. *)
Definition remove_templates (ps : list Plugin) : list Plugin :=
  base.filter (fun p => template_of p = None) ps.

Section Edit.
  Context (parse : string -> res CoreFile) (print : CoreFile -> string).

Definition edit_corefile (edit : list Plugin -> list Plugin) (data : string) : res string :=
  match parse data with
  | Err e => Err e
  | Ok [s] => Ok (print [mkCServer (cs_DomPorts s) (edit (cs_Plugins s))])
  | Ok _ => Ok data
  end.
Definition UpsertCorefile (data userzone ip : string) : res string :=
  edit_corefile (upsert_plugins userzone ip) data.
Definition RemoveTemplateFromCorefile (data userzone : string) : res string :=
  edit_corefile remove_templates data.
End Edit.

(** ** What the edits do *)

Lemma template_of_upsert userzone ip p : template_of (upsert_plugin userzone ip p) = template_of p.
Proof.
  unfold upsert_plugin. destruct (template_of p) as [[kind zone]|] eqn:E; [|exact E].
  destruct (_ && _)%bool; [exact E|]. destruct (_ && _)%bool; exact E.
Qed.
Lemma template_of_user userzone ip p :
  p ∈ user_templates userzone ip -> exists kind, template_of p = Some (kind, userzone).
Proof. unfold user_templates. intros [->|[->|[]%elem_of_nil]%elem_of_cons]%elem_of_cons; eauto. Qed.
Lemma upsert_plugin_user userzone ip p :
  template_of p = Some ("A", userzone) ->
  p_Options (upsert_plugin userzone ip p) = a_options (match_pattern userzone) ip.
Proof. intros E. unfold upsert_plugin. by rewrite E, !String.eqb_refl. Qed.

(** Putting an argument back together happens once: a single argument is only
    quoted again. *)
Lemma fix_option_names o : o_Name (fix_option o) = o_Name o.
Proof. unfold fix_option. by case_match. Qed.

(** After an upsert every address template of the zone answers with the new
    address, there is at least one, and the plugins that are no templates with
    three arguments are those of before, in their order. *)
Theorem UpsertCorefile_exact parse print data userzone ip text :
  UpsertCorefile parse print data userzone ip = Ok text ->
  (exists f, parse data = Ok f /\ length f <> 1 /\ text = data) \/
  exists s ps, parse data = Ok [s] /\ text = print [mkCServer (cs_DomPorts s) ps] /\
    (exists p, p ∈ ps /\ template_of p = Some ("A", userzone)) /\
    (forall p, p ∈ ps -> template_of p = Some ("A", userzone) ->
       p_Options p = a_options (match_pattern userzone) ip) /\
    remove_templates ps = remove_templates (cs_Plugins s).
Proof.
  unfold UpsertCorefile, edit_corefile. destruct (parse data) as [[|s [|s2 rest]]|e] eqn:E; intros [= <-].
  - left. by exists [].
  - right. exists s, (upsert_plugins userzone ip (cs_Plugins s)). split_and!; [done..| | |].
    + unfold upsert_plugins. destruct (existsb _ _) eqn:F.
      * apply existsb_exists in F as (p & Hp%list_elem_of_In & Ht%bool_decide_eq_true).
        exists (upsert_plugin userzone ip p). rewrite app_nil_r, template_of_upsert.
        split; [by apply list_elem_of_fmap_2|done].
      * exists (mkPlugin "template" ["IN"; "A"; userzone] (a_options (match_pattern userzone) ip)).
        split; [|done]. apply elem_of_app. right. by constructor.
    + intros p [(q & -> & Hq)%list_elem_of_fmap|Hp]%elem_of_app Ht.
      * rewrite template_of_upsert in Ht. by apply upsert_plugin_user.
      * destruct (existsb _ _); [by apply elem_of_nil in Hp|]. unfold user_templates in Hp.
        by apply elem_of_cons in Hp as [->|[->|[]%elem_of_nil]%elem_of_cons].
    + unfold remove_templates, upsert_plugins. rewrite filter_app.
      assert (base.filter (fun p => template_of p = None)
                (if existsb (answers_zone userzone) (cs_Plugins s) then [] else user_templates userzone ip) = []) as ->.
      { by case_match. }
      rewrite app_nil_r. induction (cs_Plugins s) as [|p ps IH]; [done|]. cbn [map].
      rewrite !filter_cons, template_of_upsert, IH. destruct (decide _) as [H|]; [|done].
      unfold upsert_plugin. by rewrite H.
  - left. by exists (s :: s2 :: rest).
Qed.

(** Removing one user's templates removes the templates of all of them. *)
Theorem RemoveTemplate_removes_everyones parse print data userzone text :
  RemoveTemplateFromCorefile parse print data userzone = Ok text ->
  forall s, parse data = Ok [s] ->
  text = print [mkCServer (cs_DomPorts s) (remove_templates (cs_Plugins s))] /\
  forall p, p ∈ remove_templates (cs_Plugins s) <-> p ∈ cs_Plugins s /\ template_of p = None.
Proof.
  intros H s E. unfold RemoveTemplateFromCorefile, edit_corefile in H. rewrite E in H. injection H as <-.
  split; [done|]. intros p. unfold remove_templates. rewrite list_elem_of_filter. tauto.
Qed.
